(** * VirtualListView: a shallow embedding of the virtualized list view

    The development follows [VirtualListView.tsx] (the vertical list; the
    horizontal list [VirtualListViewHorizontal] is the same program with
    height/top read as width/left, and differs only in which argument of
    the scroll callback is the primary axis, see [Axis]).

    - JavaScript numbers that hold pixel quantities are rationals [Q];
      [===] on them is [Qeq_bool], the orders are [Qle_bool] and [Qlt_bool].
      The source computes on IEEE doubles, where [+], [-] and [*] round:
      the theorems read a sum or a difference as the expression the code
      evaluates, and use of the arithmetic only the order and what the
      guards of the code decide. No theorem states that two different
      ways of adding heights up agree, which rounding does not keep.
    - Item counts and indices are integers [Z] ([0 - 1] is [-1], as in the
      source, which calls [_calcHeightOfItems (props, 0, -1)]).
    - [Map<string, T>] is [gmap string T], [Set<string>] is [gset string],
      arrays are lists.
    - The class fields are the fields of [Instance]; methods are
      computations in the monad [M] that threads the instance, records the
      calls made to the outside (force-update, caller callbacks, the
      animated container value, deferred continuations) and may throw.
    - A cell object is referenced from one place at a time: it is either
      the value stored under one key of [_activeCells] or one entry of
      [_recycledCells] ([_recycleCell] moves it from the first to the second,
      [_allocateCell] from the second to the first). In-place mutation of a
      cell is therefore an update of the container entry that holds it. *)

From Stdlib Require Import ZArith QArith Qminmax Qabs Lia Lqa.
From stdpp Require Import base gmap strings list pretty.

Local Open Scope Z_scope.

(** ** Numbers *)

Definition Qlt_bool (a b : Q) : bool := negb (Qle_bool b a).

(** ** Item descriptors and props *)

(** [VirtualListViewItemInfo]. Optional fields are options; they are read
    through their truthiness, and compared by [_.isEqual]. *)
Record ItemInfo := mkItem {
  key : string;
  height : Q;
  measureHeight : option bool;
  template : option string;
  isNavigable : option bool
}.

Definition truthy_bool (o : option bool) : bool := default false o.

Definition truthy_string (o : option string) : bool :=
  match o with
  | Some s => negb (String.eqb s "")
  | None => false
  end.

(** [_.isEqual] on two item descriptors: field by field, numbers by value. *)
Definition ItemInfo_isEqual (a b : ItemInfo) : bool :=
  String.eqb (key a) (key b) && Qeq_bool (height a) (height b)
  && bool_decide (measureHeight a = measureHeight b)
  && bool_decide (template a = template b)
  && bool_decide (isNavigable a = isNavigable b).

(** [_.isEqual (oldItem, item)] where [oldItem] may be [undefined]. *)
Definition isEqual_item (a b : option ItemInfo) : bool :=
  match a, b with
  | Some x, Some y => ItemInfo_isEqual x y
  | None, None => true
  | _, _ => false
  end.

Fixpoint isEqual_itemList (l1 l2 : list ItemInfo) : bool :=
  match l1, l2 with
  | [], [] => true
  | x :: l1', y :: l2' => ItemInfo_isEqual x y && isEqual_itemList l1' l2'
  | _, _ => false
  end.

(** [VirtualListViewProps]: the fields the list logic reads. A callback
    prop is the flag "the caller supplied it"; calling it is an [Event]. *)
Record Props := mkProps {
  itemList : list ItemInfo;
  padding : Q;
  animateChanges : bool;
  skipRenderIfItemUnchanged : bool;
  initialSelectedKey : option string;
  keyboardFocusScrollOffset : Q;
  logInfo : bool;
  onScroll : bool;
  onLayout : bool
}.

(** [props.itemList[i]]: [undefined] outside the array. *)
Definition item_at (l : list ItemInfo) (i : Z) : option ItemInfo :=
  if bool_decide (0 <= i) then l !! Z.to_nat i else None.

Definition itemList_length (props : Props) : Z := Z.of_nat (length (itemList props)).

(** ** Cells *)

(** [VirtualCellInfo] without [cellRef], the handle of the mounted cell
    component: the calls made through it ([setVisibility], [setTop],
    [setItemKey], [focus]) act on the rendering substrate and change no
    field of the list view. *)
Record VirtualCellInfo := mkCell {
  virtualKey : string;
  itemTemplate : option string;
  isHeightConstant : bool;
  cell_height : Q;
  cachedItemKey : string;
  top : Q;
  isVisible : bool;
  shouldUpdate : bool
}.

Definition cell_setTopAndVisibility (v : bool) (t : Q) (c : VirtualCellInfo) : VirtualCellInfo :=
  mkCell (virtualKey c) (itemTemplate c) (isHeightConstant c) (cell_height c)
         (cachedItemKey c) t v (shouldUpdate c).

Definition cell_setShouldUpdate (u : bool) (c : VirtualCellInfo) : VirtualCellInfo :=
  mkCell (virtualKey c) (itemTemplate c) (isHeightConstant c) (cell_height c)
         (cachedItemKey c) (top c) (isVisible c) u.

Inductive FocusDirection := Up | Down.

Definition FocusDirection_value (d : FocusDirection) : Z :=
  match d with Up => -1 | Down => 1 end.

Inductive PlatformType := android | ios | macos | web | windows.

Definition _isNativeAndroid (p : PlatformType) : bool :=
  match p with android => true | _ => false end.
Definition _isNativeIOS (p : PlatformType) : bool :=
  match p with ios => true | _ => false end.

Definition _maxSimultaneousMeasures : nat := 16.
Definition _maxRecycledCells_default : Z := 50.
Definition _maxRecycledCellsForAccessibility : Z := 0.
Definition _virtualKeyPrefix : string := "vc_".

(** ** The component instance

    The fields of the class, with [lastFocusedItemKey] of [this.state].
    [_scrollViewRef] is [true] when [_scrollViewRef.current] is set, that
    is, while the scroll view is mounted. *)

Set Primitive Projections.
Record Instance := mkInstance {
  _lastScrollTop : Q;
  _layoutHeight : Q;
  _layoutWidth : Q;
  _contentWidth : Q;
  _isMounted : bool;
  _containerHeight : Q;
  _itemMap : gmap string Z;
  _isRenderDirty : bool;
  _pendingAnimations : gset string;
  _heightAboveRenderAdjustment : Q;
  _heightAboveRenderBlock : Q;
  _heightOfRenderBlock : Q;
  _heightBelowRenderBlock : Q;
  _itemsAboveRenderBlock : Z;
  _itemsInRenderBlock : Z;
  _itemsBelowRenderBlock : Z;
  _pendingMeasurements : gset string;
  _isInitialFillComplete : bool;
  _heightCache : gmap string Q;
  _nextCellKey : N;
  _activeCells : gmap string VirtualCellInfo;
  _recycledCells : list VirtualCellInfo;
  _navigatableItemsRendered : list (string * string);
  _pendingFocusDirection : option FocusDirection;
  _maxRecycledCells : Z;
  _isScreenReaderEnabled : bool;
  _renderOverdrawFactor : Q;
  _minOverdrawAmount : Q;
  _maxOverdrawAmount : Q;
  _cullFraction : Q;
  _minCullAmount : Q;
  lastFocusedItemKey : option string;
  _scrollViewRef : bool
}.

Definition set_lastScrollTop (v : Q) (s : Instance) : Instance :=
  let 'mkInstance x0 x1 x2 x3 x4 x5 x6 x7 x8 x9 x10 x11 x12 x13 x14 x15 x16 x17 x18 x19 x20 x21
      x22 x23 x24 x25 x26 x27 x28 x29 x30 x31 x32 := s in
  mkInstance v x1 x2 x3 x4 x5 x6 x7 x8 x9 x10 x11 x12 x13 x14 x15 x16 x17 x18 x19 x20 x21 x22
      x23 x24 x25 x26 x27 x28 x29 x30 x31 x32.
Definition set_layoutHeight (v : Q) (s : Instance) : Instance :=
  let 'mkInstance x0 x1 x2 x3 x4 x5 x6 x7 x8 x9 x10 x11 x12 x13 x14 x15 x16 x17 x18 x19 x20 x21
      x22 x23 x24 x25 x26 x27 x28 x29 x30 x31 x32 := s in
  mkInstance x0 v x2 x3 x4 x5 x6 x7 x8 x9 x10 x11 x12 x13 x14 x15 x16 x17 x18 x19 x20 x21 x22
      x23 x24 x25 x26 x27 x28 x29 x30 x31 x32.
Definition set_layoutWidth (v : Q) (s : Instance) : Instance :=
  let 'mkInstance x0 x1 x2 x3 x4 x5 x6 x7 x8 x9 x10 x11 x12 x13 x14 x15 x16 x17 x18 x19 x20 x21
      x22 x23 x24 x25 x26 x27 x28 x29 x30 x31 x32 := s in
  mkInstance x0 x1 v x3 x4 x5 x6 x7 x8 x9 x10 x11 x12 x13 x14 x15 x16 x17 x18 x19 x20 x21 x22
      x23 x24 x25 x26 x27 x28 x29 x30 x31 x32.
Definition set_contentWidth (v : Q) (s : Instance) : Instance :=
  let 'mkInstance x0 x1 x2 x3 x4 x5 x6 x7 x8 x9 x10 x11 x12 x13 x14 x15 x16 x17 x18 x19 x20 x21
      x22 x23 x24 x25 x26 x27 x28 x29 x30 x31 x32 := s in
  mkInstance x0 x1 x2 v x4 x5 x6 x7 x8 x9 x10 x11 x12 x13 x14 x15 x16 x17 x18 x19 x20 x21 x22
      x23 x24 x25 x26 x27 x28 x29 x30 x31 x32.
Definition set_isMounted (v : bool) (s : Instance) : Instance :=
  let 'mkInstance x0 x1 x2 x3 x4 x5 x6 x7 x8 x9 x10 x11 x12 x13 x14 x15 x16 x17 x18 x19 x20 x21
      x22 x23 x24 x25 x26 x27 x28 x29 x30 x31 x32 := s in
  mkInstance x0 x1 x2 x3 v x5 x6 x7 x8 x9 x10 x11 x12 x13 x14 x15 x16 x17 x18 x19 x20 x21 x22
      x23 x24 x25 x26 x27 x28 x29 x30 x31 x32.
Definition set_containerHeight (v : Q) (s : Instance) : Instance :=
  let 'mkInstance x0 x1 x2 x3 x4 x5 x6 x7 x8 x9 x10 x11 x12 x13 x14 x15 x16 x17 x18 x19 x20 x21
      x22 x23 x24 x25 x26 x27 x28 x29 x30 x31 x32 := s in
  mkInstance x0 x1 x2 x3 x4 v x6 x7 x8 x9 x10 x11 x12 x13 x14 x15 x16 x17 x18 x19 x20 x21 x22
      x23 x24 x25 x26 x27 x28 x29 x30 x31 x32.
Definition set_itemMap (v : gmap string Z) (s : Instance) : Instance :=
  let 'mkInstance x0 x1 x2 x3 x4 x5 x6 x7 x8 x9 x10 x11 x12 x13 x14 x15 x16 x17 x18 x19 x20 x21
      x22 x23 x24 x25 x26 x27 x28 x29 x30 x31 x32 := s in
  mkInstance x0 x1 x2 x3 x4 x5 v x7 x8 x9 x10 x11 x12 x13 x14 x15 x16 x17 x18 x19 x20 x21 x22
      x23 x24 x25 x26 x27 x28 x29 x30 x31 x32.
Definition set_isRenderDirty (v : bool) (s : Instance) : Instance :=
  let 'mkInstance x0 x1 x2 x3 x4 x5 x6 x7 x8 x9 x10 x11 x12 x13 x14 x15 x16 x17 x18 x19 x20 x21
      x22 x23 x24 x25 x26 x27 x28 x29 x30 x31 x32 := s in
  mkInstance x0 x1 x2 x3 x4 x5 x6 v x8 x9 x10 x11 x12 x13 x14 x15 x16 x17 x18 x19 x20 x21 x22
      x23 x24 x25 x26 x27 x28 x29 x30 x31 x32.
Definition set_pendingAnimations (v : gset string) (s : Instance) : Instance :=
  let 'mkInstance x0 x1 x2 x3 x4 x5 x6 x7 x8 x9 x10 x11 x12 x13 x14 x15 x16 x17 x18 x19 x20 x21
      x22 x23 x24 x25 x26 x27 x28 x29 x30 x31 x32 := s in
  mkInstance x0 x1 x2 x3 x4 x5 x6 x7 v x9 x10 x11 x12 x13 x14 x15 x16 x17 x18 x19 x20 x21 x22
      x23 x24 x25 x26 x27 x28 x29 x30 x31 x32.
Definition set_heightAboveRenderAdjustment (v : Q) (s : Instance) : Instance :=
  let 'mkInstance x0 x1 x2 x3 x4 x5 x6 x7 x8 x9 x10 x11 x12 x13 x14 x15 x16 x17 x18 x19 x20 x21
      x22 x23 x24 x25 x26 x27 x28 x29 x30 x31 x32 := s in
  mkInstance x0 x1 x2 x3 x4 x5 x6 x7 x8 v x10 x11 x12 x13 x14 x15 x16 x17 x18 x19 x20 x21 x22
      x23 x24 x25 x26 x27 x28 x29 x30 x31 x32.
Definition set_heightAboveRenderBlock (v : Q) (s : Instance) : Instance :=
  let 'mkInstance x0 x1 x2 x3 x4 x5 x6 x7 x8 x9 x10 x11 x12 x13 x14 x15 x16 x17 x18 x19 x20 x21
      x22 x23 x24 x25 x26 x27 x28 x29 x30 x31 x32 := s in
  mkInstance x0 x1 x2 x3 x4 x5 x6 x7 x8 x9 v x11 x12 x13 x14 x15 x16 x17 x18 x19 x20 x21 x22 x23
      x24 x25 x26 x27 x28 x29 x30 x31 x32.
Definition set_heightOfRenderBlock (v : Q) (s : Instance) : Instance :=
  let 'mkInstance x0 x1 x2 x3 x4 x5 x6 x7 x8 x9 x10 x11 x12 x13 x14 x15 x16 x17 x18 x19 x20 x21
      x22 x23 x24 x25 x26 x27 x28 x29 x30 x31 x32 := s in
  mkInstance x0 x1 x2 x3 x4 x5 x6 x7 x8 x9 x10 v x12 x13 x14 x15 x16 x17 x18 x19 x20 x21 x22 x23
      x24 x25 x26 x27 x28 x29 x30 x31 x32.
Definition set_heightBelowRenderBlock (v : Q) (s : Instance) : Instance :=
  let 'mkInstance x0 x1 x2 x3 x4 x5 x6 x7 x8 x9 x10 x11 x12 x13 x14 x15 x16 x17 x18 x19 x20 x21
      x22 x23 x24 x25 x26 x27 x28 x29 x30 x31 x32 := s in
  mkInstance x0 x1 x2 x3 x4 x5 x6 x7 x8 x9 x10 x11 v x13 x14 x15 x16 x17 x18 x19 x20 x21 x22 x23
      x24 x25 x26 x27 x28 x29 x30 x31 x32.
Definition set_itemsAboveRenderBlock (v : Z) (s : Instance) : Instance :=
  let 'mkInstance x0 x1 x2 x3 x4 x5 x6 x7 x8 x9 x10 x11 x12 x13 x14 x15 x16 x17 x18 x19 x20 x21
      x22 x23 x24 x25 x26 x27 x28 x29 x30 x31 x32 := s in
  mkInstance x0 x1 x2 x3 x4 x5 x6 x7 x8 x9 x10 x11 x12 v x14 x15 x16 x17 x18 x19 x20 x21 x22 x23
      x24 x25 x26 x27 x28 x29 x30 x31 x32.
Definition set_itemsInRenderBlock (v : Z) (s : Instance) : Instance :=
  let 'mkInstance x0 x1 x2 x3 x4 x5 x6 x7 x8 x9 x10 x11 x12 x13 x14 x15 x16 x17 x18 x19 x20 x21
      x22 x23 x24 x25 x26 x27 x28 x29 x30 x31 x32 := s in
  mkInstance x0 x1 x2 x3 x4 x5 x6 x7 x8 x9 x10 x11 x12 x13 v x15 x16 x17 x18 x19 x20 x21 x22 x23
      x24 x25 x26 x27 x28 x29 x30 x31 x32.
Definition set_itemsBelowRenderBlock (v : Z) (s : Instance) : Instance :=
  let 'mkInstance x0 x1 x2 x3 x4 x5 x6 x7 x8 x9 x10 x11 x12 x13 x14 x15 x16 x17 x18 x19 x20 x21
      x22 x23 x24 x25 x26 x27 x28 x29 x30 x31 x32 := s in
  mkInstance x0 x1 x2 x3 x4 x5 x6 x7 x8 x9 x10 x11 x12 x13 x14 v x16 x17 x18 x19 x20 x21 x22 x23
      x24 x25 x26 x27 x28 x29 x30 x31 x32.
Definition set_pendingMeasurements (v : gset string) (s : Instance) : Instance :=
  let 'mkInstance x0 x1 x2 x3 x4 x5 x6 x7 x8 x9 x10 x11 x12 x13 x14 x15 x16 x17 x18 x19 x20 x21
      x22 x23 x24 x25 x26 x27 x28 x29 x30 x31 x32 := s in
  mkInstance x0 x1 x2 x3 x4 x5 x6 x7 x8 x9 x10 x11 x12 x13 x14 x15 v x17 x18 x19 x20 x21 x22 x23
      x24 x25 x26 x27 x28 x29 x30 x31 x32.
Definition set_isInitialFillComplete (v : bool) (s : Instance) : Instance :=
  let 'mkInstance x0 x1 x2 x3 x4 x5 x6 x7 x8 x9 x10 x11 x12 x13 x14 x15 x16 x17 x18 x19 x20 x21
      x22 x23 x24 x25 x26 x27 x28 x29 x30 x31 x32 := s in
  mkInstance x0 x1 x2 x3 x4 x5 x6 x7 x8 x9 x10 x11 x12 x13 x14 x15 x16 v x18 x19 x20 x21 x22 x23
      x24 x25 x26 x27 x28 x29 x30 x31 x32.
Definition set_heightCache (v : gmap string Q) (s : Instance) : Instance :=
  let 'mkInstance x0 x1 x2 x3 x4 x5 x6 x7 x8 x9 x10 x11 x12 x13 x14 x15 x16 x17 x18 x19 x20 x21
      x22 x23 x24 x25 x26 x27 x28 x29 x30 x31 x32 := s in
  mkInstance x0 x1 x2 x3 x4 x5 x6 x7 x8 x9 x10 x11 x12 x13 x14 x15 x16 x17 v x19 x20 x21 x22 x23
      x24 x25 x26 x27 x28 x29 x30 x31 x32.
Definition set_nextCellKey (v : N) (s : Instance) : Instance :=
  let 'mkInstance x0 x1 x2 x3 x4 x5 x6 x7 x8 x9 x10 x11 x12 x13 x14 x15 x16 x17 x18 x19 x20 x21
      x22 x23 x24 x25 x26 x27 x28 x29 x30 x31 x32 := s in
  mkInstance x0 x1 x2 x3 x4 x5 x6 x7 x8 x9 x10 x11 x12 x13 x14 x15 x16 x17 x18 v x20 x21 x22 x23
      x24 x25 x26 x27 x28 x29 x30 x31 x32.
Definition set_activeCells (v : gmap string VirtualCellInfo) (s : Instance) : Instance :=
  let 'mkInstance x0 x1 x2 x3 x4 x5 x6 x7 x8 x9 x10 x11 x12 x13 x14 x15 x16 x17 x18 x19 x20 x21
      x22 x23 x24 x25 x26 x27 x28 x29 x30 x31 x32 := s in
  mkInstance x0 x1 x2 x3 x4 x5 x6 x7 x8 x9 x10 x11 x12 x13 x14 x15 x16 x17 x18 x19 v x21 x22 x23
      x24 x25 x26 x27 x28 x29 x30 x31 x32.
Definition set_recycledCells (v : list VirtualCellInfo) (s : Instance) : Instance :=
  let 'mkInstance x0 x1 x2 x3 x4 x5 x6 x7 x8 x9 x10 x11 x12 x13 x14 x15 x16 x17 x18 x19 x20 x21
      x22 x23 x24 x25 x26 x27 x28 x29 x30 x31 x32 := s in
  mkInstance x0 x1 x2 x3 x4 x5 x6 x7 x8 x9 x10 x11 x12 x13 x14 x15 x16 x17 x18 x19 x20 v x22 x23
      x24 x25 x26 x27 x28 x29 x30 x31 x32.
Definition set_navigatableItemsRendered (v : list (string * string)) (s : Instance) : Instance :=
  let 'mkInstance x0 x1 x2 x3 x4 x5 x6 x7 x8 x9 x10 x11 x12 x13 x14 x15 x16 x17 x18 x19 x20 x21
      x22 x23 x24 x25 x26 x27 x28 x29 x30 x31 x32 := s in
  mkInstance x0 x1 x2 x3 x4 x5 x6 x7 x8 x9 x10 x11 x12 x13 x14 x15 x16 x17 x18 x19 x20 x21 v x23
      x24 x25 x26 x27 x28 x29 x30 x31 x32.
Definition set_pendingFocusDirection (v : option FocusDirection) (s : Instance) : Instance :=
  let 'mkInstance x0 x1 x2 x3 x4 x5 x6 x7 x8 x9 x10 x11 x12 x13 x14 x15 x16 x17 x18 x19 x20 x21
      x22 x23 x24 x25 x26 x27 x28 x29 x30 x31 x32 := s in
  mkInstance x0 x1 x2 x3 x4 x5 x6 x7 x8 x9 x10 x11 x12 x13 x14 x15 x16 x17 x18 x19 x20 x21 x22 v
      x24 x25 x26 x27 x28 x29 x30 x31 x32.
Definition set_maxRecycledCells (v : Z) (s : Instance) : Instance :=
  let 'mkInstance x0 x1 x2 x3 x4 x5 x6 x7 x8 x9 x10 x11 x12 x13 x14 x15 x16 x17 x18 x19 x20 x21
      x22 x23 x24 x25 x26 x27 x28 x29 x30 x31 x32 := s in
  mkInstance x0 x1 x2 x3 x4 x5 x6 x7 x8 x9 x10 x11 x12 x13 x14 x15 x16 x17 x18 x19 x20 x21 x22
      x23 v x25 x26 x27 x28 x29 x30 x31 x32.
Definition set_isScreenReaderEnabled (v : bool) (s : Instance) : Instance :=
  let 'mkInstance x0 x1 x2 x3 x4 x5 x6 x7 x8 x9 x10 x11 x12 x13 x14 x15 x16 x17 x18 x19 x20 x21
      x22 x23 x24 x25 x26 x27 x28 x29 x30 x31 x32 := s in
  mkInstance x0 x1 x2 x3 x4 x5 x6 x7 x8 x9 x10 x11 x12 x13 x14 x15 x16 x17 x18 x19 x20 x21 x22
      x23 x24 v x26 x27 x28 x29 x30 x31 x32.
Definition set_renderOverdrawFactor (v : Q) (s : Instance) : Instance :=
  let 'mkInstance x0 x1 x2 x3 x4 x5 x6 x7 x8 x9 x10 x11 x12 x13 x14 x15 x16 x17 x18 x19 x20 x21
      x22 x23 x24 x25 x26 x27 x28 x29 x30 x31 x32 := s in
  mkInstance x0 x1 x2 x3 x4 x5 x6 x7 x8 x9 x10 x11 x12 x13 x14 x15 x16 x17 x18 x19 x20 x21 x22
      x23 x24 x25 v x27 x28 x29 x30 x31 x32.
Definition set_minOverdrawAmount (v : Q) (s : Instance) : Instance :=
  let 'mkInstance x0 x1 x2 x3 x4 x5 x6 x7 x8 x9 x10 x11 x12 x13 x14 x15 x16 x17 x18 x19 x20 x21
      x22 x23 x24 x25 x26 x27 x28 x29 x30 x31 x32 := s in
  mkInstance x0 x1 x2 x3 x4 x5 x6 x7 x8 x9 x10 x11 x12 x13 x14 x15 x16 x17 x18 x19 x20 x21 x22
      x23 x24 x25 x26 v x28 x29 x30 x31 x32.
Definition set_maxOverdrawAmount (v : Q) (s : Instance) : Instance :=
  let 'mkInstance x0 x1 x2 x3 x4 x5 x6 x7 x8 x9 x10 x11 x12 x13 x14 x15 x16 x17 x18 x19 x20 x21
      x22 x23 x24 x25 x26 x27 x28 x29 x30 x31 x32 := s in
  mkInstance x0 x1 x2 x3 x4 x5 x6 x7 x8 x9 x10 x11 x12 x13 x14 x15 x16 x17 x18 x19 x20 x21 x22
      x23 x24 x25 x26 x27 v x29 x30 x31 x32.
Definition set_cullFraction (v : Q) (s : Instance) : Instance :=
  let 'mkInstance x0 x1 x2 x3 x4 x5 x6 x7 x8 x9 x10 x11 x12 x13 x14 x15 x16 x17 x18 x19 x20 x21
      x22 x23 x24 x25 x26 x27 x28 x29 x30 x31 x32 := s in
  mkInstance x0 x1 x2 x3 x4 x5 x6 x7 x8 x9 x10 x11 x12 x13 x14 x15 x16 x17 x18 x19 x20 x21 x22
      x23 x24 x25 x26 x27 x28 v x30 x31 x32.
Definition set_minCullAmount (v : Q) (s : Instance) : Instance :=
  let 'mkInstance x0 x1 x2 x3 x4 x5 x6 x7 x8 x9 x10 x11 x12 x13 x14 x15 x16 x17 x18 x19 x20 x21
      x22 x23 x24 x25 x26 x27 x28 x29 x30 x31 x32 := s in
  mkInstance x0 x1 x2 x3 x4 x5 x6 x7 x8 x9 x10 x11 x12 x13 x14 x15 x16 x17 x18 x19 x20 x21 x22
      x23 x24 x25 x26 x27 x28 x29 v x31 x32.
Definition set_lastFocusedItemKey (v : option string) (s : Instance) : Instance :=
  let 'mkInstance x0 x1 x2 x3 x4 x5 x6 x7 x8 x9 x10 x11 x12 x13 x14 x15 x16 x17 x18 x19 x20 x21
      x22 x23 x24 x25 x26 x27 x28 x29 x30 x31 x32 := s in
  mkInstance x0 x1 x2 x3 x4 x5 x6 x7 x8 x9 x10 x11 x12 x13 x14 x15 x16 x17 x18 x19 x20 x21 x22
      x23 x24 x25 x26 x27 x28 x29 x30 v x32.
Definition set_scrollViewRef (v : bool) (s : Instance) : Instance :=
  let 'mkInstance x0 x1 x2 x3 x4 x5 x6 x7 x8 x9 x10 x11 x12 x13 x14 x15 x16 x17 x18 x19 x20 x21
      x22 x23 x24 x25 x26 x27 x28 x29 x30 x31 x32 := s in
  mkInstance x0 x1 x2 x3 x4 x5 x6 x7 x8 x9 x10 x11 x12 x13 x14 x15 x16 x17 x18 x19 x20 x21 x22
      x23 x24 x25 x26 x27 x28 x29 x30 x31 v.
Unset Primitive Projections.

(** The instance built by the field initialisers of the class. The static
    counter [VirtualListView._nextCellKey] is carried by the instance. *)
Definition initialInstance : Instance := {|
  _lastScrollTop := 0; _layoutHeight := 0; _layoutWidth := 0; _contentWidth := -1;
  _isMounted := false; _containerHeight := 0; _itemMap := ∅; _isRenderDirty := false;
  _pendingAnimations := ∅; _heightAboveRenderAdjustment := 0;
  _heightAboveRenderBlock := 0; _heightOfRenderBlock := 0; _heightBelowRenderBlock := 0;
  _itemsAboveRenderBlock := 0; _itemsInRenderBlock := 0; _itemsBelowRenderBlock := 0;
  _pendingMeasurements := ∅; _isInitialFillComplete := false; _heightCache := ∅;
  _nextCellKey := 1; _activeCells := ∅; _recycledCells := [];
  _navigatableItemsRendered := []; _pendingFocusDirection := None;
  _maxRecycledCells := _maxRecycledCells_default; _isScreenReaderEnabled := false;
  _renderOverdrawFactor := 1 # 2; _minOverdrawAmount := 512; _maxOverdrawAmount := 4096;
  _cullFraction := 1; _minCullAmount := 512 * 2;
  lastFocusedItemKey := None;
  _scrollViewRef := false
|}.

(** ** Calls to the outside, exceptions, and the monad *)

Inductive Event :=
  | EvLogInfo (text : string)              (* props.logInfo (text ...) *)
  | EvForceUpdate                          (* this.forceUpdate () *)
  | EvOnScroll (scrollTop scrollLeft : Q)  (* props.onScroll (scrollTop, scrollLeft) *)
  | EvOnLayout (width height : Q)          (* props.onLayout (e) *)
  | EvContainerHeightValue (h : Q)         (* _containerHeightValue.setValue (h) *)
  | EvSetScrollTop (t : Q) (animated : bool) (* scrollView.setScrollTop *)
  | EvFocusCell (vkey : string)            (* the mounted cell's focus () *)
  | EvDeferSettle                          (* _.defer of the pass after a render *)
  | EvDeferReconcile.                      (* _.defer after an animation completes *)

(** Equality of events as data (numbers compared as fractions written the
    same way), used to compare traces of concrete runs. *)
Global Instance Q_structural_eq_dec : EqDecision Q.
Proof. solve_decision. Defined.

Global Instance Event_eq_dec : EqDecision Event.
Proof. solve_decision. Defined.

Inductive exn :=
  | AssertionFailure (msg : string)
  | TypeError.

Inductive result (A : Type) :=
  | Ok (a : A)
  | Throw (e : exn).
Arguments Ok {A} a.
Arguments Throw {A} e.

Definition World : Type := Instance * list Event.

Definition M (A : Type) : Type := World -> result (A * World).

Global Instance M_ret : MRet M := fun A a w => Ok (a, w).
Global Instance M_bind : MBind M := fun A B f m w =>
  match m w with
  | Ok (a, w') => f a w'
  | Throw e => Throw e
  end.

Definition this : M Instance := fun w => Ok (fst w, w).
Definition modify (f : Instance -> Instance) : M unit := fun w => Ok (tt, (f (fst w), snd w)).
Definition emit (e : Event) : M unit := fun w => Ok (tt, (fst w, snd w ++ [e])).
Definition throw {A} (e : exn) : M A := fun _ => Throw e.
Definition when (b : bool) (m : M unit) : M unit := if b then m else mret tt.

(** Property access on a possibly [undefined] value. *)
Definition expect {A} (o : option A) : M A :=
  match o with
  | Some a => mret a
  | None => throw TypeError
  end.

(** Modelled from the spec: [assert] of [./assert], which is not among the
    sources. Invariant violations are "surfaced via hard assertion failure;
    not recoverable": a false condition throws. *)
Definition assert (cond : bool) (msg : string) : M unit :=
  if cond then mret tt else throw (AssertionFailure msg).

Definition log (props : Props) (text : string) : M unit :=
  when (logInfo props) (emit (EvLogInfo text)).

(** [for (const x of l)] with an index and loop-carried locals [acc]. *)
Fixpoint forEach {A S} (body : Z -> A -> S -> M S) (i : Z) (l : list A) (acc : S) : M S :=
  match l with
  | [] => mret acc
  | x :: l' => acc' ← body i x acc; forEach body (i + 1) l' acc'
  end.

(** [_.findIndex]: the first index whose element satisfies [p], else [-1]. *)
Fixpoint findIndex_from {A} (p : A -> bool) (i : Z) (l : list A) : Z :=
  match l with
  | [] => -1
  | x :: l' => if p x then i else findIndex_from p (i + 1) l'
  end.
Definition findIndex {A} (p : A -> bool) (l : list A) : Z := findIndex_from p 0 l.

(** ** Local helper functions for item information *)

Definition _isItemHeightKnown (st : Instance) (item : ItemInfo) : bool :=
  negb (truthy_bool (measureHeight item)) || bool_decide (is_Some (_heightCache st !! key item)).

Definition _getHeightOfItem (st : Instance) (item : option ItemInfo) : Q :=
  match item with
  | None => 0
  | Some item =>
      (* See if the item height was passed as "known" *)
      if negb (truthy_bool (measureHeight item)) then height item
      else
        (* See if we have it cached *)
        match _heightCache st !! key item with
        | Some cachedHeight => cachedHeight
        | None => height item (* Nope -- use guess given to us *)
        end
  end.

Definition _calcHeightOfItems (st : Instance) (props : Props) (startIndex endIndex : Z) : Q :=
  foldl (fun count i => (count + _getHeightOfItem st (item_at (itemList props) i))%Q) 0%Q
        (seqZ startIndex (endIndex - startIndex + 1)).

Definition _shouldShowItem (st : Instance) (item : ItemInfo) : bool :=
  let isMeasuring := negb (_isItemHeightKnown st item) in
  let shouldHide := isMeasuring || negb (_isInitialFillComplete st) in
  negb shouldHide.

Definition _calcOverdrawAmount (st : Instance) : Q :=
  if _isInitialFillComplete st then
    Qmin (Qmax (_layoutHeight st * _renderOverdrawFactor st) (_minOverdrawAmount st))
         (_maxOverdrawAmount st)
  else 0.

Definition _isCellVisible (st : Instance) (itemKey : string) : bool :=
  match _activeCells st !! itemKey with
  | Some cellInfo => isVisible cellInfo
  | None => false
  end.

Definition _isAndroidScreenReaderEnabled (platform : PlatformType) (st : Instance) : bool :=
  _isScreenReaderEnabled st && _isNativeAndroid platform.

(** ** Cell management *)

(** The [animate] flag computed by the source is only handed to the
    mounted cell; the fields of the cell record are set in place. *)
Definition _setCellTopAndVisibility (itemKey : string) (isVisibile : bool) (top : Q)
    (animateIfPreviouslyVisible : bool) : M unit :=
  st ← this;
  match _activeCells st !! itemKey with
  | None => assert false "Missing cell"
  | Some cellInfo =>
      modify (set_activeCells
                (<[itemKey := cell_setTopAndVisibility isVisibile top cellInfo]> (_activeCells st)))
  end.

Definition _renderIfDirty (props : Props) : M unit :=
  st ← this;
  when (_isRenderDirty st) (when (_isMounted st) (emit EvForceUpdate)).

Definition _allocateCell (itemKey : string) (itemTemplate_ : option string) (itemIndex : Z)
    (isHeightConstant_ : bool) (height_ : Q) (top_ : Q) (isVisible_ : bool)
    : M VirtualCellInfo :=
  st ← this;
  (* let newCell = this._activeCells.get (itemKey) *)
  newCell ←
    match _activeCells st !! itemKey with
    | Some c => mret (Some c)
    | None =>
        (* If there's a specified template, see if we can find an existing
           recycled cell that we can reuse with the same template. *)
        if truthy_string itemTemplate_ && isHeightConstant_ then
          (* an exact match both in terms of template and previous key *)
          let bestOptionIndex :=
            findIndex (fun cell => bool_decide (itemTemplate cell = itemTemplate_)
                                   && String.eqb (cachedItemKey cell) itemKey
                                   && Qeq_bool (cell_height cell) height_)
                      (_recycledCells st) in
          (* We couldn't find an exact match. Try to find one with the same template. *)
          let bestOptionIndex :=
            if bestOptionIndex <? 0 then
              findIndex (fun cell => bool_decide (itemTemplate cell = itemTemplate_))
                        (_recycledCells st)
            else bestOptionIndex in
          if 0 <=? bestOptionIndex then
            modify (set_recycledCells (delete (Z.to_nat bestOptionIndex) (_recycledCells st)));;
            mret (_recycledCells st !! Z.to_nat bestOptionIndex)
          else mret None
        else mret None
    end;
  newCell ←
    match newCell with
    | Some c =>
        (* We found an existing cell. Repurpose it. *)
        let c := cell_setShouldUpdate true (cell_setTopAndVisibility isVisible_ top_ c) in
        assert (eqb (isHeightConstant c) isHeightConstant_)
               "isHeightConstant assumed to not change";;
        assert (bool_decide (itemTemplate c = itemTemplate_))
               "itemTemplate assumed to not change";;
        mret c
    | None =>
        (* We didn't find a recycled cell that we could use. Allocate a new one. *)
        st ← this;
        modify (set_nextCellKey (_nextCellKey st + 1)%N);;
        mret {| virtualKey := _virtualKeyPrefix +:+ pretty (_nextCellKey st);
                itemTemplate := itemTemplate_;
                isHeightConstant := isHeightConstant_;
                cell_height := height_;
                cachedItemKey := itemKey;
                top := top_;
                isVisible := isVisible_;
                shouldUpdate := true |}
    end;
  modify (set_isRenderDirty true);;
  modify (fun s => set_activeCells (<[itemKey := newCell]> (_activeCells s)) s);;
  mret newCell.

Definition _recycleCell (itemKey : string) : M unit :=
  st ← this;
  match _activeCells st !! itemKey with
  | Some virtualCellInfo =>
      (if 0 <? _maxRecycledCells st then
         _setCellTopAndVisibility itemKey false (top virtualCellInfo) false;;
         (* Is there a "template" hint associated with this cell? If so,
            we may be able to reuse it later. *)
         if truthy_string (itemTemplate virtualCellInfo) && isHeightConstant virtualCellInfo then
           (* the cell object as the call above left it *)
           modify (fun s => set_recycledCells
                              (_recycledCells s
                               ++ [cell_setTopAndVisibility false (top virtualCellInfo) virtualCellInfo]) s);;
           s ← this;
           when (_maxRecycledCells s <? Z.of_nat (length (_recycledCells s)))
                ((* Delete the oldest recycled cell. *)
                 modify (fun s => set_recycledCells (delete 0%nat (_recycledCells s)) s);;
                 modify (set_isRenderDirty true))
         else
           (* Re-render to force the cell to be unmounted. *)
           modify (set_isRenderDirty true)
       else mret tt);;
      modify (fun s => set_activeCells (delete itemKey (_activeCells s)) s)
  | None => mret tt
  end.

(** ** Focus *)

(** [scrollToTop]: the scroll view is called only when there is one. *)
Definition scrollToTop (animated : bool) (top_ : Q) : M unit :=
  st ← this;
  when (_scrollViewRef st) (emit (EvSetScrollTop top_ animated)).

Definition _scrollToItemIndex (thisProps : Props) (index : Z) : M unit :=
  st ← this;
  scrollToTop false (_calcHeightOfItems st thisProps 0 (index - 1)
                     - keyboardFocusScrollOffset thisProps)%Q.

Definition _scrollToItemKey (thisProps : Props) (k : string) : M unit :=
  (* _.each stops at the first item whose callback returns true: no early
     exit is taken by [return true], so the last match wins; keys are
     looked up from the end *)
  let indexToSelect :=
    foldl (fun acc '(idx, item) => if String.eqb (key item) k then Some idx else acc)
          None (zip (seqZ 0 (itemList_length thisProps)) (itemList thisProps)) in
  match indexToSelect with
  | Some idx => _scrollToItemIndex thisProps idx
  | None => mret tt
  end.

(** Returns true if successfully found/focused, false if not found/focused *)
Definition _focusSubsequentItem (thisProps : Props) (direction : FocusDirection)
    (viaKeyboard : bool) (retry : bool) : M bool :=
  st ← this;
  let nav := _navigatableItemsRendered st in
  let index :=
    findIndex (fun item => bool_decide (Some (fst item) = lastFocusedItemKey st)) nav in
  let d := FocusDirection_value direction in
  if negb (index =? -1) && (-1 <? index + d) && (index + d <? Z.of_nat (length nav)) then
    newFocus ← expect (nav !! Z.to_nat (index + d));
    match _activeCells st !! fst newFocus with
    | Some cellForFocus =>
        emit (EvFocusCell (virtualKey cellForFocus));;
        when viaKeyboard (_scrollToItemKey thisProps (fst newFocus))
    | None => mret tt
    end;;
    mret true
  else
    match lastFocusedItemKey st with
    | Some focused =>
        if (index =? -1) && retry then
          match _itemMap st !! focused with
          | None =>
              assert false "Something went wrong in finding last focused item";;
              mret false
          | Some index =>
              let height_ :=
                if index =? 0 then 0%Q else _calcHeightOfItems st thisProps 0 (index - 1) in
              scrollToTop false height_;;
              modify (set_pendingFocusDirection (Some direction));;
              mret true
          end
        else mret false
    | None => mret false
    end.

(** If there was a pending focus setting before we re-rendered, set the same. *)
Definition _setFocusIfNeeded (thisProps : Props) : M unit :=
  st ← this;
  match _pendingFocusDirection st with
  | Some d =>
      _focusSubsequentItem thisProps d false false;;
      modify (set_pendingFocusDirection None)
  | None => mret tt
  end.

(** ** The list changed *)

(** First loop of [_handleItemListChange]: build the new item map, and mark
    the active cells of the items of the new list. *)
Definition handleItemListChange_buildMap (thisProps props : Props)
    (itemIndex : Z) (item : ItemInfo) (newItemMap : gmap string Z) : M (gmap string Z) :=
  (* Make sure there are no duplicate keys. *)
  when (bool_decide (is_Some (newItemMap !! key item)))
       (assert false ("Found a duplicate key: " +:+ key item);;
        log props "Item with key ... is duplicated at positions ...");;
  let newItemMap := <[key item := itemIndex]> newItemMap in
  st ← this;
  match _activeCells st !! key item with
  | Some cell =>
      match _itemMap st !! key item with
      | None =>
          modify (set_activeCells (<[key item := cell_setShouldUpdate true cell]> (_activeCells st)))
      | Some oldItemIndex =>
          let oldItem := item_at (itemList thisProps) oldItemIndex in
          when (skipRenderIfItemUnchanged thisProps || negb (isEqual_item oldItem (Some item)))
               (modify (set_activeCells
                          (<[key item := cell_setShouldUpdate true cell]> (_activeCells st))))
      end
  | None => mret tt
  end;;
  mret newItemMap.

(** Second loop: stop tracking the heights of deleted items. *)
Definition handleItemListChange_dropDeleted (thisProps : Props) (newItemMap : gmap string Z)
    (itemIndex : Z) (item : ItemInfo) (_ : unit) : M unit :=
  when (negb (bool_decide (is_Some (newItemMap !! key item))))
       (st ← this;
        (* Update focused item if it's the one removed, if we're unable to, reset focus *)
        when (bool_decide (Some (key item) = lastFocusedItemKey st))
             (down ← _focusSubsequentItem thisProps Down false false;
              if down : bool then (mret tt : M unit)
              else
                up ← _focusSubsequentItem thisProps Up false false;
                if up : bool then mret tt else modify (set_lastFocusedItemKey None));;
        st ← this;
        when (itemIndex <? _itemsAboveRenderBlock st)
             (modify (set_heightAboveRenderAdjustment
                        (_heightAboveRenderAdjustment st
                         + _getHeightOfItem st (item_at (itemList thisProps) itemIndex))%Q));;
        modify (fun s => set_heightCache (delete (key item) (_heightCache s)) s);;
        modify (fun s => set_pendingMeasurements (_pendingMeasurements s ∖ {[key item]}) s);;
        (* Recycle any deleted active cells up front so they can be recycled below. *)
        st ← this;
        when (bool_decide (is_Some (_activeCells st !! key item)))
             (_recycleCell (key item))).

(** Third loop: determine the new bounds of the render block. The locals
    [yPosition] and [lookingForStartOfRenderBlock] are carried along. *)
Definition handleItemListChange_place (props : Props)
    (renderBlockTopLimit renderBlockBottomLimit : Q)
    (itemIndex : Z) (item : ItemInfo) (acc : Q * bool) : M (Q * bool) :=
  let '(yPosition, lookingForStartOfRenderBlock) := acc in
  st ← this;
  let itemHeight := _getHeightOfItem st (Some item) in
  let yPosition := (yPosition + itemHeight)%Q in
  if Qle_bool yPosition renderBlockTopLimit then
    when (bool_decide (is_Some (_activeCells st !! key item))) (_recycleCell (key item));;
    mret (yPosition, lookingForStartOfRenderBlock)
  else
    when lookingForStartOfRenderBlock (modify (set_itemsAboveRenderBlock itemIndex));;
    (if Qlt_bool (yPosition - itemHeight) renderBlockBottomLimit then
       (* We're within the render block. *)
       modify (fun s => set_itemsInRenderBlock (_itemsInRenderBlock s + 1) s);;
       if bool_decide (is_Some (_activeCells st !! key item)) then
         _setCellTopAndVisibility (key item) (_shouldShowItem st item)
           (yPosition - itemHeight)%Q (animateChanges props)
       else
         _allocateCell (key item) (template item) itemIndex
           (negb (truthy_bool (measureHeight item))) (height item)
           (yPosition - itemHeight)%Q (_shouldShowItem st item);;
         when (negb (_isItemHeightKnown st item))
              (modify (fun s => set_pendingMeasurements (_pendingMeasurements s ∪ {[key item]}) s))
     else
       (* We're past the render block. *)
       when (bool_decide (is_Some (_activeCells st !! key item))) (_recycleCell (key item)));;
    mret (yPosition, false).

(** [this.props] is [thisProps] (in the constructor it is the new props
    themselves), the argument is [props]. *)
Definition _handleItemListChange (thisProps props : Props) : M unit :=
  (* Build a new item map. *)
  newItemMap ← forEach (handleItemListChange_buildMap thisProps props) 0 (itemList props) ∅;
  let oldItems := itemList thisProps in
  forEach (handleItemListChange_dropDeleted thisProps newItemMap) 0 oldItems tt;;
  st ← this;
  let overdrawAmount := _calcOverdrawAmount st in
  let renderBlockTopLimit := (_lastScrollTop st - overdrawAmount)%Q in
  let renderBlockBottomLimit := (_lastScrollTop st + _layoutHeight st + overdrawAmount)%Q in
  let yPosition := _heightAboveRenderAdjustment st in
  modify (set_itemsAboveRenderBlock 0);;
  modify (set_itemsInRenderBlock 0);;
  forEach (handleItemListChange_place props renderBlockTopLimit renderBlockBottomLimit)
          0 (itemList props) (yPosition, true);;
  (* Replace the item map with the updated version. *)
  modify (set_itemMap newItemMap);;
  modify (fun s => set_itemsBelowRenderBlock
                     (itemList_length props - _itemsAboveRenderBlock s - _itemsInRenderBlock s) s);;
  modify (fun s => set_heightAboveRenderBlock
                     (_calcHeightOfItems s props 0 (_itemsAboveRenderBlock s - 1)) s);;
  modify (fun s => set_heightOfRenderBlock
                     (_calcHeightOfItems s props (_itemsAboveRenderBlock s)
                        (_itemsAboveRenderBlock s + _itemsInRenderBlock s - 1)) s);;
  modify (fun s => set_heightBelowRenderBlock
                     (_calcHeightOfItems s props
                        (_itemsAboveRenderBlock s + _itemsInRenderBlock s)
                        (itemList_length props - 1)) s);;
  (* Pre-populate the container height with known values early *)
  st ← this;
  when (Qeq_bool (_containerHeight st) 0)
       (let h := (_heightAboveRenderBlock st + _heightOfRenderBlock st
                  + _heightBelowRenderBlock st)%Q in
        modify (set_containerHeight h);;
        emit (EvContainerHeightValue h)).

(** ** The render pass hand-shake *)

(** [_componentDidRender]: the deferred continuation is [settle] below. *)
Definition _componentDidRender (thisProps : Props) : M unit :=
  log thisProps "Component Did Render";;
  modify (set_isRenderDirty false);;
  (* If we don't defer this, we can end up overflowing the stack
     because one render immediately causes another render to be started. *)
  emit EvDeferSettle.

Definition _popInvisibleIntoView (props : Props) : M unit :=
  log props "Popping invisible items into view";;
  modify (set_isInitialFillComplete true);;
  (* Update styles now to snap everything into view. *)
  st ← this;
  forEach (fun _ i (_ : unit) =>
             s ← this;
             let itemIndex := _itemsAboveRenderBlock s + i in
             item ← expect (item_at (itemList props) itemIndex);
             cellInfo ← expect (_activeCells s !! key item);
             _setCellTopAndVisibility (key item) (_shouldShowItem s item) (top cellInfo) false)
          0 (seqZ 0 (_itemsInRenderBlock st)) tt.

(** ** The correction reconciler *)

Definition _reconcileCorrections (props : Props) : M unit :=
  st ← this;
  (* If there are pending animations, don't adjust because it will disrupt
     the animations. When all animations are complete, we will get called back. *)
  if bool_decide (0 < size (_pendingAnimations st))%nat then mret tt
  else
    let maxFakeSpaceOffset := 0%Q in (* Math.max (this._layoutHeight / 2, 256) *)
    (* If the user has scrolled all the way to the boundary of the rendered area,
       we can't afford any error. *)
    let maxFakeSpaceOffset :=
      if Qeq_bool (_lastScrollTop st) 0
         || Qlt_bool (_lastScrollTop st) (_heightAboveRenderAdjustment st)
      then 0%Q else maxFakeSpaceOffset in
    (* Did the error amount exceed our limit? *)
    when (Qlt_bool maxFakeSpaceOffset (Qabs (_heightAboveRenderAdjustment st)))
         (log props "Removing _heightAboveRenderAdjustment";;
          (* We need to adjust the content height, the positions of the rendered items
             and the scroll position as atomically as possible. *)
          let newContainerHeight := (_containerHeight st - _heightAboveRenderAdjustment st)%Q in
          log props "Container Height Change: ... to ...";;
          modify (set_containerHeight newContainerHeight);;
          emit (EvContainerHeightValue newContainerHeight);;
          forEach (fun _ i (_ : unit) =>
                     s ← this;
                     item ← expect (item_at (itemList props) i);
                     cell ← expect (_activeCells s !! key item);
                     _setCellTopAndVisibility (key item) (isVisible cell)
                       (top cell - _heightAboveRenderAdjustment s)%Q false)
                  0 (seqZ (_itemsAboveRenderBlock st) (_itemsInRenderBlock st)) tt;;
          (* Clear the adjustment. *)
          modify (set_heightAboveRenderAdjustment 0)).

(** ** Recomputing the render block *)

(** Do we need to cut anything out of the top because we've scrolled away
    from it? Each turn of [while (this._itemsInRenderBlock > 0)] takes one
    item out of the block, so [Z.to_nat _itemsInRenderBlock] turns suffice;
    [n] is that bound. *)
Fixpoint cullFromTop (n : nat) (props : Props) (topCullLine : Q) : M unit :=
  match n with
  | O => mret tt
  | S n' =>
      st ← this;
      if 0 <? _itemsInRenderBlock st then
        let itemIndex := _itemsAboveRenderBlock st in
        item ← expect (item_at (itemList props) itemIndex);
        if negb (_isItemHeightKnown st item) then mret tt
        else
          let itemHeight := _getHeightOfItem st (Some item) in
          if Qle_bool topCullLine
               (_heightAboveRenderAdjustment st + _heightAboveRenderBlock st + itemHeight)
          then
            (* We're rendering up to the top render line, so don't need to nuke any more. *)
            mret tt
          else
            modify (fun s => set_itemsInRenderBlock (_itemsInRenderBlock s - 1) s);;
            modify (fun s => set_heightOfRenderBlock (_heightOfRenderBlock s - itemHeight)%Q s);;
            modify (fun s => set_itemsAboveRenderBlock (_itemsAboveRenderBlock s + 1) s);;
            modify (fun s => set_heightAboveRenderBlock (_heightAboveRenderBlock s + itemHeight)%Q s);;
            _recycleCell (key item);;
            log props "Culled Item From Top: ";;
            cullFromTop n' props topCullLine
      else mret tt
  end.

(** Do we need to cut anything out of the bottom because we've scrolled
    away from it? *)
Fixpoint cullFromBottom (n : nat) (props : Props) (bottomCullLine : Q) : M unit :=
  match n with
  | O => mret tt
  | S n' =>
      st ← this;
      if 0 <? _itemsInRenderBlock st then
        let itemIndex := _itemsAboveRenderBlock st + _itemsInRenderBlock st - 1 in
        item ← expect (item_at (itemList props) itemIndex);
        if negb (_isItemHeightKnown st item) then mret tt
        else
          let itemHeight := _getHeightOfItem st (Some item) in
          if Qle_bool
               (_heightAboveRenderAdjustment st + _heightAboveRenderBlock st
                + _heightOfRenderBlock st - itemHeight)
               bottomCullLine
          then mret tt
          else
            modify (fun s => set_itemsInRenderBlock (_itemsInRenderBlock s - 1) s);;
            modify (fun s => set_heightOfRenderBlock (_heightOfRenderBlock s - itemHeight)%Q s);;
            modify (fun s => set_itemsBelowRenderBlock (_itemsBelowRenderBlock s + 1) s);;
            modify (fun s => set_heightBelowRenderBlock (_heightBelowRenderBlock s + itemHeight)%Q s);;
            _recycleCell (key item);;
            log props "Culled Item From Bottom: ";;
            cullFromBottom n' props bottomCullLine
      else mret tt
  end.

(** [if (this._itemsInRenderBlock === 0)]: find the first item that's in
    the render block and add it ([break] after the first). *)
Fixpoint findFirstInRenderBlock (props : Props) (renderBlockTopLimit : Q)
    (i : Z) (items : list ItemInfo) (yPosition : Q) : M unit :=
  match items with
  | [] => mret tt
  | item :: items' =>
      st ← this;
      let itemHeight := _getHeightOfItem st (Some item) in
      let yPosition := (yPosition + itemHeight)%Q in
      if Qlt_bool renderBlockTopLimit yPosition then
        modify (set_itemsAboveRenderBlock i);;
        modify (set_itemsInRenderBlock 1);;
        _allocateCell (key item) (template item) i (negb (truthy_bool (measureHeight item)))
          (height item) (yPosition - itemHeight)%Q (_shouldShowItem st item);;
        when (negb (_isItemHeightKnown st item))
             (modify (fun s => set_pendingMeasurements (_pendingMeasurements s ∪ {[key item]}) s))
      else findFirstInRenderBlock props renderBlockTopLimit (i + 1) items' yPosition
  end.

(** The item builder of [_calcNewRenderedItemState]. The closure variables
    [topOfRenderBlockY] and [bottomOfRenderBlockY] are the pair [ys]. *)
Definition buildItem (props : Props) (itemIndex : Z) (above : bool) (ys : Q * Q) : M (Q * Q) :=
  let '(topOfRenderBlockY, bottomOfRenderBlockY) := ys in
  item ← expect (item_at (itemList props) itemIndex);
  st ← this;
  let isHeightKnown := _isItemHeightKnown st item in
  let itemHeight := _getHeightOfItem st (Some item) in
  assert (Qlt_bool 0 itemHeight) "list items should always have non-zero height";;
  modify (fun s => set_itemsInRenderBlock (_itemsInRenderBlock s + 1) s);;
  modify (fun s => set_heightOfRenderBlock (_heightOfRenderBlock s + itemHeight)%Q s);;
  '(yPlacement, ys') ←
    (if above then
       modify (fun s => set_itemsAboveRenderBlock (_itemsAboveRenderBlock s - 1) s);;
       modify (fun s => set_heightAboveRenderBlock (_heightAboveRenderBlock s - itemHeight)%Q s);;
       let topOfRenderBlockY := (topOfRenderBlockY - itemHeight)%Q in
       mret (topOfRenderBlockY, (topOfRenderBlockY, bottomOfRenderBlockY))
     else
       modify (fun s => set_itemsBelowRenderBlock (_itemsBelowRenderBlock s - 1) s);;
       modify (fun s => set_heightBelowRenderBlock (_heightBelowRenderBlock s - itemHeight)%Q s);;
       mret (bottomOfRenderBlockY, (topOfRenderBlockY, (bottomOfRenderBlockY + itemHeight)%Q)));
  when (negb isHeightKnown)
       (modify (fun s => set_pendingMeasurements (_pendingMeasurements s ∪ {[key item]}) s));;
  _allocateCell (key item) (template item) itemIndex (negb (truthy_bool (measureHeight item)))
    (height item) yPlacement (_shouldShowItem st item);;
  log props (if above then "New Item On Top: " else "New Item On Bottom: ");;
  mret ys'.

(** Try to add items to the bottom of the current render block. Each turn
    takes one item from below the block: [n] bounds the turns by
    [Z.to_nat _itemsBelowRenderBlock]. *)
Fixpoint growAtBottom (n : nat) (props : Props) (renderBlockBottomLimit : Q) (ys : Q * Q)
    : M (Q * Q) :=
  match n with
  | O => mret ys
  | S n' =>
      st ← this;
      if bool_decide (size (_pendingMeasurements st) < _maxSimultaneousMeasures)%nat then
        (* Stop if we go beyond the bottom render limit. *)
        if (_itemsBelowRenderBlock st <=? 0)
           || Qle_bool renderBlockBottomLimit
                (_heightAboveRenderAdjustment st + _heightAboveRenderBlock st
                 + _heightOfRenderBlock st)
        then mret ys
        else
          ys' ← buildItem props (_itemsAboveRenderBlock st + _itemsInRenderBlock st) false ys;
          growAtBottom n' props renderBlockBottomLimit ys'
      else mret ys
  end.

(** Try to add an item to the top of the current render block; bounded by
    [Z.to_nat _itemsAboveRenderBlock]. *)
Fixpoint growAtTop (n : nat) (props : Props) (renderBlockTopLimit : Q) (ys : Q * Q)
    : M (Q * Q) :=
  match n with
  | O => mret ys
  | S n' =>
      st ← this;
      if bool_decide (size (_pendingMeasurements st) < _maxSimultaneousMeasures)%nat then
        if (_itemsAboveRenderBlock st <=? 0)
           || Qle_bool (_heightAboveRenderAdjustment st + _heightAboveRenderBlock st)
                renderBlockTopLimit
        then mret ys
        else
          ys' ← buildItem props (_itemsAboveRenderBlock st - 1) true ys;
          growAtTop n' props renderBlockTopLimit ys'
      else mret ys
  end.

Definition _calcNewRenderedItemState (thisProps props : Props) : M unit :=
  st ← this;
  if Qeq_bool (_layoutHeight st) 0 then
    (* Wait until we get a height before bothering. *)
    mret tt
  else if itemList_length props =? 0 then
    (* Can't possibly be rendering anything. *)
    mret tt
  else if bool_decide (0 < size (_pendingMeasurements st))%nat then
    (* Don't bother if we're still measuring things. Wait for the last batch to end. *)
    mret tt
  else
    (* What's the top/bottom line that we'll cull items that are wholly outside of? *)
    let cullMargin := Qmax (_layoutHeight st * _cullFraction st) (_minCullAmount st) in
    let topCullLine := (_lastScrollTop st - cullMargin)%Q in
    let bottomCullLine := (_lastScrollTop st + _layoutHeight st + cullMargin)%Q in
    cullFromTop (Z.to_nat (_itemsInRenderBlock st)) props topCullLine;;
    st ← this;
    cullFromBottom (Z.to_nat (_itemsInRenderBlock st)) props bottomCullLine;;
    (* Determine what the line is that we're rendering up to. If we haven't yet
       filled a screen, first get the screen full before over-rendering. *)
    st ← this;
    let overdrawAmount := _calcOverdrawAmount st in
    let renderMargin := if _isInitialFillComplete st then overdrawAmount else 0%Q in
    let renderBlockTopLimit := (_lastScrollTop st - renderMargin)%Q in
    let renderBlockBottomLimit := (_lastScrollTop st + _layoutHeight st + renderMargin)%Q in
    when (_itemsInRenderBlock st =? 0)
         (let yPosition := _heightAboveRenderAdjustment st in
          modify (set_itemsAboveRenderBlock 0);;
          findFirstInRenderBlock props renderBlockTopLimit 0 (itemList props) yPosition;;
          modify (fun s => set_itemsBelowRenderBlock
                             (itemList_length props - _itemsAboveRenderBlock s
                              - _itemsInRenderBlock s) s);;
          modify (fun s => set_heightAboveRenderBlock
                             (_calcHeightOfItems s props 0 (_itemsAboveRenderBlock s - 1)) s);;
          modify (fun s => set_heightOfRenderBlock
                             (_calcHeightOfItems s props (_itemsAboveRenderBlock s)
                                (_itemsAboveRenderBlock s + _itemsInRenderBlock s - 1)) s);;
          modify (fun s => set_heightBelowRenderBlock
                             (_calcHeightOfItems s props
                                (_itemsAboveRenderBlock s + _itemsInRenderBlock s)
                                (itemList_length props - 1)) s));;
    (* What is the whole height of the scroll region? *)
    st ← this;
    let itemBlockHeight :=
      (_heightAboveRenderAdjustment st + _heightAboveRenderBlock st
       + _heightOfRenderBlock st + _heightBelowRenderBlock st)%Q in
    let containerHeight := Qmax itemBlockHeight (_layoutHeight st) in
    (* Render the actual items now! *)
    let yPosition := (_heightAboveRenderBlock st + _heightAboveRenderAdjustment st)%Q in
    let topOfRenderBlockY := yPosition in
    (* Start by checking heights/visibility of everything in the render block
       before we add to it. *)
    yPosition ←
      forEach (fun _ i (yPosition : Q) =>
                 s ← this;
                 let itemIndex := _itemsAboveRenderBlock s + i in
                 item ← expect (item_at (itemList props) itemIndex);
                 _setCellTopAndVisibility (key item) (_shouldShowItem s item) yPosition
                   (animateChanges thisProps);;
                 mret (yPosition + _getHeightOfItem s (Some item))%Q)
              0 (seqZ 0 (_itemsInRenderBlock st)) yPosition;
    let bottomOfRenderBlockY := yPosition in
    (* See if the container height needs adjusting. *)
    when (negb (Qeq_bool containerHeight (_containerHeight st)))
         (log props "Container Height Change: ... to ...";;
          modify (set_containerHeight containerHeight);;
          emit (EvContainerHeightValue containerHeight));;
    st ← this;
    ys ← growAtBottom (Z.to_nat (_itemsBelowRenderBlock st)) props renderBlockBottomLimit
           (topOfRenderBlockY, bottomOfRenderBlockY);
    st ← this;
    growAtTop (Z.to_nat (_itemsAboveRenderBlock st)) props renderBlockTopLimit ys;;
    (* See if we've filled the screen and rendered it, and we're not waiting on
       any measurements. *)
    st ← this;
    when (negb (_isInitialFillComplete st) && negb (_isRenderDirty st)
          && bool_decide (size (_pendingMeasurements st) = 0%nat))
         ((* Time for overrender. *)
          _popInvisibleIntoView props;;
          (* Render pass again! *)
          _componentDidRender thisProps);;
    log props "CalcNewRenderedItemState: ...".

(** ** Entry points *)

Definition _updateStateFromProps (thisProps props : Props) (initialBuild : bool) : M unit :=
  log props "Rebuilding VirtualListView State - initial: ..., items: ...";;
  when (initialBuild && skipRenderIfItemUnchanged props)
       ((* When we are using smart rerender we can make overdraw much larger *)
        modify (set_renderOverdrawFactor 5);;
        modify (set_minOverdrawAmount 2048);;
        modify (set_maxOverdrawAmount 4096);;
        modify (set_cullFraction 6);;
        modify (set_minCullAmount 3072));;
  when (initialBuild || negb (isEqual_itemList (itemList thisProps) (itemList props)))
       (_handleItemListChange thisProps props;;
        _calcNewRenderedItemState thisProps props);;
  _renderIfDirty props.

(** [constructor (props)]: React has set [this.props] to [props] before
    [_updateStateFromProps] runs; [this.state] is assigned afterwards. *)
Definition constructor (props : Props) : M unit :=
  _updateStateFromProps props props true;;
  modify (set_lastFocusedItemKey
            (if existsb (fun item => bool_decide (Some (key item) = initialSelectedKey props))
                        (itemList props)
             then initialSelectedKey props else None)).

(** [_.isEqual (this.props, nextProps)] on the modelled fields. *)
Definition isEqual_props (a b : Props) : bool :=
  isEqual_itemList (itemList a) (itemList b)
  && Qeq_bool (padding a) (padding b)
  && eqb (animateChanges a) (animateChanges b)
  && eqb (skipRenderIfItemUnchanged a) (skipRenderIfItemUnchanged b)
  && bool_decide (initialSelectedKey a = initialSelectedKey b)
  && Qeq_bool (keyboardFocusScrollOffset a) (keyboardFocusScrollOffset b)
  && eqb (logInfo a) (logInfo b) && eqb (onScroll a) (onScroll b) && eqb (onLayout a) (onLayout b).

Definition componentWillReceiveProps (thisProps nextProps : Props) : M unit :=
  when (negb (isEqual_props thisProps nextProps))
       (_updateStateFromProps thisProps nextProps false).

Definition _resizeAllItems (props : Props) : M unit :=
  st ← this;
  when (Qlt_bool 0 (_layoutWidth st) && negb (Qeq_bool (_layoutWidth st) (_contentWidth st)))
       (modify (set_contentWidth (_layoutWidth st));;
        emit EvForceUpdate).

Definition _onLayoutContainer (thisProps : Props) (e_width e_height : Q) : M unit :=
  st ← this;
  if negb (_isMounted st) then mret tt
  else
    let layoutWidth :=
      if negb (Qeq_bool (padding thisProps) 0) then (e_width - padding thisProps)%Q
      else e_width in
    let layoutHeight := e_height in
    when (negb (Qeq_bool layoutWidth (_layoutWidth st)))
         (log thisProps "New layout width: ";;
          modify (set_layoutWidth layoutWidth);;
          _resizeAllItems thisProps);;
    when (negb (Qeq_bool layoutHeight (_layoutHeight st)))
         (log thisProps "New layout height: ";;
          modify (set_layoutHeight layoutHeight);;
          _calcNewRenderedItemState thisProps thisProps;;
          _renderIfDirty thisProps;;
          (* See if we have accumulated enough error to require an adjustment. *)
          _reconcileCorrections thisProps);;
    when (onLayout thisProps) (emit (EvOnLayout e_width e_height)).

(** See if there are any visible items before this one: the loop of
    [_onLayoutItem] over the indices of the render block, with its two
    [break]s. *)
Fixpoint foundVisibleItemBefore (st : Instance) (thisProps : Props) (itemIndex : Z)
    (indices : list Z) : M bool :=
  match indices with
  | [] => mret false
  | i :: indices' =>
      item ← expect (item_at (itemList thisProps) i);
      if _isCellVisible st (key item) then mret true
      else if i =? itemIndex then mret false
      else foundVisibleItemBefore st thisProps itemIndex indices'
  end.

(** The part of [_onLayoutItem] that books a measurement of an item of
    the render block: from [let needsRecalc = false] to the last
    assignment to [needsRecalc], which is the value returned. *)
Definition onLayoutItem_record (thisProps : Props) (itemKey : string) (itemIndex : Z)
    (oldHeight newHeight : Q) : M bool :=
  needsRecalc ←
    (if negb (Qeq_bool oldHeight newHeight) then
       log thisProps "onLayout: Item Height Changed: ";;
       modify (fun s => set_heightOfRenderBlock
                          (_heightOfRenderBlock s + (newHeight - oldHeight))%Q s);;
       st ← this;
       when (_isInitialFillComplete st)
            (found ← foundVisibleItemBefore st thisProps itemIndex
                       (seqZ (_itemsAboveRenderBlock st) (_itemsInRenderBlock st));
             when (negb found)
                  ((* It's in a safe block above the known-height render area. *)
                   log thisProps "Added delta to fake space offset: ";;
                   modify (fun s => set_heightAboveRenderAdjustment
                                      (_heightAboveRenderAdjustment s + (oldHeight - newHeight))%Q s)));;
       mret true
     else mret false);
  modify (fun s => set_pendingMeasurements (_pendingMeasurements s ∖ {[itemKey]}) s);;
  st ← this;
  mret (needsRecalc || bool_decide (size (_pendingMeasurements st) = 0%nat)).

Definition _onLayoutItem (thisProps : Props) (itemKey : string) (newHeight : Q) : M unit :=
  st ← this;
  if negb (_isMounted st) then mret tt
  else
    match _itemMap st !! itemKey with
    | None =>
        (* Because this event is async on some platforms, the index may have changed or
           the item could have been removed by the time the event arrives. *)
        mret tt
    | Some itemIndex =>
        let oldHeight := _getHeightOfItem st (item_at (itemList thisProps) itemIndex) in
        item ← expect (item_at (itemList thisProps) itemIndex);
        if negb (truthy_bool (measureHeight item)) then
          (* Trust constant-height items, even if the layout tells us otherwise. *)
          log thisProps "Item ... listed as known height (...), but got an itemOnLayout anyway?"
        else
          modify (set_heightCache (<[itemKey := newHeight]> (_heightCache st)));;
          if (itemIndex <? _itemsAboveRenderBlock st)
             || (_itemsAboveRenderBlock st + _itemsInRenderBlock st <=? itemIndex)
          then
            (* Getting a response for a culled item (no longer in tracked render block),
               so track the height but don't update anything. *)
            mret tt
          else
            needsRecalc ← onLayoutItem_record thisProps itemKey itemIndex oldHeight newHeight;
            when needsRecalc
                 (_calcNewRenderedItemState thisProps thisProps;;
                  _renderIfDirty thisProps);;
            (* See if we have accumulated enough error to require an adjustment. *)
            _reconcileCorrections thisProps
    end.

(** The continuation deferred by [_onAnimateStartStopItem]. *)
Definition deferredReconcile (thisProps : Props) : M unit :=
  st ← this;
  when (_isMounted st)
       (when (bool_decide (size (_pendingAnimations st) = 0%nat) && _isMounted st)
             ((* Perform deferred actions now that all animations are complete. *)
              _reconcileCorrections thisProps)).

Definition _onAnimateStartStopItem (itemKey : string) (animateStart : bool) : M unit :=
  st ← this;
  when (_isMounted st)
       (let hasAnimation := bool_decide (itemKey ∈ _pendingAnimations st) in
        if animateStart then
          assert (negb hasAnimation) "unexpected animation start";;
          modify (set_pendingAnimations (_pendingAnimations st ∪ {[itemKey]}))
        else
          assert hasAnimation "unexpected animation complete";;
          modify (set_pendingAnimations (_pendingAnimations st ∖ {[itemKey]}));;
          emit EvDeferReconcile).

(** The scroll callback receives [(scrollTop, scrollLeft)]; the vertical
    list tracks the first, the horizontal list the second, in the field
    that is [_lastScrollTop] here. *)
Inductive Axis := Vertical | Horizontal.

Definition primaryOffset (axis : Axis) (scrollTop scrollLeft : Q) : Q :=
  match axis with
  | Vertical => scrollTop
  | Horizontal => scrollLeft
  end.

Definition _onScroll (axis : Axis) (thisProps : Props) (scrollTop scrollLeft : Q) : M unit :=
  st ← this;
  if Qeq_bool (_lastScrollTop st) (primaryOffset axis scrollTop scrollLeft) then
    (* Already know about it! *)
    log thisProps "Got Known Scroll: "
  else
    modify (set_lastScrollTop (primaryOffset axis scrollTop scrollLeft));;
    (* We scrolled, so update item state. *)
    _calcNewRenderedItemState thisProps thisProps;;
    _renderIfDirty thisProps;;
    (* See if we have accumulated enough error to require an adjustment. *)
    _reconcileCorrections thisProps;;
    when (onScroll thisProps) (emit (EvOnScroll scrollTop scrollLeft)).

(** [render ()], as far as it changes the instance: it rebuilds
    [_navigatableItemsRendered] from the render block, checks that every
    item of the block has its cell, and clears [shouldUpdate] on every cell
    it has put in the output (the cells of the block and the recycled
    ones). The element list itself belongs to the substrate. *)
Definition render (thisProps : Props) : M unit :=
  modify (set_navigatableItemsRendered []);;
  log thisProps "Rendering ... Items...";;
  st ← this;
  forEach (fun _ i (_ : unit) =>
             s ← this;
             let itemIndex := _itemsAboveRenderBlock s + i in
             item ← expect (item_at (itemList thisProps) itemIndex);
             match _activeCells s !! key item with
             | None => assert false ("Active Cell not found for key " +:+ key item)
             | Some virtualCellInfo =>
                 when (truthy_bool (isNavigable item))
                      (modify (set_navigatableItemsRendered
                                 (_navigatableItemsRendered s
                                  ++ [(key item, virtualKey virtualCellInfo)])))
             end)
          0 (seqZ 0 (_itemsInRenderBlock st)) tt;;
  forEach (fun _ i (_ : unit) =>
             s ← this;
             item ← expect (item_at (itemList thisProps) (_itemsAboveRenderBlock s + i));
             modify (set_activeCells (alter (cell_setShouldUpdate false) (key item) (_activeCells s))))
          0 (seqZ 0 (_itemsInRenderBlock st)) tt;;
  modify (fun s => set_recycledCells (cell_setShouldUpdate false <$> _recycledCells s) s);;
  log thisProps "Item Render Complete".

(** ** Accessibility and life cycle *)

Definition _setupForAccessibility (platform : PlatformType) (thisProps : Props) : M unit :=
  log thisProps "Screen reader enabled.";;
  modify (set_isScreenReaderEnabled true);;
  when (_isNativeIOS platform || _isNativeAndroid platform)
       ((* Clear recycled cells and turn off recycling. *)
        st ← this;
        when (bool_decide (0 < length (_recycledCells st))%nat)
             (modify (set_recycledCells []);;
              modify (set_isRenderDirty true));;
        modify (set_maxRecycledCells _maxRecycledCellsForAccessibility)).

Definition _tearDownForAccessibility (platform : PlatformType) (thisProps : Props) : M unit :=
  log thisProps "Screen reader disabled.";;
  modify (set_isScreenReaderEnabled false);;
  when (_isNativeIOS platform || _isNativeAndroid platform)
       ((* Enable recycling. *)
        modify (set_maxRecycledCells _maxRecycledCells_default)).

Definition _screenReaderStateChanged (platform : PlatformType) (thisProps : Props)
    (isEnabled : bool) : M unit :=
  if isEnabled then
    _setupForAccessibility platform thisProps;;
    when (_isNativeAndroid platform)
         ((* We need to re-render virtual cells. *)
          modify (set_isRenderDirty true));;
    _renderIfDirty thisProps
  else _tearDownForAccessibility platform thisProps.

(** [screenReaderEnabled] is what [RX.Accessibility.isScreenReaderEnabled ()]
    answers at mount time. *)
Definition componentDidMount (platform : PlatformType) (screenReaderEnabled : bool)
    (thisProps : Props) : M unit :=
  when screenReaderEnabled (_setupForAccessibility platform thisProps);;
  modify (set_isMounted true);;
  _componentDidRender thisProps;;
  (* If an initial selection key was provided, ensure that we scroll to the item *)
  match initialSelectedKey thisProps with
  | Some k => when (negb (String.eqb k "")) (_scrollToItemKey thisProps k)
  | None => mret tt
  end.

Definition componentWillUnmount : M unit := modify (set_isMounted false).

Definition componentDidUpdate (thisProps : Props) : M unit := _componentDidRender thisProps.

(** The pass deferred by [_componentDidRender]: it runs after every render. *)
Definition settle (thisProps : Props) : M unit :=
  st ← this;
  when (_isMounted st)
       (_calcNewRenderedItemState thisProps thisProps;;
        _renderIfDirty thisProps;;
        _reconcileCorrections thisProps;;
        _setFocusIfNeeded thisProps).

(** ** Runs of a mounted component

    [reachable props w]: [w] is a state of an instance whose current props
    are [props], obtained from the constructor by entry points that
    returned normally, in any order. A change of [this.state] (focus) is a
    step of its own, and so is React attaching or detaching the scroll
    view ([_scrollViewRef.current]). *)
Inductive reachable : Props -> World -> Prop :=
  | reach_constructor props k w :
      constructor props (set_nextCellKey k initialInstance, []) = Ok (tt, w) ->
      reachable props w
  | reach_mount platform sr props w w' :
      reachable props w -> componentDidMount platform sr props w = Ok (tt, w') ->
      reachable props w'
  | reach_unmount props w w' :
      reachable props w -> componentWillUnmount w = Ok (tt, w') -> reachable props w'
  | reach_receiveProps props nextProps w w' :
      reachable props w -> componentWillReceiveProps props nextProps w = Ok (tt, w') ->
      reachable nextProps w'
  | reach_updateStateFromProps props nextProps w w' :
      reachable props w -> _updateStateFromProps props nextProps false w = Ok (tt, w') ->
      reachable nextProps w'
  | reach_render props w w' :
      reachable props w -> (render props;; componentDidUpdate props) w = Ok (tt, w') ->
      reachable props w'
  | reach_settle props w w' :
      reachable props w -> settle props w = Ok (tt, w') -> reachable props w'
  | reach_layoutContainer props width_ height_ w w' :
      reachable props w -> _onLayoutContainer props width_ height_ w = Ok (tt, w') ->
      reachable props w'
  | reach_layoutItem props k h w w' :
      reachable props w -> _onLayoutItem props k h w = Ok (tt, w') -> reachable props w'
  | reach_scroll axis props scrollTop scrollLeft w w' :
      reachable props w -> _onScroll axis props scrollTop scrollLeft w = Ok (tt, w') ->
      reachable props w'
  | reach_animation props k start w w' :
      reachable props w -> _onAnimateStartStopItem k start w = Ok (tt, w') ->
      reachable props w'
  | reach_deferredReconcile props w w' :
      reachable props w -> deferredReconcile props w = Ok (tt, w') -> reachable props w'
  | reach_screenReader platform props b w w' :
      reachable props w -> _screenReaderStateChanged platform props b w = Ok (tt, w') ->
      reachable props w'
  | reach_keyboard props d w w' b :
      reachable props w -> _focusSubsequentItem props d true true w = Ok (b, w') ->
      reachable props w'
  | reach_setState props w k :
      reachable props w -> reachable props (set_lastFocusedItemKey k (fst w), snd w)
  | reach_scrollViewRef props w b :
      reachable props w -> reachable props (set_scrollViewRef b (fst w), snd w).

Definition is_log (e : Event) : bool :=
  match e with EvLogInfo _ => true | _ => false end.

Definition is_onScroll (e : Event) : bool :=
  match e with EvOnScroll _ _ => true | _ => false end.

(** ** Specification vocabulary *)

(** The number of items the three regions of the render block account for. *)
Definition itemCount (st : Instance) : Z :=
  _itemsAboveRenderBlock st + _itemsInRenderBlock st + _itemsBelowRenderBlock st.

(** [hoare P m Q]: whenever [m] returns normally from an instance that
    satisfies [P], the value and the instance it leaves satisfy [Q]. *)
Definition hoare {A} (P : Instance -> Prop) (m : M A) (Q : A -> Instance -> Prop) : Prop :=
  forall w a w', m w = Ok (a, w') -> P w.1 -> Q a w'.1.

Definition preserves {A} (P : Instance -> Prop) (m : M A) : Prop :=
  hoare P m (fun _ => P).

(** [stable set P]: assigning the field that [set] writes does not affect [P]. *)
Definition stable {V} (set : V -> Instance -> Instance) (P : Instance -> Prop) : Prop :=
  forall v s, P s -> P (set v s).

(** The fields [_calcNewRenderedItemState] may assign: a predicate that is
    stable under all of them is kept by a recomputation pass. The set of
    pending measurements only grows, and only by keys of items whose height
    is not known at that point. *)
Record calc_frame (P : Instance -> Prop) : Prop := {
  cf_itemsAbove : stable set_itemsAboveRenderBlock P;
  cf_itemsIn : stable set_itemsInRenderBlock P;
  cf_itemsBelow : stable set_itemsBelowRenderBlock P;
  cf_heightAbove : stable set_heightAboveRenderBlock P;
  cf_heightOf : stable set_heightOfRenderBlock P;
  cf_heightBelow : stable set_heightBelowRenderBlock P;
  cf_activeCells : stable set_activeCells P;
  cf_recycledCells : stable set_recycledCells P;
  cf_isRenderDirty : stable set_isRenderDirty P;
  cf_nextCellKey : stable set_nextCellKey P;
  cf_pendingAdd : forall st item s,
    P st -> _isItemHeightKnown st item = false -> P s ->
    P (set_pendingMeasurements (_pendingMeasurements s ∪ {[key item]}) s);
  cf_containerHeight : stable set_containerHeight P;
  cf_isInitialFillComplete : stable set_isInitialFillComplete P
}.

(** The exact-match test and the template test of [_allocateCell]. *)
Definition isExactMatch (k : string) (t : option string) (h : Q) (cell : VirtualCellInfo) : bool :=
  bool_decide (itemTemplate cell = t) && String.eqb (cachedItemKey cell) k
  && Qeq_bool (cell_height cell) h.

Definition hasTemplate (t : option string) (cell : VirtualCellInfo) : bool :=
  bool_decide (itemTemplate cell = t).

(** A cell of the recycled list is taken by [_allocateCell] when it is the
    first exact match, or there is no exact match and it is the first cell
    of the template. *)
Definition isBestOption (k : string) (t : option string) (h : Q)
    (before : list VirtualCellInfo) (cell : VirtualCellInfo) (after : list VirtualCellInfo)
    : Prop :=
  (isExactMatch k t h cell = true /\ Forall (fun c => isExactMatch k t h c = false) before)
  \/ (Forall (fun c => isExactMatch k t h c = false) (before ++ cell :: after)
      /\ hasTemplate t cell = true
      /\ Forall (fun c => hasTemplate t c = false) before).

(** A cell qualifies for the recycled list: it has a template and a constant height. *)
Definition isRecyclable (cell : VirtualCellInfo) : bool :=
  truthy_string (itemTemplate cell) && isHeightConstant cell.

(** ** Concrete runs

    A list of constant-height rows of one template, and the life of a
    component up to the point where the first screens are rendered and
    settled. *)
Definition row (k : string) (h : Q) : ItemInfo := mkItem k h None (Some "row") None.

Definition measured (k : string) (guess : Q) : ItemInfo := mkItem k guess (Some true) None None.

Definition listProps (l : list ItemInfo) (skip : bool) : Props :=
  mkProps l 0 false skip None 0 false false false.

Definition rows (n : nat) (h : Q) : list ItemInfo :=
  (fun i => row ("r" +:+ pretty i) h) <$> seq 0 n.

(** A render followed by the pass it defers. *)
Definition renderAndSettle (props : Props) : M unit :=
  (render props;; componentDidUpdate props);; settle props.

(** React attaches the scroll view that the first render has put out, and
    then calls [componentDidMount]. *)
Definition mount (platform : PlatformType) (screenReader : bool) (props : Props) : M unit :=
  modify (set_scrollViewRef true);;
  componentDidMount platform screenReader props.

Definition mountAndFill (platform : PlatformType) (screenReader : bool) (props : Props)
    (layoutWidth layoutHeight : Q) : M unit :=
  constructor props;;
  mount platform screenReader props;;
  _onLayoutContainer props layoutWidth layoutHeight;;
  renderAndSettle props;; renderAndSettle props;; renderAndSettle props.

Definition propsAB : Props := listProps [row "a" 50; row "b" 50] true.
Definition propsAC : Props := listProps [row "a" 50; row "c" 50] true.
Definition sixRows : Props := listProps (rows 6 500) false.

(** The world a run ends in ([None] when it throws). *)
Definition exec {A} (m : M A) (w : World) : option World :=
  match m w with
  | Ok (_, w') => Some w'
  | Throw _ => None
  end.

(** [a; b] mounted with change-skipping, rendered and settled. *)
Definition mountedAB : M unit := mountAndFill web false propsAB 320 480.

Definition world_mountedAB : World :=
  Eval vm_compute in default (initialInstance, []) (exec mountedAB (initialInstance, [])).

(** Six rows of 500 on iOS with the screen reader on, scrolled down until
    every row has been in the render block. *)
Definition scrolledWithScreenReader : M unit :=
  mountAndFill ios true sixRows 320 120;;
  _onScroll Vertical sixRows 1000 0;;
  renderAndSettle sixRows;; renderAndSettle sixRows;;
  _onScroll Vertical sixRows 2000 0;;
  renderAndSettle sixRows;; renderAndSettle sixRows.

Definition world_screenReader : World :=
  Eval vm_compute in
    default (initialInstance, []) (exec scrolledWithScreenReader (initialInstance, [])).

(** The indices of the render block. *)
Definition inRenderBlock (st : Instance) (i : Z) : Prop :=
  _itemsAboveRenderBlock st <= i < _itemsAboveRenderBlock st + _itemsInRenderBlock st.

(** Every item of the render block is an item of the list and has an active cell. *)
Definition block_has_cells (props : Props) (st : Instance) : Prop :=
  forall i, inRenderBlock st i ->
    exists item cell, item_at (itemList props) i = Some item
                      /\ _activeCells st !! key item = Some cell.

(** The flush of the pending adjustment, seen from one cell. *)
Definition shiftCell (adjustment : Q) (cell : VirtualCellInfo) : VirtualCellInfo :=
  cell_setTopAndVisibility (isVisible cell) (top cell - adjustment)%Q cell.

(** The cells after the flush loop has gone over the indices [l]. *)
Definition shiftCells (adjustment : Q) (props : Props) (l : list Z)
    (cells : gmap string VirtualCellInfo) : gmap string VirtualCellInfo :=
  foldl (fun m i =>
           match item_at (itemList props) i with
           | Some item => alter (shiftCell adjustment) (key item) m
           | None => m
           end) cells l.

(** ** Further concrete runs *)

(** The six rows again, with a caller that listens to scroll events. *)
Definition sixRowsOnScroll : Props :=
  mkProps (rows 6 500) 0 false false None 0 false true false.

(** A list that names the key [a] twice. *)
Definition propsAA : Props := listProps [row "a" 50; row "a" 60] false.

(** One item to be measured, guessed at 50. *)
Definition propsE : Props := listProps [measured "e" 50] false.

(** The same list after [n] has been inserted in front. *)
Definition propsNE : Props := listProps [measured "n" 50; measured "e" 50] false.

(** [e] mounted and rendered, its measurement outstanding. *)
Definition mountedE : M unit := mountAndFill web false propsE 320 480.

Definition world_mountedE : World :=
  Eval vm_compute in default (initialInstance, []) (exec mountedE (initialInstance, [])).

(** The first measurement of [e], at 80. *)
Definition world_firstMeasuredE : World :=
  Eval vm_compute in
    default (initialInstance, []) (exec (_onLayoutItem propsE "e" 80) world_mountedE).

(** [e] measured at 60, rendered and settled. *)
Definition measuredE : M unit :=
  _onLayoutItem propsE "e" 60;; renderAndSettle propsE.

Definition world_measuredE : World :=
  Eval vm_compute in default (initialInstance, []) (exec measuredE world_mountedE).

(** [e] measured a second time, at 80. *)
Definition world_remeasuredE : World :=
  Eval vm_compute in
    default (initialInstance, []) (exec (_onLayoutItem propsE "e" 80) world_measuredE).

(** While an animation of [e] runs, [n] is inserted in front, rendered and
    measured at 80: the 30 it gained over its guess wait in the pending
    adjustment until the animation is over. *)
Definition insertedWhileAnimating : M unit :=
  _onAnimateStartStopItem "e" true;;
  componentWillReceiveProps propsE propsNE;;
  renderAndSettle propsNE;;
  _onLayoutItem propsNE "n" 80;;
  renderAndSettle propsNE;;
  _onAnimateStartStopItem "e" false.

Definition world_adjusted : World :=
  Eval vm_compute in
    default (initialInstance, []) (exec insertedWhileAnimating world_measuredE).

(** ** More concrete runs *)

(** [a; b] after [componentWillUnmount]. *)
Definition world_unmountedAB : World :=
  Eval vm_compute in default (initialInstance, []) (exec componentWillUnmount world_mountedAB).

(** [a; b] unmounted, the scroll view detached by React. *)
Definition world_detachedAB : World :=
  (set_scrollViewRef false world_unmountedAB.1, world_unmountedAB.2).

(** Six items to be measured, guessed at 500, in a container of height
    120: the first screen holds the first item only. *)
Definition measuredRows (n : nat) (guess : Q) : list ItemInfo :=
  (fun i => measured ("m" +:+ pretty i) guess) <$> seq 0 n.

Definition sixMeasured : Props := listProps (measuredRows 6 500) false.

Definition world_mountedSixMeasured : World :=
  Eval vm_compute in
    default (initialInstance, [])
      (exec (mountAndFill web false sixMeasured 320 120) (initialInstance, [])).

(** The run [insertedWhileAnimating] before the animation of [e] ends. *)
Definition insertedStillAnimating : M unit :=
  _onAnimateStartStopItem "e" true;;
  componentWillReceiveProps propsE propsNE;;
  renderAndSettle propsNE;;
  _onLayoutItem propsNE "n" 80;;
  renderAndSettle propsNE.

Definition world_animating : World :=
  Eval vm_compute in
    default (initialInstance, []) (exec insertedStillAnimating world_measuredE).

(** The rows [a; b] again, with a caller that listens to scroll events. *)
Definition propsAB_onScroll : Props :=
  mkProps [row "a" 50; row "b" 50] 0 false true None 0 false true false.

(** ** Assertions kept by the entry points *)

(** The fields the passes and callbacks assign, the cells apart: an
    assertion that reads none of them is [stable] under each. *)
Record entry_frame (P : Instance -> Prop) : Prop := {
  ef_itemsAbove : stable set_itemsAboveRenderBlock P;
  ef_itemsIn : stable set_itemsInRenderBlock P;
  ef_itemsBelow : stable set_itemsBelowRenderBlock P;
  ef_heightAbove : stable set_heightAboveRenderBlock P;
  ef_heightOf : stable set_heightOfRenderBlock P;
  ef_heightBelow : stable set_heightBelowRenderBlock P;
  ef_adjustment : stable set_heightAboveRenderAdjustment P;
  ef_isRenderDirty : stable set_isRenderDirty P;
  ef_pendingMeasurements : stable set_pendingMeasurements P;
  ef_pendingAnimations : stable set_pendingAnimations P;
  ef_containerHeight : stable set_containerHeight P;
  ef_isInitialFillComplete : stable set_isInitialFillComplete P;
  ef_itemMap : stable set_itemMap P;
  ef_heightCache : stable set_heightCache P;
  ef_lastFocusedItemKey : stable set_lastFocusedItemKey P;
  ef_pendingFocusDirection : stable set_pendingFocusDirection P;
  ef_navigatableItemsRendered : stable set_navigatableItemsRendered P;
  ef_lastScrollTop : stable set_lastScrollTop P;
  ef_isMounted : stable set_isMounted P;
  ef_isScreenReaderEnabled : stable set_isScreenReaderEnabled P;
  ef_scrollViewRef : stable set_scrollViewRef P
}.

(** The operations on cells: recycling, allocation, placement, the
    [shouldUpdate] marks, and the accessibility switch that empties the
    pool. *)
Record cell_ops (P : Instance -> Prop) : Prop := {
  co_recycle : forall k, preserves P (_recycleCell k);
  co_allocate : forall k t i c h tp v, preserves P (_allocateCell k t i c h tp v);
  co_setCell : forall k v t a, preserves P (_setCellTopAndVisibility k v t a);
  co_mark : forall st k cell u,
    P st -> _activeCells st !! k = Some cell ->
    P (set_activeCells (<[k := cell_setShouldUpdate u cell]> (_activeCells st)) st);
  co_markPool : forall st,
    P st -> P (set_recycledCells (cell_setShouldUpdate false <$> _recycledCells st) st);
  co_setup : forall platform props, preserves P (_setupForAccessibility platform props);
  co_tearDown : forall platform props, preserves P (_tearDownForAccessibility platform props)
}.

(** ** Margins *)

(** The margin of [_calcNewRenderedItemState] beyond which items are culled. *)
Definition cullMargin (st : Instance) : Q :=
  Qmax (_layoutHeight st * _cullFraction st) (_minCullAmount st).

(** The two settings of the overdraw and cull parameters: the field
    initialisers, and the values [_updateStateFromProps] assigns on the
    initial build when [skipRenderIfItemUnchanged] is set. *)
Definition margins_default (st : Instance) : Prop :=
  (_renderOverdrawFactor st = 1 # 2)%Q /\ (_minOverdrawAmount st = 512)%Q
  /\ (_maxOverdrawAmount st = 4096)%Q /\ (_cullFraction st = 1)%Q
  /\ (_minCullAmount st = 512 * 2)%Q.

Definition margins_smart (st : Instance) : Prop :=
  (_renderOverdrawFactor st = 5)%Q /\ (_minOverdrawAmount st = 2048)%Q
  /\ (_maxOverdrawAmount st = 4096)%Q /\ (_cullFraction st = 6)%Q
  /\ (_minCullAmount st = 3072)%Q.

Definition margins_ok (st : Instance) : Prop := margins_default st \/ margins_smart st.

(** A positive layout width is the width the cells are rendered with. *)
Definition content_width_ok (st : Instance) : Prop :=
  (0 < _layoutWidth st -> _contentWidth st == _layoutWidth st)%Q.

(** The six rows mounted on iOS with the screen reader on, before any scroll. *)
Definition world_mountedSixRows : World :=
  Eval vm_compute in
    default (initialInstance, [])
      (exec (mountAndFill ios true sixRows 320 120) (initialInstance, [])).

(** ** The pool of recycled cells *)

(** The pool holds at most [m] cells, [m] being the capacity, and only
    cells that have a template and a constant height. *)
Definition pool_within (m : Z) (st : Instance) : Prop :=
  _maxRecycledCells st = m
  /\ Z.of_nat (length (_recycledCells st)) <= m
  /\ Forall (fun c => isRecyclable c = true) (_recycledCells st).

Definition pool_ok (st : Instance) : Prop :=
  pool_within (_maxRecycledCells st) st
  /\ _maxRecycledCells st <= _maxRecycledCells_default.

(** ** The virtual keys of the cells *)

(** The virtual keys of all the cells an instance holds: the active cells
    and the recycled ones. These cells are what [render] puts out, each
    under its virtual key. *)
Definition cellKeys (st : Instance) : list string :=
  ((fun kc => virtualKey kc.2) <$> map_to_list (_activeCells st))
  ++ (virtualKey <$> _recycledCells st).

(** A virtual key made from a value the counter [_nextCellKey] has passed. *)
Definition drawn (next : N) (vk : string) : Prop :=
  exists n, (n < next)%N /\ vk = _virtualKeyPrefix +:+ pretty n.

Definition cell_keys_ok (st : Instance) : Prop :=
  NoDup (cellKeys st) /\ Forall (drawn (_nextCellKey st)) (cellKeys st).

(** ** The bounds of the render block *)

Definition counters_nonneg (st : Instance) : Prop :=
  0 <= _itemsAboveRenderBlock st /\ 0 <= _itemsInRenderBlock st
  /\ 0 <= _itemsBelowRenderBlock st.

(** The render block as it is being laid out over a list of [len] items:
    its first index and its size are set, the count below is not yet. *)
Definition block_within (len : Z) (st : Instance) : Prop :=
  0 <= _itemsAboveRenderBlock st /\ 0 <= _itemsInRenderBlock st
  /\ _itemsAboveRenderBlock st + _itemsInRenderBlock st <= len.

(** The invariant of the third loop of [_handleItemListChange] before the
    item of index [i]. *)
Definition placing (i : Z) (acc : Q * bool) (st : Instance) : Prop :=
  0 <= i /\ 0 <= _itemsAboveRenderBlock st /\ 0 <= _itemsInRenderBlock st
  /\ (if acc.2 then _itemsAboveRenderBlock st = 0 /\ _itemsInRenderBlock st = 0
      else _itemsAboveRenderBlock st + _itemsInRenderBlock st <= i).

(** The list [a; b] has become [a; c]: the state after the list-change pass. *)
Definition world_listAC : World :=
  Eval vm_compute in
    default (initialInstance, []) (exec (_handleItemListChange propsAB propsAC) world_mountedAB).

(** Nothing is kept for the key [k]: no measured height, no pending
    measurement, no active cell. *)
Definition forgotten (k : string) (st : Instance) : Prop :=
  _heightCache st !! k = None /\ (k ∉ _pendingMeasurements st)
  /\ _activeCells st !! k = None.

(** ** The height of the content *)

(** The height the four height fields account for. *)
Definition itemBlockHeight (st : Instance) : Q :=
  _heightAboveRenderAdjustment st + _heightAboveRenderBlock st
  + _heightOfRenderBlock st + _heightBelowRenderBlock st.

(** A further pass over the six rows scrolled to 2000. *)
Definition world_recomputedSixRows : World :=
  Eval vm_compute in
    default (initialInstance, [])
      (exec (_calcNewRenderedItemState sixRows sixRows) world_screenReader).

(** ** Measurements in flight *)

(** At most [n] measurements are pending. *)
Definition measuring_at_most (n : nat) (st : Instance) : Prop :=
  (size (_pendingMeasurements st) <= n)%nat.

(** Forty items to be measured, guessed at 10, mounted; the container has
    just learnt its height of 480, and the pass that follows. *)
Definition fortyMeasured : Props := listProps (measuredRows 40 10) false.

Definition world_beforeFirstPass : World :=
  Eval vm_compute in
    default (initialInstance, [])
      (exec (constructor fortyMeasured;; mount web false fortyMeasured;;
             modify (set_layoutHeight 480)) (initialInstance, [])).

Definition world_afterFirstPass : World :=
  Eval vm_compute in
    default (initialInstance, [])
      (exec (_calcNewRenderedItemState fortyMeasured fortyMeasured) world_beforeFirstPass).

(** The six rows scrolled on to 2880, the caller listening. *)
Definition world_scrolledOn : World :=
  Eval vm_compute in
    default (initialInstance, [])
      (exec (_onScroll Vertical sixRowsOnScroll 2880 7) world_screenReader).

(** ** The cells of the render block *)

(** The item of key [k] has an active cell. *)
Definition has_cell (k : string) (st : Instance) : Prop := is_Some (_activeCells st !! k).

(** The render block is the [n] items from index [a]. *)
Definition block_is (a n : Z) (st : Instance) : Prop :=
  _itemsAboveRenderBlock st = a /\ _itemsInRenderBlock st = n.

(** The six rows scrolled to 2000 when the offset jumps back to 0, and the
    pass that follows. *)
Definition world_jumpedBack : World :=
  (set_lastScrollTop 0 world_screenReader.1, world_screenReader.2).

Definition world_afterJump : World :=
  Eval vm_compute in
    default (initialInstance, [])
      (exec (_calcNewRenderedItemState sixRows sixRows) world_jumpedBack).

(** ** What a render leaves in the instance *)

(** The items of the render block, in the order of the list. *)
Definition blockItems (props : Props) (st : Instance) : list ItemInfo :=
  take (Z.to_nat (_itemsInRenderBlock st))
       (drop (Z.to_nat (_itemsAboveRenderBlock st)) (itemList props)).

(** A menu of three rows, the middle one a separator that takes no focus:
    mounted and laid out, before its first render with cells, and after. *)
Definition menuProps : Props :=
  listProps [mkItem "open" 40 None None (Some true);
             mkItem "rule" 8 None None None;
             mkItem "close" 40 None None (Some true)] false.

Definition world_menu : World :=
  Eval vm_compute in
    default (initialInstance, [])
      (exec (constructor menuProps;; mount web false menuProps;;
             _onLayoutContainer menuProps 320 480) (initialInstance, [])).

Definition world_menuRendered : World :=
  Eval vm_compute in
    default (initialInstance, []) (exec (render menuProps) world_menu).

(** ** The cells of the block after a change of the list *)

(** No height is negative: neither a cached measurement nor a height
    given with an item of the list. *)
Definition heights_nonneg (props : Props) (st : Instance) : Prop :=
  map_Forall (fun _ h => (0 <= h)%Q) (_heightCache st)
  /\ Forall (fun item => (0 <= height item)%Q) (itemList props).

(** The invariant of the third loop of [_handleItemListChange] before the
    item of index [i]: while the start of the render block is looked for
    the block is empty; afterwards the items of the block have their
    cells, and the block ends where the loop stands unless the loop is
    past the bottom limit. *)
Definition placed (props : Props) (top_ bottom_ : Q) (i : Z) (acc : Q * bool)
    (st : Instance) : Prop :=
  heights_nonneg props st
  /\ if acc.2 then _itemsInRenderBlock st = 0
     else (top_ < acc.1)%Q
          /\ block_has_cells props st
          /\ 0 <= _itemsInRenderBlock st
          /\ _itemsAboveRenderBlock st + _itemsInRenderBlock st <= i
          /\ (_itemsAboveRenderBlock st + _itemsInRenderBlock st = i \/ (bottom_ <= acc.1)%Q).

(** The new props [a; c] have arrived at the mounted list [a; b]. *)
Definition world_receivedAC : World :=
  Eval vm_compute in
    default (initialInstance, [])
      (exec (_updateStateFromProps propsAB propsAC false) world_mountedAB).

(** The first screen of the menu before it is popped into view: the cells
    are there, hidden, and the fill is not yet complete. *)
Definition world_menuPopped : World :=
  Eval vm_compute in
    default (initialInstance, []) (exec (_popInvisibleIntoView menuProps) world_menu).

(** ** A cell that changes hands *)

(** The limits of the render block, as [_handleItemListChange] computes
    them. *)
Definition renderBlockTopLimit (st : Instance) : Q :=
  (_lastScrollTop st - _calcOverdrawAmount st)%Q.

Definition renderBlockBottomLimit (st : Instance) : Q :=
  (_lastScrollTop st + _layoutHeight st + _calcOverdrawAmount st)%Q.

(** [yPosition] once the third loop of [_handleItemListChange] has gone
    over the first [n] items of the list. *)
Definition yPositionAfter (st : Instance) (props : Props) (n : nat) : Q :=
  foldl (fun yPosition item => (yPosition + _getHeightOfItem st (Some item))%Q)
        (_heightAboveRenderAdjustment st) (take n (itemList props)).

(** The two tests by which that loop finds the item at index [i] within the
    render block. *)
Definition placedInBlock (st : Instance) (props : Props) (i : Z) (item : ItemInfo) : Prop :=
  let itemHeight := _getHeightOfItem st (Some item) in
  let yPosition := (yPositionAfter st props (Z.to_nat i) + itemHeight)%Q in
  Qle_bool yPosition (renderBlockTopLimit st) = false
  /\ Qlt_bool (yPosition - itemHeight) (renderBlockBottomLimit st) = true.

(** The list [a; b] mounted on iOS with the screen reader on: nothing is
    kept for recycling. *)
Definition world_mountedAB_screenReader : World :=
  Eval vm_compute in
    default (initialInstance, [])
      (exec (mountAndFill ios true propsAB 320 480) (initialInstance, [])).

Definition propsA : Props := listProps [row "a" 50] true.
Definition propsY : Props := listProps [row "y" 50] true.

(** [a; b] has become [a], rendered and settled: the cell of [b] waits in
    the pool. *)
Definition world_shrunkA : World :=
  Eval vm_compute in
    default (initialInstance, [])
      (exec (componentWillReceiveProps propsAB propsA;; renderAndSettle propsA)
            world_mountedAB).

(** * Reasoning about computations in [M] *)

Lemma Qlt_bool_iff (a b : Q) : Qlt_bool a b = true <-> (a < b)%Q.
Proof.
  unfold Qlt_bool. rewrite negb_true_iff. split.
  - intros H. apply Qnot_le_lt. intros Hle. apply Qle_bool_iff in Hle. congruence.
  - intros H. destruct (Qle_bool b a) eqn:E; [|done].
    apply Qle_bool_iff in E. exfalso. exact (Qlt_not_le _ _ H E).
Qed.

Lemma bind_Ok {A B} (m : M A) (f : A -> M B) (w : World) (r : B * World) :
  (m ≫= f) w = Ok r <-> exists a w1, m w = Ok (a, w1) /\ f a w1 = Ok r.
Proof.
  unfold mbind, M_bind. split.
  - destruct (m w) as [[a w1]|e]; [|discriminate]. eauto.
  - intros (a & w1 & -> & H). exact H.
Qed.

Lemma bind_Ok_l {A B} (m : M A) (f : A -> M B) (w w1 : World) (a : A) :
  m w = Ok (a, w1) -> (m ≫= f) w = f a w1.
Proof. unfold mbind, M_bind. by intros ->. Qed.

Lemma bind_Throw_l {A B} (m : M A) (f : A -> M B) (w : World) (e : exn) :
  m w = Throw e -> (m ≫= f) w = Throw e.
Proof. unfold mbind, M_bind. by intros ->. Qed.

Lemma log_eq (props : Props) (text : string) (w : World) :
  log props text w = Ok (tt, (w.1, if logInfo props then w.2 ++ [EvLogInfo text] else w.2)).
Proof. unfold log, when, emit. destruct (logInfo props), w; reflexivity. Qed.

(** ** The scroll handler on a known offset *)

Lemma onScroll_known (axis : Axis) (thisProps : Props) (scrollTop scrollLeft : Q)
    (st : Instance) (evs : list Event) :
  (_lastScrollTop st == primaryOffset axis scrollTop scrollLeft)%Q ->
  _onScroll axis thisProps scrollTop scrollLeft (st, evs)
  = Ok (tt, (st, if logInfo thisProps then evs ++ [EvLogInfo "Got Known Scroll: "] else evs)).
Proof.
  intros Heq. apply Qeq_bool_iff in Heq.
  unfold _onScroll. rewrite (bind_Ok_l this _ (st, evs) (st, evs) st) by reflexivity.
  cbn [fst]. rewrite Heq. apply log_eq.
Qed.

(** ** Inversion of normal returns *)

Lemma mret_Ok {A} (a : A) (w : World) (r : A * World) :
  (mret a : M A) w = Ok r <-> r = (a, w).
Proof. unfold mret, M_ret. split; [by intros [= <-]|by intros ->]. Qed.

Lemma this_Ok (w : World) (r : Instance * World) : this w = Ok r <-> r = (w.1, w).
Proof. unfold this. split; [by intros [= <-]|by intros ->]. Qed.

Lemma modify_Ok (f : Instance -> Instance) (w : World) (r : unit * World) :
  modify f w = Ok r <-> r = (tt, (f w.1, w.2)).
Proof. unfold modify. split; [by intros [= <-]|by intros ->]. Qed.

Lemma emit_Ok (e : Event) (w : World) (r : unit * World) :
  emit e w = Ok r <-> r = (tt, (w.1, w.2 ++ [e])).
Proof. unfold emit. split; [by intros [= <-]|by intros ->]. Qed.

Lemma throw_Ok {A} (e : exn) (w : World) (r : A * World) : throw e w = Ok r <-> False.
Proof. unfold throw. split; [discriminate|done]. Qed.

Lemma assert_Ok (c : bool) (msg : string) (w : World) (r : unit * World) :
  assert c msg w = Ok r <-> c = true /\ r = (tt, w).
Proof.
  unfold assert. destruct c.
  - rewrite mret_Ok. naive_solver.
  - rewrite throw_Ok. naive_solver.
Qed.

Lemma expect_Ok {A} (o : option A) (w : World) (r : A * World) :
  expect o w = Ok r <-> exists a, o = Some a /\ r = (a, w).
Proof.
  unfold expect. destruct o.
  - rewrite mret_Ok. naive_solver.
  - rewrite throw_Ok. naive_solver.
Qed.

Lemma log_Ok (props : Props) (text : string) (w : World) (r : unit * World) :
  log props text w = Ok r
  <-> r = (tt, (w.1, if logInfo props then w.2 ++ [EvLogInfo text] else w.2)).
Proof. rewrite log_eq. split; [by intros [= <-]|by intros ->]. Qed.

(** ** Rules for [hoare] and [preserves] *)

Section rules.
Context {A B : Type}.
Implicit Types (P : Instance -> Prop).

Lemma hoare_bind P (m : M A) (f : A -> M B) (R : A -> Instance -> Prop)
    (Q : B -> Instance -> Prop) :
  hoare P m R -> (forall a, hoare (R a) (f a) Q) -> hoare P (m ≫= f) Q.
Proof.
  intros Hm Hf w b w' H HP. apply bind_Ok in H as (a & w1 & H1 & H2).
  eapply Hf; [exact H2|]. eapply Hm; eauto.
Qed.

Lemma hoare_conseq P P' (m : M A) (Q Q' : A -> Instance -> Prop) :
  hoare P' m Q' -> (forall s, P s -> P' s) -> (forall a s, Q' a s -> Q a s) -> hoare P m Q.
Proof. intros H HP HQ w a w' Hm Hw. eapply HQ, H; eauto. Qed.

Lemma preserves_bind P (m : M A) (f : A -> M B) :
  preserves P m -> (forall a, preserves P (f a)) -> preserves P (m ≫= f).
Proof. intros Hm Hf. eapply hoare_bind; [exact Hm|exact Hf]. Qed.

Lemma preserves_bind_this P (f : Instance -> M B) :
  (forall st, P st -> preserves P (f st)) -> preserves P (this ≫= f).
Proof.
  intros Hf w b w' H HP. apply bind_Ok in H as (a & w1 & H1 & H2).
  apply this_Ok in H1 as [= -> ->]. eapply Hf; eauto.
Qed.

Lemma preserves_ret P (a : A) : preserves P (mret a : M A).
Proof. intros w a' w' H HP. apply mret_Ok in H as [= -> ->]. exact HP. Qed.

Lemma preserves_throw P (e : exn) : preserves P (throw e : M A).
Proof. intros w a' w' H. by apply throw_Ok in H. Qed.

Lemma preserves_expect P (o : option A) : preserves P (expect o).
Proof. intros w a' w' H HP. apply expect_Ok in H as (a & _ & [= -> ->]). exact HP. Qed.
End rules.

Lemma preserves_modify (P : Instance -> Prop) (f : Instance -> Instance) :
  (forall s, P s -> P (f s)) -> preserves P (modify f).
Proof. intros Hf w a w' H HP. apply modify_Ok in H as [= -> ->]. by apply Hf. Qed.

Lemma preserves_emit (P : Instance -> Prop) (e : Event) : preserves P (emit e).
Proof. intros w a w' H HP. apply emit_Ok in H as [= -> ->]. exact HP. Qed.

Lemma preserves_assert (P : Instance -> Prop) (c : bool) (msg : string) :
  preserves P (assert c msg).
Proof. intros w a w' H HP. apply assert_Ok in H as (_ & [= -> ->]). exact HP. Qed.

Lemma preserves_log (P : Instance -> Prop) (props : Props) (text : string) :
  preserves P (log props text).
Proof. intros w a w' H HP. apply log_Ok in H as [= -> ->]. exact HP. Qed.

Lemma preserves_when (P : Instance -> Prop) (b : bool) (m : M unit) :
  (b = true -> preserves P m) -> preserves P (when b m).
Proof. intros Hm. destruct b; [by apply Hm|apply preserves_ret]. Qed.

Lemma preserves_forEach {A S} (P : Instance -> Prop) (body : Z -> A -> S -> M S)
    (l : list A) (i : Z) (acc : S) :
  (forall i x acc, x ∈ l -> preserves P (body i x acc)) -> preserves P (forEach body i l acc).
Proof.
  revert i acc. induction l as [|x l IH]; intros i acc Hbody; simpl.
  - apply preserves_ret.
  - apply preserves_bind; [apply Hbody; left|].
    intros acc'. apply IH. intros. apply Hbody. by right.
Qed.

(** [pres] walks through the structure of a computation; what is left are
    the [modify] steps the predicate is sensitive to, and the calls. *)
Ltac pres_modify :=
  apply preserves_modify;
  let s := fresh "s" in let H := fresh "HP" in
  intros s H;
  first [ exact H
        | match goal with
          | Hs : stable ?set ?P |- ?P (?set _ _) => apply Hs; exact H
          end ].

Ltac pres_step :=
  lazymatch goal with
  | |- preserves _ (mret _) => apply preserves_ret
  | |- preserves _ (throw _) => apply preserves_throw
  | |- preserves _ (expect _) => apply preserves_expect
  | |- preserves _ (emit _) => apply preserves_emit
  | |- preserves _ (assert _ _) => apply preserves_assert
  | |- preserves _ (log _ _) => apply preserves_log
  | |- preserves _ (modify _) => pres_modify
  | |- preserves _ (this ≫= _) =>
      apply preserves_bind_this; let st := fresh "st" in let H := fresh "Hst" in intros st H
  | |- preserves _ (modify _ ≫= _) => apply preserves_bind; [pres_modify|intros ?]
  | |- preserves _ (_ ≫= _) => apply preserves_bind; [|intros ?]
  | |- preserves _ (when ?b _) =>
      apply preserves_when; let H := fresh "Hb" in intros H
  | |- preserves _ (forEach _ _ _ _) =>
      apply preserves_forEach; let H := fresh "Hin" in intros ? ? ? H
  | |- preserves _ (if ?b then _ else _) =>
      let H := fresh "Hb" in destruct b eqn:H
  | |- preserves _ (match ?o with Some _ => _ | None => _ end) =>
      let H := fresh "Ho" in destruct o eqn:H
  | |- preserves _ (let '(_, _) := ?p in _) => destruct p
  end.

Ltac pres := repeat pres_step.

Ltac as_preserves :=
  lazymatch goal with
  | |- hoare ?P ?m _ => change (preserves P m)
  end.

(** Closes [stable set P] when [P] does not read the field. *)
Ltac frame :=
  first [ assumption
        | let H := fresh "H" in unfold stable; intros ? ? H; exact H ].

(** ** What the helpers leave alone *)

Section frames.
Variable P : Instance -> Prop.

Lemma setCellTopAndVisibility_preserves k v t a :
  stable set_activeCells P -> preserves P (_setCellTopAndVisibility k v t a).
Proof. intros. unfold _setCellTopAndVisibility. pres. Qed.

Lemma renderIfDirty_preserves props : preserves P (_renderIfDirty props).
Proof. unfold _renderIfDirty. pres. Qed.

Lemma recycleCell_preserves k :
  stable set_activeCells P -> stable set_recycledCells P -> stable set_isRenderDirty P ->
  preserves P (_recycleCell k).
Proof.
  intros. unfold _recycleCell. pres.
  by apply setCellTopAndVisibility_preserves.
Qed.

Lemma allocateCell_preserves k t i c h tp v :
  stable set_activeCells P -> stable set_recycledCells P -> stable set_isRenderDirty P ->
  stable set_nextCellKey P ->
  preserves P (_allocateCell k t i c h tp v).
Proof. intros. unfold _allocateCell. pres. Qed.

Lemma componentDidRender_preserves props :
  stable set_isRenderDirty P -> preserves P (_componentDidRender props).
Proof. intros. unfold _componentDidRender. pres. Qed.

Lemma popInvisibleIntoView_preserves props :
  stable set_activeCells P -> stable set_isInitialFillComplete P ->
  preserves P (_popInvisibleIntoView props).
Proof.
  intros. unfold _popInvisibleIntoView. pres.
  by apply setCellTopAndVisibility_preserves.
Qed.

Lemma reconcileCorrections_preserves props :
  stable set_activeCells P -> stable set_containerHeight P ->
  stable set_heightAboveRenderAdjustment P ->
  preserves P (_reconcileCorrections props).
Proof.
  intros. unfold _reconcileCorrections. pres.
  by apply setCellTopAndVisibility_preserves.
Qed.

Lemma scrollToItemKey_preserves props k : preserves P (_scrollToItemKey props k).
Proof. unfold _scrollToItemKey, _scrollToItemIndex, scrollToTop. pres. Qed.

Lemma focusSubsequentItem_preserves props d kb retry :
  stable set_pendingFocusDirection P -> preserves P (_focusSubsequentItem props d kb retry).
Proof.
  intros. unfold _focusSubsequentItem, scrollToTop. pres.
  apply scrollToItemKey_preserves.
Qed.

Lemma foundVisibleItemBefore_preserves st props i indices :
  preserves P (foundVisibleItemBefore st props i indices).
Proof.
  induction indices as [|j indices IH]; [apply preserves_ret|].
  cbn [foundVisibleItemBefore]. pres. exact IH.
Qed.

Lemma setFocusIfNeeded_preserves props :
  stable set_pendingFocusDirection P -> preserves P (_setFocusIfNeeded props).
Proof.
  intros. unfold _setFocusIfNeeded. pres.
  by apply focusSubsequentItem_preserves.
Qed.
End frames.

Lemma modify_bind {B} (f : Instance -> Instance) (k : unit -> M B) (w : World) :
  (modify f ≫= k) w = k tt (f w.1, w.2).
Proof. reflexivity. Qed.

Lemma mret_bind {A B} (a : A) (k : A -> M B) (w : World) : (mret a ≫= k) w = k a w.
Proof. reflexivity. Qed.

Lemma bind_assoc {A B C} (m : M A) (g : A -> M B) (k : B -> M C) (w : World) :
  ((m ≫= g) ≫= k) w = (m ≫= (fun a => g a ≫= k)) w.
Proof. unfold mbind, M_bind. by destruct (m w) as [[a w1]|e]. Qed.

(** Normal form of a computation applied to a world: binds associated to
    the right, with the leading [mret] and [modify] steps executed. *)
Ltac mnorm :=
  repeat first [ rewrite bind_assoc | rewrite mret_bind | rewrite modify_bind ].

Ltac mnorm_in H :=
  repeat first [ rewrite bind_assoc in H | rewrite mret_bind in H | rewrite modify_bind in H ].

(** A run of field assignments at the head of a computation that returned:
    the assertion is re-established for the instance they leave, and the
    tail is handled by [tac]. *)
Ltac modify_block P tac :=
  let w := fresh "w" in let r := fresh "r" in let w' := fresh "w'" in
  let H := fresh "H" in let HP := fresh "HP" in
  intros w r w' H HP;
  repeat first [ rewrite modify_bind in H | rewrite bind_assoc in H | rewrite mret_bind in H ];
  lazymatch type of H with
  | ?m _ = Ok _ =>
      let Hrest := fresh "Hrest" in
      assert (Hrest : preserves P m);
      [ tac | eapply Hrest; [exact H|]; clear Hrest H ]
  end.

(** ** What a recomputation pass leaves alone *)

Section calc_frame.
Variable P : Instance -> Prop.
Hypothesis HP : calc_frame P.

Local Ltac open_frame := destruct HP.

(** The step that adds the key of an item of unknown height. *)
Local Ltac pending_add :=
  lazymatch goal with
  | Hst : P ?st, Hb : negb (_isItemHeightKnown ?st ?item) = true
    |- preserves P (modify _) =>
      apply preserves_modify; intros ? ?;
      apply (cf_pendingAdd P HP st item); [exact Hst|by apply negb_true_iff|assumption]
  end.

Lemma cullFromTop_preserves n props line : preserves P (cullFromTop n props line).
Proof.
  open_frame. induction n as [|n IH]; [apply preserves_ret|].
  cbn [cullFromTop]. pres; [by apply recycleCell_preserves|exact IH].
Qed.

Lemma cullFromBottom_preserves n props line : preserves P (cullFromBottom n props line).
Proof.
  open_frame. induction n as [|n IH]; [apply preserves_ret|].
  cbn [cullFromBottom]. pres; [by apply recycleCell_preserves|exact IH].
Qed.

Lemma findFirstInRenderBlock_preserves props limit i items y :
  preserves P (findFirstInRenderBlock props limit i items y).
Proof.
  pose proof HP as []. revert i y. induction items as [|item items IH]; intros i y;
    [apply preserves_ret|].
  cbn [findFirstInRenderBlock]. pres;
    [by apply allocateCell_preserves|pending_add|apply IH].
Qed.

Lemma buildItem_preserves props i above ys : preserves P (buildItem props i above ys).
Proof.
  pose proof HP as []. unfold buildItem. destruct ys as [topY bottomY]. pres.
  all: first [pending_add | by apply allocateCell_preserves].
Qed.

Lemma growAtBottom_preserves n props limit ys : preserves P (growAtBottom n props limit ys).
Proof.
  revert ys. induction n as [|n IH]; intros ys; [apply preserves_ret|].
  cbn [growAtBottom]. pres; [apply buildItem_preserves|apply IH].
Qed.

Lemma growAtTop_preserves n props limit ys : preserves P (growAtTop n props limit ys).
Proof.
  revert ys. induction n as [|n IH]; intros ys; [apply preserves_ret|].
  cbn [growAtTop]. pres; [apply buildItem_preserves|apply IH].
Qed.

Lemma calcNewRenderedItemState_preserves thisProps props :
  preserves P (_calcNewRenderedItemState thisProps props).
Proof.
  pose proof HP as [].
  unfold _calcNewRenderedItemState. pres.
  - apply cullFromTop_preserves.
  - apply cullFromBottom_preserves.
  - apply findFirstInRenderBlock_preserves.
  - by apply setCellTopAndVisibility_preserves.
  - apply growAtBottom_preserves.
  - apply growAtTop_preserves.
  - by apply popInvisibleIntoView_preserves.
  - by apply componentDidRender_preserves.
Qed.
End calc_frame.

Ltac calc_frame :=
  constructor;
  first [ frame | (let H := fresh "H" in intros ? ? ? ? ? H; exact H) ].

(** ** The three counters account for every item *)

Section counters.
Variable c : Z.
Let P : Instance -> Prop := fun s => itemCount s = c.

Ltac count_arith P :=
  lazymatch goal with
  | HP : P (fst ?w) |- _ =>
      destruct w as [[] ?]; revert HP; unfold P, itemCount; simpl; lia
  end.

Lemma cullFromTop_count n props line : preserves P (cullFromTop n props line).
Proof.
  induction n as [|n IH]; [apply preserves_ret|].
  cbn [cullFromTop]. pres.
  modify_block P ltac:(pres; [apply recycleCell_preserves; frame|exact IH]).
  count_arith P.
Qed.

Lemma cullFromBottom_count n props line : preserves P (cullFromBottom n props line).
Proof.
  induction n as [|n IH]; [apply preserves_ret|].
  cbn [cullFromBottom]. pres.
  modify_block P ltac:(pres; [apply recycleCell_preserves; frame|exact IH]).
  count_arith P.
Qed.

Lemma buildItem_count props i above ys : preserves P (buildItem props i above ys).
Proof.
  unfold buildItem. destruct ys as [topY bottomY]. pres.
  destruct above.
  - modify_block P ltac:(pres; apply allocateCell_preserves; frame).
    count_arith P.
  - modify_block P ltac:(pres; apply allocateCell_preserves; frame).
    count_arith P.
Qed.

Lemma growAtBottom_count n props limit ys : preserves P (growAtBottom n props limit ys).
Proof.
  revert ys. induction n as [|n IH]; intros ys; [apply preserves_ret|].
  cbn [growAtBottom]. pres; [apply buildItem_count|apply IH].
Qed.

Lemma growAtTop_count n props limit ys : preserves P (growAtTop n props limit ys).
Proof.
  revert ys. induction n as [|n IH]; intros ys; [apply preserves_ret|].
  cbn [growAtTop]. pres; [apply buildItem_count|apply IH].
Qed.
End counters.

Lemma calcNewRenderedItemState_count thisProps props :
  preserves (fun s => itemCount s = itemList_length props)
            (_calcNewRenderedItemState thisProps props).
Proof.
  unfold _calcNewRenderedItemState. pres.
  - apply cullFromTop_count.
  - apply cullFromBottom_count.
  - (* the block was empty: the counters are set afresh *)
    intros w r w' H _. rewrite modify_bind in H.
    apply bind_Ok in H as (? & w1 & _ & H). rewrite !modify_bind in H.
    apply modify_Ok in H as [= _ ->]. destruct w1 as [[] ?].
    unfold itemCount. simpl. lia.
  - apply setCellTopAndVisibility_preserves; frame.
  - apply growAtBottom_count.
  - apply growAtTop_count.
  - apply popInvisibleIntoView_preserves; frame.
  - apply componentDidRender_preserves; frame.
Qed.

Lemma handleItemListChange_count thisProps props :
  hoare (fun _ => True) (_handleItemListChange thisProps props)
        (fun _ s => itemCount s = itemList_length props).
Proof.
  intros w r w' H _. unfold _handleItemListChange in H.
  apply bind_Ok in H as (newItemMap & w1 & _ & H).
  apply bind_Ok in H as (? & w2 & _ & H).
  apply bind_Ok in H as (st & w3 & _ & H).
  rewrite !modify_bind in H.
  apply bind_Ok in H as (? & w4 & _ & H).
  rewrite !modify_bind in H.
  lazymatch type of H with
  | ?m _ = Ok _ =>
      assert (Hrest : preserves (fun s => itemCount s = itemList_length props) m) by pres;
      eapply Hrest; [exact H|]
  end.
  destruct w4 as [[] ?]. unfold itemCount. simpl. lia.
Qed.

Lemma isEqual_itemList_length l1 l2 :
  isEqual_itemList l1 l2 = true -> length l1 = length l2.
Proof.
  revert l2. induction l1 as [|x l1 IH]; intros [|y l2]; simpl; try done.
  intros [_ H]%andb_true_iff. f_equal. by apply IH.
Qed.

Lemma updateStateFromProps_count thisProps props initialBuild :
  hoare (fun s => initialBuild = true \/ itemCount s = itemList_length thisProps)
        (_updateStateFromProps thisProps props initialBuild)
        (fun _ s => itemCount s = itemList_length props).
Proof.
  unfold _updateStateFromProps.
  set (P := fun s => initialBuild = true \/ itemCount s = itemList_length thisProps).
  apply (hoare_bind _ _ _ (fun _ => P)); [apply preserves_log|intros ?].
  apply (hoare_bind _ _ _ (fun _ => P)); [as_preserves; pres|intros ?].
  apply (hoare_bind _ _ _ (fun _ s => itemCount s = itemList_length props));
    [|intros ?; apply renderIfDirty_preserves].
  destruct (initialBuild || negb (isEqual_itemList (itemList thisProps) (itemList props)))
    eqn:Hchg; unfold when.
  - apply (hoare_bind _ _ _ (fun _ s => itemCount s = itemList_length props)).
    + eapply hoare_conseq; [apply handleItemListChange_count|done|].
      intros ? s Hs. exact Hs.
    + intros ?. apply calcNewRenderedItemState_count.
  - apply orb_false_iff in Hchg as [-> Heq]. apply negb_false_iff in Heq.
    apply isEqual_itemList_length in Heq.
    assert (Hlen : itemList_length thisProps = itemList_length props)
      by (unfold itemList_length; by rewrite Heq).
    intros w r w' H [?|HP]; [done|]. apply mret_Ok in H as [= _ <-]. by rewrite <- Hlen.
Qed.

Lemma isEqual_props_length a b :
  isEqual_props a b = true -> itemList_length a = itemList_length b.
Proof.
  unfold isEqual_props. rewrite !andb_true_iff. intros [[[[[[[[H _] _] _] _] _] _] _] _].
  unfold itemList_length. by rewrite (isEqual_itemList_length _ _ H).
Qed.

Lemma onLayoutItem_count thisProps k h :
  preserves (fun s => itemCount s = itemList_length thisProps) (_onLayoutItem thisProps k h).
Proof.
  unfold _onLayoutItem, onLayoutItem_record. pres.
  - apply foundVisibleItemBefore_preserves.
  - apply calcNewRenderedItemState_count.
  - apply renderIfDirty_preserves.
  - apply reconcileCorrections_preserves; frame.
Qed.

Ltac use_count props :=
  lazymatch goal with
  | |- ?m _ = Ok _ -> _ -> _ =>
      let Hp := fresh "Hp" in
      enough (Hp : preserves (fun s => itemCount s = itemList_length props) m);
      [exact (Hp _ _ _)|]
  end.

(** C1. In every state a component reaches, whatever entry points ran
    (list change, container layout, scroll, item measurement, the settle
    pass with its culling and growth of the block), the counters satisfy
    [_itemsAboveRenderBlock + _itemsInRenderBlock + _itemsBelowRenderBlock
    = itemList.length]. *)
Theorem render_block_counters_sum (props : Props) (w : World) :
  reachable props w -> itemCount w.1 = itemList_length props.
Proof.
  induction 1 as
    [props k w H
    |platform sr props w w' _ IH H
    |props w w' _ IH H
    |props nextProps w w' _ IH H
    |props nextProps w w' _ IH H
    |props w w' _ IH H
    |props w w' _ IH H
    |props width_ height_ w w' _ IH H
    |props k h w w' _ IH H
    |axis props scrollTop scrollLeft w w' _ IH H
    |props k start w w' _ IH H
    |props w w' _ IH H
    |platform props b w w' _ IH H
    |props d w w' b _ IH H
    |props w k _ IH
    |props w b _ IH].
  - unfold constructor in H. apply bind_Ok in H as (? & w1 & H1 & H2).
    apply modify_Ok in H2 as [= ->].
    exact (updateStateFromProps_count props props true _ _ _ H1 (or_introl eq_refl)).
  - revert H IH. use_count props.
    unfold componentDidMount, _setupForAccessibility. pres.
    + apply componentDidRender_preserves; frame.
    + apply scrollToItemKey_preserves.
  - revert H IH. use_count props.
    unfold componentWillUnmount. pres.
  - unfold componentWillReceiveProps, when in H.
    destruct (isEqual_props props nextProps) eqn:Heq; simpl in H.
    + apply mret_Ok in H as [= <-]. by rewrite <- (isEqual_props_length _ _ Heq).
    + exact (updateStateFromProps_count props nextProps false _ _ _ H (or_intror IH)).
  - exact (updateStateFromProps_count props nextProps false _ _ _ H (or_intror IH)).
  - revert H IH. use_count props.
    unfold render, componentDidUpdate. pres.
    apply componentDidRender_preserves; frame.
  - revert H IH. use_count props.
    unfold settle. pres.
    + apply calcNewRenderedItemState_count.
    + apply renderIfDirty_preserves.
    + apply reconcileCorrections_preserves; frame.
    + apply setFocusIfNeeded_preserves; frame.
  - revert H IH. use_count props.
    unfold _onLayoutContainer, _resizeAllItems. pres.
    + apply calcNewRenderedItemState_count.
    + apply renderIfDirty_preserves.
    + apply reconcileCorrections_preserves; frame.
  - revert H IH. apply onLayoutItem_count.
  - revert H IH. use_count props.
    unfold _onScroll. pres.
    + apply calcNewRenderedItemState_count.
    + apply renderIfDirty_preserves.
    + apply reconcileCorrections_preserves; frame.
  - revert H IH. use_count props.
    unfold _onAnimateStartStopItem. pres.
  - revert H IH. use_count props.
    unfold deferredReconcile. pres.
    apply reconcileCorrections_preserves; frame.
  - revert H IH. use_count props.
    unfold _screenReaderStateChanged, _setupForAccessibility, _tearDownForAccessibility. pres.
    all: apply renderIfDirty_preserves.
  - revert H IH. use_count props.
    apply focusSubsequentItem_preserves; frame.
  - exact IH.
  - exact IH.
Qed.

(** ** Scroll events *)

Lemma onScroll_records_offset axis thisProps scrollTop scrollLeft w w1 :
  _onScroll axis thisProps scrollTop scrollLeft w = Ok (tt, w1) ->
  (_lastScrollTop w1.1 == primaryOffset axis scrollTop scrollLeft)%Q.
Proof.
  unfold _onScroll. intros H.
  apply bind_Ok in H as (st & w0 & Hthis & H). apply this_Ok in Hthis as [= -> ->].
  destruct (Qeq_bool _ _) eqn:Heq.
  - apply log_Ok in H as [= ->]. by apply Qeq_bool_iff.
  - rewrite modify_bind in H.
    set (o := primaryOffset axis scrollTop scrollLeft) in *.
    lazymatch type of H with
    | ?m _ = Ok _ =>
        assert (Hp : preserves (fun s => _lastScrollTop s = o) m)
    end.
    { pres.
      - apply calcNewRenderedItemState_preserves. calc_frame.
      - apply renderIfDirty_preserves.
      - apply reconcileCorrections_preserves; frame. }
    rewrite (Hp _ _ _ H); [reflexivity|]. destruct w as [[] ?]. reflexivity.
Qed.

(** C7. A scroll event whose primary-axis offset equals the recorded one
    leaves the instance as it is and calls nothing but the optional logger:
    no recomputation, no force-update, no reconcile. Hence the same offset
    delivered twice in a row does nothing the second time. *)
Theorem onScroll_same_offset_noop (axis : Axis) (thisProps : Props) (scrollTop scrollLeft : Q) :
  (forall st evs,
     (_lastScrollTop st == primaryOffset axis scrollTop scrollLeft)%Q ->
     _onScroll axis thisProps scrollTop scrollLeft (st, evs)
     = Ok (tt, (st, if logInfo thisProps
                    then evs ++ [EvLogInfo "Got Known Scroll: "] else evs)))
  /\ (forall w w1,
        _onScroll axis thisProps scrollTop scrollLeft w = Ok (tt, w1) ->
        _onScroll axis thisProps scrollTop scrollLeft w1
        = Ok (tt, (w1.1, if logInfo thisProps
                         then w1.2 ++ [EvLogInfo "Got Known Scroll: "] else w1.2))).
Proof.
  split.
  - intros st evs Heq. by apply onScroll_known.
  - intros w [st1 evs1] H. apply onScroll_records_offset in H.
    by apply onScroll_known.
Qed.

(** C10. A scroll event that differs from the last one only on the cross
    axis is dropped: the instance is unchanged, and [props.onScroll] is not
    called even when the caller supplied it. *)
Theorem onScroll_cross_axis_change_dropped (thisProps : Props) (st : Instance)
    (evs : list Event) (scrollTop scrollLeft : Q) :
  (forall otherLeft,
     (_lastScrollTop st == scrollTop)%Q ->
     exists evs',
       _onScroll Vertical thisProps scrollTop otherLeft (st, evs) = Ok (tt, (st, evs ++ evs'))
       /\ Forall (fun e => is_onScroll e = false /\ e <> EvForceUpdate) evs')
  /\ (forall otherTop,
        (_lastScrollTop st == scrollLeft)%Q ->
        exists evs',
          _onScroll Horizontal thisProps otherTop scrollLeft (st, evs) = Ok (tt, (st, evs ++ evs'))
          /\ Forall (fun e => is_onScroll e = false /\ e <> EvForceUpdate) evs').
Proof.
  split; intros other Heq.
  - rewrite (onScroll_known Vertical thisProps scrollTop other st evs Heq).
    destruct (logInfo thisProps).
    + eexists. split; [reflexivity|]. by repeat constructor.
    + exists []. by rewrite app_nil_r.
  - rewrite (onScroll_known Horizontal thisProps other scrollLeft st evs Heq).
    destruct (logInfo thisProps).
    + eexists. split; [reflexivity|]. by repeat constructor.
    + exists []. by rewrite app_nil_r.
Qed.

(** ** Stale measurement callbacks *)

(** C9. A measurement for a key that is not in the item directory, or for
    an item whose height is declared constant, changes nothing: the
    instance is returned as it was, and nothing but the logger is called. *)
Theorem onLayoutItem_stale_ignored (thisProps : Props) (itemKey : string) (newHeight : Q)
    (st : Instance) (evs : list Event) :
  _itemMap st !! itemKey = None
  \/ (exists itemIndex item,
        _itemMap st !! itemKey = Some itemIndex
        /\ item_at (itemList thisProps) itemIndex = Some item
        /\ truthy_bool (measureHeight item) = false) ->
  exists evs',
    _onLayoutItem thisProps itemKey newHeight (st, evs) = Ok (tt, (st, evs ++ evs'))
    /\ Forall (fun e => is_log e = true) evs'.
Proof.
  intros H. unfold _onLayoutItem.
  rewrite (bind_Ok_l this _ (st, evs) (st, evs) st) by reflexivity.
  destruct (_isMounted st); simpl.
  2: { exists []. by rewrite app_nil_r. }
  destruct H as [->|(i & item & -> & Hitem & Hconst)].
  { exists []. by rewrite app_nil_r. }
  rewrite Hitem. cbn [expect]. rewrite mret_bind. rewrite Hconst.
  change (negb false) with true. cbn iota.
  rewrite log_eq. simpl. destruct (logInfo thisProps).
  - eexists. split; [reflexivity|]. by repeat constructor.
  - exists []. by rewrite app_nil_r.
Qed.

(** ** Duplicate keys *)

Lemma buildMap_fresh thisProps props i item (m : gmap string Z) w :
  m !! key item = None ->
  exists w', handleItemListChange_buildMap thisProps props i item m w
             = Ok (<[key item := i]> m, w').
Proof.
  intros Hm. unfold handleItemListChange_buildMap. rewrite Hm.
  rewrite bool_decide_eq_false_2 by (by intros [? ?]).
  cbn [when]. rewrite mret_bind.
  rewrite (bind_Ok_l this _ w w w.1) by (by destruct w).
  destruct (_activeCells w.1 !! key item) as [cell|]; [|by eexists].
  destruct (_itemMap w.1 !! key item) as [oldItemIndex|].
  - destruct (skipRenderIfItemUnchanged thisProps || _); by eexists.
  - by eexists.
Qed.

Lemma buildMap_duplicate thisProps props i item (m : gmap string Z) w :
  is_Some (m !! key item) ->
  handleItemListChange_buildMap thisProps props i item m w
  = Throw (AssertionFailure ("Found a duplicate key: " +:+ key item)).
Proof.
  intros Hm. unfold handleItemListChange_buildMap.
  by rewrite bool_decide_eq_true_2.
Qed.

Lemma buildMap_loop_duplicate thisProps props (l : list ItemInfo) i (m : gmap string Z) w :
  (exists k, k ∈ (key <$> l) /\ is_Some (m !! k)) \/ ~ NoDup (key <$> l) ->
  exists k, k ∈ (key <$> l)
            /\ forEach (handleItemListChange_buildMap thisProps props) i l m w
               = Throw (AssertionFailure ("Found a duplicate key: " +:+ k)).
Proof.
  revert i m w. induction l as [|item l IH]; intros i m w Hdup.
  - destruct Hdup as [(k & Hk & _)|Hnd]; [by apply elem_of_nil in Hk|].
    exfalso. apply Hnd. constructor.
  - cbn [forEach fmap list_fmap].
    destruct (m !! key item) as [j|] eqn:Hm.
    + exists (key item). split; [by left|].
      apply bind_Throw_l, buildMap_duplicate. by rewrite Hm.
    + destruct (buildMap_fresh thisProps props i item m w Hm) as [w' Hbody].
      rewrite (bind_Ok_l _ _ _ _ _ Hbody).
      destruct (IH (i + 1) (<[key item := i]> m) w') as (k & Hk & Hthrow).
      * destruct Hdup as [(k & Hk & Hsome)|Hnd].
        -- apply elem_of_cons in Hk as [->|Hk].
           { rewrite Hm in Hsome. by destruct Hsome. }
           left. exists k. split; [done|].
           destruct (decide (key item = k)) as [->|Hne].
           ++ rewrite lookup_insert_eq. eauto.
           ++ by rewrite lookup_insert_ne.
        -- destruct (decide (key item ∈ key <$> l)) as [Hin|Hnin].
           ++ left. exists (key item). split; [done|]. rewrite lookup_insert_eq. eauto.
           ++ right. intros Hnd'. apply Hnd. by constructor.
      * exists k. split; [by right|exact Hthrow].
Qed.

(** C8. A list with two items of the same key makes the list-change pass
    (and with it the constructor, which always runs it) stop with the
    assertion failure "Found a duplicate key: k" for a key [k] of the
    list; nothing is dropped or merged silently. *)
Theorem duplicate_key_assertion (thisProps props : Props) (w : World) :
  ~ NoDup (key <$> itemList props) ->
  exists k, k ∈ (key <$> itemList props)
    /\ _handleItemListChange thisProps props w
       = Throw (AssertionFailure ("Found a duplicate key: " +:+ k))
    /\ _updateStateFromProps thisProps props true w
       = Throw (AssertionFailure ("Found a duplicate key: " +:+ k))
    /\ (thisProps = props ->
        constructor props w = Throw (AssertionFailure ("Found a duplicate key: " +:+ k))).
Proof.
  intros Hnd.
  set (w1 := (w.1, if logInfo props
                   then w.2 ++ [EvLogInfo "Rebuilding VirtualListView State - initial: ..., items: ..."]
                   else w.2)).
  assert (exists w2, (when (true && skipRenderIfItemUnchanged props)
             (modify (set_renderOverdrawFactor 5);;
              modify (set_minOverdrawAmount 2048);;
              modify (set_maxOverdrawAmount 4096);;
              modify (set_cullFraction 6);;
              modify (set_minCullAmount 3072))) w1 = Ok (tt, w2)) as [w2 Hw2].
  { destruct (skipRenderIfItemUnchanged props); by eexists. }
  destruct (buildMap_loop_duplicate thisProps props (itemList props) 0 ∅ w2 (or_intror Hnd))
    as (k & Hk & Hthrow2).
  destruct (buildMap_loop_duplicate thisProps props (itemList props) 0 ∅ w (or_intror Hnd))
    as (k' & Hk' & Hthrow).
  assert (k' = k) as ->.
  { clear -Hthrow Hthrow2. revert Hthrow Hthrow2.
    generalize (∅ : gmap string Z) 0 w w2.
    induction (itemList props) as [|item l IH]; intros m i wa wb Ha Hb; [done|].
    cbn [forEach] in Ha, Hb.
    destruct (m !! key item) as [j|] eqn:Hm.
    - rewrite (bind_Throw_l _ _ _ _ (buildMap_duplicate thisProps props i item m wa
                                          ltac:(by rewrite Hm))) in Ha.
      rewrite (bind_Throw_l _ _ _ _ (buildMap_duplicate thisProps props i item m wb
                                          ltac:(by rewrite Hm))) in Hb.
      injection Ha as Ha. injection Hb as Hb.
      apply (inj _) in Ha. apply (inj _) in Hb. congruence.
    - destruct (buildMap_fresh thisProps props i item m wa Hm) as [wa' Ha'].
      destruct (buildMap_fresh thisProps props i item m wb Hm) as [wb' Hb'].
      rewrite (bind_Ok_l _ _ _ _ _ Ha') in Ha. rewrite (bind_Ok_l _ _ _ _ _ Hb') in Hb.
      eauto. }
  assert (Hupd : _updateStateFromProps thisProps props true w
                 = Throw (AssertionFailure ("Found a duplicate key: " +:+ k))).
  { unfold _updateStateFromProps.
    rewrite (bind_Ok_l _ _ _ _ _ (log_eq props _ w)). fold w1.
    rewrite (bind_Ok_l _ _ _ _ _ Hw2).
    apply bind_Throw_l. cbn [orb when]. apply bind_Throw_l.
    unfold _handleItemListChange. by apply bind_Throw_l. }
  exists k. split; [done|]. split; [|split; [exact Hupd|]].
  - unfold _handleItemListChange. by apply bind_Throw_l.
  - intros ->. unfold constructor. by apply bind_Throw_l.
Qed.

(** ** The cell pool *)

Lemma findIndex_from_none {A} (p : A -> bool) (i : Z) (l : list A) :
  Forall (fun x => p x = false) l -> findIndex_from p i l = -1.
Proof.
  revert i. induction l as [|x l IH]; intros i Hl; [done|].
  apply Forall_cons in Hl as [Hx Hl]. simpl. rewrite Hx. by apply IH.
Qed.

Lemma findIndex_from_first {A} (p : A -> bool) (i : Z) (l1 l2 : list A) (x : A) :
  Forall (fun y => p y = false) l1 -> p x = true ->
  findIndex_from p i (l1 ++ x :: l2) = i + Z.of_nat (length l1).
Proof.
  revert i. induction l1 as [|y l1 IH]; intros i Hl Hx; simpl.
  - rewrite Hx. lia.
  - apply Forall_cons in Hl as [Hy Hl]. rewrite Hy, IH by done. lia.
Qed.

Lemma findIndex_first {A} (p : A -> bool) (l1 l2 : list A) (x : A) :
  Forall (fun y => p y = false) l1 -> p x = true ->
  findIndex p (l1 ++ x :: l2) = Z.of_nat (length l1).
Proof. intros. unfold findIndex. by rewrite findIndex_from_first. Qed.

Lemma delete_middle {A} (l1 l2 : list A) (x : A) :
  delete (length l1) (l1 ++ x :: l2) = l1 ++ l2.
Proof. induction l1 as [|y l1 IH]; simpl; [done|]. by rewrite IH. Qed.

Lemma delete_0_tail {A} (l : list A) : delete 0%nat l = tail l.
Proof. by destruct l. Qed.

Lemma setCellTopAndVisibility_eq k v t a st evs cell :
  _activeCells st !! k = Some cell ->
  _setCellTopAndVisibility k v t a (st, evs)
  = Ok (tt, (set_activeCells (<[k := cell_setTopAndVisibility v t cell]> (_activeCells st)) st,
             evs)).
Proof.
  intros Hc. unfold _setCellTopAndVisibility.
  rewrite (bind_Ok_l this _ (st, evs) (st, evs) st) by reflexivity.
  by rewrite Hc.
Qed.

Lemma allocateCell_reuse st evs k t i h tp v before cell after :
  _activeCells st !! k = None ->
  truthy_string t = true ->
  _recycledCells st = before ++ cell :: after ->
  isHeightConstant cell = true ->
  isBestOption k t h before cell after ->
  let cell' := cell_setShouldUpdate true (cell_setTopAndVisibility v tp cell) in
  _allocateCell k t i true h tp v (st, evs)
  = Ok (cell',
        (set_activeCells (<[k := cell']> (_activeCells st))
           (set_isRenderDirty true (set_recycledCells (before ++ after) st)), evs)).
Proof.
  intros Hk Ht HR Hconst Hbest cell'. unfold _allocateCell.
  rewrite (bind_Ok_l this _ (st, evs) (st, evs) st) by reflexivity.
  rewrite Hk, Ht. cbn [andb].
  assert (Htmpl : itemTemplate cell = t).
  { destruct Hbest as [[He _]|(_ & Ht' & _)].
    - unfold isExactMatch in He. apply andb_true_iff in He as [He _].
      apply andb_true_iff in He as [He _]. by apply bool_decide_eq_true in He.
    - by apply bool_decide_eq_true in Ht'. }
  set (exact := findIndex _ (_recycledCells st)).
  set (tmpl := findIndex _ (_recycledCells st)).
  assert (Hbest' : (if exact <? 0 then tmpl else exact) = Z.of_nat (length before)).
  { subst exact tmpl. rewrite HR. destruct Hbest as [[He Hb]|(Hnone & Ht' & Hb)].
    - change (findIndex (isExactMatch k t h) (before ++ cell :: after)) with
        (findIndex (isExactMatch k t h) (before ++ cell :: after)).
      rewrite (findIndex_first (isExactMatch k t h)) by done.
      destruct (Z.ltb_spec (Z.of_nat (length before)) 0); [lia|done].
    - unfold findIndex at 1.
      rewrite (findIndex_from_none (isExactMatch k t h)) by done.
      change (-1 <? 0) with true. cbn iota.
      by rewrite (findIndex_first (hasTemplate t)). }
  rewrite Hbest'.
  destruct (Z.leb_spec 0 (Z.of_nat (length before))); [|lia].
  rewrite Nat2Z.id, HR, delete_middle.
  mnorm. rewrite lookup_app_r by lia. rewrite Nat.sub_diag. cbn [lookup list_lookup].
  mnorm.
  change (isHeightConstant (cell_setShouldUpdate true (cell_setTopAndVisibility v tp cell)))
    with (isHeightConstant cell).
  rewrite Hconst. change (assert (eqb true true) ?m) with (mret tt : M unit).
  mnorm.
  change (itemTemplate (cell_setShouldUpdate true (cell_setTopAndVisibility v tp cell)))
    with (itemTemplate cell).
  rewrite bool_decide_eq_true_2 by done.
  change (assert true ?m) with (mret tt : M unit).
  mnorm. reflexivity.
Qed.

Lemma recycleCell_spec st evs k cell :
  _activeCells st !! k = Some cell ->
  exists st',
    _recycleCell k (st, evs) = Ok (tt, (st', evs))
    /\ _activeCells st' = delete k (_activeCells st)
    /\ _nextCellKey st' = _nextCellKey st
    /\ _maxRecycledCells st' = _maxRecycledCells st
    /\ let hidden := cell_setTopAndVisibility false (top cell) cell in
       if 0 <? _maxRecycledCells st then
         if isRecyclable cell then
           if _maxRecycledCells st <? Z.of_nat (length (_recycledCells st ++ [hidden])) then
             _recycledCells st' = tail (_recycledCells st ++ [hidden])
             /\ _isRenderDirty st' = true
           else
             _recycledCells st' = _recycledCells st ++ [hidden]
             /\ _isRenderDirty st' = _isRenderDirty st
         else _recycledCells st' = _recycledCells st /\ _isRenderDirty st' = true
       else _recycledCells st' = _recycledCells st /\ _isRenderDirty st' = _isRenderDirty st.
Proof.
  intros Hc. unfold _recycleCell.
  rewrite (bind_Ok_l this _ (st, evs) (st, evs) st) by reflexivity.
  rewrite Hc. unfold isRecyclable. cbn zeta.
  destruct (0 <? _maxRecycledCells st) eqn:Hmax.
  - rewrite bind_assoc.
    rewrite (bind_Ok_l _ _ _ _ _ (setCellTopAndVisibility_eq k false (top cell) false st evs cell Hc)).
    destruct (truthy_string (itemTemplate cell) && isHeightConstant cell) eqn:Hq.
    + mnorm. rewrite (bind_Ok_l this _ _ _ _ eq_refl). cbn [fst snd].
      destruct (_maxRecycledCells st <? _) eqn:Hfull.
      * erewrite (bind_Ok_l (when _ _)); cycle 1.
        { unfold when.
          match goal with |- (if ?b then _ else _) _ = _ => change b with
            (_maxRecycledCells st <? Z.of_nat (length (_recycledCells st
                    ++ [cell_setTopAndVisibility false (top cell) cell]))) end.
          rewrite Hfull. mnorm. reflexivity. }
        eexists. split; [reflexivity|]. cbn.
        split; [by rewrite delete_insert_eq|]. repeat split.
        apply delete_0_tail.
      * erewrite (bind_Ok_l (when _ _)); cycle 1.
        { unfold when.
          match goal with |- (if ?b then _ else _) _ = _ => change b with
            (_maxRecycledCells st <? Z.of_nat (length (_recycledCells st
                    ++ [cell_setTopAndVisibility false (top cell) cell]))) end.
          rewrite Hfull. reflexivity. }
        eexists. split; [reflexivity|]. cbn.
        split; [by rewrite delete_insert_eq|]. done.
    + mnorm. eexists. split; [reflexivity|]. cbn.
      split; [by rewrite delete_insert_eq|]. done.
  - mnorm. eexists. split; [reflexivity|]. done.
Qed.



(** ** Change-skipping *)

(** What the first loop of [_handleItemListChange] does to the cell of a
    retained item: with [skipRenderIfItemUnchanged] set, the cell is marked
    whether or not the descriptor changed. *)
Lemma buildMap_retained thisProps props i item (m : gmap string Z) st evs cell oldItemIndex :
  m !! key item = None ->
  _activeCells st !! key item = Some cell ->
  _itemMap st !! key item = Some oldItemIndex ->
  handleItemListChange_buildMap thisProps props i item m (st, evs)
  = Ok (<[key item := i]> m,
        (if skipRenderIfItemUnchanged thisProps
            || negb (isEqual_item (item_at (itemList thisProps) oldItemIndex) (Some item))
         then set_activeCells (<[key item := cell_setShouldUpdate true cell]> (_activeCells st)) st
         else st, evs)).
Proof.
  intros Hm Hc Hi. unfold handleItemListChange_buildMap. rewrite Hm.
  rewrite bool_decide_eq_false_2 by (by intros [? ?]).
  cbn [when]. mnorm.
  rewrite (bind_Ok_l this _ (st, evs) (st, evs) st) by reflexivity.
  rewrite Hc, Hi. by destruct (skipRenderIfItemUnchanged thisProps || _).
Qed.

(** C2, at a failing input. The list [a; b] is mounted with
    [skipRenderIfItemUnchanged], rendered and settled, so that the cell of
    [a] has [shouldUpdate = false]. The list becomes [a; c], with the
    descriptor of [a] unchanged: the cell of [a] comes out marked
    [shouldUpdate = true]. *)
Theorem skipRender_marks_unchanged_item :
  mountedAB (initialInstance, []) = Ok (tt, world_mountedAB)
  /\ skipRenderIfItemUnchanged propsAB = true
  /\ isEqual_item (item_at (itemList propsAB) 0) (item_at (itemList propsAC) 0) = true
  /\ shouldUpdate <$> _activeCells world_mountedAB.1 !! "a" = Some false
  /\ exists w1,
       componentWillReceiveProps propsAB propsAC world_mountedAB = Ok (tt, w1)
       /\ shouldUpdate <$> _activeCells w1.1 !! "a" = Some true.
Proof.
  split; [vm_compute; reflexivity|].
  split; [reflexivity|]. split; [reflexivity|].
  split; [vm_compute; reflexivity|].
  assert (E : match componentWillReceiveProps propsAB propsAC world_mountedAB with
              | Ok (_, w) => shouldUpdate <$> _activeCells w.1 !! "a"
              | Throw _ => None
              end = Some true) by (vm_compute; reflexivity).
  destruct (componentWillReceiveProps propsAB propsAC world_mountedAB) as [[[] w1]|e];
    [|discriminate].
  by exists w1.
Qed.

(** C3, at a failing input. Six rows are mounted on iOS with the screen
    reader on (recycling disabled: capacity 0) and scrolled until all have
    been rendered. Recycling the cell of a row then removes it from the
    active map, puts it nowhere, and leaves the render clean; the scroll to
    the end of the list culls two cells and asks for no render. *)
Theorem recycle_without_pool_leaves_render_clean :
  scrolledWithScreenReader (initialInstance, []) = Ok (tt, world_screenReader)
  /\ _maxRecycledCells world_screenReader.1 = 0
  /\ is_Some (_activeCells world_screenReader.1 !! "r1")
  /\ _isRenderDirty world_screenReader.1 = false
  /\ (exists w1,
        _recycleCell "r1" world_screenReader = Ok (tt, w1)
        /\ _activeCells w1.1 !! "r1" = None
        /\ _recycledCells w1.1 = []
        /\ _isRenderDirty w1.1 = false)
  /\ (exists w2,
        _onScroll Vertical sixRows 2880 0 world_screenReader = Ok (tt, w2)
        /\ size (_activeCells world_screenReader.1) = 5%nat
        /\ size (_activeCells w2.1) = 3%nat
        /\ _recycledCells w2.1 = []
        /\ _isRenderDirty w2.1 = false
        /\ w2.2 = world_screenReader.2).
Proof.
  split; [vm_compute; reflexivity|].
  split; [reflexivity|].
  split; [vm_compute; eauto|].
  split; [reflexivity|].
  split.
  - assert (E : match _recycleCell "r1" world_screenReader with
                | Ok (_, w) =>
                    Some (_activeCells w.1 !! "r1", _recycledCells w.1, _isRenderDirty w.1)
                | Throw _ => None
                end = Some (None, [], false)) by (vm_compute; reflexivity).
    destruct (_recycleCell "r1" world_screenReader) as [[[] w1]|e]; [|discriminate].
    exists w1. by injection E as -> -> ->.
  - assert (E : match _onScroll Vertical sixRows 2880 0 world_screenReader with
                | Ok (_, w) =>
                    Some (size (_activeCells w.1), _recycledCells w.1, _isRenderDirty w.1,
                          bool_decide (w.2 = world_screenReader.2))
                | Throw _ => None
                end = Some (3%nat, [], false, true)) by (vm_compute; reflexivity).
    destruct (_onScroll Vertical sixRows 2880 0 world_screenReader) as [[[] w2]|e];
      [|discriminate].
    exists w2. injection E as -> -> -> Hev.
    split; [done|]. split; [vm_compute; reflexivity|]. split; [done|]. split; [done|].
    split; [done|]. by apply bool_decide_eq_true in Hev.
Qed.

(** ** The correction reconciler *)

Lemma Qabs_pos (a : Q) : ~ (a == 0)%Q -> Qlt_bool 0 (Qabs a) = true.
Proof.
  intros Ha. apply Qlt_bool_iff. apply Qabs_case; intros H.
  - destruct (Qlt_le_dec 0 a) as [?|Hle]; [done|]. exfalso. apply Ha. lra.
  - destruct (Qlt_le_dec 0 (- a)) as [?|Hle]; [done|]. exfalso. apply Ha. lra.
Qed.

Lemma Qabs_zero (a : Q) : (a == 0)%Q -> Qlt_bool 0 (Qabs a) = false.
Proof.
  intros Ha. unfold Qlt_bool. apply negb_false_iff, Qle_bool_iff.
  apply Qabs_case; intros H; lra.
Qed.

Lemma insert_as_alter {V} (f : V -> V) (k : string) (m : gmap string V) (c : V) :
  m !! k = Some c -> <[k := f c]> m = alter f k m.
Proof.
  intros Hc. apply map_eq. intros k'. destruct (decide (k = k')) as [<-|Hne].
  - by rewrite lookup_insert_eq, lookup_alter_eq, Hc.
  - by rewrite lookup_insert_ne, lookup_alter_ne.
Qed.

Lemma shiftCells_cons adj props (i : Z) (l : list Z) cells :
  shiftCells adj props (i :: l) cells
  = shiftCells adj props l
      match item_at (itemList props) i with
      | Some item => alter (shiftCell adj) (key item) cells
      | None => cells
      end.
Proof. reflexivity. Qed.

Lemma reconcile_loop props (l : list Z) (z : Z) (st : Instance) (evs : list Event) :
  (forall i, i ∈ l -> exists item cell,
       item_at (itemList props) i = Some item /\ _activeCells st !! key item = Some cell) ->
  forEach (fun _ i (_ : unit) =>
             s ← this;
             item ← expect (item_at (itemList props) i);
             cell ← expect (_activeCells s !! key item);
             _setCellTopAndVisibility (key item) (isVisible cell)
               (top cell - _heightAboveRenderAdjustment s)%Q false)
          z l tt (st, evs)
  = Ok (tt, (set_activeCells
               (shiftCells (_heightAboveRenderAdjustment st) props l (_activeCells st)) st,
             evs)).
Proof.
  revert z st. induction l as [|i l IH]; intros z st Hcells; [done|].
  cbn [forEach].
  destruct (Hcells i) as (item & cell & Hitem & Hcell); [by left|].
  erewrite bind_Ok_l; cycle 1.
  { rewrite (bind_Ok_l this _ (st, evs) (st, evs) st) by reflexivity.
    rewrite Hitem. cbn [expect]. mnorm. rewrite Hcell. mnorm.
    by apply setCellTopAndVisibility_eq. }
  rewrite IH.
  - rewrite shiftCells_cons, Hitem.
    rewrite <- (insert_as_alter (shiftCell (_heightAboveRenderAdjustment st)) _ _ _ Hcell).
    reflexivity.
  - intros j Hj. destruct (Hcells j) as (item' & cell' & Hitem' & Hcell'); [by right|].
    exists item'. cbn.
    destruct (decide (key item = key item')) as [Heq|Hne].
    + rewrite Heq, lookup_insert_eq. eauto.
    + rewrite lookup_insert_ne by done. eauto.
Qed.

Lemma shiftCells_other adj props (l : list Z) cells k :
  (forall i item, i ∈ l -> item_at (itemList props) i = Some item -> key item <> k) ->
  shiftCells adj props l cells !! k = cells !! k.
Proof.
  revert cells. induction l as [|i l IH]; intros cells Hk; [done|].
  rewrite shiftCells_cons.
  rewrite IH by (intros j item Hj; apply Hk; by right).
  destruct (item_at (itemList props) i) as [item|] eqn:Hitem; [|done].
  apply lookup_alter_ne. eapply Hk; [by left|done].
Qed.

Lemma shiftCells_block adj props (l : list Z) cells i item :
  NoDup l ->
  (forall j b, j ∈ l -> item_at (itemList props) j = Some b -> key b = key item -> j = i) ->
  i ∈ l -> item_at (itemList props) i = Some item ->
  shiftCells adj props l cells !! key item = shiftCell adj <$> cells !! key item.
Proof.
  revert cells. induction l as [|j l IH]; intros cells Hnd Hinj Hi Hitem.
  { by apply elem_of_nil in Hi. }
  apply NoDup_cons in Hnd as [Hj Hnd].
  rewrite shiftCells_cons.
  apply elem_of_cons in Hi as [->|Hi].
  - rewrite Hitem. rewrite shiftCells_other.
    + by rewrite lookup_alter_eq.
    + intros j' b Hj' Hb Heq. apply Hj.
      rewrite <- (Hinj j' b); [done|by right|done|done].
  - rewrite IH; [|done|..|done|done].
    + destruct (item_at (itemList props) j) as [b|] eqn:Hb; [|done].
      rewrite lookup_alter_ne; [done|]. intros Heq. apply Hj.
      rewrite (Hinj j b); [done|by left|done|done].
    + intros j1 b H1. apply Hinj. by right.
Qed.

Lemma reconcile_loop_reads props (l : list Z) (z : Z) (st : Instance) (evs : list Event) r :
  forEach (fun _ i (_ : unit) =>
             s ← this;
             item ← expect (item_at (itemList props) i);
             cell ← expect (_activeCells s !! key item);
             _setCellTopAndVisibility (key item) (isVisible cell)
               (top cell - _heightAboveRenderAdjustment s)%Q false)
          z l tt (st, evs) = Ok r ->
  forall i, i ∈ l -> exists item cell,
    item_at (itemList props) i = Some item /\ _activeCells st !! key item = Some cell.
Proof.
  revert z st. induction l as [|j l IH]; intros z st H i Hi.
  { by apply elem_of_nil in Hi. }
  cbn [forEach] in H. apply bind_Ok in H as ([] & w1 & Hbody & H).
  rewrite (bind_Ok_l this _ _ _ _ eq_refl) in Hbody. cbn [fst] in Hbody.
  apply bind_Ok in Hbody as (item & w2 & Hitem & Hbody).
  apply expect_Ok in Hitem as (? & Hitem & [= <- ->]).
  apply bind_Ok in Hbody as (cell & w2 & Hcell & Hbody).
  apply expect_Ok in Hcell as (? & Hcell & [= <- ->]).
  rewrite (setCellTopAndVisibility_eq _ _ _ _ _ _ _ Hcell) in Hbody. injection Hbody as <-.
  apply elem_of_cons in Hi as [->|Hi]; [by exists item, cell|].
  destruct (IH _ _ H i Hi) as (item' & cell' & Hitem' & Hcell'). cbn in Hcell'.
  exists item'. destruct (decide (key item = key item')) as [Heq|Hne].
  - exists cell. by rewrite <- Heq.
  - exists cell'. by rewrite lookup_insert_ne in Hcell'.
Qed.

(** C5. With no animation pending and a nonzero pending adjustment, the
    reconciler flushes: the container height becomes its old value minus
    the adjustment (and the animated value is set to it), and the
    adjustment is zero afterwards. The cell of an item of the render block
    whose key no other item of the block bears has, after the pass, the
    [top] of before minus the adjustment, and every other field as before,
    [isVisible] included; the cells of keys outside the block are as
    before. Whatever the adjustment was, with no animation pending none is
    left after the pass; this holds at every scroll offset, offset 0
    included. All this holds when every item of the render block has a
    cell, as a change of the list and a recomputation pass leave it; the
    pass reads each of these cells, and it is only then that it returns
    from a nonzero adjustment. *)
Theorem reconcileCorrections_flushes (props : Props) (st : Instance) (evs : list Event) :
  size (_pendingAnimations st) = 0%nat ->
  (block_has_cells props st ->
   (~ (_heightAboveRenderAdjustment st == 0)%Q ->
    exists st' evs',
      _reconcileCorrections props (st, evs) = Ok (tt, (st', evs'))
      /\ _containerHeight st' = (_containerHeight st - _heightAboveRenderAdjustment st)%Q
      /\ EvContainerHeightValue (_containerHeight st - _heightAboveRenderAdjustment st)%Q ∈ evs'
      /\ _heightAboveRenderAdjustment st' = 0%Q
      /\ (forall i item cell,
            inRenderBlock st i -> item_at (itemList props) i = Some item ->
            (forall j b, inRenderBlock st j -> item_at (itemList props) j = Some b ->
                         key b = key item -> j = i) ->
            _activeCells st !! key item = Some cell ->
            exists cell',
              _activeCells st' !! key item = Some cell'
              /\ top cell' = (top cell - _heightAboveRenderAdjustment st)%Q
              /\ isVisible cell' = isVisible cell
              /\ virtualKey cell' = virtualKey cell
              /\ itemTemplate cell' = itemTemplate cell
              /\ isHeightConstant cell' = isHeightConstant cell
              /\ cell_height cell' = cell_height cell
              /\ cachedItemKey cell' = cachedItemKey cell
              /\ shouldUpdate cell' = shouldUpdate cell)
      /\ (forall k,
            (forall i item, inRenderBlock st i -> item_at (itemList props) i = Some item ->
                            key item <> k) ->
            _activeCells st' !! k = _activeCells st !! k))
   /\ (exists w', _reconcileCorrections props (st, evs) = Ok (tt, w')
                  /\ (_heightAboveRenderAdjustment w'.1 == 0)%Q))
  /\ (~ (_heightAboveRenderAdjustment st == 0)%Q ->
      (exists r, _reconcileCorrections props (st, evs) = Ok r) ->
      block_has_cells props st).
Proof.
  intros Hanim. split; [intros Hcells|]; cycle 1.
  { intros Hadj [r H] i Hi. unfold _reconcileCorrections in H.
    rewrite (bind_Ok_l this _ (st, evs) (st, evs) st) in H by reflexivity.
    rewrite Hanim in H. rewrite bool_decide_eq_false_2 in H by lia.
    assert (Hmax : (if Qeq_bool (_lastScrollTop st) 0
                       || Qlt_bool (_lastScrollTop st) (_heightAboveRenderAdjustment st)
                    then 0%Q else 0%Q) = 0%Q) by (by destruct (_ || _)).
    cbn zeta in H. rewrite Hmax, (Qabs_pos _ Hadj) in H. cbn [when] in H.
    rewrite (bind_Ok_l _ _ _ _ _ (log_eq props _ _)) in H.
    rewrite (bind_Ok_l _ _ _ _ _ (log_eq props _ _)) in H.
    mnorm_in H. rewrite (bind_Ok_l (emit _) _ _ _ _ eq_refl) in H.
    apply bind_Ok in H as ([] & w1 & Hloop & _).
    apply (reconcile_loop_reads _ _ _ _ _ _ Hloop i). by apply elem_of_seqZ. }
  assert (Hflush : ~ (_heightAboveRenderAdjustment st == 0)%Q ->
    _reconcileCorrections props (st, evs)
    = Ok (tt, (set_heightAboveRenderAdjustment 0
                 (set_activeCells
                    (shiftCells (_heightAboveRenderAdjustment st) props
                       (seqZ (_itemsAboveRenderBlock st) (_itemsInRenderBlock st))
                       (_activeCells st))
                    (set_containerHeight
                       (_containerHeight st - _heightAboveRenderAdjustment st)%Q st)),
               (if logInfo props
                then (if logInfo props
                      then evs ++ [EvLogInfo "Removing _heightAboveRenderAdjustment"]
                      else evs) ++ [EvLogInfo "Container Height Change: ... to ..."]
                else (if logInfo props
                      then evs ++ [EvLogInfo "Removing _heightAboveRenderAdjustment"]
                      else evs))
               ++ [EvContainerHeightValue
                     (_containerHeight st - _heightAboveRenderAdjustment st)%Q]))).
  { intros Hadj. unfold _reconcileCorrections.
    rewrite (bind_Ok_l this _ (st, evs) (st, evs) st) by reflexivity.
    rewrite Hanim. rewrite bool_decide_eq_false_2 by lia.
    assert (Hmax : (if Qeq_bool (_lastScrollTop st) 0
                       || Qlt_bool (_lastScrollTop st) (_heightAboveRenderAdjustment st)
                    then 0%Q else 0%Q) = 0%Q) by (by destruct (_ || _)).
    cbn zeta. rewrite Hmax, (Qabs_pos _ Hadj). cbn [when].
    rewrite (bind_Ok_l _ _ _ _ _ (log_eq props _ _)).
    rewrite (bind_Ok_l _ _ _ _ _ (log_eq props _ _)).
    mnorm. rewrite (bind_Ok_l (emit _) _ _ _ _ eq_refl).
    erewrite bind_Ok_l; cycle 1.
    { apply reconcile_loop. intros i Hi. apply elem_of_seqZ in Hi.
      destruct (Hcells i Hi) as (item & cell & ? & ?). by exists item, cell. }
    reflexivity. }
  split.
  - intros Hadj. eexists _, _. split; [by apply Hflush|].
    split; [reflexivity|]. split; [set_solver|]. split; [reflexivity|]. split.
    + intros i item cell Hi Hitem Honly Hcell.
      exists (shiftCell (_heightAboveRenderAdjustment st) cell). split.
      * cbn. rewrite (shiftCells_block _ _ _ _ i item);
          [by rewrite Hcell|apply NoDup_seqZ| |by apply elem_of_seqZ|done].
        intros j b Hj. apply Honly. by apply elem_of_seqZ.
      * by repeat split.
    + intros k Hk. apply shiftCells_other.
      intros i item Hi Hitem. apply (Hk i item); [by apply elem_of_seqZ|done].
  - destruct (Qeq_dec (_heightAboveRenderAdjustment st) 0) as [Hz|Hnz].
    + exists (st, evs). split; [|done].
      unfold _reconcileCorrections.
      rewrite (bind_Ok_l this _ (st, evs) (st, evs) st) by reflexivity.
      rewrite Hanim. rewrite bool_decide_eq_false_2 by lia.
      assert (Hmax : (if Qeq_bool (_lastScrollTop st) 0
                         || Qlt_bool (_lastScrollTop st) (_heightAboveRenderAdjustment st)
                      then 0%Q else 0%Q) = 0%Q) by (by destruct (_ || _)).
      cbn zeta. by rewrite Hmax, (Qabs_zero _ Hz).
    + eexists. split; [by apply Hflush|]. reflexivity.
Qed.

(** ** Item measurements *)

Lemma foundVisibleItemBefore_total st thisProps itemIndex (before after : list Z) w :
  (forall i, i ∈ before -> is_Some (item_at (itemList thisProps) i)) ->
  is_Some (item_at (itemList thisProps) itemIndex) ->
  exists found,
    foundVisibleItemBefore st thisProps itemIndex (before ++ itemIndex :: after) w
    = Ok (found, w).
Proof.
  intros Hbefore [item Hitem]. induction before as [|i before IH]; cbn [app foundVisibleItemBefore].
  - rewrite Hitem. cbn [expect]. mnorm. rewrite Z.eqb_refl.
    destruct (_isCellVisible st (key item)); by eexists.
  - destruct (Hbefore i) as [a Ha]; [by left|]. rewrite Ha. cbn [expect]. mnorm.
    destruct (_isCellVisible st (key a)); [by eexists|].
    destruct (i =? itemIndex); [by eexists|].
    apply IH. intros j Hj. apply Hbefore. by right.
Qed.

Lemma item_at_is_Some (l : list ItemInfo) (i : Z) :
  0 <= i < Z.of_nat (length l) -> is_Some (item_at l i).
Proof.
  intros Hi. unfold item_at. rewrite bool_decide_eq_true_2 by lia.
  apply lookup_lt_is_Some. lia.
Qed.

Lemma item_at_Some_lt (l : list ItemInfo) (i : Z) (item : ItemInfo) :
  item_at l i = Some item -> 0 <= i < Z.of_nat (length l).
Proof.
  unfold item_at. case_bool_decide; [|done]. intros Hl%lookup_lt_Some. lia.
Qed.

(** The booking of a measurement of an item of the render block. *)
Lemma onLayoutItem_record_spec thisProps k itemIndex oldHeight newHeight st evs item :
  item_at (itemList thisProps) itemIndex = Some item ->
  inRenderBlock st itemIndex ->
  0 <= _itemsAboveRenderBlock st ->
  exists needsRecalc st1 evs1,
    onLayoutItem_record thisProps k itemIndex oldHeight newHeight (st, evs)
    = Ok (needsRecalc, (st1, evs1))
    /\ _heightCache st1 = _heightCache st
    /\ _pendingMeasurements st1 = _pendingMeasurements st ∖ {[k]}
    /\ (_heightOfRenderBlock st1 == _heightOfRenderBlock st + (newHeight - oldHeight))%Q
    /\ _itemsAboveRenderBlock st1 = _itemsAboveRenderBlock st
    /\ _itemsInRenderBlock st1 = _itemsInRenderBlock st
    /\ _isMounted st1 = _isMounted st
    /\ (~ (oldHeight == newHeight)%Q -> needsRecalc = true).
Proof.
  intros Hitem Hin Habove. unfold onLayoutItem_record.
  destruct (Qeq_bool oldHeight newHeight) eqn:Heq; cbn [negb].
  - apply Qeq_bool_iff in Heq. mnorm.
    rewrite (bind_Ok_l this _ _ _ _ eq_refl). mnorm.
    eexists _, _, _. split; [reflexivity|]. cbn.
    repeat split; try done. destruct st; simpl. lra.
  - rewrite bind_assoc, (bind_Ok_l _ _ _ _ _ (log_eq thisProps _ _)). mnorm.
    rewrite (bind_Ok_l this _ _ _ _ eq_refl). cbn [fst snd].
    set (evs0 := if logInfo thisProps then _ else _).
    change (_isInitialFillComplete (set_heightOfRenderBlock ?h st))
      with (_isInitialFillComplete st).
    destruct (_isInitialFillComplete st) eqn:Hfill; cbn [when].
    + (* the search for a visible item before this one *)
      assert (Hsplit : seqZ (_itemsAboveRenderBlock st) (_itemsInRenderBlock st)
                       = seqZ (_itemsAboveRenderBlock st) (itemIndex - _itemsAboveRenderBlock st)
                         ++ itemIndex
                            :: seqZ (itemIndex + 1)
                                 (_itemsAboveRenderBlock st + _itemsInRenderBlock st
                                  - itemIndex - 1)).
      { unfold inRenderBlock in Hin.
        replace (_itemsInRenderBlock st)
          with ((itemIndex - _itemsAboveRenderBlock st)
                + (_itemsAboveRenderBlock st + _itemsInRenderBlock st - itemIndex)) at 1 by lia.
        rewrite seqZ_app by lia. f_equal.
        rewrite seqZ_cons by lia. f_equal; [lia|]. f_equal; lia. }
      change (_itemsAboveRenderBlock (set_heightOfRenderBlock ?h st))
        with (_itemsAboveRenderBlock st).
      change (_itemsInRenderBlock (set_heightOfRenderBlock ?h st))
        with (_itemsInRenderBlock st).
      rewrite Hsplit.
      edestruct (foundVisibleItemBefore_total
                   (set_heightOfRenderBlock
                      (_heightOfRenderBlock st + (newHeight - oldHeight))%Q st)
                   thisProps itemIndex) as [found Hfound]; cycle 2.
      * rewrite !bind_assoc. erewrite bind_Ok_l by exact Hfound.
        destruct found; cbn [negb when]; mnorm.
        -- rewrite (bind_Ok_l this _ _ _ _ eq_refl). mnorm.
           eexists _, _, _. split; [reflexivity|]. cbn. repeat split; done.
        -- rewrite (bind_Ok_l _ _ _ _ _ (log_eq thisProps _ _)). mnorm.
           rewrite (bind_Ok_l this _ _ _ _ eq_refl). mnorm.
           eexists _, _, _. split; [reflexivity|]. cbn. repeat split; done.
      * intros i Hi. apply elem_of_seqZ in Hi.
        apply item_at_Some_lt in Hitem. apply item_at_is_Some. lia.
      * by rewrite Hitem.
    + mnorm. rewrite (bind_Ok_l this _ _ _ _ eq_refl). mnorm.
      eexists _, _, _. split; [reflexivity|]. cbn. repeat split; done.
Qed.

Lemma measurement_kept thisProps props (cache : gmap string Q) k m :
  cache !! k = Some m ->
  preserves (fun s => _heightCache s = cache /\ k ∉ _pendingMeasurements s)
            (_calcNewRenderedItemState thisProps props).
Proof.
  intros Hk. apply calcNewRenderedItemState_preserves.
  constructor; try frame.
  intros st item s [Hc _] Hknown [Hc' Hp]. split; [exact Hc'|].
  assert (key item <> k).
  { intros <-. unfold _isItemHeightKnown in Hknown. rewrite Hc, Hk in Hknown.
    rewrite bool_decide_eq_true_2 in Hknown by eauto. by rewrite orb_true_r in Hknown. }
  cbn. set_solver.
Qed.


(** ** The concrete runs are runs of a component *)

Lemma renderAndSettle_reachable props w w' :
  reachable props w -> renderAndSettle props w = Ok (tt, w') -> reachable props w'.
Proof.
  intros Hr H. unfold renderAndSettle in H.
  apply bind_Ok in H as ([] & w1 & H1 & H2).
  eapply reach_settle; [|exact H2]. eapply reach_render; [exact Hr|exact H1].
Qed.

Lemma mountAndFill_reachable platform sr props layoutWidth layoutHeight w :
  mountAndFill platform sr props layoutWidth layoutHeight (initialInstance, []) = Ok (tt, w) ->
  reachable props w.
Proof.
  unfold mountAndFill. intros H.
  apply bind_Ok in H as ([] & w1 & H1 & H).
  apply bind_Ok in H as ([] & w2 & H2 & H).
  apply bind_Ok in H as ([] & w3 & H3 & H).
  apply bind_Ok in H as ([] & w4 & H4 & H).
  apply bind_Ok in H as ([] & w5 & H5 & H6).
  assert (R1 : reachable props w1) by exact (reach_constructor props 1%N w1 H1).
  assert (R2 : reachable props w2).
  { unfold mount in H2. rewrite modify_bind in H2.
    exact (reach_mount _ _ _ _ _ (reach_scrollViewRef _ _ true R1) H2). }
  assert (R3 : reachable props w3) by exact (reach_layoutContainer _ _ _ _ _ R2 H3).
  eauto using renderAndSettle_reachable.
Qed.

(** ** The theorems at concrete inputs *)

(** The counters of the list [a; b] once mounted, rendered and settled. *)
Lemma render_block_counters_sum_mountedAB :
  reachable propsAB world_mountedAB
  /\ itemCount world_mountedAB.1 = itemList_length propsAB.
Proof.
  assert (H : reachable propsAB world_mountedAB).
  { apply (mountAndFill_reachable web false propsAB 320 480). vm_compute. reflexivity. }
  split; [exact H|]. exact (render_block_counters_sum propsAB world_mountedAB H).
Defined.

(** The scroll event of offset 2000 delivered again to the list that was
    scrolled to 2000. *)
Lemma onScroll_same_offset_noop_scrolled :
  (_lastScrollTop world_screenReader.1 == 2000)%Q
  /\ _onScroll Vertical sixRows 2000 0 world_screenReader = Ok (tt, world_screenReader).
Proof.
  assert (H : (_lastScrollTop world_screenReader.1 == 2000)%Q) by reflexivity.
  split; [exact H|].
  exact (proj1 (onScroll_same_offset_noop Vertical sixRows 2000%Q 0%Q)
           world_screenReader.1 world_screenReader.2 H).
Defined.

(** A horizontal move of 35 at offset 2000, with a caller listening. *)
Lemma onScroll_cross_axis_change_dropped_scrolled :
  onScroll sixRowsOnScroll = true
  /\ (_lastScrollTop world_screenReader.1 == 2000)%Q
  /\ exists evs',
       _onScroll Vertical sixRowsOnScroll 2000 35 world_screenReader
       = Ok (tt, (world_screenReader.1, world_screenReader.2 ++ evs'))
       /\ Forall (fun e => is_onScroll e = false /\ e <> EvForceUpdate) evs'.
Proof.
  assert (H : (_lastScrollTop world_screenReader.1 == 2000)%Q) by reflexivity.
  split; [reflexivity|]. split; [exact H|].
  exact (proj1 (onScroll_cross_axis_change_dropped sixRowsOnScroll world_screenReader.1
                  world_screenReader.2 2000%Q 0%Q) 35%Q H).
Defined.

(** A measurement for the key [z], which the list [a; b] does not have,
    and one for [a], whose height is constant. *)
Lemma onLayoutItem_stale_ignored_mountedAB :
  _itemMap world_mountedAB.1 !! "z" = None
  /\ (exists evs',
        _onLayoutItem propsAB "z" 80 world_mountedAB
        = Ok (tt, (world_mountedAB.1, world_mountedAB.2 ++ evs'))
        /\ Forall (fun e => is_log e = true) evs')
  /\ (exists evs',
        _onLayoutItem propsAB "a" 80 world_mountedAB
        = Ok (tt, (world_mountedAB.1, world_mountedAB.2 ++ evs'))
        /\ Forall (fun e => is_log e = true) evs').
Proof.
  assert (Hz : _itemMap world_mountedAB.1 !! "z" = None) by (vm_compute; reflexivity).
  assert (Ha : _itemMap world_mountedAB.1 !! "a" = Some 0) by (vm_compute; reflexivity).
  split; [exact Hz|]. split.
  - exact (onLayoutItem_stale_ignored propsAB "z" 80%Q world_mountedAB.1 world_mountedAB.2
             (or_introl Hz)).
  - apply (onLayoutItem_stale_ignored propsAB "a" 80%Q world_mountedAB.1 world_mountedAB.2).
    right. exists 0, (row "a" 50). split; [exact Ha|]. split; reflexivity.
Defined.

(** The list [a; a] given to the constructor. *)
Lemma duplicate_key_assertion_propsAA :
  ~ NoDup (key <$> itemList propsAA)
  /\ exists k, k ∈ (key <$> itemList propsAA)
       /\ constructor propsAA (initialInstance, [])
          = Throw (AssertionFailure ("Found a duplicate key: " +:+ k)).
Proof.
  assert (H : ~ NoDup (key <$> itemList propsAA)).
  { apply (bool_decide_unpack _). vm_compute. exact I. }
  split; [exact H|].
  destruct (duplicate_key_assertion propsAA propsAA (initialInstance, []) H)
    as (k & Hk & _ & _ & Hc).
  exists k. split; [exact Hk|]. exact (Hc eq_refl).
Defined.

(** The adjustment of -30 left by the measurement of [n] is flushed once
    the animation is over: the container grows from 480 to 510, and the
    cell of [e] goes from 50 to 80. *)
Lemma reconcileCorrections_flushes_adjusted :
  size (_pendingAnimations world_adjusted.1) = 0%nat
  /\ block_has_cells propsNE world_adjusted.1
  /\ _heightAboveRenderAdjustment world_adjusted.1 = (-30)%Q
  /\ _containerHeight world_adjusted.1 = 480%Q
  /\ _activeCells world_adjusted.1 !! "e"
     = Some (mkCell "vc_1" None false 50 "e" 50 true false)
  /\ exists st' evs' cell',
       _reconcileCorrections propsNE world_adjusted = Ok (tt, (st', evs'))
       /\ _containerHeight st' = (480 - -30)%Q
       /\ _heightAboveRenderAdjustment st' = 0%Q
       /\ _activeCells st' !! "e" = Some cell'
       /\ top cell' = (50 - -30)%Q
       /\ isVisible cell' = true
       /\ virtualKey cell' = "vc_1".
Proof.
  assert (Hanim : size (_pendingAnimations world_adjusted.1) = 0%nat)
    by (vm_compute; reflexivity).
  assert (Hadj : ~ (_heightAboveRenderAdjustment world_adjusted.1 == 0)%Q)
    by (intros H; vm_compute in H; discriminate H).
  assert (Hblock : forall i, inRenderBlock world_adjusted.1 i -> i = 0 \/ i = 1).
  { intros i Hi. change (0 <= i < 0 + 2) in Hi. lia. }
  assert (Hcells : block_has_cells propsNE world_adjusted.1).
  { intros i Hi. destruct (Hblock i Hi) as [-> | ->];
      eexists _, _; split; vm_compute; reflexivity. }
  assert (Hin : inRenderBlock world_adjusted.1 1).
  { change (0 <= 1 < 0 + 2). lia. }
  assert (Honly : forall j b, inRenderBlock world_adjusted.1 j ->
                    item_at (itemList propsNE) j = Some b ->
                    key b = key (measured "e" 50) -> j = 1).
  { intros j b Hj Hb Hk. destruct (Hblock j Hj) as [-> | ->]; [|reflexivity].
    vm_compute in Hb. injection Hb as <-. discriminate Hk. }
  assert (Hcell : _activeCells world_adjusted.1 !! key (measured "e" 50)
                  = Some (mkCell "vc_1" None false 50 "e" 50 true false))
    by (vm_compute; reflexivity).
  split; [exact Hanim|]. split; [exact Hcells|]. split; [reflexivity|]. split; [reflexivity|].
  split; [exact Hcell|].
  destruct (proj1 (proj1 (reconcileCorrections_flushes propsNE world_adjusted.1
                            world_adjusted.2 Hanim) Hcells) Hadj)
    as (st' & evs' & Hrun & Hheight & _ & Hzero & Hshift & _).
  destruct (Hshift 1 (measured "e" 50) _ Hin eq_refl Honly Hcell)
    as (cell' & Hcell' & Htop & Hvis & Hvk & _).
  exists st', evs', cell'.
  split; [exact Hrun|]. split; [exact Hheight|]. split; [exact Hzero|].
  split; [exact Hcell'|]. split; [exact Htop|]. split; [exact Hvis|exact Hvk].
Defined.



(** * Further properties of the list view *)

(** ** A recomputation pass that has nothing to go on *)

(** X2. [_calcNewRenderedItemState] returns at once, leaving the instance as it
    is and calling nothing, while the container has no height yet, when the
    list is empty, and while a measurement is pending. *)
Theorem calcNewRenderedItemState_waits thisProps props st evs :
  (_layoutHeight st == 0)%Q \/ itemList props = [] \/ _pendingMeasurements st <> ∅ ->
  _calcNewRenderedItemState thisProps props (st, evs) = Ok (tt, (st, evs)).
Proof.
  intros H. unfold _calcNewRenderedItemState.
  rewrite (bind_Ok_l this _ (st, evs) (st, evs) st) by reflexivity.
  destruct (Qeq_bool (_layoutHeight st) 0) eqn:Hh; [reflexivity|].
  destruct (itemList_length props =? 0) eqn:Hl; [reflexivity|].
  destruct H as [H | [H | H]].
  - apply Qeq_bool_iff in H. congruence.
  - unfold itemList_length in Hl. rewrite H in Hl. discriminate.
  - rewrite bool_decide_eq_true_2; [reflexivity|].
    assert (size (_pendingMeasurements st) <> 0%nat); [|lia].
    apply size_non_empty_iff. intros He. by apply leibniz_equiv in He.
Qed.

(** The pass on the six items while the first measurement is outstanding. *)
Lemma calcNewRenderedItemState_waits_measuring :
  _pendingMeasurements world_mountedSixMeasured.1 <> ∅
  /\ _calcNewRenderedItemState sixMeasured sixMeasured world_mountedSixMeasured
     = Ok (tt, world_mountedSixMeasured).
Proof.
  assert (H : _pendingMeasurements world_mountedSixMeasured.1 <> ∅).
  { intros H. apply (f_equal size) in H. vm_compute in H. discriminate H. }
  split; [exact H|].
  exact (calcNewRenderedItemState_waits sixMeasured sixMeasured
           world_mountedSixMeasured.1 world_mountedSixMeasured.2 (or_intror (or_intror H))).
Defined.

(** ** Callbacks that arrive after unmount *)

(** X3. Once the component is unmounted, the callbacks of the container, of
    the cells and of the deferred passes return without touching the
    instance and without calling anything. *)
Theorem callbacks_ignored_when_unmounted thisProps st evs :
  _isMounted st = false ->
  (forall k h, _onLayoutItem thisProps k h (st, evs) = Ok (tt, (st, evs)))
  /\ (forall wd h, _onLayoutContainer thisProps wd h (st, evs) = Ok (tt, (st, evs)))
  /\ (forall k b, _onAnimateStartStopItem k b (st, evs) = Ok (tt, (st, evs)))
  /\ settle thisProps (st, evs) = Ok (tt, (st, evs))
  /\ deferredReconcile thisProps (st, evs) = Ok (tt, (st, evs)).
Proof.
  intros Hm. repeat split; intros.
  - unfold _onLayoutItem. rewrite (bind_Ok_l this _ (st, evs) (st, evs) st) by reflexivity.
    by rewrite Hm.
  - unfold _onLayoutContainer.
    rewrite (bind_Ok_l this _ (st, evs) (st, evs) st) by reflexivity. by rewrite Hm.
  - unfold _onAnimateStartStopItem.
    rewrite (bind_Ok_l this _ (st, evs) (st, evs) st) by reflexivity. by rewrite Hm.
  - unfold settle. rewrite (bind_Ok_l this _ (st, evs) (st, evs) st) by reflexivity.
    by rewrite Hm.
  - unfold deferredReconcile.
    rewrite (bind_Ok_l this _ (st, evs) (st, evs) st) by reflexivity. by rewrite Hm.
Qed.

(** A late measurement and a late settle pass on the unmounted list [a; b]. *)
Lemma callbacks_ignored_when_unmounted_AB :
  _isMounted world_unmountedAB.1 = false
  /\ _onLayoutItem propsAB "a" 80 world_unmountedAB = Ok (tt, world_unmountedAB)
  /\ settle propsAB world_unmountedAB = Ok (tt, world_unmountedAB).
Proof.
  assert (H : _isMounted world_unmountedAB.1 = false) by reflexivity.
  destruct (callbacks_ignored_when_unmounted propsAB world_unmountedAB.1
              world_unmountedAB.2 H) as (Hitem & _ & _ & Hsettle & _).
  split; [exact H|]. split; [exact (Hitem "a" 80%Q)|exact Hsettle].
Defined.

(** ** A measurement for an item outside the render block *)

(** X4. A measurement for a measured item of the list that is not in the
    render block is remembered in the height cache and changes nothing
    else: no counter, no height, no pending key, no call. *)
Theorem onLayoutItem_outside_block_only_caches thisProps st evs k m idx item :
  _isMounted st = true ->
  _itemMap st !! k = Some idx ->
  item_at (itemList thisProps) idx = Some item ->
  truthy_bool (measureHeight item) = true ->
  ~ inRenderBlock st idx ->
  _onLayoutItem thisProps k m (st, evs)
  = Ok (tt, (set_heightCache (<[k := m]> (_heightCache st)) st, evs)).
Proof.
  intros Hm Hk Hitem Hmeasure Hout. unfold _onLayoutItem.
  rewrite (bind_Ok_l this _ (st, evs) (st, evs) st) by reflexivity.
  rewrite Hm, Hk. cbn [negb]. rewrite Hitem. cbn [expect]. mnorm.
  rewrite Hmeasure. cbn [negb]. mnorm. cbn [fst snd].
  unfold inRenderBlock in Hout.
  destruct (Z.ltb_spec idx (_itemsAboveRenderBlock st)); [reflexivity|].
  destruct (Z.leb_spec (_itemsAboveRenderBlock st + _itemsInRenderBlock st) idx);
    [reflexivity|]. lia.
Qed.

(** The fourth of the six items is measured while only the first is rendered. *)
Lemma onLayoutItem_outside_block_only_caches_sixMeasured :
  ~ inRenderBlock world_mountedSixMeasured.1 3
  /\ _onLayoutItem sixMeasured "m3" 420 world_mountedSixMeasured
     = Ok (tt, (set_heightCache (<["m3" := 420%Q]> (_heightCache world_mountedSixMeasured.1))
                  world_mountedSixMeasured.1, world_mountedSixMeasured.2)).
Proof.
  assert (Hout : ~ inRenderBlock world_mountedSixMeasured.1 3).
  { intros H. change (0 <= 3 < 0 + 1) in H. lia. }
  split; [exact Hout|].
  apply (onLayoutItem_outside_block_only_caches sixMeasured world_mountedSixMeasured.1
           world_mountedSixMeasured.2 "m3" 420%Q 3 (measured "m3" 500)).
  - reflexivity.
  - vm_compute. reflexivity.
  - vm_compute. reflexivity.
  - reflexivity.
  - exact Hout.
Defined.

(** ** The reconciler when there is nothing to do *)

(** X5. [_reconcileCorrections] leaves the instance as it is, and calls
    nothing, while an animation is pending (whatever adjustment has
    accumulated) and when the pending adjustment is zero. *)
Theorem reconcileCorrections_waits props st evs :
  _pendingAnimations st <> ∅ \/ (_heightAboveRenderAdjustment st == 0)%Q ->
  _reconcileCorrections props (st, evs) = Ok (tt, (st, evs)).
Proof.
  intros H. unfold _reconcileCorrections.
  rewrite (bind_Ok_l this _ (st, evs) (st, evs) st) by reflexivity.
  destruct (bool_decide (0 < size (_pendingAnimations st))%nat) eqn:Hsize; [reflexivity|].
  destruct H as [H | H].
  - apply bool_decide_eq_false in Hsize. exfalso. apply Hsize.
    assert (size (_pendingAnimations st) <> 0%nat); [|lia].
    apply size_non_empty_iff. intros He. by apply leibniz_equiv in He.
  - cbn zeta. destruct (Qeq_bool _ 0 || Qlt_bool _ _); by rewrite (Qabs_zero _ H).
Qed.

(** The adjustment of -30 stays while [e] is animating. *)
Lemma reconcileCorrections_waits_animating :
  _pendingAnimations world_animating.1 <> ∅
  /\ ~ (_heightAboveRenderAdjustment world_animating.1 == 0)%Q
  /\ _reconcileCorrections propsNE world_animating = Ok (tt, world_animating).
Proof.
  assert (H : _pendingAnimations world_animating.1 <> ∅).
  { intros H. apply (f_equal size) in H. vm_compute in H. discriminate H. }
  split; [exact H|]. split; [intros H0; vm_compute in H0; discriminate H0|].
  exact (reconcileCorrections_waits propsNE world_animating.1 world_animating.2
           (or_introl H)).
Defined.

(** ** Animations *)

(** X6. An animation that starts and completes on a mounted list leaves the
    instance as it was (the key is out of the pending set again) and has
    deferred one reconcile pass; nothing else is called. *)
Theorem animation_start_stop_round_trip st evs k :
  _isMounted st = true ->
  k ∉ _pendingAnimations st ->
  (_onAnimateStartStopItem k true;; _onAnimateStartStopItem k false) (st, evs)
  = Ok (tt, (st, evs ++ [EvDeferReconcile])).
Proof.
  intros Hm Hk. unfold _onAnimateStartStopItem.
  rewrite bind_assoc. rewrite (bind_Ok_l this _ (st, evs) (st, evs) st) by reflexivity.
  rewrite Hm. cbn [when]. rewrite bool_decide_eq_false_2 by done.
  cbn [negb]. change (assert true ?m) with (mret tt : M unit). mnorm. cbn [fst snd].
  rewrite (bind_Ok_l this _ _ _ _ eq_refl). cbn [fst].
  change (_isMounted (set_pendingAnimations ?p st)) with (_isMounted st). rewrite Hm.
  cbn [when].
  change (_pendingAnimations (set_pendingAnimations ?p st)) with p.
  rewrite bool_decide_eq_true_2 by set_solver.
  change (assert true ?m) with (mret tt : M unit). mnorm. cbn [fst snd].
  unfold emit. cbn [fst snd].
  replace ((_pendingAnimations st ∪ {[k]}) ∖ {[k]}) with (_pendingAnimations st) by set_solver.
  reflexivity.
Qed.

(** The row [a] of the mounted list [a; b] is animated once. *)
Lemma animation_start_stop_round_trip_mountedAB :
  ("a" ∉ _pendingAnimations world_mountedAB.1)
  /\ (_onAnimateStartStopItem "a" true;; _onAnimateStartStopItem "a" false) world_mountedAB
     = Ok (tt, (world_mountedAB.1, world_mountedAB.2 ++ [EvDeferReconcile])).
Proof.
  assert (H : "a" ∉ _pendingAnimations world_mountedAB.1).
  { change ("a" ∉ (∅ : gset string)). apply not_elem_of_empty. }
  split; [exact H|].
  exact (animation_start_stop_round_trip world_mountedAB.1 world_mountedAB.2 "a" eq_refl H).
Defined.

(** ** Props that did not change *)

Lemma ItemInfo_isEqual_refl (a : ItemInfo) : ItemInfo_isEqual a a = true.
Proof.
  unfold ItemInfo_isEqual. rewrite String.eqb_refl.
  rewrite (proj2 (Qeq_bool_iff _ _) (Qeq_refl _)).
  by rewrite !bool_decide_eq_true_2.
Qed.

Lemma isEqual_itemList_refl (l : list ItemInfo) : isEqual_itemList l l = true.
Proof. induction l as [|a l IH]; [done|]. cbn. by rewrite ItemInfo_isEqual_refl, IH. Qed.

Lemma isEqual_props_refl (p : Props) : isEqual_props p p = true.
Proof.
  unfold isEqual_props. rewrite isEqual_itemList_refl.
  rewrite !(proj2 (Qeq_bool_iff _ _) (Qeq_refl _)).
  rewrite !eqb_reflx. by rewrite bool_decide_eq_true_2.
Qed.

(** X7. New props whose item list is equal by value to the current one never
    rebuild the item map or the render block: [_updateStateFromProps]
    leaves the instance as it is, and asks for a render only if one was
    already due on a mounted component. When all of the props are equal,
    [componentWillReceiveProps] does not even get there. *)
Theorem updateStateFromProps_same_list (thisProps props : Props) st evs :
  isEqual_itemList (itemList thisProps) (itemList props) = true ->
  _updateStateFromProps thisProps props false (st, evs)
  = Ok (tt, (st, (if logInfo props
                  then evs ++ [EvLogInfo "Rebuilding VirtualListView State - initial: ..., items: ..."]
                  else evs)
                 ++ (if _isRenderDirty st && _isMounted st then [EvForceUpdate] else [])))
  /\ componentWillReceiveProps thisProps thisProps (st, evs) = Ok (tt, (st, evs)).
Proof.
  intros Heq. split.
  - unfold _updateStateFromProps.
    rewrite (bind_Ok_l _ _ _ _ _ (log_eq props _ _)). cbn [fst snd andb when].
    rewrite Heq. cbn [negb orb when]. mnorm.
    unfold _renderIfDirty. rewrite (bind_Ok_l this _ _ _ _ eq_refl). cbn [fst].
    destruct (_isRenderDirty st), (_isMounted st); cbn [when andb];
      unfold emit, mret, M_ret; cbn [fst snd]; by rewrite ?app_nil_r.
  - unfold componentWillReceiveProps. by rewrite isEqual_props_refl.
Qed.

(** The mounted list [a; b] is handed the same rows with a scroll listener. *)
Lemma updateStateFromProps_same_list_mountedAB :
  isEqual_itemList (itemList propsAB) (itemList propsAB_onScroll) = true
  /\ _updateStateFromProps propsAB propsAB_onScroll false world_mountedAB
     = Ok (tt, world_mountedAB).
Proof.
  assert (H : isEqual_itemList (itemList propsAB) (itemList propsAB_onScroll) = true)
    by reflexivity.
  split; [exact H|].
  exact (proj1 (updateStateFromProps_same_list propsAB propsAB_onScroll
                  world_mountedAB.1 world_mountedAB.2 H)).
Defined.

(** ** Scrolling to an item *)

Lemma scrollIndex_absent (k : string) (l : list ItemInfo) (s : Z) (acc : option Z) :
  k ∉ key <$> l ->
  foldl (fun acc '(idx, item) => if String.eqb (key item) k then Some idx else acc)
        acc (zip (seqZ s (Z.of_nat (length l))) l) = acc.
Proof.
  revert s acc. induction l as [|x l IH]; intros s acc Hk; [done|].
  rewrite fmap_cons in Hk. apply not_elem_of_cons in Hk as [Hx Hl].
  cbn [length]. rewrite seqZ_cons by lia. cbn [zip zip_with foldl].
  replace (Z.pred (Z.of_nat (S (length l)))) with (Z.of_nat (length l)) by lia.
  rewrite (proj2 (String.eqb_neq _ _)) by done. by apply IH.
Qed.

Lemma scrollIndex_present (k : string) (l1 l2 : list ItemInfo) (item : ItemInfo)
    (s : Z) (acc : option Z) :
  key item = k -> k ∉ key <$> l2 ->
  foldl (fun acc '(idx, item) => if String.eqb (key item) k then Some idx else acc)
        acc (zip (seqZ s (Z.of_nat (length (l1 ++ item :: l2)))) (l1 ++ item :: l2))
  = Some (s + Z.of_nat (length l1)).
Proof.
  intros Hk Hl2. revert s acc. induction l1 as [|x l1 IH]; intros s acc.
  - cbn [app length]. rewrite seqZ_cons by lia. cbn [zip zip_with foldl].
    replace (Z.pred (Z.of_nat (S (length l2)))) with (Z.of_nat (length l2)) by lia.
    rewrite (proj2 (String.eqb_eq _ _)) by done.
    rewrite scrollIndex_absent by done. f_equal. cbn. lia.
  - cbn [app length]. rewrite seqZ_cons by lia. cbn [zip zip_with foldl].
    replace (Z.pred (Z.of_nat (S (length (l1 ++ item :: l2)))))
      with (Z.of_nat (length (l1 ++ item :: l2))) by lia.
    rewrite IH. f_equal. lia.
Qed.



(** * Invariants of the reachable states *)

(** ** What the entry points keep

    An assertion that is kept by the operations on cells ([cell_ops]) and
    does not read the other fields the passes assign ([entry_frame]) is
    kept by every entry point. *)

Lemma hoare_this_eq {B} (P : Instance -> Prop) (f : Instance -> M B)
    (Q : B -> Instance -> Prop) :
  (forall st evs b w', P st -> f st (st, evs) = Ok (b, w') -> Q b w'.1) ->
  hoare P (this ≫= f) Q.
Proof.
  intros Hf [st evs] b w' H HP. rewrite (bind_Ok_l this _ _ _ _ eq_refl) in H.
  eapply Hf; [exact HP|exact H].
Qed.

Section entry_points.
Variable P : Instance -> Prop.
Hypothesis HE : entry_frame P.
Hypothesis HC : cell_ops P.

Local Ltac open_frames := pose proof HE as []; pose proof HC as [].
Local Ltac cells := solve [auto].

Lemma popInvisibleIntoView_kept props : preserves P (_popInvisibleIntoView props).
Proof. open_frames. unfold _popInvisibleIntoView. pres. cells. Qed.

Lemma reconcileCorrections_kept props : preserves P (_reconcileCorrections props).
Proof. open_frames. unfold _reconcileCorrections. pres. cells. Qed.

Lemma componentDidRender_kept props : preserves P (_componentDidRender props).
Proof. open_frames. unfold _componentDidRender. pres. Qed.

Lemma cullFromTop_kept n props line : preserves P (cullFromTop n props line).
Proof.
  open_frames. induction n as [|n IH]; [apply preserves_ret|].
  cbn [cullFromTop]. pres; [cells|exact IH].
Qed.

Lemma cullFromBottom_kept n props line : preserves P (cullFromBottom n props line).
Proof.
  open_frames. induction n as [|n IH]; [apply preserves_ret|].
  cbn [cullFromBottom]. pres; [cells|exact IH].
Qed.

Lemma findFirstInRenderBlock_kept props limit i items y :
  preserves P (findFirstInRenderBlock props limit i items y).
Proof.
  open_frames. revert i y. induction items as [|item items IH]; intros i y;
    [apply preserves_ret|].
  cbn [findFirstInRenderBlock]. pres; [cells|apply IH].
Qed.

Lemma buildItem_kept props i above ys : preserves P (buildItem props i above ys).
Proof.
  open_frames. unfold buildItem. destruct ys as [topY bottomY]. pres. all: cells.
Qed.

Lemma growAtBottom_kept n props limit ys : preserves P (growAtBottom n props limit ys).
Proof.
  revert ys. induction n as [|n IH]; intros ys; [apply preserves_ret|].
  cbn [growAtBottom]. pres; [apply buildItem_kept|apply IH].
Qed.

Lemma growAtTop_kept n props limit ys : preserves P (growAtTop n props limit ys).
Proof.
  revert ys. induction n as [|n IH]; intros ys; [apply preserves_ret|].
  cbn [growAtTop]. pres; [apply buildItem_kept|apply IH].
Qed.

Lemma calcNewRenderedItemState_kept thisProps props :
  preserves P (_calcNewRenderedItemState thisProps props).
Proof.
  open_frames. unfold _calcNewRenderedItemState. pres.
  - apply cullFromTop_kept.
  - apply cullFromBottom_kept.
  - apply findFirstInRenderBlock_kept.
  - cells.
  - apply growAtBottom_kept.
  - apply growAtTop_kept.
  - apply popInvisibleIntoView_kept.
  - apply componentDidRender_kept.
Qed.

Lemma buildMap_kept thisProps props i item m :
  preserves P (handleItemListChange_buildMap thisProps props i item m).
Proof.
  pose proof (co_mark P HC) as Hmark. open_frames. unfold handleItemListChange_buildMap.
  apply preserves_bind; [pres|intros ?].
  apply hoare_this_eq. intros st evs b w' HP H.
  destruct (_activeCells st !! key item) as [cell|] eqn:Hcell.
  - destruct (_itemMap st !! key item) as [oldItemIndex|].
    + destruct (skipRenderIfItemUnchanged thisProps || _); cbn [when] in H.
      * rewrite modify_bind in H. apply mret_Ok in H as [= _ ->]. by apply Hmark.
      * rewrite mret_bind in H. by apply mret_Ok in H as [= _ ->].
    + rewrite modify_bind in H. apply mret_Ok in H as [= _ ->]. by apply Hmark.
  - rewrite mret_bind in H. by apply mret_Ok in H as [= _ ->].
Qed.

Lemma dropDeleted_kept thisProps m i item u :
  preserves P (handleItemListChange_dropDeleted thisProps m i item u).
Proof.
  open_frames. unfold handleItemListChange_dropDeleted. pres.
  all: first [cells | by apply focusSubsequentItem_preserves].
Qed.

Lemma place_kept props top_ bottom_ i item acc :
  preserves P (handleItemListChange_place props top_ bottom_ i item acc).
Proof.
  open_frames. unfold handleItemListChange_place. destruct acc as [y looking]. pres.
  all: cells.
Qed.

Lemma handleItemListChange_kept thisProps props :
  preserves P (_handleItemListChange thisProps props).
Proof.
  open_frames. unfold _handleItemListChange. pres.
  - apply buildMap_kept.
  - apply dropDeleted_kept.
  - apply place_kept.
Qed.

Lemma updateStateFromProps_kept thisProps props :
  preserves P (_updateStateFromProps thisProps props false).
Proof.
  open_frames. unfold _updateStateFromProps. pres.
  - discriminate.
  - apply handleItemListChange_kept.
  - apply calcNewRenderedItemState_kept.
  - apply renderIfDirty_preserves.
Qed.

Lemma constructor_kept props :
  stable set_renderOverdrawFactor P -> stable set_minOverdrawAmount P ->
  stable set_maxOverdrawAmount P -> stable set_cullFraction P ->
  stable set_minCullAmount P ->
  preserves P (constructor props).
Proof.
  intros. open_frames. unfold constructor, _updateStateFromProps. pres.
  - apply handleItemListChange_kept.
  - apply calcNewRenderedItemState_kept.
  - apply renderIfDirty_preserves.
Qed.

Lemma componentWillReceiveProps_kept thisProps nextProps :
  preserves P (componentWillReceiveProps thisProps nextProps).
Proof. unfold componentWillReceiveProps. pres. apply updateStateFromProps_kept. Qed.

Lemma componentDidMount_kept platform sr props :
  preserves P (componentDidMount platform sr props).
Proof.
  open_frames. unfold componentDidMount. pres.
  - cells.
  - apply componentDidRender_kept.
  - apply scrollToItemKey_preserves.
Qed.

Lemma render_kept props : preserves P (render props).
Proof.
  pose proof (co_mark P HC) as Hmark. pose proof (co_markPool P HC) as HmarkPool.
  open_frames. unfold render.
  apply preserves_bind; [pres|intros ?].
  apply preserves_bind; [pres|intros ?].
  apply preserves_bind_this; intros st Hst.
  apply preserves_bind; [pres|intros ?].
  apply preserves_bind; [|intros ?].
  - apply preserves_forEach. intros i x acc Hin.
    apply hoare_this_eq. intros s evs b w' HP H.
    apply bind_Ok in H as (item & w1 & H1 & H).
    apply expect_Ok in H1 as (it & _ & [= -> ->]).
    apply modify_Ok in H as [= _ ->]. cbn [fst].
    destruct (_activeCells s !! key it) as [cell|] eqn:Hcell.
    + rewrite <- (insert_as_alter _ _ _ _ Hcell). by apply Hmark.
    + rewrite alter_id; [exact HP|]. intros c Hc. congruence.
  - apply preserves_bind; [|intros ?; pres].
    apply preserves_modify. intros s HP. by apply HmarkPool.
Qed.

Lemma settle_kept props : preserves P (settle props).
Proof.
  open_frames. unfold settle. pres.
  - apply calcNewRenderedItemState_kept.
  - apply renderIfDirty_preserves.
  - apply reconcileCorrections_kept.
  - by apply setFocusIfNeeded_preserves.
Qed.

Lemma onLayoutContainer_kept props wd h :
  stable set_layoutWidth P -> stable set_layoutHeight P -> stable set_contentWidth P ->
  preserves P (_onLayoutContainer props wd h).
Proof.
  intros. open_frames. unfold _onLayoutContainer, _resizeAllItems. pres.
  - apply calcNewRenderedItemState_kept.
  - apply renderIfDirty_preserves.
  - apply reconcileCorrections_kept.
Qed.

Lemma onLayoutItem_kept props k h : preserves P (_onLayoutItem props k h).
Proof.
  open_frames. unfold _onLayoutItem, onLayoutItem_record. pres.
  - apply foundVisibleItemBefore_preserves.
  - apply calcNewRenderedItemState_kept.
  - apply renderIfDirty_preserves.
  - apply reconcileCorrections_kept.
Qed.

Lemma onScroll_kept axis props t l : preserves P (_onScroll axis props t l).
Proof.
  open_frames. unfold _onScroll. pres.
  - apply calcNewRenderedItemState_kept.
  - apply renderIfDirty_preserves.
  - apply reconcileCorrections_kept.
Qed.

Lemma onAnimateStartStopItem_kept k b : preserves P (_onAnimateStartStopItem k b).
Proof. open_frames. unfold _onAnimateStartStopItem. pres. Qed.

Lemma deferredReconcile_kept props : preserves P (deferredReconcile props).
Proof. unfold deferredReconcile. pres. apply reconcileCorrections_kept. Qed.

Lemma screenReaderStateChanged_kept platform props b :
  preserves P (_screenReaderStateChanged platform props b).
Proof.
  open_frames. unfold _screenReaderStateChanged. pres.
  - cells.
  - apply renderIfDirty_preserves.
  - cells.
Qed.

(** The induction over the runs, with the container layout left to the
    caller (it assigns the layout fields). *)
Lemma reachable_kept_but_layout :
  (forall props k w,
     constructor props (set_nextCellKey k initialInstance, []) = Ok (tt, w) -> P w.1) ->
  (forall props wd h, preserves P (_onLayoutContainer props wd h)) ->
  forall props w, reachable props w -> P w.1.
Proof.
  intros Hinit Hlayout.
  pose proof (ef_isMounted P HE) as HisMounted.
  pose proof (ef_lastFocusedItemKey P HE) as HlastFocused.
  pose proof (ef_pendingFocusDirection P HE) as Hdirection.
  pose proof (ef_scrollViewRef P HE) as HscrollView.
  induction 1 as
    [props k w H
    |platform sr props w w' _ IH H
    |props w w' _ IH H
    |props nextProps w w' _ IH H
    |props nextProps w w' _ IH H
    |props w w' _ IH H
    |props w w' _ IH H
    |props width_ height_ w w' _ IH H
    |props k h w w' _ IH H
    |axis props scrollTop scrollLeft w w' _ IH H
    |props k start w w' _ IH H
    |props w w' _ IH H
    |platform props b w w' _ IH H
    |props d w w' b _ IH H
    |props w k _ IH
    |props w b _ IH].
  - by eapply Hinit.
  - exact (componentDidMount_kept _ _ _ _ _ _ H IH).
  - unfold componentWillUnmount in H. apply modify_Ok in H as [= ->]. by apply HisMounted.
  - exact (componentWillReceiveProps_kept _ _ _ _ _ H IH).
  - exact (updateStateFromProps_kept _ _ _ _ _ H IH).
  - revert H IH. apply preserves_bind; [apply render_kept|intros ?].
    apply componentDidRender_kept.
  - exact (settle_kept _ _ _ _ H IH).
  - exact (Hlayout _ _ _ _ _ _ H IH).
  - exact (onLayoutItem_kept _ _ _ _ _ _ H IH).
  - exact (onScroll_kept _ _ _ _ _ _ _ H IH).
  - exact (onAnimateStartStopItem_kept _ _ _ _ _ H IH).
  - exact (deferredReconcile_kept _ _ _ _ H IH).
  - exact (screenReaderStateChanged_kept _ _ _ _ _ _ H IH).
  - by exact (focusSubsequentItem_preserves P _ _ _ _ Hdirection _ _ _ H IH).
  - by apply HlastFocused.
  - by apply HscrollView.
Qed.
End entry_points.

(** An assertion that reads neither the cells nor the accessibility
    fields is kept by the operations on cells. *)
Lemma cell_ops_stable (P : Instance -> Prop) :
  stable set_activeCells P -> stable set_recycledCells P -> stable set_isRenderDirty P ->
  stable set_nextCellKey P -> stable set_maxRecycledCells P ->
  stable set_isScreenReaderEnabled P ->
  cell_ops P.
Proof.
  intros. constructor.
  - intros. by apply recycleCell_preserves.
  - intros. by apply allocateCell_preserves.
  - intros. by apply setCellTopAndVisibility_preserves.
  - intros st k cell u HP _. by apply (H (<[k := cell_setShouldUpdate u cell]> (_activeCells st))).
  - intros st HP. by apply (H0 (cell_setShouldUpdate false <$> _recycledCells st)).
  - intros. unfold _setupForAccessibility. pres.
  - intros. unfold _tearDownForAccessibility. pres.
Qed.

(** ** The margins *)

Lemma margins_ok_entry_frame : entry_frame margins_ok.
Proof. constructor; frame. Qed.

Lemma margins_ok_cell_ops : cell_ops margins_ok.
Proof. apply cell_ops_stable; frame. Qed.

Lemma margins_ok_constructor props k w :
  constructor props (set_nextCellKey k initialInstance, []) = Ok (tt, w) -> margins_ok w.1.
Proof.
  intros H. unfold constructor in H. apply bind_Ok in H as ([] & w1 & H1 & H2).
  apply modify_Ok in H2 as [= ->]. cbn [fst].
  enough (margins_ok w1.1) by done.
  unfold _updateStateFromProps in H1.
  rewrite (bind_Ok_l _ _ _ _ _ (log_eq props _ _)) in H1. cbn [fst snd] in H1.
  apply bind_Ok in H1 as ([] & w2 & Hset & H1).
  assert (H2 : margins_ok w2.1).
  { cbn [andb] in Hset. destruct (skipRenderIfItemUnchanged props); cbn [when] in Hset.
    - rewrite !modify_bind in Hset. apply modify_Ok in Hset as [= ->]. right. by repeat split.
    - apply mret_Ok in Hset as [= ->]. left. by repeat split. }
  revert H1 H2.
  lazymatch goal with
  | |- ?m _ = Ok _ -> _ -> _ =>
      enough (Hp : preserves margins_ok m) by exact (Hp _ _ _)
  end.
  pres.
  - apply handleItemListChange_kept;
      [apply margins_ok_entry_frame|apply margins_ok_cell_ops].
  - apply calcNewRenderedItemState_kept;
      [apply margins_ok_entry_frame|apply margins_ok_cell_ops].
  - apply renderIfDirty_preserves.
Qed.

Lemma margins_ok_reachable props w : reachable props w -> margins_ok w.1.
Proof.
  apply (reachable_kept_but_layout margins_ok margins_ok_entry_frame margins_ok_cell_ops).
  - apply margins_ok_constructor.
  - intros. apply onLayoutContainer_kept;
      [apply margins_ok_entry_frame|apply margins_ok_cell_ops|frame..].
Qed.

Lemma margins_arith (lh f mo xo cf mc : Q) :
  (0 <= f -> f <= cf -> 0 <= mo -> mo <= mc -> mo <= xo ->
   0 <= Qmin (Qmax (lh * f) mo) xo <= xo
   /\ Qmin (Qmax (lh * f) mo) xo <= Qmax (lh * cf) mc)%Q.
Proof.
  intros Hf Hfc Hmo Hmc Hxo.
  assert (Hmax : (mo <= Qmax (lh * f) mo)%Q) by apply Q.le_max_r.
  assert (Hmin : (Qmin (Qmax (lh * f) mo) xo <= xo)%Q) by apply Q.le_min_r.
  assert (Hmin' : (Qmin (Qmax (lh * f) mo) xo <= Qmax (lh * f) mo)%Q) by apply Q.le_min_l.
  split; [split; [|exact Hmin]|].
  - apply Q.min_glb; lra.
  - eapply Qle_trans; [exact Hmin'|]. apply Q.max_lub.
    + destruct (Qlt_le_dec lh 0) as [Hneg|Hpos].
      * eapply Qle_trans; [|apply Q.le_max_r].
        assert (lh * f <= 0)%Q by nra. lra.
      * eapply Qle_trans; [|apply Q.le_max_l]. nra.
    + eapply Qle_trans; [exact Hmc|]. apply Q.le_max_r.
Qed.

(** X9. In every state a component reaches, the overdraw amount (the margin
    up to which items are rendered) lies between 0 and 4096, and the cull
    margin (beyond which they are dropped) is at least as large: what a
    pass adds to the render block, the next pass does not cull at the same
    scroll offset ("to avoid feedback loops"). *)
Theorem cull_margin_covers_overdraw props w :
  reachable props w ->
  (0 <= _calcOverdrawAmount w.1 <= 4096)%Q
  /\ (_calcOverdrawAmount w.1 <= cullMargin w.1)%Q.
Proof.
  intros Hr. apply margins_ok_reachable in Hr. destruct w as [st evs]. cbn [fst] in *.
  unfold _calcOverdrawAmount, cullMargin.
  assert (Hcull : (0 <= Qmax (_layoutHeight st * _cullFraction st) (_minCullAmount st))%Q).
  { eapply Qle_trans; [|apply Q.le_max_r].
    destruct Hr as [(_ & _ & _ & _ & ->)|(_ & _ & _ & _ & ->)]; by vm_compute. }
  destruct (_isInitialFillComplete st).
  - destruct Hr as [(-> & -> & -> & -> & ->)|(-> & -> & -> & -> & ->)].
    + apply margins_arith; by vm_compute.
    + apply margins_arith; by vm_compute.
  - split; [split; by vm_compute|exact Hcull].
Qed.

(** The margins of the six rows once mounted and filled. *)
Lemma cull_margin_covers_overdraw_scrolled :
  reachable sixRows world_mountedSixRows
  /\ (_calcOverdrawAmount world_mountedSixRows.1 == 512)%Q
  /\ (cullMargin world_mountedSixRows.1 == 1024)%Q
  /\ (_calcOverdrawAmount world_mountedSixRows.1 <= cullMargin world_mountedSixRows.1)%Q.
Proof.
  assert (H : reachable sixRows world_mountedSixRows).
  { apply (mountAndFill_reachable ios true sixRows 320 120). vm_compute. reflexivity. }
  split; [exact H|]. split; [reflexivity|]. split; [reflexivity|].
  exact (proj2 (cull_margin_covers_overdraw sixRows world_mountedSixRows H)).
Defined.

(** ** The container layout *)

Lemma layoutWidth_of_event (thisProps : Props) (wd : Q) :
  ((if negb (Qeq_bool (padding thisProps) 0) then wd - padding thisProps else wd)
   == wd - padding thisProps)%Q.
Proof.
  destruct (Qeq_bool (padding thisProps) 0) eqn:Hp; cbn [negb]; [|reflexivity].
  apply Qeq_bool_iff in Hp. lra.
Qed.

(** X10. A layout event that reports the size the list already has (the width
    less the padding, and the height) changes nothing: no resize, no
    recomputation, no render request. It is handed on to [props.onLayout]
    when the caller listens, and that is the only call made. *)
Theorem onLayoutContainer_same_size thisProps st evs (wd h : Q) :
  _isMounted st = true ->
  (_layoutWidth st == wd - padding thisProps)%Q ->
  (_layoutHeight st == h)%Q ->
  _onLayoutContainer thisProps wd h (st, evs)
  = Ok (tt, (st, if onLayout thisProps then evs ++ [EvOnLayout wd h] else evs)).
Proof.
  intros Hm Hw Hh. unfold _onLayoutContainer.
  rewrite (bind_Ok_l this _ (st, evs) (st, evs) st) by reflexivity.
  rewrite Hm. cbn [negb]. cbn zeta.
  assert (Hw' : Qeq_bool (if negb (Qeq_bool (padding thisProps) 0)
                          then wd - padding thisProps else wd)%Q (_layoutWidth st) = true).
  { apply Qeq_bool_iff. rewrite layoutWidth_of_event. by symmetry. }
  assert (Hh' : Qeq_bool h (_layoutHeight st) = true).
  { apply Qeq_bool_iff. by symmetry. }
  rewrite Hw', Hh'. cbn [negb when]. mnorm.
  destruct (onLayout thisProps); reflexivity.
Qed.

(** The container of [a; b] reports 320 by 480 once more. *)
Lemma onLayoutContainer_same_size_mountedAB :
  (_layoutWidth world_mountedAB.1 == 320 - padding propsAB)%Q
  /\ (_layoutHeight world_mountedAB.1 == 480)%Q
  /\ _onLayoutContainer propsAB 320 480 world_mountedAB = Ok (tt, world_mountedAB).
Proof.
  assert (Hw : (_layoutWidth world_mountedAB.1 == 320 - padding propsAB)%Q) by reflexivity.
  assert (Hh : (_layoutHeight world_mountedAB.1 == 480)%Q) by reflexivity.
  split; [exact Hw|]. split; [exact Hh|].
  exact (onLayoutContainer_same_size propsAB world_mountedAB.1 world_mountedAB.2
           320%Q 480%Q eq_refl Hw Hh).
Defined.

Lemma content_width_ok_entry_frame : entry_frame content_width_ok.
Proof. constructor; frame. Qed.

Lemma content_width_ok_cell_ops : cell_ops content_width_ok.
Proof. apply cell_ops_stable; frame. Qed.

Lemma onLayoutContainer_content_width props wd h :
  preserves content_width_ok (_onLayoutContainer props wd h).
Proof.
  unfold _onLayoutContainer. apply hoare_this_eq. intros st evs b w' HP H.
  destruct (_isMounted st); cbn [negb] in H; [|by apply mret_Ok in H as [= _ ->]].
  cbn zeta in H. apply bind_Ok in H as ([] & w1 & Hwidth & H).
  assert (H1 : content_width_ok w1.1).
  { destruct (Qeq_bool _ (_layoutWidth st)) eqn:Hsame; cbn [negb when] in Hwidth.
    - by apply mret_Ok in Hwidth as [= ->].
    - rewrite (bind_Ok_l _ _ _ _ _ (log_eq props _ _)) in Hwidth.
      rewrite modify_bind in Hwidth. cbn [fst snd] in Hwidth.
      unfold _resizeAllItems in Hwidth.
      rewrite (bind_Ok_l this _ _ _ _ eq_refl) in Hwidth. cbn [fst] in Hwidth.
      set (lw := (if negb (Qeq_bool (padding props) 0) then wd - padding props else wd)%Q)
        in *.
      change (_layoutWidth (set_layoutWidth lw st)) with lw in Hwidth.
      change (_contentWidth (set_layoutWidth lw st)) with (_contentWidth st) in Hwidth.
      destruct (Qlt_bool 0 lw) eqn:Hpos; cbn [andb when] in Hwidth.
      + destruct (Qeq_bool lw (_contentWidth st)) eqn:Hcw; cbn [negb when] in Hwidth.
        * apply mret_Ok in Hwidth as [= ->]. intros _. cbn.
          apply Qeq_bool_iff in Hcw. by symmetry.
        * rewrite modify_bind in Hwidth. apply emit_Ok in Hwidth as [= ->].
          intros _. cbn. reflexivity.
      + apply mret_Ok in Hwidth as [= ->]. intros Hlt. cbn in Hlt.
        apply Qlt_bool_iff in Hlt. congruence. }
  revert H H1.
  lazymatch goal with
  | |- ?m _ = Ok _ -> _ -> _ =>
      enough (Hp : preserves content_width_ok m) by exact (Hp _ _ _)
  end.
  assert (stable set_layoutHeight content_width_ok) by frame.
  pres.
  - apply calcNewRenderedItemState_kept;
      [apply content_width_ok_entry_frame|apply content_width_ok_cell_ops].
  - apply renderIfDirty_preserves.
  - apply reconcileCorrections_kept;
      [apply content_width_ok_entry_frame|apply content_width_ok_cell_ops].
Qed.

(** X11. In every state a component reaches, whenever the container has a
    positive layout width (the reported width less the padding), that is
    the width the cells are rendered with ([_contentWidth]). *)
Theorem content_width_follows_layout props w :
  reachable props w -> content_width_ok w.1.
Proof.
  apply (reachable_kept_but_layout content_width_ok content_width_ok_entry_frame
           content_width_ok_cell_ops).
  - intros props0 k w0 H.
    assert (Hp : preserves content_width_ok (constructor props0)).
    { apply constructor_kept;
        [apply content_width_ok_entry_frame|apply content_width_ok_cell_ops|frame..]. }
    apply (Hp _ _ _ H). intros Hlt. cbn in Hlt. by vm_compute in Hlt.
  - apply onLayoutContainer_content_width.
Qed.

(** The list [a; b] laid out at 320 by 480. *)
Lemma content_width_follows_layout_mountedAB :
  reachable propsAB world_mountedAB
  /\ (0 < _layoutWidth world_mountedAB.1)%Q
  /\ (_contentWidth world_mountedAB.1 == 320)%Q.
Proof.
  assert (H : reachable propsAB world_mountedAB).
  { apply (mountAndFill_reachable web false propsAB 320 480). vm_compute. reflexivity. }
  assert (Hpos : (0 < _layoutWidth world_mountedAB.1)%Q) by reflexivity.
  split; [exact H|]. split; [exact Hpos|].
  exact (content_width_follows_layout propsAB world_mountedAB H Hpos).
Defined.

Lemma scrolledWithScreenReader_reachable w :
  scrolledWithScreenReader (initialInstance, []) = Ok (tt, w) -> reachable sixRows w.
Proof.
  unfold scrolledWithScreenReader. intros H.
  apply bind_Ok in H as ([] & w1 & H1 & H).
  apply bind_Ok in H as ([] & w2 & H2 & H).
  apply bind_Ok in H as ([] & w3 & H3 & H).
  apply bind_Ok in H as ([] & w4 & H4 & H).
  apply bind_Ok in H as ([] & w5 & H5 & H).
  apply bind_Ok in H as ([] & w6 & H6 & H7).
  apply mountAndFill_reachable in H1.
  assert (R2 : reachable sixRows w2) by exact (reach_scroll _ _ _ _ _ _ H1 H2).
  assert (R4 : reachable sixRows w4) by eauto using renderAndSettle_reachable.
  assert (R5 : reachable sixRows w5) by exact (reach_scroll _ _ _ _ _ _ R4 H5).
  eauto using renderAndSettle_reachable.
Qed.

(** ** The pool of recycled cells *)

Lemma recycleCell_absent st evs k :
  _activeCells st !! k = None -> _recycleCell k (st, evs) = Ok (tt, (st, evs)).
Proof.
  intros Hk. unfold _recycleCell.
  rewrite (bind_Ok_l this _ (st, evs) (st, evs) st) by reflexivity. by rewrite Hk.
Qed.

Lemma isRecyclable_setTopAndVisibility v t c :
  isRecyclable (cell_setTopAndVisibility v t c) = isRecyclable c.
Proof. reflexivity. Qed.

Lemma isRecyclable_setShouldUpdate u c :
  isRecyclable (cell_setShouldUpdate u c) = isRecyclable c.
Proof. reflexivity. Qed.

Lemma recycleCell_pool m k : preserves (pool_within m) (_recycleCell k).
Proof.
  intros [st evs] [] w' H (Hmax & Hlen & Hall). cbn [fst] in *.
  destruct (_activeCells st !! k) as [cell|] eqn:Hk.
  - destruct (recycleCell_spec st evs k cell Hk) as (st' & Hrun & _ & _ & Hmax' & Hpool).
    rewrite Hrun in H. injection H as <-. cbn [fst]. cbn zeta in Hpool.
    unfold pool_within. rewrite Hmax', Hmax in *.
    destruct (0 <? m) eqn:Hpos; [|destruct Hpool as [-> _]; by repeat split].
    destruct (isRecyclable cell) eqn:Hrec; [|destruct Hpool as [-> _]; by repeat split].
    assert (Hall' : Forall (fun c => isRecyclable c = true)
                      (_recycledCells st ++ [cell_setTopAndVisibility false (top cell) cell])).
    { apply Forall_app. split; [exact Hall|]. by repeat constructor. }
    rewrite length_app in Hpool. cbn [length] in Hpool.
    destruct (m <? _) eqn:Hfull; destruct Hpool as [-> _].
    + split; [done|]. split.
      * destruct (_recycledCells st) as [|c l]; cbn [app tail length] in *; [lia|].
        rewrite length_app. cbn [length]. lia.
      * destruct (_recycledCells st) as [|c l]; cbn [app tail]; [by constructor|].
        cbn [app] in Hall'. by apply Forall_cons in Hall' as [_ ?].
    + split; [done|]. split; [|exact Hall'].
      apply Z.ltb_ge in Hfull. rewrite length_app. cbn [length]. lia.
  - rewrite (recycleCell_absent st evs k Hk) in H. injection H as <-. by repeat split.
Qed.

Lemma delete_length_le {A} (l : list A) (i : nat) : (length (delete i l) <= length l)%nat.
Proof.
  revert i. induction l as [|x l IH]; intros i; [done|].
  destruct i as [|i]; [cbn; lia|].
  change (delete (S i) (x :: l)) with (x :: delete i l). cbn [length].
  specialize (IH i). lia.
Qed.

Lemma allocateCell_pool m k t i c h tp v :
  preserves (pool_within m) (_allocateCell k t i c h tp v).
Proof.
  assert (stable set_activeCells (pool_within m)) by frame.
  assert (stable set_isRenderDirty (pool_within m)) by frame.
  assert (stable set_nextCellKey (pool_within m)) by frame.
  unfold _allocateCell. pres.
  apply preserves_bind; [|intros ?; pres].
  apply preserves_modify. intros s (Hmax & _ & _).
  destruct Hst as (Hmax' & Hlen & Hall). split; [exact Hmax|]. split.
  - cbn.
    match goal with
    | |- context [delete ?n (_recycledCells st)] =>
        pose proof (delete_length_le (_recycledCells st) n)
    end.
    cbn in Hlen. lia.
  - cbn. by apply Forall_delete.
Qed.

Lemma pool_ok_of_within {A} (op : M A) :
  (forall m, preserves (pool_within m) op) -> preserves pool_ok op.
Proof.
  intros Hop w a w' H [Hin Hle].
  pose proof (Hop _ _ _ _ H Hin) as Hin'.
  destruct Hin' as (Hmax & Hrest). split; [by rewrite Hmax|by rewrite Hmax].
Qed.

Lemma pool_ok_intro st m :
  _maxRecycledCells st = m -> m <= _maxRecycledCells_default ->
  Z.of_nat (length (_recycledCells st)) <= m ->
  Forall (fun c => isRecyclable c = true) (_recycledCells st) ->
  pool_ok st.
Proof. intros <- ? ? ?. by repeat split. Qed.

Lemma pool_ok_entry_frame : entry_frame pool_ok.
Proof. constructor; frame. Qed.

Lemma pool_ok_cell_ops : cell_ops pool_ok.
Proof.
  constructor.
  - intros k. apply pool_ok_of_within. intros m. apply recycleCell_pool.
  - intros. apply pool_ok_of_within. intros m. apply allocateCell_pool.
  - intros. apply setCellTopAndVisibility_preserves. frame.
  - intros st k cell u HP _. exact HP.
  - intros st [(_ & Hlen & Hall) Hle]. split; [|exact Hle].
    split; [reflexivity|]. split.
    + cbn. rewrite length_fmap. exact Hlen.
    + cbn. apply Forall_fmap. eapply Forall_impl; [exact Hall|]. by intros c Hc.
  - intros platform props [st evs] [] w' H [(_ & Hlen & Hall) Hle].
    unfold _setupForAccessibility in H.
    rewrite (bind_Ok_l _ _ _ _ _ (log_eq props _ _)) in H. rewrite modify_bind in H.
    cbn [fst snd] in *.
    destruct (_isNativeIOS platform || _isNativeAndroid platform); cbn [when] in H.
    + rewrite (bind_Ok_l this _ _ _ _ eq_refl) in H. cbn [fst] in H.
      change (_recycledCells (set_isScreenReaderEnabled true st))
        with (_recycledCells st) in H.
      destruct (bool_decide (0 < length (_recycledCells st))%nat) eqn:Hpool;
        cbn [when] in H.
      * mnorm_in H. apply modify_Ok in H as [= ->].
        apply (pool_ok_intro _ 0); [reflexivity|by vm_compute|by vm_compute|constructor].
      * rewrite mret_bind in H. apply modify_Ok in H as [= ->].
        apply bool_decide_eq_false in Hpool.
        apply (pool_ok_intro _ 0); [reflexivity|by vm_compute| |exact Hall].
        change (Z.of_nat (length (_recycledCells st)) <= 0). lia.
    + apply mret_Ok in H as [= ->]. by repeat split.
  - intros platform props [st evs] [] w' H [(_ & Hlen & Hall) Hle].
    unfold _tearDownForAccessibility in H.
    rewrite (bind_Ok_l _ _ _ _ _ (log_eq props _ _)) in H. rewrite modify_bind in H.
    cbn [fst snd] in *.
    destruct (_isNativeIOS platform || _isNativeAndroid platform); cbn [when] in H.
    + apply modify_Ok in H as [= ->].
      apply (pool_ok_intro _ _maxRecycledCells_default); [reflexivity|reflexivity| |exact Hall].
      change (Z.of_nat (length (_recycledCells st)) <= _maxRecycledCells_default). lia.
    + apply mret_Ok in H as [= ->]. by repeat split.
Qed.

(** X12. In every state a component reaches, the pool of recycled cells holds
    no more cells than its capacity [_maxRecycledCells] (which is at most
    50), and only cells that have a template and a constant height. So
    while the capacity is 0, as it is on iOS and Android with the screen
    reader on, the pool is empty. *)
Theorem recycled_pool_bounded props w :
  reachable props w ->
  Z.of_nat (length (_recycledCells w.1)) <= _maxRecycledCells w.1 <= 50
  /\ Forall (fun c => isRecyclable c = true) (_recycledCells w.1)
  /\ (_maxRecycledCells w.1 = 0 -> _recycledCells w.1 = []).
Proof.
  intros Hr.
  assert (Hok : pool_ok w.1).
  { revert props w Hr.
    apply (reachable_kept_but_layout pool_ok pool_ok_entry_frame pool_ok_cell_ops).
    - intros props k w H.
      assert (Hp : preserves pool_ok (constructor props)).
      { apply constructor_kept;
          [apply pool_ok_entry_frame|apply pool_ok_cell_ops|frame..]. }
      apply (Hp _ _ _ H). split; [|reflexivity].
      split; [reflexivity|]. split; [by vm_compute|constructor].
    - intros. apply onLayoutContainer_kept;
        [apply pool_ok_entry_frame|apply pool_ok_cell_ops|frame..]. }
  destruct Hok as [(_ & Hlen & Hall) Hle]. split; [split; [exact Hlen|exact Hle]|].
  split; [exact Hall|]. intros H0. rewrite H0 in Hlen.
  destruct (_recycledCells w.1); [done|]. cbn [length] in Hlen. lia.
Qed.

(** The six rows on iOS with the screen reader on, scrolled to the end. *)
Lemma recycled_pool_bounded_screenReader :
  reachable sixRows world_screenReader
  /\ _maxRecycledCells world_screenReader.1 = 0
  /\ _recycledCells world_screenReader.1 = [].
Proof.
  assert (H : reachable sixRows world_screenReader).
  { apply scrolledWithScreenReader_reachable. vm_compute. reflexivity. }
  assert (H0 : _maxRecycledCells world_screenReader.1 = 0) by reflexivity.
  split; [exact H|]. split; [exact H0|].
  exact (proj2 (proj2 (recycled_pool_bounded sixRows world_screenReader H)) H0).
Defined.

(** ** The virtual keys of the cells *)

Lemma activeKeys_insert_Some (m : gmap string VirtualCellInfo) k c c' :
  m !! k = Some c -> virtualKey c' = virtualKey c ->
  (fun kc : string * VirtualCellInfo => virtualKey kc.2) <$> map_to_list (<[k := c']> m)
  ≡ₚ (fun kc : string * VirtualCellInfo => virtualKey kc.2) <$> map_to_list m.
Proof.
  intros Hk Hv. rewrite <- (insert_delete_eq m k c') at 1.
  rewrite map_to_list_insert by apply lookup_delete_eq.
  rewrite <- (map_to_list_delete m k c Hk). cbn. by rewrite Hv.
Qed.

Lemma activeKeys_delete (m : gmap string VirtualCellInfo) k c :
  m !! k = Some c ->
  (fun kc : string * VirtualCellInfo => virtualKey kc.2) <$> map_to_list m
  ≡ₚ virtualKey c
     :: ((fun kc : string * VirtualCellInfo => virtualKey kc.2) <$> map_to_list (delete k m)).
Proof. intros Hk. by rewrite <- (map_to_list_delete m k c Hk). Qed.

Lemma activeKeys_insert_None (m : gmap string VirtualCellInfo) k c :
  m !! k = None ->
  (fun kc : string * VirtualCellInfo => virtualKey kc.2) <$> map_to_list (<[k := c]> m)
  ≡ₚ virtualKey c
     :: ((fun kc : string * VirtualCellInfo => virtualKey kc.2) <$> map_to_list m).
Proof. intros Hk. by rewrite map_to_list_insert. Qed.

Lemma submseteq_NoDup {A} (l k : list A) : l ⊆+ k -> NoDup k -> NoDup l.
Proof.
  induction 1 as [|x l1 l2 Hsub IH|x y l|x l1 l2 Hsub IH|l1 l2 l3 H12 IH12 H23 IH23];
    intros Hnd.
  - constructor.
  - apply NoDup_cons in Hnd as [Hx Hnd]. constructor; [|by apply IH].
    intros Hin. apply Hx. by eapply elem_of_submseteq.
  - by rewrite (Permutation_swap x y l).
  - apply NoDup_cons in Hnd as [_ Hnd]. by apply IH.
  - auto.
Qed.

Lemma drawn_mono (n n' : N) vk : (n <= n')%N -> drawn n vk -> drawn n' vk.
Proof. intros Hle (i & Hi & ->). exists i. split; [lia|done]. Qed.

Lemma cell_keys_ok_shrink st st' :
  cellKeys st' ⊆+ cellKeys st -> (_nextCellKey st <= _nextCellKey st')%N ->
  cell_keys_ok st -> cell_keys_ok st'.
Proof.
  intros Hsub Hle [Hnd Hall]. split.
  - by eapply submseteq_NoDup.
  - apply Forall_forall. intros vk Hvk. apply (drawn_mono (_nextCellKey st)); [done|].
    rewrite Forall_forall in Hall. apply Hall. by eapply elem_of_submseteq.
Qed.

Lemma cell_keys_ok_fresh st st' :
  cellKeys st' ⊆+ (_virtualKeyPrefix +:+ pretty (_nextCellKey st)) :: cellKeys st ->
  _nextCellKey st' = (_nextCellKey st + 1)%N ->
  cell_keys_ok st -> cell_keys_ok st'.
Proof.
  intros Hsub Hnext [Hnd Hall].
  assert (Hnd' : NoDup ((_virtualKeyPrefix +:+ pretty (_nextCellKey st)) :: cellKeys st)).
  { constructor; [|exact Hnd]. intros Hin. rewrite Forall_forall in Hall.
    destruct (Hall _ Hin) as (n & Hn & Heq).
    apply (inj (String.append _virtualKeyPrefix)) in Heq.
    apply (inj pretty) in Heq. lia. }
  split.
  - by eapply submseteq_NoDup.
  - apply Forall_forall. intros vk Hvk.
    apply (elem_of_submseteq _ _ _ Hvk) in Hsub.
    apply elem_of_cons in Hsub as [-> | Hold].
    + exists (_nextCellKey st). split; [lia|done].
    + rewrite Forall_forall in Hall. apply (drawn_mono (_nextCellKey st)); [lia|].
      by apply Hall.
Qed.

Lemma cell_keys_ok_update st k c c' :
  _activeCells st !! k = Some c -> virtualKey c' = virtualKey c ->
  cell_keys_ok st -> cell_keys_ok (set_activeCells (<[k := c']> (_activeCells st)) st).
Proof.
  intros Hk Hv. apply cell_keys_ok_shrink; [|reflexivity].
  unfold cellKeys. cbn. by rewrite (activeKeys_insert_Some _ _ _ _ Hk Hv).
Qed.

Lemma setCellTopAndVisibility_keys k v t a :
  preserves cell_keys_ok (_setCellTopAndVisibility k v t a).
Proof.
  intros [st evs] [] w' H HP. cbn [fst] in HP. unfold _setCellTopAndVisibility in H.
  rewrite (bind_Ok_l this _ _ _ _ eq_refl) in H. cbn [fst] in H.
  destruct (_activeCells st !! k) as [c|] eqn:Hk.
  - apply modify_Ok in H as [= ->]. by apply (cell_keys_ok_update st k c).
  - by apply assert_Ok in H as [? _].
Qed.

Lemma recycleCell_keys k : preserves cell_keys_ok (_recycleCell k).
Proof.
  intros [st evs] [] w' H HP. cbn [fst] in HP.
  destruct (_activeCells st !! k) as [cell|] eqn:Hk.
  - destruct (recycleCell_spec st evs k cell Hk) as (st' & Hrun & Hact & Hnext & _ & Hpool).
    rewrite Hrun in H. injection H as <-. cbn [fst]. cbn zeta in Hpool.
    revert HP. apply cell_keys_ok_shrink; [|by rewrite Hnext].
    unfold cellKeys. rewrite Hact. rewrite (activeKeys_delete _ _ _ Hk).
    set (A := _ <$> map_to_list (delete k (_activeCells st))).
    assert (Hpush : A ++ (virtualKey <$> (_recycledCells st
                            ++ [cell_setTopAndVisibility false (top cell) cell]))
                    ⊆+ (virtualKey cell :: A) ++ (virtualKey <$> _recycledCells st)).
    { rewrite fmap_app. cbn [fmap list_fmap]. 
      change (virtualKey (cell_setTopAndVisibility false (top cell) cell))
        with (virtualKey cell).
      apply Permutation_submseteq.
      rewrite (Permutation_app_comm (virtualKey <$> _recycledCells st)). cbn [app].
      by rewrite Permutation_middle. }
    assert (Hkeep : A ++ (virtualKey <$> _recycledCells st)
                    ⊆+ (virtualKey cell :: A) ++ (virtualKey <$> _recycledCells st)).
    { cbn [app]. by apply submseteq_cons. }
    destruct (0 <? _maxRecycledCells st); [|by destruct Hpool as [-> _]].
    destruct (isRecyclable cell); [|by destruct Hpool as [-> _]].
    destruct (_ <? _); destruct Hpool as [-> _]; [|exact Hpush].
    etrans; [|exact Hpush]. apply submseteq_app; [done|].
    apply sublist_submseteq, fmap_sublist.
    destruct (_recycledCells st ++ _) as [|c l]; [done|]. cbn [tail]. by apply sublist_cons.
  - rewrite (recycleCell_absent st evs k Hk) in H. by injection H as <-.
Qed.

Lemma allocateCell_keys k t i c h tp v :
  preserves cell_keys_ok (_allocateCell k t i c h tp v).
Proof.
  intros [st evs] cell w' H HP. cbn [fst] in HP. unfold _allocateCell in H.
  rewrite (bind_Ok_l this _ _ _ _ eq_refl) in H. cbn [fst] in H.
  (* the two ways of ending: with a cell the instance had, or a new one *)
  assert (Hreuse : forall st1 evs1 c0 pool',
            _activeCells st1 = _activeCells st -> _nextCellKey st1 = _nextCellKey st ->
            _recycledCells st1 = pool' ->
            (virtualKey c0 :: ((fun kc : string * VirtualCellInfo => virtualKey kc.2)
                               <$> map_to_list (delete k (_activeCells st))))
            ++ (virtualKey <$> pool') ⊆+ cellKeys st ->
            ((assert (eqb (isHeightConstant
                             (cell_setShouldUpdate true (cell_setTopAndVisibility v tp c0))) c)
                "isHeightConstant assumed to not change";;
              assert (bool_decide (itemTemplate
                                     (cell_setShouldUpdate true
                                        (cell_setTopAndVisibility v tp c0)) = t))
                "itemTemplate assumed to not change";;
              mret (cell_setShouldUpdate true (cell_setTopAndVisibility v tp c0)))
             ≫= (fun newCell =>
                   modify (set_isRenderDirty true);;
                   modify (fun s => set_activeCells (<[k := newCell]> (_activeCells s)) s);;
                   mret newCell)) (st1, evs1) = Ok (cell, w') ->
            cell_keys_ok w'.1).
  { intros st1 evs1 c0 pool' Hact Hnext Hpool Hsub Hrun.
    rewrite ?bind_assoc in Hrun.
    apply bind_Ok in Hrun as ([] & w1 & Ha1 & Hrun). apply assert_Ok in Ha1 as [_ [= ->]].
    rewrite ?bind_assoc in Hrun.
    apply bind_Ok in Hrun as ([] & w1 & Ha1 & Hrun). apply assert_Ok in Ha1 as [_ [= ->]].
    mnorm_in Hrun. apply mret_Ok in Hrun as [= _ ->]. cbn [fst snd].
    revert HP. apply cell_keys_ok_shrink.
    2:{ change (_nextCellKey st <= _nextCellKey st1)%N. by rewrite Hnext. }
    etrans; [|exact Hsub].
    change (((fun kc : string * VirtualCellInfo => virtualKey kc.2)
             <$> map_to_list (<[k := cell_setShouldUpdate true
                                       (cell_setTopAndVisibility v tp c0)]> (_activeCells st1)))
            ++ (virtualKey <$> _recycledCells st1)
            ⊆+ (virtualKey c0 :: ((fun kc : string * VirtualCellInfo => virtualKey kc.2)
                                  <$> map_to_list (delete k (_activeCells st))))
               ++ (virtualKey <$> pool')).
    rewrite Hact, Hpool.
    apply submseteq_app; [|done]. apply Permutation_submseteq.
    rewrite <- (insert_delete_eq (_activeCells st)).
    by rewrite map_to_list_insert by apply lookup_delete_eq. }
  assert (Hfresh : forall st1 evs1 pool',
            _activeCells st !! k = None ->
            _activeCells st1 = _activeCells st -> _nextCellKey st1 = _nextCellKey st ->
            _recycledCells st1 = pool' -> pool' `sublist_of` _recycledCells st ->
            ((st2 ← this;
              modify (set_nextCellKey (_nextCellKey st2 + 1)%N);;
              mret {| virtualKey := _virtualKeyPrefix +:+ pretty (_nextCellKey st2);
                      itemTemplate := t; isHeightConstant := c; cell_height := h;
                      cachedItemKey := k; top := tp; isVisible := v;
                      shouldUpdate := true |})
             ≫= (fun newCell =>
                   modify (set_isRenderDirty true);;
                   modify (fun s => set_activeCells (<[k := newCell]> (_activeCells s)) s);;
                   mret newCell)) (st1, evs1) = Ok (cell, w') ->
            cell_keys_ok w'.1).
  { intros st1 evs1 pool' Hk Hact Hnext Hpool Hsub Hrun.
    rewrite bind_assoc in Hrun. rewrite (bind_Ok_l this _ _ _ _ eq_refl) in Hrun.
    mnorm_in Hrun. apply mret_Ok in Hrun as [= _ ->]. cbn [fst snd].
    revert HP. apply cell_keys_ok_fresh.
    2:{ change (_nextCellKey st1 + 1 = _nextCellKey st + 1)%N. by rewrite Hnext. }
    change (((fun kc : string * VirtualCellInfo => virtualKey kc.2)
             <$> map_to_list
                   (<[k := {| virtualKey := _virtualKeyPrefix +:+ pretty (_nextCellKey st1);
                              itemTemplate := t; isHeightConstant := c; cell_height := h;
                              cachedItemKey := k; top := tp; isVisible := v;
                              shouldUpdate := true |}]> (_activeCells st1)))
            ++ (virtualKey <$> _recycledCells st1)
            ⊆+ (_virtualKeyPrefix +:+ pretty (_nextCellKey st))
               :: (((fun kc : string * VirtualCellInfo => virtualKey kc.2)
                    <$> map_to_list (_activeCells st))
                   ++ (virtualKey <$> _recycledCells st))).
    rewrite Hact, Hpool, Hnext.
    rewrite (activeKeys_insert_None _ _ _ Hk). cbn [app virtualKey].
    apply submseteq_skip, submseteq_app; [done|].
    by apply sublist_submseteq, fmap_sublist. }
  destruct (_activeCells st !! k) as [c0|] eqn:Hk.
  - rewrite mret_bind in H.
    apply (Hreuse st evs c0 (_recycledCells st)) in H; [exact H|done..|].
    unfold cellKeys. rewrite (activeKeys_delete _ _ _ Hk). done.
  - destruct (truthy_string t && c).
    + cbn zeta in H.
      destruct (0 <=? _) eqn:Hbest.
      * rewrite bind_assoc, modify_bind, mret_bind in H. cbn [fst snd] in H.
        match type of H with
        | context [delete ?n (_recycledCells st)] => set (idx := n) in *
        end.
        destruct (_recycledCells st !! idx) as [c0|] eqn:Hidx.
        -- apply (Hreuse _ _ c0 (delete idx (_recycledCells st))) in H; [exact H|done..|].
           unfold cellKeys. rewrite delete_id by done.
           apply Permutation_submseteq. cbn [app].
           rewrite Permutation_middle. apply Permutation_app_head.
           rewrite (delete_Permutation _ _ _ Hidx) at 2. done.
        -- apply (Hfresh _ _ (delete idx (_recycledCells st))) in H; [exact H|done..|].
           apply sublist_delete.
      * rewrite mret_bind in H.
        by apply (Hfresh st evs (_recycledCells st)) in H.
    + rewrite mret_bind in H.
      by apply (Hfresh st evs (_recycledCells st)) in H.
Qed.

Lemma cell_keys_ok_entry_frame : entry_frame cell_keys_ok.
Proof. constructor; frame. Qed.

Lemma cell_keys_ok_cell_ops : cell_ops cell_keys_ok.
Proof.
  constructor.
  - apply recycleCell_keys.
  - apply allocateCell_keys.
  - apply setCellTopAndVisibility_keys.
  - intros st k cell u HP Hk. by apply (cell_keys_ok_update st k cell).
  - intros st. apply cell_keys_ok_shrink; [|reflexivity].
    unfold cellKeys. cbn. rewrite <- list_fmap_compose. done.
  - intros platform props. unfold _setupForAccessibility.
    assert (stable set_isScreenReaderEnabled cell_keys_ok) by frame.
    assert (stable set_isRenderDirty cell_keys_ok) by frame.
    assert (stable set_maxRecycledCells cell_keys_ok) by frame.
    pres. apply preserves_bind; [|intros ?; pres].
    apply preserves_modify. intros s. apply cell_keys_ok_shrink; [|reflexivity].
    unfold cellKeys. cbn. apply submseteq_app; [done|]. apply submseteq_nil_l.
  - intros platform props. unfold _tearDownForAccessibility.
    assert (stable set_isScreenReaderEnabled cell_keys_ok) by frame.
    assert (stable set_maxRecycledCells cell_keys_ok) by frame.
    pres.
Qed.

Lemma cell_keys_ok_reachable props w : reachable props w -> cell_keys_ok w.1.
Proof.
  apply (reachable_kept_but_layout cell_keys_ok cell_keys_ok_entry_frame
           cell_keys_ok_cell_ops).
  - intros props0 k w0 H.
    assert (Hp : preserves cell_keys_ok (constructor props0)).
    { apply constructor_kept;
        [apply cell_keys_ok_entry_frame|apply cell_keys_ok_cell_ops|frame..]. }
    apply (Hp _ _ _ H). split; [|constructor].
    unfold cellKeys. cbn. rewrite map_to_list_empty. constructor.
  - intros. apply onLayoutContainer_kept;
      [apply cell_keys_ok_entry_frame|apply cell_keys_ok_cell_ops|frame..].
Qed.

Lemma NoDup_fmap_eq {A B} (f : A -> B) (l : list A) (x y : A) :
  NoDup (f <$> l) -> NoDup l -> x ∈ l -> y ∈ l -> f x = f y -> x = y.
Proof.
  induction l as [|a l IH]; intros Hnd Hl Hx Hy Hf; [by apply elem_of_nil in Hx|].
  rewrite fmap_cons in Hnd. apply NoDup_cons in Hnd as [Ha Hnd].
  apply NoDup_cons in Hl as [_ Hl].
  apply elem_of_cons in Hx as [-> | Hx]; apply elem_of_cons in Hy as [-> | Hy].
  - done.
  - exfalso. apply Ha. rewrite Hf. by apply list_elem_of_fmap_2.
  - exfalso. apply Ha. rewrite <- Hf. by apply list_elem_of_fmap_2.
  - by apply IH.
Qed.

(** X13. In every state a component reaches, the cells it holds carry
    distinct virtual keys: two active cells with the same virtual key
    belong to the same item key, no virtual key occurs twice in the pool of
    recycled cells, and none is shared between an active and a recycled
    cell. These are the keys under which [render] puts the cells out. *)
Theorem virtual_keys_distinct props w :
  reachable props w ->
  (forall k1 k2 c1 c2,
     _activeCells w.1 !! k1 = Some c1 -> _activeCells w.1 !! k2 = Some c2 ->
     virtualKey c1 = virtualKey c2 -> k1 = k2)
  /\ NoDup (virtualKey <$> _recycledCells w.1)
  /\ (forall k c c',
        _activeCells w.1 !! k = Some c -> c' ∈ _recycledCells w.1 ->
        virtualKey c <> virtualKey c').
Proof.
  intros Hr. destruct (cell_keys_ok_reachable props w Hr) as [Hnd _].
  unfold cellKeys in Hnd. apply NoDup_app in Hnd as (Hactive & Hcross & Hpool).
  split; [|split; [exact Hpool|]].
  - intros k1 k2 c1 c2 H1 H2 Hv.
    apply elem_of_map_to_list in H1, H2.
    assert (Heq : (k1, c1) = (k2, c2)).
    { apply (NoDup_fmap_eq (fun kc : string * VirtualCellInfo => virtualKey kc.2)
               (map_to_list (_activeCells w.1))); try done.
      apply NoDup_map_to_list. }
    by injection Heq.
  - intros k c c' Hk Hc' Hv. apply (Hcross (virtualKey c)).
    + apply elem_of_map_to_list in Hk.
      by apply (list_elem_of_fmap_2 (fun kc : string * VirtualCellInfo => virtualKey kc.2)
                  _ (k, c)).
    + rewrite Hv. by apply list_elem_of_fmap_2.
Qed.

(** The cells of [a] and [b] in the mounted list [a; b]. *)
Lemma virtual_keys_distinct_mountedAB :
  reachable propsAB world_mountedAB
  /\ exists ca cb,
       _activeCells world_mountedAB.1 !! "a" = Some ca
       /\ _activeCells world_mountedAB.1 !! "b" = Some cb
       /\ virtualKey ca <> virtualKey cb.
Proof.
  assert (H : reachable propsAB world_mountedAB).
  { apply (mountAndFill_reachable web false propsAB 320 480). vm_compute. reflexivity. }
  split; [exact H|].
  assert (Ha : exists ca, _activeCells world_mountedAB.1 !! "a" = Some ca)
    by (vm_compute; eexists; reflexivity).
  assert (Hb : exists cb, _activeCells world_mountedAB.1 !! "b" = Some cb)
    by (vm_compute; eexists; reflexivity).
  destruct Ha as [ca Ha], Hb as [cb Hb]. exists ca, cb.
  split; [exact Ha|]. split; [exact Hb|]. intros Hv.
  pose proof (proj1 (virtual_keys_distinct propsAB world_mountedAB H) "a" "b" ca cb Ha Hb Hv)
    as Hab.
  discriminate Hab.
Defined.

(** ** The bounds of the render block *)

Lemma hoare_forEach_index {A St} (I : Z -> St -> Instance -> Prop)
    (body : Z -> A -> St -> M St) (l : list A) (i : Z) (acc : St) :
  (forall j x a, hoare (I j a) (body j x a) (fun a' => I (j + 1) a')) ->
  hoare (I i acc) (forEach body i l acc) (fun a' => I (i + Z.of_nat (length l)) a').
Proof.
  intros Hbody. revert i acc. induction l as [|x l IH]; intros i acc.
  - intros w a w' H HI. apply mret_Ok in H as [= -> ->]. cbn [length].
    by rewrite Z.add_0_r.
  - cbn [forEach length]. eapply hoare_bind; [apply Hbody|]. intros a'.
    replace (i + Z.of_nat (S (length l))) with ((i + 1) + Z.of_nat (length l)) by lia.
    apply IH.
Qed.

(** The rest of a computation, run from an instance that is known. *)
Lemma preserves_at {A} (P : Instance -> Prop) (st : Instance) (m : M A) :
  P st -> preserves P m -> forall evs a w', m (st, evs) = Ok (a, w') -> P w'.1.
Proof. intros HP Hm evs a w' H. exact (Hm _ _ _ H HP). Qed.

Section counter_bounds.
Let P : Instance -> Prop := counters_nonneg.

Local Ltac bounds st :=
  destruct st; unfold P, counters_nonneg, block_within, placing in *; cbn in *; lia.

Lemma cullFromTop_nonneg n props line : preserves P (cullFromTop n props line).
Proof.
  induction n as [|n IH]; [apply preserves_ret|].
  cbn [cullFromTop]. apply hoare_this_eq. intros st evs b w' HP H.
  destruct (0 <? _itemsInRenderBlock st) eqn:Hin; [|by apply mret_Ok in H as [= _ ->]].
  apply bind_Ok in H as (item & w1 & Hitem & H).
  apply expect_Ok in Hitem as (? & _ & [= <- ->]).
  destruct (negb (_isItemHeightKnown st item)); [by apply mret_Ok in H as [= _ ->]|].
  destruct (Qle_bool _ _); [by apply mret_Ok in H as [= _ ->]|].
  mnorm_in H. cbn [fst snd] in H. revert H. apply (preserves_at P).
  - apply Z.ltb_lt in Hin. bounds st.
  - pres; [apply recycleCell_preserves; frame|exact IH].
Qed.

Lemma cullFromBottom_nonneg n props line : preserves P (cullFromBottom n props line).
Proof.
  induction n as [|n IH]; [apply preserves_ret|].
  cbn [cullFromBottom]. apply hoare_this_eq. intros st evs b w' HP H.
  destruct (0 <? _itemsInRenderBlock st) eqn:Hin; [|by apply mret_Ok in H as [= _ ->]].
  apply bind_Ok in H as (item & w1 & Hitem & H).
  apply expect_Ok in Hitem as (? & _ & [= <- ->]).
  destruct (negb (_isItemHeightKnown st item)); [by apply mret_Ok in H as [= _ ->]|].
  destruct (Qle_bool _ _); [by apply mret_Ok in H as [= _ ->]|].
  mnorm_in H. cbn [fst snd] in H. revert H. apply (preserves_at P).
  - apply Z.ltb_lt in Hin. bounds st.
  - pres; [apply recycleCell_preserves; frame|exact IH].
Qed.

Lemma findFirstInRenderBlock_within props limit i items y len :
  0 <= i -> i + Z.of_nat (length items) = len ->
  hoare (fun s => _itemsAboveRenderBlock s = 0 /\ _itemsInRenderBlock s = 0)
        (findFirstInRenderBlock props limit i items y)
        (fun _ => block_within len).
Proof.
  revert i y. induction items as [|item items IH]; intros i y Hi Hlen.
  - intros w a w' H HP. apply mret_Ok in H as [= _ ->]. cbn [length] in Hlen.
    destruct w as [st evs]. cbn [fst] in *. bounds st.
  - cbn [findFirstInRenderBlock]. apply hoare_this_eq. intros st evs b w' HP H.
    cbn [length] in Hlen. cbn zeta in H.
    destruct (Qlt_bool limit _).
    + rewrite !modify_bind in H. cbn [fst snd] in H. revert H.
      apply (preserves_at (block_within len)).
      * bounds st.
      * assert (stable set_pendingMeasurements (block_within len)) by frame.
        pres. apply allocateCell_preserves; frame.
    + eapply (IH (i + 1)); [lia|lia|exact H|exact HP].
Qed.

Lemma buildItem_nonneg props i (above : bool) ys :
  hoare (fun s => P s /\ 0 < (if above then _itemsAboveRenderBlock s
                              else _itemsBelowRenderBlock s))
        (buildItem props i above ys) (fun _ => P).
Proof.
  unfold buildItem. destruct ys as [topY bottomY].
  intros [st evs] b w' H [HP Hpos]. cbn [fst] in *.
  apply bind_Ok in H as (item & w1 & Hitem & H).
  apply expect_Ok in Hitem as (? & _ & [= <- ->]).
  rewrite (bind_Ok_l this _ _ _ _ eq_refl) in H. cbn [fst] in H. cbn zeta in H.
  apply bind_Ok in H as ([] & w1 & Hassert & H).
  apply assert_Ok in Hassert as [_ [= ->]].
  assert (stable set_pendingMeasurements P) by frame.
  destruct above; mnorm_in H; cbn [fst snd] in H; revert H; apply (preserves_at P).
  - bounds st.
  - pres. apply allocateCell_preserves; frame.
  - bounds st.
  - pres. apply allocateCell_preserves; frame.
Qed.

Lemma growAtBottom_nonneg n props limit ys : preserves P (growAtBottom n props limit ys).
Proof.
  revert ys. induction n as [|n IH]; intros ys; [apply preserves_ret|].
  cbn [growAtBottom]. apply hoare_this_eq. intros st evs b w' HP H.
  destruct (bool_decide _); [|by apply mret_Ok in H as [= _ ->]].
  destruct (_itemsBelowRenderBlock st <=? 0) eqn:Hbelow; cbn [orb] in H;
    [by apply mret_Ok in H as [= _ ->]|].
  destruct (Qle_bool _ _); [by apply mret_Ok in H as [= _ ->]|].
  apply bind_Ok in H as (ys' & w1 & Hbuild & H).
  eapply IH; [exact H|]. eapply buildItem_nonneg; [exact Hbuild|].
  split; [exact HP|]. cbn. by apply Z.leb_gt in Hbelow.
Qed.

Lemma growAtTop_nonneg n props limit ys : preserves P (growAtTop n props limit ys).
Proof.
  revert ys. induction n as [|n IH]; intros ys; [apply preserves_ret|].
  cbn [growAtTop]. apply hoare_this_eq. intros st evs b w' HP H.
  destruct (bool_decide _); [|by apply mret_Ok in H as [= _ ->]].
  destruct (_itemsAboveRenderBlock st <=? 0) eqn:Habove; cbn [orb] in H;
    [by apply mret_Ok in H as [= _ ->]|].
  destruct (Qle_bool _ _); [by apply mret_Ok in H as [= _ ->]|].
  apply bind_Ok in H as (ys' & w1 & Hbuild & H).
  eapply IH; [exact H|]. eapply buildItem_nonneg; [exact Hbuild|].
  split; [exact HP|]. cbn. by apply Z.leb_gt in Habove.
Qed.

Lemma calcNewRenderedItemState_nonneg thisProps props :
  preserves P (_calcNewRenderedItemState thisProps props).
Proof.
  assert (stable set_containerHeight P) by frame.
  unfold _calcNewRenderedItemState.
  apply preserves_bind_this. intros st0 _.
  destruct (Qeq_bool (_layoutHeight st0) 0); [apply preserves_ret|].
  destruct (itemList_length props =? 0); [apply preserves_ret|].
  destruct (bool_decide _); [apply preserves_ret|]. cbn zeta.
  apply preserves_bind; [apply cullFromTop_nonneg|intros ?].
  apply preserves_bind_this. intros st1 _.
  apply preserves_bind; [apply cullFromBottom_nonneg|intros ?].
  apply hoare_this_eq. intros st evs b w' HP Hrun. cbn zeta in Hrun.
  apply bind_Ok in Hrun as ([] & [st2 evs2] & Hfind & Hrun).
  assert (HP2 : P st2).
  { destruct (_itemsInRenderBlock st =? 0) eqn:Hempty; cbn [when] in Hfind;
      [|by apply mret_Ok in Hfind as [= ->]].
    (* the block was empty: it is looked for from the start of the list *)
    rewrite modify_bind in Hfind. cbn [fst snd] in Hfind.
    apply bind_Ok in Hfind as ([] & [st3 evs3] & Hfirst & Hfind).
    assert (Hwithin : block_within (itemList_length props) st3).
    { refine (findFirstInRenderBlock_within props _ 0 (itemList props) _
                (itemList_length props) _ _ _ _ _ Hfirst _).
      - lia.
      - unfold itemList_length. lia.
      - cbn [fst]. apply Z.eqb_eq in Hempty. split; [reflexivity|exact Hempty]. }
    rewrite !modify_bind in Hfind. apply modify_Ok in Hfind as [= ->].
    cbn [fst snd] in *. bounds st3. }
  revert Hrun. apply (preserves_at P); [exact HP2|].
  pres.
  - apply setCellTopAndVisibility_preserves; frame.
  - apply growAtBottom_nonneg.
  - apply growAtTop_nonneg.
  - apply popInvisibleIntoView_preserves; frame.
  - apply componentDidRender_preserves; frame.
Qed.
End counter_bounds.

Lemma place_placing props top_ bottom_ j item acc :
  hoare (placing j acc) (handleItemListChange_place props top_ bottom_ j item acc)
        (fun acc' => placing (j + 1) acc').
Proof.
  destruct acc as [y looking]. unfold handleItemListChange_place.
  apply hoare_this_eq. intros st evs acc' w' HI H. cbn zeta in H.
  set (y' := (y + _getHeightOfItem st (Some item))%Q) in *.
  destruct (Qle_bool y' top_).
  - apply bind_Ok in H as ([] & [st1 evs1] & Hrec & H). apply mret_Ok in H as [= -> ->].
    revert Hrec. apply (preserves_at (placing (j + 1) (y', looking))).
    + destruct st, looking; unfold placing in *; cbn in *; lia.
    + pres. apply recycleCell_preserves; frame.
  - apply bind_Ok in H as ([] & [st1 evs1] & Hlook & H).
    apply bind_Ok in H as ([] & [st2 evs2] & Hin & H). apply mret_Ok in H as [= -> ->].
    assert (H1 : block_within j st1).
    { destruct looking; cbn [when] in Hlook.
      - apply modify_Ok in Hlook as [= -> _].
        destruct st; unfold placing, block_within in *; cbn in *; lia.
      - apply mret_Ok in Hlook as [= -> _].
        destruct st; unfold placing, block_within in *; cbn in *; lia. }
    assert (H2 : block_within (j + 1) st2).
    { assert (stable set_pendingMeasurements (block_within (j + 1))) by frame.
      destruct (Qlt_bool _ bottom_).
      - rewrite modify_bind in Hin. cbn [fst snd] in Hin. revert Hin.
        apply (preserves_at (block_within (j + 1))).
        + destruct st1; unfold block_within in *; cbn in *; lia.
        + pres.
          * apply setCellTopAndVisibility_preserves; frame.
          * apply allocateCell_preserves; frame.
      - revert Hin. apply (preserves_at (block_within (j + 1))).
        + destruct st1; unfold block_within in *; cbn in *; lia.
        + pres. apply recycleCell_preserves; frame. }
    destruct HI as (Hj & _). destruct st2; unfold placing, block_within in *; cbn in *; lia.
Qed.

Lemma handleItemListChange_nonneg thisProps props :
  hoare (fun _ => True) (_handleItemListChange thisProps props) (fun _ => counters_nonneg).
Proof.
  intros w [] w' H _. unfold _handleItemListChange in H.
  apply bind_Ok in H as (newItemMap & w1 & _ & H).
  apply bind_Ok in H as ([] & [st2 evs2] & _ & H).
  rewrite (bind_Ok_l this _ _ _ _ eq_refl) in H. cbn [fst] in H. cbn zeta in H.
  rewrite !modify_bind in H. cbn [fst snd] in H.
  apply bind_Ok in H as (acc & [st3 evs3] & Hplace & H).
  assert (H3 : placing (0 + itemList_length props) acc st3).
  { refine (hoare_forEach_index placing _ _ _ _ _ _ _ _ Hplace _).
    - intros. apply place_placing.
    - destruct st2; unfold placing; cbn; lia. }
  rewrite !modify_bind in H. cbn [fst snd] in H. revert H.
  apply (preserves_at counters_nonneg).
  - destruct acc as [y looking].
    destruct st3, looking; unfold placing, counters_nonneg, itemList_length in *;
      cbn in *; lia.
  - assert (stable set_containerHeight counters_nonneg) by frame. pres.
Qed.

Lemma updateStateFromProps_nonneg thisProps props initialBuild :
  hoare (fun s => initialBuild = true \/ counters_nonneg s)
        (_updateStateFromProps thisProps props initialBuild) (fun _ => counters_nonneg).
Proof.
  unfold _updateStateFromProps.
  set (P := fun s => initialBuild = true \/ counters_nonneg s).
  apply (hoare_bind _ _ _ (fun _ => P)); [apply preserves_log|intros ?].
  apply (hoare_bind _ _ _ (fun _ => P)); [as_preserves; pres|intros ?].
  apply (hoare_bind _ _ _ (fun _ => counters_nonneg));
    [|intros ?; apply renderIfDirty_preserves].
  destruct (initialBuild || negb (isEqual_itemList (itemList thisProps) (itemList props)))
    eqn:Hchg; unfold when.
  - apply (hoare_bind _ _ _ (fun _ => counters_nonneg)).
    + eapply hoare_conseq; [apply handleItemListChange_nonneg|done|].
      intros ? s Hs. exact Hs.
    + intros ?. apply calcNewRenderedItemState_nonneg.
  - apply orb_false_iff in Hchg as [-> _].
    intros w r w' H [?|HP]; [done|]. by apply mret_Ok in H as [= _ ->].
Qed.

Ltac use_preserves P :=
  lazymatch goal with
  | |- ?m _ = Ok _ -> _ -> _ =>
      let Hp := fresh "Hp" in
      enough (Hp : preserves P m); [exact (Hp _ _ _)|]
  end.

(** X14. In every state a component reaches, none of the three counters of
    the render block is negative: culling takes items out of the block only
    while it has some, and growth takes them from above or below only while
    there are some. *)
Theorem render_block_counters_nonneg props w :
  reachable props w ->
  0 <= _itemsAboveRenderBlock w.1 /\ 0 <= _itemsInRenderBlock w.1
  /\ 0 <= _itemsBelowRenderBlock w.1.
Proof.
  change (reachable props w -> counters_nonneg w.1).
  induction 1 as
    [props k w H
    |platform sr props w w' _ IH H
    |props w w' _ IH H
    |props nextProps w w' _ IH H
    |props nextProps w w' _ IH H
    |props w w' _ IH H
    |props w w' _ IH H
    |props width_ height_ w w' _ IH H
    |props k h w w' _ IH H
    |axis props scrollTop scrollLeft w w' _ IH H
    |props k start w w' _ IH H
    |props w w' _ IH H
    |platform props b w w' _ IH H
    |props d w w' b _ IH H
    |props w k _ IH
    |props w b _ IH].
  - unfold constructor in H. apply bind_Ok in H as (? & w1 & H1 & H2).
    apply modify_Ok in H2 as [= ->].
    exact (updateStateFromProps_nonneg props props true _ _ _ H1 (or_introl eq_refl)).
  - revert H IH. use_preserves counters_nonneg.
    unfold componentDidMount, _setupForAccessibility. pres.
    + apply componentDidRender_preserves; frame.
    + apply scrollToItemKey_preserves.
  - revert H IH. use_preserves counters_nonneg.
    unfold componentWillUnmount. pres.
  - unfold componentWillReceiveProps, when in H.
    destruct (isEqual_props props nextProps); simpl in H.
    + by apply mret_Ok in H as [= <-].
    + exact (updateStateFromProps_nonneg props nextProps false _ _ _ H (or_intror IH)).
  - exact (updateStateFromProps_nonneg props nextProps false _ _ _ H (or_intror IH)).
  - revert H IH. use_preserves counters_nonneg.
    unfold render, componentDidUpdate. pres.
    apply componentDidRender_preserves; frame.
  - revert H IH. use_preserves counters_nonneg.
    unfold settle. pres.
    + apply calcNewRenderedItemState_nonneg.
    + apply renderIfDirty_preserves.
    + apply reconcileCorrections_preserves; frame.
    + apply setFocusIfNeeded_preserves; frame.
  - revert H IH. use_preserves counters_nonneg.
    unfold _onLayoutContainer, _resizeAllItems. pres.
    + apply calcNewRenderedItemState_nonneg.
    + apply renderIfDirty_preserves.
    + apply reconcileCorrections_preserves; frame.
  - revert H IH. use_preserves counters_nonneg.
    unfold _onLayoutItem, onLayoutItem_record. pres.
    + apply foundVisibleItemBefore_preserves.
    + apply calcNewRenderedItemState_nonneg.
    + apply renderIfDirty_preserves.
    + apply reconcileCorrections_preserves; frame.
  - revert H IH. use_preserves counters_nonneg.
    unfold _onScroll. pres.
    + apply calcNewRenderedItemState_nonneg.
    + apply renderIfDirty_preserves.
    + apply reconcileCorrections_preserves; frame.
  - revert H IH. use_preserves counters_nonneg.
    unfold _onAnimateStartStopItem. pres.
  - revert H IH. use_preserves counters_nonneg.
    unfold deferredReconcile. pres.
    apply reconcileCorrections_preserves; frame.
  - revert H IH. use_preserves counters_nonneg.
    unfold _screenReaderStateChanged, _setupForAccessibility, _tearDownForAccessibility. pres.
    all: apply renderIfDirty_preserves.
  - revert H IH. use_preserves counters_nonneg.
    apply focusSubsequentItem_preserves; frame.
  - exact IH.
  - exact IH.
Qed.

(** The counters of the six rows after the scroll to 2000. *)
Lemma render_block_counters_nonneg_scrolled :
  reachable sixRows world_screenReader
  /\ 0 <= _itemsAboveRenderBlock world_screenReader.1
  /\ 0 <= _itemsInRenderBlock world_screenReader.1
  /\ 0 <= _itemsBelowRenderBlock world_screenReader.1.
Proof.
  assert (H : reachable sixRows world_screenReader).
  { apply scrolledWithScreenReader_reachable. vm_compute. reflexivity. }
  split; [exact H|]. exact (render_block_counters_nonneg sixRows world_screenReader H).
Defined.

(** ** The item directory *)

Lemma buildMap_map thisProps props i item (m m1 : gmap string Z) w w1 :
  handleItemListChange_buildMap thisProps props i item m w = Ok (m1, w1) ->
  m1 = <[key item := i]> m.
Proof.
  unfold handleItemListChange_buildMap. intros H.
  apply bind_Ok in H as ([] & w2 & _ & H). cbn zeta in H.
  apply bind_Ok in H as (st & w3 & _ & H).
  apply bind_Ok in H as ([] & w4 & _ & H). by apply mret_Ok in H as [= -> _].
Qed.

Lemma buildMap_loop_directory thisProps props (l : list ItemInfo) i (m m' : gmap string Z)
    w w' :
  forEach (handleItemListChange_buildMap thisProps props) i l m w = Ok (m', w') ->
  NoDup (key <$> l) ->
  (forall n item, l !! n = Some item -> m' !! key item = Some (i + Z.of_nat n))
  /\ (forall k, k ∉ key <$> l -> m' !! k = m !! k).
Proof.
  revert i m w. induction l as [|item l IH]; intros i m w H Hnd.
  - apply mret_Ok in H as [= -> _]. split; [by intros n item Hn|done].
  - cbn [forEach] in H. apply bind_Ok in H as (m1 & w1 & Hbody & H).
    apply buildMap_map in Hbody as ->.
    rewrite fmap_cons in Hnd. apply NoDup_cons in Hnd as [Hitem Hnd].
    destruct (IH _ _ _ H Hnd) as [Hin Hout]. split.
    + intros [|n] it Hn.
      * injection Hn as <-. rewrite (Hout _ Hitem), lookup_insert_eq. f_equal. lia.
      * rewrite (Hin n it Hn). f_equal. lia.
    + intros k Hk. rewrite fmap_cons in Hk. apply not_elem_of_cons in Hk as [Hne Hk].
      rewrite (Hout k Hk). by rewrite lookup_insert_ne.
Qed.

(** X15. After [_handleItemListChange] has gone through a list whose keys are
    distinct, the item map is the directory of that list: it maps a key
    to an index exactly when the item at that index of the new list has the
    key. *)
Theorem handleItemListChange_item_directory thisProps props w w' :
  NoDup (key <$> itemList props) ->
  _handleItemListChange thisProps props w = Ok (tt, w') ->
  forall k i,
    _itemMap w'.1 !! k = Some i
    <-> exists item, item_at (itemList props) i = Some item /\ key item = k.
Proof.
  intros Hnd H. unfold _handleItemListChange in H.
  apply bind_Ok in H as (newItemMap & w1 & Hmap & H).
  destruct (buildMap_loop_directory _ _ _ _ _ _ _ _ Hmap Hnd) as [Hin Hout].
  assert (Hdir : _itemMap w'.1 = newItemMap).
  { apply bind_Ok in H as ([] & [st2 evs2] & _ & H).
    rewrite (bind_Ok_l this _ _ _ _ eq_refl) in H. cbn [fst] in H. cbn zeta in H.
    rewrite !modify_bind in H. cbn [fst snd] in H.
    apply bind_Ok in H as (acc & [st3 evs3] & _ & H).
    rewrite !modify_bind in H. cbn [fst snd] in H. revert H.
    apply (preserves_at (fun s => _itemMap s = newItemMap)); [reflexivity|].
    assert (stable set_containerHeight (fun s => _itemMap s = newItemMap)) by frame.
    pres. }
  intros k i. rewrite Hdir. split.
  - intros Hk. destruct (decide (k ∈ key <$> itemList props)) as [Hel|Hnel].
    + apply list_elem_of_fmap in Hel as (item & -> & Hel).
      apply list_elem_of_lookup in Hel as [n Hn].
      rewrite (Hin n item Hn) in Hk. injection Hk as <-.
      exists item. split; [|done]. unfold item_at.
      rewrite bool_decide_eq_true_2 by lia. by rewrite Z.add_0_l, Nat2Z.id.
    + rewrite (Hout k Hnel) in Hk. by rewrite lookup_empty in Hk.
  - intros (item & Hitem & <-). unfold item_at in Hitem.
    destruct (bool_decide (0 <= i)) eqn:Hi; [|done]. apply bool_decide_eq_true in Hi.
    rewrite (Hin _ _ Hitem). f_equal. lia.
Qed.

(** The directory of [a; c] after it replaced [a; b]. *)
Lemma handleItemListChange_item_directory_AC :
  NoDup (key <$> itemList propsAC)
  /\ _handleItemListChange propsAB propsAC world_mountedAB = Ok (tt, world_listAC)
  /\ _itemMap world_listAC.1 !! "c" = Some 1
  /\ _itemMap world_listAC.1 !! "b" = None.
Proof.
  assert (Hnd : NoDup (key <$> itemList propsAC)).
  { apply (bool_decide_unpack _). vm_compute. exact I. }
  assert (Hrun : _handleItemListChange propsAB propsAC world_mountedAB
                 = Ok (tt, world_listAC)) by (vm_compute; reflexivity).
  pose proof (handleItemListChange_item_directory propsAB propsAC world_mountedAB
                world_listAC Hnd Hrun) as Hdir.
  split; [exact Hnd|]. split; [exact Hrun|]. split.
  - apply (proj2 (Hdir "c" 1)). exists (row "c" 50). split; reflexivity.
  - destruct (_itemMap world_listAC.1 !! "b") as [i|] eqn:Hb; [|reflexivity].
    destruct (proj1 (Hdir "b" i) Hb) as (item & Hitem & Hkey).
    exfalso. revert Hitem Hkey. unfold item_at.
    destruct (bool_decide (0 <= i)); [|discriminate].
    destruct (Z.to_nat i) as [|[|[|n]]]; cbn; intros [= <-]; discriminate.
Defined.

(** ** Deleted items *)

Lemma buildMap_loop_absent thisProps props (l : list ItemInfo) i (m m' : gmap string Z)
    w w' k :
  forEach (handleItemListChange_buildMap thisProps props) i l m w = Ok (m', w') ->
  k ∉ key <$> l -> m' !! k = m !! k.
Proof.
  revert i m w. induction l as [|item l IH]; intros i m w H Hk.
  - by apply mret_Ok in H as [= -> _].
  - cbn [forEach] in H. apply bind_Ok in H as (m1 & w1 & Hbody & H).
    apply buildMap_map in Hbody as ->.
    rewrite fmap_cons in Hk. apply not_elem_of_cons in Hk as [Hne Hk].
    rewrite (IH _ _ _ H Hk). by rewrite lookup_insert_ne.
Qed.

Lemma recycleCell_forgotten k k' : preserves (forgotten k) (_recycleCell k').
Proof.
  intros [st evs] [] w' H (Hcache & Hpending & Hactive). cbn [fst] in *.
  destruct (_activeCells st !! k') as [cell|] eqn:Hk'.
  - destruct (recycleCell_spec st evs k' cell Hk') as (st' & Hrun & Hact & _).
    rewrite Hrun in H. injection H as <-. cbn [fst].
    assert (Hframe : preserves (fun s => _heightCache s !! k = None
                                         /\ (k ∉ _pendingMeasurements s)) (_recycleCell k')).
    { apply recycleCell_preserves; frame. }
    destruct (Hframe _ _ _ Hrun (conj Hcache Hpending)) as [Hc Hp].
    split; [exact Hc|]. split; [exact Hp|]. rewrite Hact.
    destruct (decide (k' = k)) as [->|Hne]; [apply lookup_delete_eq|].
    by rewrite lookup_delete_ne.
  - rewrite (recycleCell_absent st evs k' Hk') in H. by injection H as <-.
Qed.

Lemma recycleCell_forgets k : hoare (fun _ => True) (_recycleCell k)
                                    (fun _ s => _activeCells s !! k = None).
Proof.
  intros [st evs] [] w' H _.
  destruct (_activeCells st !! k) as [cell|] eqn:Hk.
  - destruct (recycleCell_spec st evs k cell Hk) as (st' & Hrun & Hact & _).
    rewrite Hrun in H. injection H as <-. cbn [fst]. rewrite Hact. apply lookup_delete_eq.
  - rewrite (recycleCell_absent st evs k Hk) in H. by injection H as <-.
Qed.

Lemma setCellTopAndVisibility_forgotten k k' v t a :
  preserves (forgotten k) (_setCellTopAndVisibility k' v t a).
Proof.
  intros [st evs] [] w' H (Hcache & Hpending & Hactive). cbn [fst] in *.
  unfold _setCellTopAndVisibility in H.
  rewrite (bind_Ok_l this _ _ _ _ eq_refl) in H. cbn [fst] in H.
  destruct (_activeCells st !! k') as [c|] eqn:Hk'.
  - apply modify_Ok in H as [= ->]. split; [exact Hcache|]. split; [exact Hpending|].
    cbn. rewrite lookup_insert_ne; [exact Hactive|]. intros ->. congruence.
  - by apply assert_Ok in H as [? _].
Qed.

Lemma allocateCell_forgotten k k' t i c h tp v :
  k' <> k -> preserves (forgotten k) (_allocateCell k' t i c h tp v).
Proof.
  intros Hne. unfold _allocateCell.
  assert (stable set_recycledCells (forgotten k)) by frame.
  assert (stable set_nextCellKey (forgotten k)) by frame.
  assert (stable set_isRenderDirty (forgotten k)) by frame.
  pres.
  all: apply preserves_bind; [|intros ?; pres].
  all: apply preserves_modify; intros s (Hcache & Hpending & Hactive).
  all: split; [exact Hcache|]; split; [exact Hpending|].
  all: cbn; by rewrite lookup_insert_ne.
Qed.

Lemma dropDeleted_forgotten thisProps (m : gmap string Z) i item k :
  preserves (forgotten k) (handleItemListChange_dropDeleted thisProps m i item tt).
Proof.
  unfold handleItemListChange_dropDeleted.
  assert (stable set_lastFocusedItemKey (forgotten k)) by frame.
  assert (stable set_heightAboveRenderAdjustment (forgotten k)) by frame.
  pres.
  - apply focusSubsequentItem_preserves; frame.
  - apply focusSubsequentItem_preserves; frame.
  - apply preserves_bind; [|intros ?].
    { apply preserves_modify. intros s (Hcache & Hpending & Hactive).
      split; [|by split]. cbn.
      destruct (decide (key item = k)) as [->|Hne]; [apply lookup_delete_eq|].
      by rewrite lookup_delete_ne. }
    apply preserves_bind; [|intros ?].
    { apply preserves_modify. intros s (Hcache & Hpending & Hactive).
      split; [exact Hcache|]. split; [|exact Hactive]. cbn. set_solver. }
    pres. apply recycleCell_forgotten.
Qed.

Lemma dropDeleted_forgets thisProps (m : gmap string Z) i item :
  m !! key item = None ->
  hoare (fun _ => True) (handleItemListChange_dropDeleted thisProps m i item tt)
        (fun _ => forgotten (key item)).
Proof.
  intros Hm. unfold handleItemListChange_dropDeleted.
  rewrite bool_decide_eq_false_2 by (rewrite Hm; by intros [? ?]). cbn [negb when].
  apply (hoare_bind _ _ _ (fun _ _ => True)); [done|intros st0].
  apply (hoare_bind _ _ _ (fun _ _ => True)); [done|intros ?].
  apply (hoare_bind _ _ _ (fun _ _ => True)); [done|intros st1].
  apply (hoare_bind _ _ _ (fun _ _ => True)); [done|intros ?].
  apply (hoare_bind _ _ _ (fun _ s => _heightCache s !! key item = None)).
  { intros w r w' H _. apply modify_Ok in H as [= _ ->]. cbn. apply lookup_delete_eq. }
  intros ?.
  apply (hoare_bind _ _ _ (fun _ s => _heightCache s !! key item = None
                                      /\ (key item ∉ _pendingMeasurements s))).
  { intros w r w' H Hc. apply modify_Ok in H as [= _ ->]. cbn. split; [exact Hc|].
    set_solver. }
  intros ?. apply hoare_this_eq. intros st evs [] w' [Hc Hp] H.
  destruct (_activeCells st !! key item) as [cell|] eqn:Hcell.
  - rewrite bool_decide_eq_true_2 in H by eauto. cbn [when] in H.
    assert (Hframe : preserves (fun s => _heightCache s !! key item = None
                                         /\ (key item ∉ _pendingMeasurements s))
                       (_recycleCell (key item))).
    { apply recycleCell_preserves; frame. }
    destruct (Hframe _ _ _ H (conj Hc Hp)) as [Hc' Hp'].
    split; [exact Hc'|]. split; [exact Hp'|].
    exact (recycleCell_forgets (key item) _ _ _ H I).
  - rewrite bool_decide_eq_false_2 in H by (by intros [? ?]). cbn [when] in H.
    apply mret_Ok in H as [= ->]. by repeat split.
Qed.

Lemma dropDeleted_loop_forgets thisProps (m : gmap string Z) (l : list ItemInfo) i k :
  m !! k = None ->
  hoare (fun s => k ∈ key <$> l \/ forgotten k s)
        (forEach (handleItemListChange_dropDeleted thisProps m) i l tt)
        (fun _ => forgotten k).
Proof.
  intros Hm. revert i. induction l as [|item l IH]; intros i.
  - intros w [] w' H [Hin|Hf]; [by apply elem_of_nil in Hin|].
    by apply mret_Ok in H as [= ->].
  - cbn [forEach]. intros w [] w' H Hpre.
    apply bind_Ok in H as ([] & w1 & Hbody & H).
    apply (IH _ _ _ _ H).
    destruct (decide (key item = k)) as [<-|Hne].
    + right. exact (dropDeleted_forgets thisProps m i item Hm _ _ _ Hbody I).
    + destruct Hpre as [Hin|Hf].
      * left. rewrite fmap_cons in Hin. apply elem_of_cons in Hin as [?|?]; [congruence|done].
      * right. exact (dropDeleted_forgotten thisProps m i item k _ _ _ Hbody Hf).
Qed.

Lemma place_forgotten props top_ bottom_ i item acc k :
  key item <> k ->
  preserves (forgotten k) (handleItemListChange_place props top_ bottom_ i item acc).
Proof.
  intros Hne. unfold handleItemListChange_place. destruct acc as [y looking].
  assert (stable set_itemsAboveRenderBlock (forgotten k)) by frame.
  assert (stable set_itemsInRenderBlock (forgotten k)) by frame.
  pres.
  - apply recycleCell_forgotten.
  - apply setCellTopAndVisibility_forgotten.
  - by apply allocateCell_forgotten.
  - apply preserves_modify. intros s (Hcache & Hpending & Hactive).
    split; [exact Hcache|]. split; [|exact Hactive]. cbn. set_solver.
  - apply recycleCell_forgotten.
Qed.

(** X16. [_handleItemListChange] stops tracking the items that left the list:
    for a key of the old list that the new list does not have, the pass
    leaves no cached height, no pending measurement and no active cell. *)
Theorem handleItemListChange_forgets_deleted thisProps props w w' k :
  k ∈ key <$> itemList thisProps ->
  k ∉ key <$> itemList props ->
  _handleItemListChange thisProps props w = Ok (tt, w') ->
  _heightCache w'.1 !! k = None
  /\ (k ∉ _pendingMeasurements w'.1)
  /\ _activeCells w'.1 !! k = None.
Proof.
  intros Hold Hnew H. unfold _handleItemListChange in H.
  apply bind_Ok in H as (newItemMap & w1 & Hmap & H).
  assert (Hm : newItemMap !! k = None).
  { rewrite (buildMap_loop_absent _ _ _ _ _ _ _ _ _ Hmap Hnew). apply lookup_empty. }
  apply bind_Ok in H as ([] & [st2 evs2] & Hdrop & H).
  assert (H2 : forgotten k st2).
  { exact (dropDeleted_loop_forgets thisProps newItemMap _ 0 k Hm _ _ _ Hdrop
             (or_introl Hold)). }
  revert H. apply (preserves_at (forgotten k)); [exact H2|].
  assert (stable set_itemsAboveRenderBlock (forgotten k)) by frame.
  assert (stable set_itemsInRenderBlock (forgotten k)) by frame.
  assert (stable set_itemsBelowRenderBlock (forgotten k)) by frame.
  assert (stable set_itemMap (forgotten k)) by frame.
  assert (stable set_heightAboveRenderBlock (forgotten k)) by frame.
  assert (stable set_heightOfRenderBlock (forgotten k)) by frame.
  assert (stable set_heightBelowRenderBlock (forgotten k)) by frame.
  assert (stable set_containerHeight (forgotten k)) by frame.
  pres. apply place_forgotten. intros Heq. apply Hnew. rewrite <- Heq.
  by apply list_elem_of_fmap_2.
Qed.

(** The row [b] after the list [a; b] has become [a; c]. *)
Lemma handleItemListChange_forgets_deleted_AC :
  ("b" ∈ key <$> itemList propsAB)
  /\ ("b" ∉ key <$> itemList propsAC)
  /\ _handleItemListChange propsAB propsAC world_mountedAB = Ok (tt, world_listAC)
  /\ _activeCells world_listAC.1 !! "b" = None.
Proof.
  assert (Hold : "b" ∈ key <$> itemList propsAB).
  { apply (bool_decide_unpack _). vm_compute. exact I. }
  assert (Hnew : "b" ∉ key <$> itemList propsAC).
  { apply (bool_decide_unpack _). vm_compute. exact I. }
  assert (Hrun : _handleItemListChange propsAB propsAC world_mountedAB
                 = Ok (tt, world_listAC)) by (vm_compute; reflexivity).
  split; [exact Hold|]. split; [exact Hnew|]. split; [exact Hrun|].
  exact (proj2 (proj2 (handleItemListChange_forgets_deleted propsAB propsAC
                         world_mountedAB world_listAC "b" Hold Hnew Hrun))).
Defined.

(** ** The height of the container after a pass *)

Section content_height.
Variable lh : Q.
Variable ch : Q.

(** The viewport is [lh] high and the container [ch]: once the pass has
    set the height of the container, it assigns neither. *)
Let F : Instance -> Prop := fun s => _layoutHeight s = lh /\ _containerHeight s = ch.

Local Ltac heights st := destruct st; unfold F in *; cbn in *; assumption.

Lemma buildItem_content props i above ys : preserves F (buildItem props i above ys).
Proof.
  unfold buildItem. destruct ys as [topY bottomY].
  intros [st evs] b w' H HF. cbn [fst] in *.
  apply bind_Ok in H as (item & w1 & Hitem & H).
  apply expect_Ok in Hitem as (? & _ & [= <- ->]).
  rewrite (bind_Ok_l this _ _ _ _ eq_refl) in H. cbn [fst] in H. cbn zeta in H.
  apply bind_Ok in H as ([] & w1 & Hassert & H).
  apply assert_Ok in Hassert as [_ [= ->]].
  assert (stable set_pendingMeasurements F) by frame.
  destruct above; mnorm_in H; cbn [fst snd] in H; revert H; apply (preserves_at F).
  - heights st.
  - pres. apply allocateCell_preserves; frame.
  - heights st.
  - pres. apply allocateCell_preserves; frame.
Qed.

Lemma growAtBottom_content n props limit ys : preserves F (growAtBottom n props limit ys).
Proof.
  revert ys. induction n as [|n IH]; intros ys; [apply preserves_ret|].
  cbn [growAtBottom]. pres; [apply buildItem_content|apply IH].
Qed.

Lemma growAtTop_content n props limit ys : preserves F (growAtTop n props limit ys).
Proof.
  revert ys. induction n as [|n IH]; intros ys; [apply preserves_ret|].
  cbn [growAtTop]. pres; [apply buildItem_content|apply IH].
Qed.
End content_height.

(** From the point where [_calcNewRenderedItemState] reads the heights
    to its end. *)
Lemma calc_tail_content thisProps props st evs (limitTop limitBottom : Q) w' :
  (yPosition ←
     forEach (fun _ i (yPosition : Q) =>
                s ← this;
                let itemIndex := _itemsAboveRenderBlock s + i in
                item ← expect (item_at (itemList props) itemIndex);
                _setCellTopAndVisibility (key item) (_shouldShowItem s item) yPosition
                  (animateChanges thisProps);;
                mret (yPosition + _getHeightOfItem s (Some item))%Q)
             0 (seqZ 0 (_itemsInRenderBlock st))
             (_heightAboveRenderBlock st + _heightAboveRenderAdjustment st)%Q;
   when (negb (Qeq_bool (Qmax (itemBlockHeight st) (_layoutHeight st)) (_containerHeight st)))
        (log props "Container Height Change: ... to ...";;
         modify (set_containerHeight (Qmax (itemBlockHeight st) (_layoutHeight st)));;
         emit (EvContainerHeightValue (Qmax (itemBlockHeight st) (_layoutHeight st))));;
   st1 ← this;
   ys ← growAtBottom (Z.to_nat (_itemsBelowRenderBlock st1)) props limitBottom
          ((_heightAboveRenderBlock st + _heightAboveRenderAdjustment st)%Q, yPosition);
   st2 ← this;
   growAtTop (Z.to_nat (_itemsAboveRenderBlock st2)) props limitTop ys;;
   st3 ← this;
   when (negb (_isInitialFillComplete st3) && negb (_isRenderDirty st3)
         && bool_decide (size (_pendingMeasurements st3) = 0%nat))
        (_popInvisibleIntoView props;; _componentDidRender thisProps);;
   log props "CalcNewRenderedItemState: ...") (st, evs) = Ok (tt, w') ->
  _layoutHeight w'.1 = _layoutHeight st
  /\ (_layoutHeight w'.1 <= _containerHeight w'.1)%Q
  /\ (_containerHeight w'.1 = _containerHeight st
      \/ _containerHeight w'.1 = Qmax (itemBlockHeight st) (_layoutHeight st)).
Proof.
  intros H.
  apply bind_Ok in H as (y & [st1 evs1] & Hloop & H).
  assert (H1 : _layoutHeight st1 = _layoutHeight st
               /\ _containerHeight st1 = _containerHeight st).
  { revert Hloop. apply (preserves_at (fun s => _layoutHeight s = _layoutHeight st
                                          /\ _containerHeight s = _containerHeight st));
      [by split|].
    apply preserves_forEach. intros i x acc Hin. cbn zeta.
    pres. apply setCellTopAndVisibility_preserves; frame. }
  destruct H1 as [Hl1 Hc1].
  apply bind_Ok in H as ([] & [st2 evs2] & Hset & H).
  assert (H2 : _layoutHeight st2 = _layoutHeight st
               /\ (_layoutHeight st <= _containerHeight st2)%Q
               /\ (_containerHeight st2 = _containerHeight st
                   \/ _containerHeight st2 = Qmax (itemBlockHeight st) (_layoutHeight st))).
  { destruct (Qeq_bool _ (_containerHeight st)) eqn:Hsame; cbn [negb when] in Hset.
    - apply mret_Ok in Hset as [= <- _]. split; [exact Hl1|].
      apply Qeq_bool_iff in Hsame. rewrite Hc1. split; [|by left].
      rewrite <- Hsame. apply Q.le_max_r.
    - rewrite (bind_Ok_l _ _ _ _ _ (log_eq props _ _)) in Hset.
      rewrite modify_bind in Hset. apply emit_Ok in Hset as [= -> _].
      split; [exact Hl1|]. split; [apply Q.le_max_r|by right]. }
  destruct H2 as (Hl2 & Hle & Hc2).
  assert (H3 : _layoutHeight w'.1 = _layoutHeight st2
               /\ _containerHeight w'.1 = _containerHeight st2).
  { revert H. apply (preserves_at (fun s => _layoutHeight s = _layoutHeight st2
                                       /\ _containerHeight s = _containerHeight st2));
      [by split|].
    pres.
    - apply growAtBottom_content.
    - apply growAtTop_content.
    - apply popInvisibleIntoView_preserves; frame.
    - apply componentDidRender_preserves; frame. }
  destruct H3 as [-> ->]. rewrite Hl2. by repeat split.
Qed.

(** X17. When [_calcNewRenderedItemState] runs (the container has a height,
    the list has items, no measurement is pending) and returns, the
    viewport has the height it had and the container is at least as high:
    the pass either leaves [_containerHeight] as it was, or sets it to the
    greater of [_layoutHeight] and a sum of the height fields. *)
Theorem calcNewRenderedItemState_container_covers_viewport thisProps props st evs w' :
  ~ (_layoutHeight st == 0)%Q -> itemList props <> [] -> _pendingMeasurements st = ∅ ->
  _calcNewRenderedItemState thisProps props (st, evs) = Ok (tt, w') ->
  _layoutHeight w'.1 = _layoutHeight st
  /\ (_layoutHeight w'.1 <= _containerHeight w'.1)%Q.
Proof.
  intros Hlh Hlist Hpending H.
  assert (Hl : _layoutHeight w'.1 = _layoutHeight st).
  { revert H. apply (preserves_at (fun s => _layoutHeight s = _layoutHeight st)); [done|].
    apply calcNewRenderedItemState_preserves. calc_frame. }
  split; [exact Hl|].
  unfold _calcNewRenderedItemState in H.
  rewrite (bind_Ok_l this _ _ _ _ eq_refl) in H. cbn [fst] in H.
  destruct (Qeq_bool (_layoutHeight st) 0) eqn:Hh;
    [by apply Qeq_bool_iff in Hh|].
  destruct (itemList_length props =? 0) eqn:Hlen.
  { apply Z.eqb_eq in Hlen. unfold itemList_length in Hlen. destruct (itemList props); [done|].
    cbn [length] in Hlen. lia. }
  rewrite Hpending in H. rewrite bool_decide_eq_false_2 in H by (rewrite size_empty; lia).
  cbn zeta in H.
  apply bind_Ok in H as ([] & w1 & _ & H).
  apply bind_Ok in H as (st1 & w2 & _ & H).
  apply bind_Ok in H as ([] & w3 & _ & H).
  apply bind_Ok in H as (st2 & w4 & _ & H). cbn zeta in H.
  apply bind_Ok in H as ([] & [st3 evs3] & _ & H).
  rewrite (bind_Ok_l this _ _ _ _ eq_refl) in H. cbn [fst] in H. cbn zeta in H.
  by destruct (calc_tail_content thisProps props st3 evs3 _ _ w' H) as (_ & Hle & _).
Qed.

(** A pass over the six rows of 500, scrolled to 2000 in a viewport of 120. *)
Lemma calcNewRenderedItemState_container_covers_viewport_scrolled :
  ~ (_layoutHeight world_screenReader.1 == 0)%Q
  /\ _pendingMeasurements world_screenReader.1 = ∅
  /\ _calcNewRenderedItemState sixRows sixRows world_screenReader
     = Ok (tt, world_recomputedSixRows)
  /\ _layoutHeight world_recomputedSixRows.1 = 120%Q
  /\ _containerHeight world_recomputedSixRows.1 = 3000%Q
  /\ (_layoutHeight world_recomputedSixRows.1 <= _containerHeight world_recomputedSixRows.1)%Q.
Proof.
  assert (Hlh : ~ (_layoutHeight world_screenReader.1 == 0)%Q)
    by (intros H; vm_compute in H; discriminate H).
  assert (Hlist : itemList sixRows <> []) by discriminate.
  assert (Hpending : _pendingMeasurements world_screenReader.1 = ∅) by reflexivity.
  assert (Hrun : _calcNewRenderedItemState sixRows sixRows world_screenReader
                 = Ok (tt, world_recomputedSixRows)) by (vm_compute; reflexivity).
  split; [exact Hlh|]. split; [exact Hpending|]. split; [exact Hrun|].
  split; [reflexivity|]. split; [reflexivity|].
  exact (proj2 (calcNewRenderedItemState_container_covers_viewport sixRows sixRows
                  world_screenReader.1 world_screenReader.2 world_recomputedSixRows
                  Hlh Hlist Hpending Hrun)).
Defined.

(** ** Measurements in flight *)

Lemma size_union_singleton_le (X : gset string) (k : string) :
  (size (X ∪ {[k]}) <= S (size X))%nat.
Proof.
  rewrite size_union_alt.
  assert (size ({[k]} ∖ X : gset string) <= 1)%nat; [|lia].
  etrans; [apply (subseteq_size _ ({[k]} : gset string)); set_solver|].
  by rewrite size_singleton.
Qed.

Lemma buildItem_measuring n props i above ys :
  hoare (measuring_at_most n) (buildItem props i above ys)
        (fun _ => measuring_at_most (S n)).
Proof.
  unfold buildItem. destruct ys as [topY bottomY].
  assert (Hweak : forall s, measuring_at_most n s -> measuring_at_most (S n) s).
  { unfold measuring_at_most. intros. lia. }
  intros [st evs] b w' H HP. cbn [fst] in *.
  apply bind_Ok in H as (item & w1 & Hitem & H).
  apply expect_Ok in Hitem as (? & _ & [= <- ->]).
  rewrite (bind_Ok_l this _ _ _ _ eq_refl) in H. cbn [fst] in H. cbn zeta in H.
  apply bind_Ok in H as ([] & w1 & Hassert & H).
  apply assert_Ok in Hassert as [_ [= ->]].
  rewrite !modify_bind in H. cbn [fst snd] in H.
  apply bind_Ok in H as ([y ys'] & [st3 evs3] & Hmove & H).
  assert (H3 : measuring_at_most n st3).
  { revert Hmove. apply (preserves_at (measuring_at_most n)); [exact HP|].
    assert (stable set_itemsAboveRenderBlock (measuring_at_most n)) by frame.
    assert (stable set_itemsBelowRenderBlock (measuring_at_most n)) by frame.
    assert (stable set_heightAboveRenderBlock (measuring_at_most n)) by frame.
    assert (stable set_heightBelowRenderBlock (measuring_at_most n)) by frame.
    destruct above; pres. }
  apply bind_Ok in H as ([] & [st4 evs4] & Hadd & H).
  assert (H4 : measuring_at_most (S n) st4).
  { destruct (negb (_isItemHeightKnown st item)); cbn [when] in Hadd.
    - apply modify_Ok in Hadd as [= -> _]. unfold measuring_at_most in *. cbn.
      etrans; [apply size_union_singleton_le|]. lia.
    - apply mret_Ok in Hadd as [= -> _]. by apply Hweak. }
  revert H. apply (preserves_at (measuring_at_most (S n))); [exact H4|].
  pres. apply allocateCell_preserves; frame.
Qed.

Lemma growAtBottom_measuring n props limit ys :
  preserves (measuring_at_most _maxSimultaneousMeasures) (growAtBottom n props limit ys).
Proof.
  revert ys. induction n as [|n IH]; intros ys; [apply preserves_ret|].
  cbn [growAtBottom]. apply hoare_this_eq. intros st evs b w' HP H.
  destruct (bool_decide _) eqn:Hroom; [|by apply mret_Ok in H as [= _ ->]].
  destruct (_ || _); [by apply mret_Ok in H as [= _ ->]|].
  apply bind_Ok in H as (ys' & w1 & Hbuild & H).
  eapply IH; [exact H|]. apply bool_decide_eq_true in Hroom.
  refine (buildItem_measuring (pred _maxSimultaneousMeasures) _ _ _ _ _ _ _ Hbuild _).
  unfold measuring_at_most, _maxSimultaneousMeasures in *. cbn [fst pred]. lia.
Qed.

Lemma growAtTop_measuring n props limit ys :
  preserves (measuring_at_most _maxSimultaneousMeasures) (growAtTop n props limit ys).
Proof.
  revert ys. induction n as [|n IH]; intros ys; [apply preserves_ret|].
  cbn [growAtTop]. apply hoare_this_eq. intros st evs b w' HP H.
  destruct (bool_decide _) eqn:Hroom; [|by apply mret_Ok in H as [= _ ->]].
  destruct (_ || _); [by apply mret_Ok in H as [= _ ->]|].
  apply bind_Ok in H as (ys' & w1 & Hbuild & H).
  eapply IH; [exact H|]. apply bool_decide_eq_true in Hroom.
  refine (buildItem_measuring (pred _maxSimultaneousMeasures) _ _ _ _ _ _ _ Hbuild _).
  unfold measuring_at_most, _maxSimultaneousMeasures in *. cbn [fst pred]. lia.
Qed.

Lemma findFirstInRenderBlock_measuring n props limit i items y :
  hoare (measuring_at_most n) (findFirstInRenderBlock props limit i items y)
        (fun _ => measuring_at_most (S n)).
Proof.
  assert (Hweak : forall s, measuring_at_most n s -> measuring_at_most (S n) s).
  { unfold measuring_at_most. intros. lia. }
  revert i y. induction items as [|item items IH]; intros i y.
  - intros w a w' H HP. apply mret_Ok in H as [= _ ->]. by apply Hweak.
  - cbn [findFirstInRenderBlock]. apply hoare_this_eq. intros st evs b w' HP H.
    cbn zeta in H. destruct (Qlt_bool limit _).
    + rewrite !modify_bind in H. cbn [fst snd] in H.
      apply bind_Ok in H as (cell & [st1 evs1] & Halloc & H).
      assert (H1 : measuring_at_most n st1).
      { revert Halloc. apply (preserves_at (measuring_at_most n)); [exact HP|].
        apply allocateCell_preserves; frame. }
      destruct (negb (_isItemHeightKnown st item)); cbn [when] in H.
      * apply modify_Ok in H as [= _ ->]. unfold measuring_at_most in *. cbn.
        etrans; [apply size_union_singleton_le|]. lia.
      * apply mret_Ok in H as [= _ ->]. by apply Hweak.
    + eapply IH; [exact H|exact HP].
Qed.

Lemma cull_measuring n props line m :
  preserves (measuring_at_most m) (cullFromTop n props line)
  /\ preserves (measuring_at_most m) (cullFromBottom n props line).
Proof.
  assert (stable set_itemsInRenderBlock (measuring_at_most m)) by frame.
  assert (stable set_itemsAboveRenderBlock (measuring_at_most m)) by frame.
  assert (stable set_itemsBelowRenderBlock (measuring_at_most m)) by frame.
  assert (stable set_heightOfRenderBlock (measuring_at_most m)) by frame.
  assert (stable set_heightAboveRenderBlock (measuring_at_most m)) by frame.
  assert (stable set_heightBelowRenderBlock (measuring_at_most m)) by frame.
  split.
  - induction n as [|n IH]; [apply preserves_ret|].
    cbn [cullFromTop]. pres; [apply recycleCell_preserves; frame|exact IH].
  - induction n as [|n IH]; [apply preserves_ret|].
    cbn [cullFromBottom]. pres; [apply recycleCell_preserves; frame|exact IH].
Qed.

(** X18. "How many items with unknown heights will we allow?": a pass of
    [_calcNewRenderedItemState] that starts with at most 16 measurements
    pending ends with at most 16 pending. It adds items to the block only
    when none is pending, and stops adding at the sixteenth item whose
    height is unknown. *)
Theorem calcNewRenderedItemState_limits_measurements thisProps props w w' :
  (size (_pendingMeasurements w.1) <= _maxSimultaneousMeasures)%nat ->
  _calcNewRenderedItemState thisProps props w = Ok (tt, w') ->
  (size (_pendingMeasurements w'.1) <= _maxSimultaneousMeasures)%nat.
Proof.
  intros Hpre H. destruct w as [st evs]. cbn [fst] in Hpre.
  unfold _calcNewRenderedItemState in H.
  rewrite (bind_Ok_l this _ _ _ _ eq_refl) in H. cbn [fst] in H.
  destruct (Qeq_bool (_layoutHeight st) 0); [by apply mret_Ok in H as [= ->]|].
  destruct (itemList_length props =? 0); [by apply mret_Ok in H as [= ->]|].
  destruct (bool_decide _) eqn:Hnone; [by apply mret_Ok in H as [= ->]|].
  apply bool_decide_eq_false in Hnone. cbn zeta in H.
  assert (H0 : measuring_at_most 0 st) by (unfold measuring_at_most; lia).
  apply bind_Ok in H as ([] & [st1 evs1] & Hcull & H).
  assert (H1 : measuring_at_most 0 st1).
  { revert Hcull. apply (preserves_at (measuring_at_most 0)); [exact H0|].
    apply cull_measuring. }
  rewrite (bind_Ok_l this _ _ _ _ eq_refl) in H. cbn [fst] in H.
  apply bind_Ok in H as ([] & [st2 evs2] & Hcull' & H).
  assert (H2 : measuring_at_most 0 st2).
  { revert Hcull'. apply (preserves_at (measuring_at_most 0)); [exact H1|].
    apply cull_measuring. }
  rewrite (bind_Ok_l this _ _ _ _ eq_refl) in H. cbn [fst] in H. cbn zeta in H.
  apply bind_Ok in H as ([] & [st3 evs3] & Hfind & H).
  assert (H3 : measuring_at_most _maxSimultaneousMeasures st3).
  { assert (measuring_at_most 1 st3);
      [|unfold measuring_at_most, _maxSimultaneousMeasures in *; lia].
    destruct (_itemsInRenderBlock st2 =? 0); cbn [when] in Hfind.
    - rewrite modify_bind in Hfind. cbn [fst snd] in Hfind.
      apply bind_Ok in Hfind as ([] & [st4 evs4] & Hfirst & Hfind).
      rewrite !modify_bind in Hfind. apply modify_Ok in Hfind as [= ->].
      exact (findFirstInRenderBlock_measuring 0 _ _ _ _ _ _ _ _ Hfirst H2).
    - apply mret_Ok in Hfind as [= ->]. unfold measuring_at_most in *. lia. }
  revert H.
  apply (preserves_at (measuring_at_most _maxSimultaneousMeasures)); [exact H3|].
  assert (stable set_containerHeight (measuring_at_most _maxSimultaneousMeasures))
    by frame.
  pres.
  - apply setCellTopAndVisibility_preserves; frame.
  - apply growAtBottom_measuring.
  - apply growAtTop_measuring.
  - apply popInvisibleIntoView_preserves; frame.
  - apply componentDidRender_preserves; frame.
Qed.

(** The first pass over forty items of unknown height: sixteen of them are
    put in the block to be measured, although the viewport has room for
    more. *)
Lemma calcNewRenderedItemState_limits_measurements_forty :
  (size (_pendingMeasurements world_beforeFirstPass.1) <= _maxSimultaneousMeasures)%nat
  /\ _calcNewRenderedItemState fortyMeasured fortyMeasured world_beforeFirstPass
     = Ok (tt, world_afterFirstPass)
  /\ size (_pendingMeasurements world_afterFirstPass.1) = 16%nat
  /\ (size (_pendingMeasurements world_afterFirstPass.1) <= _maxSimultaneousMeasures)%nat.
Proof.
  assert (Hpre : (size (_pendingMeasurements world_beforeFirstPass.1)
                  <= _maxSimultaneousMeasures)%nat) by (vm_compute; lia).
  assert (Hrun : _calcNewRenderedItemState fortyMeasured fortyMeasured world_beforeFirstPass
                 = Ok (tt, world_afterFirstPass)) by (vm_compute; reflexivity).
  split; [exact Hpre|]. split; [exact Hrun|]. split; [vm_compute; reflexivity|].
  exact (calcNewRenderedItemState_limits_measurements fortyMeasured fortyMeasured
           world_beforeFirstPass world_afterFirstPass Hpre Hrun).
Defined.

(** ** A scroll to a new offset *)

(** X19. A scroll event whose primary-axis offset differs from the recorded
    one is taken in: when the handler returns, the offset is recorded in
    [_lastScrollTop], and the caller's [onScroll], when there is one, has
    been called with both offsets of the event, after the recomputation,
    as the last call made. *)
Theorem onScroll_new_offset_reported axis thisProps (scrollTop scrollLeft : Q) w w' :
  ~ (_lastScrollTop w.1 == primaryOffset axis scrollTop scrollLeft)%Q ->
  _onScroll axis thisProps scrollTop scrollLeft w = Ok (tt, w') ->
  _lastScrollTop w'.1 = primaryOffset axis scrollTop scrollLeft
  /\ (onScroll thisProps = true -> exists evs', w'.2 = evs' ++ [EvOnScroll scrollTop scrollLeft]).
Proof.
  intros Hnew H. destruct w as [st evs]. cbn [fst] in Hnew. unfold _onScroll in H.
  rewrite (bind_Ok_l this _ _ _ _ eq_refl) in H. cbn [fst] in H.
  destruct (Qeq_bool _ _) eqn:Heq; [by apply Qeq_bool_iff in Heq|].
  rewrite modify_bind in H. cbn [fst snd] in H.
  set (o := primaryOffset axis scrollTop scrollLeft) in *.
  apply bind_Ok in H as ([] & [st1 evs1] & Hcalc & H).
  apply bind_Ok in H as ([] & [st2 evs2] & Hrender & H).
  apply bind_Ok in H as ([] & [st3 evs3] & Hreconcile & H).
  assert (H3 : _lastScrollTop st3 = o).
  { revert Hreconcile. apply (preserves_at (fun s => _lastScrollTop s = o)).
    - revert Hrender. apply (preserves_at (fun s => _lastScrollTop s = o)).
      + revert Hcalc. apply (preserves_at (fun s => _lastScrollTop s = o)); [reflexivity|].
        apply calcNewRenderedItemState_preserves. calc_frame.
      + apply renderIfDirty_preserves.
    - apply reconcileCorrections_preserves; frame. }
  destruct (onScroll thisProps); cbn [when] in H.
  - apply emit_Ok in H as [= ->]. split; [exact H3|]. intros _. by exists evs3.
  - apply mret_Ok in H as [= ->]. split; [exact H3|]. discriminate.
Qed.

(** The six rows, with a caller that listens, are scrolled from 2000 to 2880. *)
Lemma onScroll_new_offset_reported_sixRows :
  ~ (_lastScrollTop world_screenReader.1 == 2880)%Q
  /\ _onScroll Vertical sixRowsOnScroll 2880 7 world_screenReader
     = Ok (tt, world_scrolledOn)
  /\ _lastScrollTop world_scrolledOn.1 = 2880%Q
  /\ exists evs', world_scrolledOn.2 = evs' ++ [EvOnScroll 2880 7].
Proof.
  assert (Hnew : ~ (_lastScrollTop world_screenReader.1
                    == primaryOffset Vertical 2880 7)%Q)
    by (intros H; vm_compute in H; discriminate H).
  assert (Hrun : _onScroll Vertical sixRowsOnScroll 2880 7 world_screenReader
                 = Ok (tt, world_scrolledOn)) by (vm_compute; reflexivity).
  destruct (onScroll_new_offset_reported Vertical sixRowsOnScroll 2880 7
              world_screenReader world_scrolledOn Hnew Hrun) as [Hoff Hcall].
  split; [exact Hnew|]. split; [exact Hrun|]. split; [exact Hoff|exact (Hcall eq_refl)].
Defined.

(** ** The cells of the render block *)

Lemma item_at_key_inj (l : list ItemInfo) (i j : Z) (x y : ItemInfo) :
  NoDup (key <$> l) -> item_at l i = Some x -> item_at l j = Some y ->
  key x = key y -> i = j.
Proof.
  unfold item_at. intros Hnd Hx Hy Hk.
  case_bool_decide; [|done]. case_bool_decide; [|done].
  assert (Hi : (key <$> l) !! Z.to_nat i = Some (key x)) by by rewrite list_lookup_fmap, Hx.
  assert (Hj : (key <$> l) !! Z.to_nat j = Some (key x)) by by rewrite list_lookup_fmap, Hy, Hk.
  pose proof (NoDup_lookup _ _ _ _ Hnd Hi Hj). lia.
Qed.

Lemma block_has_cells_alt props st :
  block_has_cells props st
  <-> forall i, inRenderBlock st i ->
        exists item, item_at (itemList props) i = Some item /\ has_cell (key item) st.
Proof.
  unfold block_has_cells, has_cell. split; intros H i Hi.
  - destruct (H i Hi) as (item & cell & Hitem & Hc). exists item. by rewrite Hc.
  - destruct (H i Hi) as (item & Hitem & [cell Hc]). by exists item, cell.
Qed.

Ltac cells_in H :=
  let H' := fresh in
  pose proof (proj1 (block_has_cells_alt _ _) H) as H'; clear H; rename H' into H.

(** An operation that leaves the bounds of the block alone and takes no
    cell away keeps the cells of the block. *)
Lemma block_has_cells_lift {A} (props : Props) (m : M A) :
  (forall a n, preserves (block_is a n) m) ->
  (forall k, preserves (has_cell k) m) ->
  preserves (block_has_cells props) m.
Proof.
  intros Hblock Hcell w r w' H HP. apply block_has_cells_alt. intros i Hi.
  cells_in HP. unfold inRenderBlock in *.
  destruct (Hblock _ _ _ _ _ H (conj eq_refl eq_refl)) as [Ha Hn].
  rewrite Ha, Hn in Hi. destruct (HP i Hi) as (item & Hitem & Hc).
  exists item. split; [exact Hitem|]. exact (Hcell _ _ _ _ H Hc).
Qed.

Lemma setCellTopAndVisibility_has_cell k k' v t a :
  preserves (has_cell k) (_setCellTopAndVisibility k' v t a).
Proof.
  intros [st evs] [] w' H Hc. unfold has_cell in *. cbn [fst] in *.
  unfold _setCellTopAndVisibility in H.
  rewrite (bind_Ok_l this _ _ _ _ eq_refl) in H. cbn [fst] in H.
  destruct (_activeCells st !! k') as [c|] eqn:Hk'.
  - apply modify_Ok in H as [= ->]. cbn.
    destruct (decide (k' = k)) as [->|Hne];
      [by rewrite lookup_insert_eq|by rewrite lookup_insert_ne].
  - by apply assert_Ok in H as [? _].
Qed.

Lemma allocateCell_has_cell k k' t i c h tp v :
  preserves (has_cell k) (_allocateCell k' t i c h tp v).
Proof.
  unfold _allocateCell.
  assert (stable set_recycledCells (has_cell k)) by frame.
  assert (stable set_nextCellKey (has_cell k)) by frame.
  assert (stable set_isRenderDirty (has_cell k)) by frame.
  pres.
  all: apply preserves_bind; [|intros ?; pres].
  all: apply preserves_modify; intros s Hc; unfold has_cell in *; cbn.
  all: destruct (decide (k' = k)) as [->|Hne];
    [by rewrite lookup_insert_eq|by rewrite lookup_insert_ne].
Qed.

Lemma allocateCell_gives_cell k t i c h tp v :
  hoare (fun _ => True) (_allocateCell k t i c h tp v) (fun _ => has_cell k).
Proof.
  intros w r w' H _. unfold _allocateCell in H.
  apply bind_Ok in H as (st & w1 & _ & H).
  apply bind_Ok in H as (c1 & w2 & _ & H).
  apply bind_Ok in H as (c2 & w3 & _ & H).
  rewrite !modify_bind in H. apply mret_Ok in H as [= _ ->].
  unfold has_cell. cbn. by rewrite lookup_insert_eq.
Qed.

Lemma recycleCell_has_cell k k' : k <> k' -> preserves (has_cell k) (_recycleCell k').
Proof.
  intros Hne [st evs] [] w' H Hc. cbn [fst] in *. unfold has_cell in *.
  destruct (_activeCells st !! k') as [cell|] eqn:Hk'.
  - destruct (recycleCell_spec st evs k' cell Hk') as (st' & Hrun & Hact & _).
    rewrite Hrun in H. injection H as <-. cbn [fst]. rewrite Hact.
    by rewrite lookup_delete_ne.
  - rewrite (recycleCell_absent st evs k' Hk') in H. by injection H as <-.
Qed.

Lemma setCellTopAndVisibility_cells props k v t a :
  preserves (block_has_cells props) (_setCellTopAndVisibility k v t a).
Proof.
  apply block_has_cells_lift.
  - intros. apply setCellTopAndVisibility_preserves. frame.
  - intros. apply setCellTopAndVisibility_has_cell.
Qed.

Lemma allocateCell_cells props k t i c h tp v :
  preserves (block_has_cells props) (_allocateCell k t i c h tp v).
Proof.
  apply block_has_cells_lift.
  - intros. apply allocateCell_preserves; frame.
  - intros. apply allocateCell_has_cell.
Qed.

Section block_cells.
Variable props : Props.
Hypothesis Hnd : NoDup (key <$> itemList props).
Let P : Instance -> Prop := block_has_cells props.

(** Taking the cell of [k] away keeps the cells of a block that does not
    hold the item of key [k]. *)
Lemma recycleCell_outside st evs k st' evs' :
  _recycleCell k (st, evs) = Ok (tt, (st', evs')) ->
  (forall i, inRenderBlock st i ->
     exists item, item_at (itemList props) i = Some item /\ has_cell (key item) st
                  /\ key item <> k) ->
  P st'.
Proof.
  intros Hrun Hblock. apply block_has_cells_alt. intros i Hi. unfold inRenderBlock in Hi.
  assert (Hsame : preserves (block_is (_itemsAboveRenderBlock st) (_itemsInRenderBlock st))
                    (_recycleCell k)) by (apply recycleCell_preserves; frame).
  destruct (Hsame _ _ _ Hrun (conj eq_refl eq_refl)) as [Ha Hn]. cbn [fst] in Ha, Hn.
  rewrite Ha, Hn in Hi. destruct (Hblock i Hi) as (item & Hitem & Hc & Hne).
  exists item. split; [exact Hitem|].
  exact (recycleCell_has_cell (key item) k Hne _ _ _ Hrun Hc).
Qed.

Lemma cullFromTop_cells n line : preserves P (cullFromTop n props line).
Proof.
  induction n as [|n IH]; [apply preserves_ret|].
  cbn [cullFromTop]. apply hoare_this_eq. intros st evs b w' HP H.
  destruct (0 <? _itemsInRenderBlock st) eqn:Hin; [|by apply mret_Ok in H as [= _ ->]].
  apply bind_Ok in H as (item & w1 & Hitem & H).
  apply expect_Ok in Hitem as (it & Hit & [= -> ->]).
  destruct (negb (_isItemHeightKnown st it)); [by apply mret_Ok in H as [= _ ->]|].
  destruct (Qle_bool _ _); [by apply mret_Ok in H as [= _ ->]|].
  mnorm_in H. cbn [fst snd] in H.
  apply bind_Ok in H as ([] & [st2 evs2] & Hrec & H).
  revert H. apply (preserves_at P); [|pres; exact IH].
  cells_in HP.
  apply (recycleCell_outside _ _ _ _ _ Hrec). unfold inRenderBlock in *. cbn. intros i Hi.
  destruct (HP i) as (item & Hitem & Hc); [clear - Hi; destruct st; cbn in *; lia|].
  exists item. split; [exact Hitem|]. split; [exact Hc|].
  intros Hk. pose proof (item_at_key_inj _ _ _ _ _ Hnd Hitem Hit Hk) as Heq.
  clear - Hi Heq. destruct st; cbn in *; lia.
Qed.

Lemma cullFromBottom_cells n line : preserves P (cullFromBottom n props line).
Proof.
  induction n as [|n IH]; [apply preserves_ret|].
  cbn [cullFromBottom]. apply hoare_this_eq. intros st evs b w' HP H.
  destruct (0 <? _itemsInRenderBlock st) eqn:Hin; [|by apply mret_Ok in H as [= _ ->]].
  apply bind_Ok in H as (item & w1 & Hitem & H).
  apply expect_Ok in Hitem as (it & Hit & [= -> ->]).
  destruct (negb (_isItemHeightKnown st it)); [by apply mret_Ok in H as [= _ ->]|].
  destruct (Qle_bool _ _); [by apply mret_Ok in H as [= _ ->]|].
  mnorm_in H. cbn [fst snd] in H.
  apply bind_Ok in H as ([] & [st2 evs2] & Hrec & H).
  revert H. apply (preserves_at P); [|pres; exact IH].
  cells_in HP.
  apply (recycleCell_outside _ _ _ _ _ Hrec). unfold inRenderBlock in *. cbn. intros i Hi.
  destruct (HP i) as (item & Hitem & Hc); [clear - Hi; destruct st; cbn in *; lia|].
  exists item. split; [exact Hitem|]. split; [exact Hc|].
  intros Hk. pose proof (item_at_key_inj _ _ _ _ _ Hnd Hitem Hit Hk) as Heq.
  clear - Hi Heq. destruct st; cbn in *; lia.
Qed.

(** The first item of an empty block is given its cell. *)
Lemma findFirstInRenderBlock_cells limit i items y :
  0 <= i ->
  (forall j x, items !! j = Some x -> item_at (itemList props) (i + Z.of_nat j) = Some x) ->
  hoare (fun s => _itemsInRenderBlock s = 0) (findFirstInRenderBlock props limit i items y)
        (fun _ => P).
Proof.
  revert i y. induction items as [|item items IH]; intros i y Hi Hitems.
  - intros w a w' H Hempty. apply mret_Ok in H as [= _ ->]. intros j Hj.
    unfold inRenderBlock in Hj. lia.
  - cbn [findFirstInRenderBlock]. apply hoare_this_eq. intros st evs b w' Hempty H.
    cbn zeta in H. destruct (Qlt_bool limit _).
    + rewrite !modify_bind in H. cbn [fst snd] in H.
      apply bind_Ok in H as (c & [st2 evs2] & Halloc & H).
      assert (Hblock : block_is i 1 st2).
      { revert Halloc. apply (preserves_at (block_is i 1)); [done|].
        apply allocateCell_preserves; frame. }
      pose proof (allocateCell_gives_cell _ _ _ _ _ _ _ _ _ _ Halloc I) as Hcell.
      cbn [fst] in Hcell.
      assert (Hlast : preserves (fun s => block_is i 1 s /\ has_cell (key item) s)
                        (when (negb (_isItemHeightKnown st item))
                           (modify (fun s => set_pendingMeasurements
                                               (_pendingMeasurements s ∪ {[key item]}) s)))).
      { assert (stable set_pendingMeasurements
                  (fun s => block_is i 1 s /\ has_cell (key item) s)) by frame.
        pres. }
      destruct (Hlast _ _ _ H (conj Hblock Hcell)) as [[Ha Hn] Hc].
      apply block_has_cells_alt. intros j Hj. unfold inRenderBlock in Hj.
      rewrite Ha, Hn in Hj. assert (j = i) as -> by lia.
      exists item. split; [|exact Hc].
      specialize (Hitems 0%nat item eq_refl). by rewrite Z.add_0_r in Hitems.
    + eapply (IH (i + 1)); [lia| |exact H|exact Hempty].
      intros j x Hx. specialize (Hitems (S j) x Hx).
      by replace (i + 1 + Z.of_nat j) with (i + Z.of_nat (S j)) by lia.
Qed.

(** The item added at either end of the block is given its cell. *)
Lemma buildItem_cells i (above : bool) ys :
  hoare (fun s => P s /\ i = (if above then _itemsAboveRenderBlock s - 1
                              else _itemsAboveRenderBlock s + _itemsInRenderBlock s))
        (buildItem props i above ys) (fun _ => P).
Proof.
  unfold buildItem. destruct ys as [topY bottomY].
  intros [st evs] b w' H [HP Hi]. cbn [fst] in *.
  apply bind_Ok in H as (item & w1 & Hitem & H).
  apply expect_Ok in Hitem as (it & Hit & [= -> ->]).
  rewrite (bind_Ok_l this _ _ _ _ eq_refl) in H. cbn [fst] in H. cbn zeta in H.
  apply bind_Ok in H as ([] & w1 & Hassert & H).
  apply assert_Ok in Hassert as [_ [= ->]].
  set (a := if above then _itemsAboveRenderBlock st - 1 else _itemsAboveRenderBlock st).
  set (n := _itemsInRenderBlock st + 1).
  enough (Hend : block_is a n w'.1 /\ has_cell (key it) w'.1
                 /\ forall k, has_cell k st -> has_cell k w'.1).
  { destruct Hend as ([Ha Hn] & Hnew & Hold). cells_in HP.
    apply block_has_cells_alt. intros j Hj. unfold inRenderBlock in *. rewrite Ha, Hn in Hj.
    destruct (decide (j = i)) as [->|Hne].
    - exists it. split; [exact Hit|exact Hnew].
    - destruct (HP j) as (item & Hitem & Hc);
        [subst a n; clear - Hj Hne Hi; destruct st, above; cbn in *; lia|].
      exists item. split; [exact Hitem|]. by apply Hold. }
  assert (Hpend : stable set_pendingMeasurements (block_is a n)) by frame.
  destruct above; mnorm_in H; cbn [fst snd] in H.
  all: apply bind_Ok in H as ([] & [st2 evs2] & Hwhen & H).
  all: apply bind_Ok in H as (c & [st3 evs3] & Halloc & H).
  all: apply bind_Ok in H as ([] & [st4 evs4] & Hlog & H).
  all: apply log_Ok in Hlog as [= -> ->]; apply mret_Ok in H as [= _ ->]; cbn [fst].
  all: split; [|split].
  all: try (revert Halloc; apply (preserves_at (block_is a n));
            [|apply allocateCell_preserves; frame];
            revert Hwhen; apply (preserves_at (block_is a n)); [done|pres]).
  all: try exact (allocateCell_gives_cell _ _ _ _ _ _ _ _ _ _ Halloc I).
  all: intros k Hk; revert Halloc; apply (preserves_at (has_cell k));
    [|apply allocateCell_has_cell];
    revert Hwhen; apply (preserves_at (has_cell k)); [exact Hk|];
    assert (stable set_pendingMeasurements (has_cell k)) by frame; pres.
Qed.

Lemma growAtBottom_cells n limit ys : preserves P (growAtBottom n props limit ys).
Proof.
  revert ys. induction n as [|n IH]; intros ys; [apply preserves_ret|].
  cbn [growAtBottom]. apply hoare_this_eq. intros st evs b w' HP H.
  destruct (bool_decide _); [|by apply mret_Ok in H as [= _ ->]].
  destruct (_ || _); [by apply mret_Ok in H as [= _ ->]|].
  apply bind_Ok in H as (ys' & w1 & Hbuild & H).
  eapply IH; [exact H|]. eapply buildItem_cells; [exact Hbuild|].
  split; [exact HP|reflexivity].
Qed.

Lemma growAtTop_cells n limit ys : preserves P (growAtTop n props limit ys).
Proof.
  revert ys. induction n as [|n IH]; intros ys; [apply preserves_ret|].
  cbn [growAtTop]. apply hoare_this_eq. intros st evs b w' HP H.
  destruct (bool_decide _); [|by apply mret_Ok in H as [= _ ->]].
  destruct (_ || _); [by apply mret_Ok in H as [= _ ->]|].
  apply bind_Ok in H as (ys' & w1 & Hbuild & H).
  eapply IH; [exact H|]. eapply buildItem_cells; [exact Hbuild|].
  split; [exact HP|reflexivity].
Qed.

Lemma popInvisibleIntoView_cells : preserves P (_popInvisibleIntoView props).
Proof.
  assert (stable set_isInitialFillComplete P) by frame.
  unfold _popInvisibleIntoView. pres. apply setCellTopAndVisibility_cells.
Qed.

Lemma calcNewRenderedItemState_cells thisProps :
  preserves P (_calcNewRenderedItemState thisProps props).
Proof.
  assert (stable set_containerHeight P) by frame.
  unfold _calcNewRenderedItemState.
  apply preserves_bind_this. intros st0 _.
  destruct (Qeq_bool (_layoutHeight st0) 0); [apply preserves_ret|].
  destruct (itemList_length props =? 0); [apply preserves_ret|].
  destruct (bool_decide _); [apply preserves_ret|]. cbn zeta.
  apply preserves_bind; [apply cullFromTop_cells|intros ?].
  apply preserves_bind_this. intros st1 _.
  apply preserves_bind; [apply cullFromBottom_cells|intros ?].
  apply hoare_this_eq. intros st evs b w' HP Hrun. cbn zeta in Hrun.
  apply bind_Ok in Hrun as ([] & [st2 evs2] & Hfind & Hrun).
  assert (HP2 : P st2).
  { destruct (_itemsInRenderBlock st =? 0) eqn:Hempty; cbn [when] in Hfind;
      [|by apply mret_Ok in Hfind as [= ->]].
    (* the block was empty: it is looked for from the start of the list *)
    rewrite modify_bind in Hfind. cbn [fst snd] in Hfind.
    apply bind_Ok in Hfind as ([] & [st3 evs3] & Hfirst & Hfind).
    assert (HP3 : P st3).
    { refine (findFirstInRenderBlock_cells _ 0 (itemList props) _ _ _ _ _ _ Hfirst _).
      - lia.
      - intros j x Hx. unfold item_at. rewrite bool_decide_true by lia.
        by rewrite Z.add_0_l, Nat2Z.id.
      - cbn [fst]. by apply Z.eqb_eq in Hempty. }
    rewrite !modify_bind in Hfind. apply modify_Ok in Hfind as [= ->]. exact HP3. }
  revert Hrun. apply (preserves_at P); [exact HP2|].
  pres.
  - apply setCellTopAndVisibility_cells.
  - apply growAtBottom_cells.
  - apply growAtTop_cells.
  - apply popInvisibleIntoView_cells.
  - apply componentDidRender_preserves; frame.
Qed.
End block_cells.

(** X20. When the keys of the list are distinct, a recomputation pass that
    returns keeps the cells of the render block: if every index of the
    block was an item of the list with an active cell before the pass,
    every index of the block the pass leaves is one too. The items the
    pass adds at either end are given cells, and culling takes away only
    the cells of the items it removes from the block. *)
Theorem calcNewRenderedItemState_keeps_block_cells thisProps props w w' :
  NoDup (key <$> itemList props) ->
  block_has_cells props w.1 ->
  _calcNewRenderedItemState thisProps props w = Ok (tt, w') ->
  block_has_cells props w'.1.
Proof.
  intros Hnd Hcells Hrun.
  exact (calcNewRenderedItemState_cells props Hnd thisProps _ _ _ Hrun Hcells).
Qed.

(** The block of the six rows scrolled to 2000 holds the rows 1 to 5;
    when the offset jumps back to 0 the pass culls the rows 3 to 5 and adds
    the row 0. *)
Lemma calcNewRenderedItemState_keeps_block_cells_jump :
  NoDup (key <$> itemList sixRows)
  /\ block_has_cells sixRows world_jumpedBack.1
  /\ (_itemsAboveRenderBlock world_jumpedBack.1 = 1
      /\ _itemsInRenderBlock world_jumpedBack.1 = 5)
  /\ _calcNewRenderedItemState sixRows sixRows world_jumpedBack = Ok (tt, world_afterJump)
  /\ (_itemsAboveRenderBlock world_afterJump.1 = 0
      /\ _itemsInRenderBlock world_afterJump.1 = 3)
  /\ block_has_cells sixRows world_afterJump.1.
Proof.
  assert (Hnd : NoDup (key <$> itemList sixRows)).
  { apply (bool_decide_unpack _). vm_compute. exact I. }
  assert (Hcells : block_has_cells sixRows world_jumpedBack.1).
  { intros i Hi. change (1 <= i < 1 + 5) in Hi.
    assert (i = 1 \/ i = 2 \/ i = 3 \/ i = 4 \/ i = 5) as [-> | [-> | [-> | [-> | ->]]]] by lia;
      eexists _, _; split; vm_compute; reflexivity. }
  assert (Hrun : _calcNewRenderedItemState sixRows sixRows world_jumpedBack
                 = Ok (tt, world_afterJump)) by (vm_compute; reflexivity).
  split; [exact Hnd|]. split; [exact Hcells|]. split; [split; reflexivity|].
  split; [exact Hrun|]. split; [split; reflexivity|].
  exact (calcNewRenderedItemState_keeps_block_cells sixRows sixRows world_jumpedBack
           world_afterJump Hnd Hcells Hrun).
Defined.

(** ** What a render leaves in the instance *)

Lemma seqZ_to_nat (m n : Z) : seqZ m n = seqZ m (Z.of_nat (Z.to_nat n)).
Proof. unfold seqZ. by rewrite Nat2Z.id. Qed.

(** A loop over consecutive integers none of whose turns fails: it
    returns, and the invariant holds at the end. *)
Lemma forEach_seqZ_runs {St} (I : Z -> St -> Instance -> Prop)
    (body : Z -> Z -> St -> M St) (j m : Z) (n : nat) (acc : St) (w : World) :
  (forall j x a w, m <= x < m + Z.of_nat n -> I x a w.1 ->
     exists a' w', body j x a w = Ok (a', w') /\ I (x + 1) a' w'.1) ->
  I m acc w.1 ->
  exists a' w', forEach body j (seqZ m (Z.of_nat n)) acc w = Ok (a', w')
                /\ I (m + Z.of_nat n) a' w'.1.
Proof.
  revert j m acc w. induction n as [|n IH]; intros j m acc w Hbody HI.
  - exists acc, w. split; [reflexivity|]. by rewrite Z.add_0_r.
  - rewrite seqZ_cons by lia. cbn [forEach].
    destruct (Hbody j m acc w) as (a1 & w1 & Hrun & HI1); [lia|exact HI|].
    replace (Z.pred (Z.of_nat (S n))) with (Z.of_nat n) by lia.
    destruct (IH (j + 1) (Z.succ m) a1 w1) as (a' & w' & Hrest & HI').
    + intros j' x a w0 Hx. apply Hbody. lia.
    + by replace (Z.succ m) with (m + 1) by lia.
    + exists a', w'. split.
      * apply bind_Ok. by exists a1, w1.
      * by replace (m + Z.of_nat (S n)) with (Z.succ m + Z.of_nat n) by lia.
Qed.

Lemma blockItems_next (l : list ItemInfo) (a x : Z) (item : ItemInfo) :
  0 <= a -> 0 <= x -> item_at l (a + x) = Some item ->
  take (Z.to_nat (x + 1)) (drop (Z.to_nat a) l)
  = take (Z.to_nat x) (drop (Z.to_nat a) l) ++ [item].
Proof.
  intros Ha Hx Hitem. unfold item_at in Hitem. rewrite bool_decide_true in Hitem by lia.
  replace (Z.to_nat (x + 1)) with (S (Z.to_nat x)) by lia.
  apply take_S_r. rewrite lookup_drop.
  by replace (Z.to_nat a + Z.to_nat x)%nat with (Z.to_nat (a + x)) by lia.
Qed.

Lemma render_runs props st evs :
  block_has_cells props st ->
  exists st' evs',
    render props (st, evs) = Ok (tt, (st', evs'))
    /\ (forall k, cell_setShouldUpdate false <$> _activeCells st' !! k
                  = cell_setShouldUpdate false <$> _activeCells st !! k)
    /\ (forall i, inRenderBlock st i ->
          exists item cell, item_at (itemList props) i = Some item
                            /\ _activeCells st' !! key item = Some cell
                            /\ shouldUpdate cell = false)
    /\ _recycledCells st' = cell_setShouldUpdate false <$> _recycledCells st
    /\ (_navigatableItemsRendered st').*1
       = key <$> filter (fun item => truthy_bool (isNavigable item) = true)
                        (blockItems props st)
    /\ (forall k vk, (k, vk) ∈ _navigatableItemsRendered st' ->
          exists cell, _activeCells st !! k = Some cell /\ virtualKey cell = vk).
Proof.
  intros Hcells. unfold render.
  rewrite modify_bind. cbn [fst snd].
  rewrite (bind_Ok_l (log _ _) _ _ _ _ (proj2 (log_Ok _ _ _ _) eq_refl)). cbn [fst snd].
  rewrite (bind_Ok_l this _ _ _ _ eq_refl). cbn [fst].
  set (st1 := set_navigatableItemsRendered [] st).
  set (evs1 := if logInfo props then _ else _).
  set (a := _itemsAboveRenderBlock st). set (n := _itemsInRenderBlock st).
  change (_itemsInRenderBlock st1) with n.
  rewrite (seqZ_to_nat 0 n).
  (* first loop: the navigable items *)
  set (I1 := fun (x : Z) (_ : unit) (s : Instance) =>
               set_navigatableItemsRendered [] s = st1
               /\ (_navigatableItemsRendered s).*1
                  = key <$> filter (fun item => truthy_bool (isNavigable item) = true)
                                   (take (Z.to_nat x) (drop (Z.to_nat a) (itemList props)))
               /\ forall k vk, (k, vk) ∈ _navigatableItemsRendered s ->
                    exists cell, _activeCells st !! k = Some cell /\ virtualKey cell = vk).
  match goal with
  | |- exists _ _, (forEach ?body 0 _ tt ≫= _) _ = _ /\ _ =>
      destruct (forEach_seqZ_runs I1 body 0 0 (Z.to_nat n) tt (st1, evs1))
        as ([] & [st2 evs2] & Hrun1 & Hsame1 & Hkeys & Hvks)
  end.
  { intros j x [] [s e] Hx (Hsame & Hk & Hvk). cbn [fst] in *.
    assert (Hin : inRenderBlock st (a + x)) by (unfold inRenderBlock; fold a n; lia).
    destruct (Hcells _ Hin) as (item & cell & Hitem & Hcell).
    assert (Ha : 0 <= a).
    { assert (Hin0 : inRenderBlock st a) by (unfold inRenderBlock; fold a n; lia).
      destruct (Hcells _ Hin0) as (item0 & _ & Hitem0 & _). unfold item_at in Hitem0.
      by case_bool_decide. }
    rewrite (bind_Ok_l this _ _ _ _ eq_refl). cbn [fst].
    change (_itemsAboveRenderBlock s) with (_itemsAboveRenderBlock (set_navigatableItemsRendered [] s)).
    change (_activeCells s) with (_activeCells (set_navigatableItemsRendered [] s)).
    rewrite Hsame. change (_itemsAboveRenderBlock st1) with a.
    change (_activeCells st1) with (_activeCells st).
    rewrite Hitem. unfold expect. rewrite mret_bind, Hcell.
    assert (Hnext := blockItems_next _ _ _ item Ha (proj1 Hx) Hitem).
    destruct (truthy_bool (isNavigable item)) eqn:Hnav; cbn [when].
    - eexists tt, _. split; [reflexivity|]. unfold I1. cbn [fst].
      rewrite Hnext, filter_app, fmap_app. split; [exact Hsame|].
      split.
      + cbn. rewrite fmap_app, Hk. f_equal.
        by rewrite decide_True.
      + intros k vk Hmem. cbn in Hmem. apply elem_of_app in Hmem as [Hmem|Hmem];
          [by apply Hvk|].
        apply list_elem_of_singleton in Hmem as [= -> ->]. by exists cell.
    - eexists tt, _. split; [reflexivity|]. unfold I1. cbn [fst].
      rewrite Hnext, filter_app, fmap_app. split; [exact Hsame|].
      split; [|exact Hvk].
      rewrite Hk. rewrite filter_cons_False by (rewrite Hnav; discriminate).
      by rewrite filter_nil, app_nil_r. }
  { cbn [fst]. split; [reflexivity|]. split; [reflexivity|].
    intros k vk Hmem. by apply elem_of_nil in Hmem. }
  rewrite (bind_Ok_l _ _ _ _ _ Hrun1). cbn [fst] in *. rewrite Z.add_0_l in Hkeys.
  (* second loop: the marks of the cells of the block *)
  set (f := cell_setShouldUpdate false).
  set (I2 := fun (x : Z) (_ : unit) (s : Instance) =>
               set_activeCells (_activeCells st) s = st2
               /\ (forall k, f <$> _activeCells s !! k = f <$> _activeCells st !! k)
               /\ forall i, a <= i < a + x ->
                    exists item cell, item_at (itemList props) i = Some item
                                      /\ _activeCells s !! key item = Some cell
                                      /\ shouldUpdate cell = false).
  assert (Hcells2 : _activeCells st2 = _activeCells st).
  { change (_activeCells st2) with (_activeCells (set_navigatableItemsRendered [] st2)).
    by rewrite Hsame1. }
  match goal with
  | |- exists _ _, (forEach ?body 0 _ tt ≫= _) _ = _ /\ _ =>
      destruct (forEach_seqZ_runs I2 body 0 0 (Z.to_nat n) tt (st2, evs2))
        as ([] & [st3 evs3] & Hrun2 & Hsame2 & Halike & Hclear)
  end.
  { intros j x [] [s e] Hx (Hsame & Hal & Hcl). cbn [fst] in *.
    assert (Hin : inRenderBlock st (a + x)) by (unfold inRenderBlock; fold a n; lia).
    destruct (Hcells _ Hin) as (item & cell & Hitem & Hcell).
    rewrite (bind_Ok_l this _ _ _ _ eq_refl). cbn [fst].
    change (_itemsAboveRenderBlock s) with (_itemsAboveRenderBlock (set_activeCells (_activeCells st) s)).
    rewrite Hsame.
    change (_itemsAboveRenderBlock st2)
      with (_itemsAboveRenderBlock (set_navigatableItemsRendered [] st2)).
    rewrite Hsame1. change (_itemsAboveRenderBlock st1) with a.
    rewrite Hitem. unfold expect. rewrite mret_bind.
    eexists tt, _. split; [reflexivity|]. cbn [fst]. split; [exact Hsame|]. split.
    - intros k. cbn. destruct (decide (key item = k)) as [<-|Hne].
      + rewrite lookup_alter_eq, <- Hal. by destruct (_activeCells s !! key item).
      + rewrite lookup_alter_ne by exact Hne. apply Hal.
    - intros i Hi. cbn.
      assert (Hi' : a <= i < a + x \/ i = a + x) by lia. destruct Hi' as [Hi'| ->].
      + destruct (Hcl i Hi') as (item' & cell' & Hitem' & Hcell' & Hup).
        exists item'. destruct (decide (key item = key item')) as [Heq|Hne].
        * exists (f cell'). split; [exact Hitem'|].
          rewrite <- Heq, lookup_alter_eq, Heq, Hcell'. split; reflexivity.
        * exists cell'. split; [exact Hitem'|]. by rewrite lookup_alter_ne.
      + specialize (Hal (key item)). rewrite Hcell in Hal.
        destruct (_activeCells s !! key item) as [c|] eqn:Hc; [|discriminate Hal].
        exists item, (f c). split; [exact Hitem|].
        rewrite lookup_alter_eq, Hc. split; reflexivity. }
  { cbn [fst]. split; [by rewrite <- Hcells2|]. split; [by rewrite Hcells2|].
    intros i Hi. lia. }
  rewrite (bind_Ok_l _ _ _ _ _ Hrun2). cbn [fst] in *. rewrite Z.add_0_l in Hclear.
  rewrite modify_bind. cbn [fst snd]. rewrite log_eq.
  eexists _, _. split; [reflexivity|]. cbn [fst].
  assert (Hrec : _recycledCells st3 = _recycledCells st).
  { change (_recycledCells st3) with (_recycledCells (set_activeCells (_activeCells st) st3)).
    rewrite Hsame2.
    change (_recycledCells st2) with (_recycledCells (set_navigatableItemsRendered [] st2)).
    by rewrite Hsame1. }
  assert (Hnav3 : _navigatableItemsRendered st3 = _navigatableItemsRendered st2).
  { change (_navigatableItemsRendered st3)
      with (_navigatableItemsRendered (set_activeCells (_activeCells st) st3)).
    by rewrite Hsame2. }
  split; [exact Halike|]. split.
  { intros i Hi. apply Hclear. unfold inRenderBlock in Hi. fold a n in Hi. lia. }
  split; [cbn; by rewrite Hrec|].
  change (_navigatableItemsRendered (set_recycledCells (f <$> _recycledCells st3) st3))
    with (_navigatableItemsRendered st3).
  rewrite Hnav3. rewrite Nat2Z.id in Hkeys.
  split; [exact Hkeys|exact Hvks].
Qed.

(** X21. When every index of the render block is an item with an active cell,
    [render] returns, and it leaves no cell it has put out marked for an
    update: the cell of every item of the block has [shouldUpdate]
    cleared, and so has every recycled cell. Nothing else of a cell is
    changed, and no cell is added or dropped. *)
Theorem render_clears_update_marks props st evs :
  block_has_cells props st ->
  exists st' evs',
    render props (st, evs) = Ok (tt, (st', evs'))
    /\ (forall i, inRenderBlock st i ->
          exists item cell, item_at (itemList props) i = Some item
                            /\ _activeCells st' !! key item = Some cell
                            /\ shouldUpdate cell = false)
    /\ _recycledCells st' = cell_setShouldUpdate false <$> _recycledCells st
    /\ (forall k, cell_setShouldUpdate false <$> _activeCells st' !! k
                  = cell_setShouldUpdate false <$> _activeCells st !! k).
Proof.
  intros Hcells.
  destruct (render_runs props st evs Hcells)
    as (st' & evs' & Hrun & Halike & Hclear & Hpool & _).
  exists st', evs'. split; [exact Hrun|]. split; [exact Hclear|].
  split; [exact Hpool|exact Halike].
Qed.

(** The three cells of the menu are allocated marked; the render clears
    the marks. *)
Lemma render_clears_update_marks_menu :
  block_has_cells menuProps world_menu.1
  /\ (exists cell, _activeCells world_menu.1 !! "open" = Some cell
                   /\ shouldUpdate cell = true)
  /\ render menuProps world_menu = Ok (tt, world_menuRendered)
  /\ forall i, inRenderBlock world_menu.1 i ->
       exists item cell, item_at (itemList menuProps) i = Some item
                         /\ _activeCells world_menuRendered.1 !! key item = Some cell
                         /\ shouldUpdate cell = false.
Proof.
  assert (Hcells : block_has_cells menuProps world_menu.1).
  { intros i Hi. change (0 <= i < 0 + 3) in Hi.
    assert (i = 0 \/ i = 1 \/ i = 2) as [-> | [-> | ->]] by lia;
      eexists _, _; split; vm_compute; reflexivity. }
  assert (Hrun : render menuProps world_menu = Ok (tt, world_menuRendered))
    by (vm_compute; reflexivity).
  split; [exact Hcells|]. split; [eexists; split; vm_compute; reflexivity|].
  split; [exact Hrun|].
  destruct (render_clears_update_marks menuProps world_menu.1 world_menu.2 Hcells)
    as (st' & evs' & Hrun' & Hclear & _).
  change (world_menu.1, world_menu.2) with world_menu in Hrun'.
  rewrite Hrun in Hrun'. injection Hrun' as <- _. exact Hclear.
Defined.

(** X22. When every index of the render block is an item with an active cell,
    [render] returns with [_navigatableItemsRendered] rebuilt: its keys
    are the keys of the navigable items of the render block, in the order
    of the list, and each comes with the virtual key of the active cell of
    its item. *)
Theorem render_lists_navigable_items props st evs :
  block_has_cells props st ->
  exists st' evs',
    render props (st, evs) = Ok (tt, (st', evs'))
    /\ (_navigatableItemsRendered st').*1
       = key <$> filter (fun item => truthy_bool (isNavigable item) = true)
                        (blockItems props st)
    /\ forall k vk, (k, vk) ∈ _navigatableItemsRendered st' ->
         exists cell, _activeCells st' !! k = Some cell /\ virtualKey cell = vk.
Proof.
  intros Hcells.
  destruct (render_runs props st evs Hcells)
    as (st' & evs' & Hrun & Halike & _ & _ & Hkeys & Hvks).
  exists st', evs'. split; [exact Hrun|]. split; [exact Hkeys|].
  intros k vk Hmem. destruct (Hvks k vk Hmem) as (cell & Hcell & <-).
  specialize (Halike k). rewrite Hcell in Halike.
  destruct (_activeCells st' !! k) as [c|]; [|discriminate Halike].
  exists c. split; [reflexivity|]. injection Halike as Heq. exact Heq.
Qed.

(** Of the three rows of the menu, the two that take the focus are listed. *)
Lemma render_lists_navigable_items_menu :
  block_has_cells menuProps world_menu.1
  /\ render menuProps world_menu = Ok (tt, world_menuRendered)
  /\ (_navigatableItemsRendered world_menuRendered.1).*1 = ["open"; "close"]
  /\ forall k vk, (k, vk) ∈ _navigatableItemsRendered world_menuRendered.1 ->
       exists cell, _activeCells world_menuRendered.1 !! k = Some cell
                    /\ virtualKey cell = vk.
Proof.
  assert (Hcells : block_has_cells menuProps world_menu.1).
  { intros i Hi. change (0 <= i < 0 + 3) in Hi.
    assert (i = 0 \/ i = 1 \/ i = 2) as [-> | [-> | ->]] by lia;
      eexists _, _; split; vm_compute; reflexivity. }
  assert (Hrun : render menuProps world_menu = Ok (tt, world_menuRendered))
    by (vm_compute; reflexivity).
  split; [exact Hcells|]. split; [exact Hrun|].
  destruct (render_lists_navigable_items menuProps world_menu.1 world_menu.2 Hcells)
    as (st' & evs' & Hrun' & Hkeys & Hvks).
  change (world_menu.1, world_menu.2) with world_menu in Hrun'.
  rewrite Hrun in Hrun'. injection Hrun' as <- _. split; [exact Hkeys|exact Hvks].
Defined.

(** ** The cells of the block after a change of the list *)

(** A loop over a list, with the item of each turn known to stand at the
    index of the turn. *)
Lemma hoare_forEach_items {St} (I : Z -> St -> Instance -> Prop)
    (body : Z -> ItemInfo -> St -> M St) (l : list ItemInfo) (acc : St) :
  (forall j x a, item_at l j = Some x ->
     hoare (I j a) (body j x a) (fun a' => I (j + 1) a')) ->
  hoare (I 0 acc) (forEach body 0 l acc) (fun a' => I (Z.of_nat (length l)) a').
Proof.
  intros Hbody.
  enough (Hgen : forall l2 l1 acc, l = l1 ++ l2 ->
            hoare (I (Z.of_nat (length l1)) acc)
                  (forEach body (Z.of_nat (length l1)) l2 acc)
                  (fun a' => I (Z.of_nat (length l)) a')).
  { exact (Hgen l [] acc eq_refl). }
  induction l2 as [|x l2 IH]; intros l1 acc0 Hl.
  - intros w a w' H HI. apply mret_Ok in H as [= -> ->].
    rewrite Hl, app_nil_r. exact HI.
  - cbn [forEach]. eapply hoare_bind.
    + apply Hbody. unfold item_at. rewrite bool_decide_true by lia.
      rewrite Nat2Z.id, Hl. by apply list_lookup_middle.
    + intros a'. specialize (IH (l1 ++ [x]) a').
      rewrite length_app in IH. cbn [length] in IH.
      replace (Z.of_nat (length l1 + 1)) with (Z.of_nat (length l1) + 1) in IH by lia.
      apply IH. by rewrite <- app_assoc.
Qed.

Lemma getHeightOfItem_nonneg props st item :
  heights_nonneg props st -> item ∈ itemList props ->
  (0 <= _getHeightOfItem st (Some item))%Q.
Proof.
  intros [Hcache Hgiven] Hin. unfold _getHeightOfItem.
  assert (Hitem : (0 <= height item)%Q)
    by exact (proj1 (Forall_forall _ _) Hgiven item Hin).
  destruct (negb _); [exact Hitem|].
  destruct (_heightCache st !! key item) as [h|] eqn:Hh; [|exact Hitem].
  exact (Hcache _ _ Hh).
Qed.

Lemma item_at_elem_of (l : list ItemInfo) (i : Z) (item : ItemInfo) :
  item_at l i = Some item -> item ∈ l.
Proof.
  unfold item_at. case_bool_decide; [|done]. apply list_elem_of_lookup_2.
Qed.

(** [_recycleCell] does nothing for an item without a cell: the test
    before the call changes nothing. *)
Lemma when_has_cell_recycle (m : gmap string VirtualCellInfo) st evs k :
  _activeCells st = m ->
  when (bool_decide (is_Some (m !! k))) (_recycleCell k) (st, evs)
  = _recycleCell k (st, evs).
Proof.
  intros <-. destruct (_activeCells st !! k) as [cell|] eqn:Hk.
  - by rewrite bool_decide_eq_true_2 by eauto.
  - rewrite bool_decide_eq_false_2 by (by intros [? ?]). cbn [when].
    by rewrite (recycleCell_absent st evs k Hk).
Qed.

Lemma place_placed props top_ bottom_ j item acc :
  NoDup (key <$> itemList props) ->
  item_at (itemList props) j = Some item ->
  hoare (placed props top_ bottom_ j acc)
        (handleItemListChange_place props top_ bottom_ j item acc)
        (fun acc' => placed props top_ bottom_ (j + 1) acc').
Proof.
  intros Hnd Hitem. destruct acc as [y looking]. unfold handleItemListChange_place.
  apply hoare_this_eq. intros st evs acc' w' [Hheights HI] H. cbn zeta in H.
  cbn [fst snd] in HI.
  assert (Hh : (0 <= _getHeightOfItem st (Some item))%Q).
  { apply (getHeightOfItem_nonneg props); [exact Hheights|].
    by apply item_at_elem_of in Hitem. }
  set (h := _getHeightOfItem st (Some item)) in *.
  set (y' := (y + h)%Q) in *.
  destruct (Qle_bool y' top_) eqn:Htop.
  - (* the item ends above the top limit *)
    apply Qle_bool_iff in Htop.
    apply bind_Ok in H as ([] & [st1 evs1] & Hrec & H). apply mret_Ok in H as [= -> ->].
    rewrite (when_has_cell_recycle _ st evs (key item) eq_refl) in Hrec.
    destruct looking.
    + revert Hrec.
      apply (preserves_at (fun s => placed props top_ bottom_ (j + 1) (y', true) s));
        [by split|].
      apply recycleCell_preserves; frame.
    + exfalso. destruct HI as (Hy & _). subst y'. lra.
  - assert (Htop' : (top_ < y')%Q).
    { apply Qnot_le_lt. intros Hle. apply Qle_bool_iff in Hle. congruence. }
    apply bind_Ok in H as ([] & [st1 evs1] & Hlook & H).
    apply bind_Ok in H as ([] & [st2 evs2] & Hin & H). apply mret_Ok in H as [= -> ->].
    cbn [fst snd].
    (* the block before the item, as the loop has it *)
    assert (H1 : heights_nonneg props st1 /\ _activeCells st1 = _activeCells st
                 /\ block_has_cells props st1 /\ 0 <= _itemsInRenderBlock st1
                 /\ _itemsAboveRenderBlock st1 + _itemsInRenderBlock st1 <= j
                 /\ (_itemsAboveRenderBlock st1 + _itemsInRenderBlock st1 = j
                     \/ (bottom_ <= y)%Q)).
    { destruct looking; cbn [when] in Hlook.
      - apply modify_Ok in Hlook as [= -> _]. cbn [fst].
        split; [exact Hheights|]. split; [reflexivity|].
        split; [|clear - HI; destruct st; cbn in *; lia].
        intros i Hi. unfold inRenderBlock in Hi. clear - HI Hi. exfalso.
        destruct st; cbn in *; lia.
      - apply mret_Ok in Hlook as [= -> _]. cbn [fst].
        destruct HI as (_ & Hcells & Hn & Hle & Hend).
        split; [exact Hheights|]. split; [reflexivity|]. split; [exact Hcells|].
        split; [exact Hn|]. split; [exact Hle|exact Hend]. }
    destruct H1 as (Hheights1 & Hact1 & Hcells1 & Hn1 & Hle1 & Hend1).
    destruct (Qlt_bool (y' - h) bottom_) eqn:Hbot.
    + (* within the render block *)
      apply Qlt_bool_iff in Hbot.
      assert (Hend : _itemsAboveRenderBlock st1 + _itemsInRenderBlock st1 = j).
      { destruct Hend1 as [?|Hpast]; [done|]. exfalso. subst y'. lra. }
      rewrite modify_bind in Hin. cbn [fst snd] in Hin.
      set (a := _itemsAboveRenderBlock st1) in *. set (n := _itemsInRenderBlock st1) in *.
      set (st1' := set_itemsInRenderBlock (n + 1) st1) in *.
      assert (Hops : heights_nonneg props st2 /\ block_is a (n + 1) st2
                     /\ has_cell (key item) st2
                     /\ forall k, has_cell k st1 -> has_cell k st2).
      { destruct (_activeCells st !! key item) as [cell|] eqn:Hcell.
        - rewrite bool_decide_eq_true_2 in Hin by eauto.
          split; [|split; [|split]].
          + revert Hin. apply (preserves_at (heights_nonneg props)); [exact Hheights1|].
            apply setCellTopAndVisibility_preserves; frame.
          + revert Hin. apply (preserves_at (block_is a (n + 1))); [done|].
            apply setCellTopAndVisibility_preserves; frame.
          + revert Hin. apply (preserves_at (has_cell (key item))).
            * unfold has_cell. change (_activeCells st1') with (_activeCells st1).
              rewrite Hact1, Hcell. eauto.
            * apply setCellTopAndVisibility_has_cell.
          + intros k Hk. revert Hin. apply (preserves_at (has_cell k)); [exact Hk|].
            apply setCellTopAndVisibility_has_cell.
        - rewrite bool_decide_eq_false_2 in Hin by (by intros [? ?]).
          apply bind_Ok in Hin as (c & [st3 evs3] & Halloc & Hin).
          assert (Hlast : forall Q : Instance -> Prop,
                    stable set_pendingMeasurements Q -> Q st3 -> Q st2).
          { intros Q HQ HQ3. revert Hin. apply (preserves_at Q); [exact HQ3|]. pres. }
          split; [|split; [|split]].
          + apply Hlast; [frame|]. revert Halloc.
            apply (preserves_at (heights_nonneg props)); [exact Hheights1|].
            apply allocateCell_preserves; frame.
          + apply Hlast; [frame|]. revert Halloc.
            apply (preserves_at (block_is a (n + 1))); [done|].
            apply allocateCell_preserves; frame.
          + apply Hlast; [frame|].
            exact (allocateCell_gives_cell _ _ _ _ _ _ _ _ _ _ Halloc I).
          + intros k Hk. apply Hlast; [frame|]. revert Halloc.
            apply (preserves_at (has_cell k)); [exact Hk|]. apply allocateCell_has_cell. }
      destruct Hops as (Hheights2 & [Ha2 Hn2] & Hnew & Hold).
      split; [exact Hheights2|]. cbn [snd fst].
      split; [exact Htop'|]. split; [|rewrite Ha2, Hn2; lia].
      apply block_has_cells_alt. intros i Hi. unfold inRenderBlock in Hi.
      rewrite Ha2, Hn2 in Hi.
      destruct (decide (i = j)) as [->|Hne].
      * exists item. split; [exact Hitem|exact Hnew].
      * destruct (proj1 (block_has_cells_alt _ _) Hcells1 i) as (item' & Hitem' & Hc');
          [unfold inRenderBlock; fold a n; lia|].
        exists item'. split; [exact Hitem'|]. by apply Hold.
    + (* past the render block *)
      assert (Hbot' : (bottom_ <= y')%Q).
      { assert (Hge : ~ (y' - h < bottom_)%Q).
        { intros Hlt. apply Qlt_bool_iff in Hlt. congruence. }
        apply Qnot_lt_le in Hge. lra. }
      rewrite (when_has_cell_recycle _ st1 evs1 (key item) Hact1) in Hin.
      assert (Hsame : block_is (_itemsAboveRenderBlock st1) (_itemsInRenderBlock st1) st2).
      { revert Hin. apply (preserves_at (block_is _ _)); [done|].
        apply recycleCell_preserves; frame. }
      destruct Hsame as [Ha2 Hn2].
      split; [|cbn [snd fst]; split; [exact Htop'|split;
                 [|rewrite Ha2, Hn2; split; [lia|split; [lia|right; exact Hbot']]]]].
      * revert Hin. apply (preserves_at (heights_nonneg props)); [exact Hheights1|].
        apply recycleCell_preserves; frame.
      * apply (recycleCell_outside props _ _ _ _ _ Hin). intros i Hi.
        destruct (proj1 (block_has_cells_alt _ _) Hcells1 i Hi) as (item' & Hitem' & Hc').
        exists item'. split; [exact Hitem'|]. split; [exact Hc'|].
        intros Hk. pose proof (item_at_key_inj _ _ _ _ _ Hnd Hitem' Hitem Hk) as Heq.
        unfold inRenderBlock in Hi. lia.
Qed.

Lemma buildMap_heights thisProps props props' i item m :
  preserves (heights_nonneg props')
            (handleItemListChange_buildMap thisProps props i item m).
Proof.
  unfold handleItemListChange_buildMap.
  assert (stable set_activeCells (heights_nonneg props')) by frame. pres.
Qed.

Lemma dropDeleted_heights thisProps props' (m : gmap string Z) i item :
  preserves (heights_nonneg props') (handleItemListChange_dropDeleted thisProps m i item tt).
Proof.
  unfold handleItemListChange_dropDeleted.
  assert (stable set_lastFocusedItemKey (heights_nonneg props')) by frame.
  assert (stable set_heightAboveRenderAdjustment (heights_nonneg props')) by frame.
  assert (stable set_pendingMeasurements (heights_nonneg props')) by frame.
  pres.
  - apply focusSubsequentItem_preserves; frame.
  - apply focusSubsequentItem_preserves; frame.
  - apply preserves_bind; [|intros ?].
    { apply preserves_modify. intros s [Hcache Hgiven]. split; [|exact Hgiven].
      cbn. by apply map_Forall_delete. }
    pres. apply recycleCell_preserves; frame.
Qed.

(** The three loops of [_handleItemListChange], for a list of distinct
    keys. *)
Lemma handleItemListChange_cells thisProps props :
  NoDup (key <$> itemList props) ->
  hoare (heights_nonneg props) (_handleItemListChange thisProps props)
        (fun _ => block_has_cells props).
Proof.
  intros Hnd w [] w' H Hheights. destruct w as [st evs]. cbn [fst] in Hheights.
  unfold _handleItemListChange in H.
  apply bind_Ok in H as (newItemMap & [st1 evs1] & Hmap & H).
  assert (H1 : heights_nonneg props st1).
  { revert Hmap. apply (preserves_at (heights_nonneg props)); [exact Hheights|].
    apply preserves_forEach. intros. apply buildMap_heights. }
  apply bind_Ok in H as ([] & [st2 evs2] & Hdrop & H).
  assert (H2 : heights_nonneg props st2).
  { revert Hdrop. apply (preserves_at (heights_nonneg props)); [exact H1|].
    apply preserves_forEach. intros ? ? []. intros. apply dropDeleted_heights. }
  rewrite (bind_Ok_l this _ _ _ _ eq_refl) in H. cbn [fst] in H. cbn zeta in H.
  rewrite !modify_bind in H. cbn [fst snd] in H.
  apply bind_Ok in H as (acc & [st3 evs3] & Hplace & H).
  match type of Hplace with
  | forEach (handleItemListChange_place _ ?t ?b) _ _ _ _ = _ =>
      assert (H3 : placed props t b (Z.of_nat (length (itemList props))) acc st3)
  end.
  { refine (hoare_forEach_items (placed props _ _) _ _ _ _ _ _ _ Hplace _).
    - intros j x a Hx. by apply place_placed.
    - split; [exact H2|reflexivity]. }
  rewrite !modify_bind in H. cbn [fst snd] in H. revert H.
  apply (preserves_at (block_has_cells props)).
  - destruct acc as [y looking]. destruct H3 as [_ H3]. cbn [fst snd] in H3.
    destruct looking.
    + intros i Hi. unfold inRenderBlock in Hi. exfalso. clear - H3 Hi.
      destruct st3; cbn in *; lia.
    + exact (proj1 (proj2 H3)).
  - assert (stable set_containerHeight (block_has_cells props)) by frame. pres.
Qed.





(** ** Constant-height items *)

(** X25. A height reported for an item that is not declared [measureHeight] is
    not trusted: the callback leaves the instance as it is (the height
    cache, the pending measurements and the render block included) and
    starts no pass; all it does is write a line to the log, when there is
    one. *)
Theorem onLayoutItem_constant_height_ignored thisProps st evs k (m : Q) idx item :
  _isMounted st = true ->
  _itemMap st !! k = Some idx ->
  item_at (itemList thisProps) idx = Some item ->
  truthy_bool (measureHeight item) = false ->
  exists evs',
    _onLayoutItem thisProps k m (st, evs) = Ok (tt, (st, evs'))
    /\ (logInfo thisProps = false -> evs' = evs)
    /\ Forall (fun e => exists text, e = EvLogInfo text) (drop (length evs) evs').
Proof.
  intros Hmounted Hidx Hitem Hconst. unfold _onLayoutItem.
  rewrite (bind_Ok_l this _ _ _ _ eq_refl). cbn [fst].
  rewrite Hmounted, Hidx. cbn [negb]. rewrite Hitem. unfold expect. rewrite mret_bind.
  rewrite Hconst. cbn [negb]. rewrite log_eq. unfold when.
  destruct (logInfo thisProps).
  - eexists. split; [reflexivity|]. split; [discriminate|].
    rewrite drop_app_length. repeat constructor. eauto.
  - eexists. split; [reflexivity|]. split; [reflexivity|].
    by rewrite drop_all.
Qed.

(** The row [a] of the mounted list [a; b] has a constant height of 50; a
    layout that reports 80 changes nothing. *)
Lemma onLayoutItem_constant_height_ignored_mountedAB :
  _isMounted world_mountedAB.1 = true
  /\ _itemMap world_mountedAB.1 !! "a" = Some 0
  /\ _onLayoutItem propsAB "a" 80 world_mountedAB = Ok (tt, world_mountedAB).
Proof.
  split; [reflexivity|]. split; [reflexivity|].
  destruct (onLayoutItem_constant_height_ignored propsAB world_mountedAB.1 world_mountedAB.2
              "a" 80 0 (row "a" 50) eq_refl eq_refl eq_refl eq_refl)
    as (evs' & Hrun & Hsame & _).
  rewrite (Hsame eq_refl) in Hrun. exact Hrun.
Defined.

(** ** The end of the initial fill *)

(** X26. [_popInvisibleIntoView] ends the initial fill. When the keys of the
    list are distinct and every index of the render block is an item with
    an active cell, it returns with [_isInitialFillComplete] set, and the
    cell of every item of the block is visible exactly when the height of
    its item is known; the cell keeps its position. *)
Theorem popInvisibleIntoView_shows_block props st evs :
  NoDup (key <$> itemList props) ->
  block_has_cells props st ->
  exists st' evs',
    _popInvisibleIntoView props (st, evs) = Ok (tt, (st', evs'))
    /\ _isInitialFillComplete st' = true
    /\ forall i, inRenderBlock st i ->
         exists item cell cell',
           item_at (itemList props) i = Some item
           /\ _activeCells st !! key item = Some cell
           /\ _activeCells st' !! key item = Some cell'
           /\ isVisible cell' = _isItemHeightKnown st item
           /\ top cell' = top cell.
Proof.
  intros Hnd Hcells. unfold _popInvisibleIntoView.
  rewrite (bind_Ok_l (log _ _) _ _ _ _ (proj2 (log_Ok _ _ _ _) eq_refl)). cbn [fst snd].
  rewrite modify_bind. cbn [fst snd].
  rewrite (bind_Ok_l this _ _ _ _ eq_refl). cbn [fst].
  set (st1 := set_isInitialFillComplete true st).
  set (evs1 := if logInfo props then _ else _).
  set (a := _itemsAboveRenderBlock st). set (n := _itemsInRenderBlock st).
  change (_itemsInRenderBlock st1) with n.
  rewrite (seqZ_to_nat 0 n).
  set (I := fun (x : Z) (_ : unit) (s : Instance) =>
              set_activeCells (_activeCells st) s = st1
              /\ (forall i, a + x <= i < a + n ->
                    exists item, item_at (itemList props) i = Some item
                                 /\ _activeCells s !! key item = _activeCells st !! key item)
              /\ forall i, a <= i < a + x ->
                   exists item cell cell',
                     item_at (itemList props) i = Some item
                     /\ _activeCells st !! key item = Some cell
                     /\ _activeCells s !! key item = Some cell'
                     /\ isVisible cell' = _isItemHeightKnown st item
                     /\ top cell' = top cell).
  match goal with
  | |- exists _ _, forEach ?body 0 _ tt _ = _ /\ _ =>
      destruct (forEach_seqZ_runs I body 0 0 (Z.to_nat n) tt (st1, evs1))
        as ([] & [st2 evs2] & Hrun & Hsame & _ & Hshown)
  end.
  { intros j x [] [s e] Hx (Hsame & Hrest & Hdone). cbn [fst] in *.
    assert (Hin : inRenderBlock st (a + x)) by (unfold inRenderBlock; fold a n; lia).
    destruct (Hcells _ Hin) as (item & cell & Hitem & Hcell).
    destruct (Hrest (a + x)) as (item_ & Hitem_ & Hcur); [lia|].
    rewrite Hitem in Hitem_. injection Hitem_ as <-. rewrite Hcell in Hcur.
    rewrite (bind_Ok_l this _ _ _ _ eq_refl). cbn [fst].
    change (_itemsAboveRenderBlock s)
      with (_itemsAboveRenderBlock (set_activeCells (_activeCells st) s)).
    rewrite Hsame. change (_itemsAboveRenderBlock st1) with a.
    rewrite Hitem. unfold expect. rewrite mret_bind, Hcur, mret_bind.
    unfold _setCellTopAndVisibility.
    rewrite (bind_Ok_l this _ _ _ _ eq_refl). cbn [fst]. rewrite Hcur.
    eexists tt, _. split; [reflexivity|]. unfold I. cbn [fst].
    split; [exact Hsame|]. split.
    - intros i Hi. destruct (Hrest i) as (item' & Hitem' & Hcur'); [lia|].
      exists item'. split; [exact Hitem'|]. cbn. rewrite lookup_insert_ne; [exact Hcur'|].
      intros Hk. pose proof (item_at_key_inj _ _ _ _ _ Hnd Hitem Hitem' Hk). lia.
    - intros i Hi.
      assert (Hi' : a <= i < a + x \/ i = a + x) by lia. destruct Hi' as [Hi'| ->].
      + destruct (Hdone i Hi') as (item' & c & c' & Hitem' & Hc & Hc' & Hvis & Htop).
        exists item', c, c'. split; [exact Hitem'|]. split; [exact Hc|].
        split; [|by split]. cbn. rewrite lookup_insert_ne; [exact Hc'|].
        intros Hk. pose proof (item_at_key_inj _ _ _ _ _ Hnd Hitem Hitem' Hk). lia.
      + exists item, cell, (cell_setTopAndVisibility (_shouldShowItem s item) (top cell) cell).
        split; [exact Hitem|]. split; [exact Hcell|]. cbn.
        split; [by rewrite lookup_insert_eq|]. split; [|reflexivity].
        change (_shouldShowItem s item)
          with (_shouldShowItem (set_activeCells (_activeCells st) s) item).
        rewrite Hsame. unfold _shouldShowItem. cbn.
        change (_isItemHeightKnown st1 item) with (_isItemHeightKnown st item).
        by destruct (_isItemHeightKnown st item). }
  { cbn [fst]. split; [reflexivity|]. split.
    - intros i Hi. destruct (Hcells i) as (item & cell & Hitem & Hcell);
        [unfold inRenderBlock; fold a n; lia|].
      by exists item.
    - intros i Hi. lia. }
  exists st2, evs2. split; [exact Hrun|]. cbn [fst] in *. split.
  - change (_isInitialFillComplete st2)
      with (_isInitialFillComplete (set_activeCells (_activeCells st) st2)).
    by rewrite Hsame.
  - intros i Hi. apply Hshown. unfold inRenderBlock in Hi. fold a n in Hi. lia.
Qed.

(** The cells of the menu are allocated hidden; once popped into view
    they are visible, the heights of the rows being constant. *)
Lemma popInvisibleIntoView_shows_block_menu :
  NoDup (key <$> itemList menuProps)
  /\ block_has_cells menuProps world_menu.1
  /\ _isInitialFillComplete world_menu.1 = false
  /\ (exists cell, _activeCells world_menu.1 !! "open" = Some cell /\ isVisible cell = false)
  /\ _popInvisibleIntoView menuProps world_menu = Ok (tt, world_menuPopped)
  /\ _isInitialFillComplete world_menuPopped.1 = true
  /\ exists cell', _activeCells world_menuPopped.1 !! "open" = Some cell'
                   /\ isVisible cell' = true.
Proof.
  assert (Hnd : NoDup (key <$> itemList menuProps)).
  { apply (bool_decide_unpack _). vm_compute. exact I. }
  assert (Hcells : block_has_cells menuProps world_menu.1).
  { intros i Hi. change (0 <= i < 0 + 3) in Hi.
    assert (i = 0 \/ i = 1 \/ i = 2) as [-> | [-> | ->]] by lia;
      eexists _, _; split; vm_compute; reflexivity. }
  assert (Hrun : _popInvisibleIntoView menuProps world_menu = Ok (tt, world_menuPopped))
    by (vm_compute; reflexivity).
  split; [exact Hnd|]. split; [exact Hcells|]. split; [reflexivity|].
  split; [eexists; split; vm_compute; reflexivity|]. split; [exact Hrun|].
  destruct (popInvisibleIntoView_shows_block menuProps world_menu.1 world_menu.2 Hnd Hcells)
    as (st' & evs' & Hrun' & Hfill & Hshown).
  change (world_menu.1, world_menu.2) with world_menu in Hrun'.
  rewrite Hrun in Hrun'. injection Hrun' as <- _. split; [exact Hfill|].
  destruct (Hshown 0) as (item & cell & cell' & Hitem & _ & Hcell' & Hvis & _).
  { unfold inRenderBlock. cbn. lia. }
  injection Hitem as <-. exists cell'. split; [exact Hcell'|exact Hvis].
Defined.

(** * The cell of an item that leaves the list *)

(** ** What an operation on one key leaves of the cell of another *)

Section other_key.
Variable Q : option VirtualCellInfo -> Prop.
Variable k : string.
Let P : Instance -> Prop := fun s => Q (_activeCells s !! k).

Lemma setCellTopAndVisibility_other k' v tp a :
  k' <> k -> preserves P (_setCellTopAndVisibility k' v tp a).
Proof.
  intros Hne [s evs] [] w' H HP. cbn [fst] in *. unfold _setCellTopAndVisibility in H.
  rewrite (bind_Ok_l this _ _ _ _ eq_refl) in H. cbn [fst] in H.
  destruct (_activeCells s !! k') as [c|] eqn:Hk'.
  - apply modify_Ok in H as [= ->]. unfold P. cbn. by rewrite lookup_insert_ne.
  - by apply assert_Ok in H as [? _].
Qed.

Lemma recycleCell_other k' : k' <> k -> preserves P (_recycleCell k').
Proof.
  intros Hne [s evs] [] w' H HP. cbn [fst] in *.
  destruct (_activeCells s !! k') as [cell|] eqn:Hk'.
  - destruct (recycleCell_spec s evs k' cell Hk') as (s' & Hrun & Hact & _).
    rewrite Hrun in H. injection H as <-. unfold P. cbn [fst]. rewrite Hact.
    by rewrite lookup_delete_ne.
  - rewrite (recycleCell_absent s evs k' Hk') in H. by injection H as <-.
Qed.

Lemma allocateCell_other k' t i c h tp v :
  k' <> k -> preserves P (_allocateCell k' t i c h tp v).
Proof.
  intros Hne. unfold _allocateCell.
  assert (stable set_recycledCells P) by frame.
  assert (stable set_nextCellKey P) by frame.
  assert (stable set_isRenderDirty P) by frame.
  pres.
  all: apply preserves_bind; [|intros ?; pres].
  all: apply preserves_modify; intros s HP.
  all: unfold P; cbn; by rewrite lookup_insert_ne.
Qed.

Lemma place_other props top_ bottom_ i item acc :
  key item <> k -> preserves P (handleItemListChange_place props top_ bottom_ i item acc).
Proof.
  intros Hne. unfold handleItemListChange_place. destruct acc as [y looking].
  assert (stable set_itemsAboveRenderBlock P) by frame.
  assert (stable set_itemsInRenderBlock P) by frame.
  assert (stable set_pendingMeasurements P) by frame.
  pres.
  - by apply recycleCell_other.
  - by apply setCellTopAndVisibility_other.
  - by apply allocateCell_other.
  - by apply recycleCell_other.
Qed.
End other_key.

(** An item that has its cell is placed without a cell being drawn. *)
Lemma place_keeps_counter props top_ bottom_ i item acc (n : N) :
  hoare (fun s => is_Some (_activeCells s !! key item) /\ _nextCellKey s = n)
        (handleItemListChange_place props top_ bottom_ i item acc)
        (fun _ s => _nextCellKey s = n).
Proof.
  unfold handleItemListChange_place. destruct acc as [y looking].
  apply hoare_this_eq. intros s evs acc' w' [Hcell Hn] H. cbn zeta in H.
  rewrite bool_decide_eq_true_2 in H by done.
  revert H. apply (preserves_at (fun s => _nextCellKey s = n)); [exact Hn|].
  pres.
  - apply recycleCell_preserves; frame.
  - apply setCellTopAndVisibility_preserves; frame.
  - apply recycleCell_preserves; frame.
Qed.

(** ** From the list that had X to the list that has Y *)

Section cell_changes_hands.
Variable thisProps props : Props.
Variable st : Instance.
Variable kx : string.
Variable cx : VirtualCellInfo.
Variable t : option string.

Hypothesis Ht : truthy_string t = true.
Hypothesis HxNew : kx ∉ key <$> itemList props.
Hypothesis Hcx : _activeCells st !! kx = Some cx.
Hypothesis Htx : itemTemplate cx = t.
Hypothesis Hconst : isHeightConstant cx = true.
Hypothesis Hmax : 0 < _maxRecycledCells st.
Hypothesis Hpool : Forall (fun c => hasTemplate t c = false) (_recycledCells st).
Hypothesis Hleave : forall i item,
  item_at (itemList thisProps) i = Some item -> key item ∉ key <$> itemList props ->
  _itemsAboveRenderBlock st <= i /\ (key item = kx \/ _activeCells st !! key item = None).

(** A cell that is the one of X, wherever it has been moved. *)
Let like (c : VirtualCellInfo) : Prop :=
  virtualKey c = virtualKey cx /\ itemTemplate c = t /\ isHeightConstant c = true.

(** What the first two loops read and leave alone. *)
Let fixed (s : Instance) : Prop :=
  _itemsAboveRenderBlock s = _itemsAboveRenderBlock st
  /\ _heightAboveRenderAdjustment s = _heightAboveRenderAdjustment st
  /\ renderBlockTopLimit s = renderBlockTopLimit st
  /\ renderBlockBottomLimit s = renderBlockBottomLimit st
  /\ _maxRecycledCells s = _maxRecycledCells st
  /\ _nextCellKey s = _nextCellKey st.

(** The items of the new list keep the height they have. *)
Let heights (s : Instance) : Prop :=
  forall k, k ∈ key <$> itemList props -> _heightCache s !! k = _heightCache st !! k.

(** X still has its cell, and the pool has none of the template. *)
Let there (s : Instance) : Prop :=
  dom (_activeCells s) = dom (_activeCells st)
  /\ (exists c, _activeCells s !! kx = Some c /\ like c)
  /\ Forall (fun c => hasTemplate t c = false) (_recycledCells s).

(** The cell of X is the last of the pool, and the first of its template. *)
Let gone (s : Instance) : Prop :=
  dom (_activeCells s) = dom (_activeCells st) ∖ {[kx]}
  /\ exists before c, _recycledCells s = before ++ [c]
                      /\ Forall (fun c => hasTemplate t c = false) before /\ like c.

Lemma there_update s k cell cell' :
  _activeCells s !! k = Some cell ->
  virtualKey cell' = virtualKey cell -> itemTemplate cell' = itemTemplate cell ->
  isHeightConstant cell' = isHeightConstant cell ->
  there s -> there (set_activeCells (<[k := cell']> (_activeCells s)) s).
Proof.
  intros Hk Hv Htm Hc (Hdom & (c & Hc0 & Hlike) & Hp). split; [|split; [|exact Hp]].
  - cbn. rewrite dom_insert_L, <- Hdom. apply elem_of_dom_2 in Hk. set_solver.
  - cbn. destruct (decide (k = kx)) as [->|Hne].
    + exists cell'. rewrite lookup_insert_eq. split; [done|].
      rewrite Hc0 in Hk. injection Hk as <-. destruct Hlike as (? & ? & ?).
      unfold like. by rewrite Hv, Htm, Hc.
    + exists c. by rewrite lookup_insert_ne.
Qed.

Lemma gone_update s k cell cell' :
  _activeCells s !! k = Some cell ->
  gone s -> gone (set_activeCells (<[k := cell']> (_activeCells s)) s).
Proof.
  intros Hk (Hdom & Hp). split; [|exact Hp].
  cbn. rewrite dom_insert_L, <- Hdom. apply elem_of_dom_2 in Hk. set_solver.
Qed.

Lemma buildMap_there i item m :
  preserves (fun s => fixed s /\ heights s /\ there s)
            (handleItemListChange_buildMap thisProps props i item m).
Proof.
  intros [s evs] m1 w' H (Hfixed & Hheights & Hthere). cbn [fst] in *.
  unfold handleItemListChange_buildMap in H.
  apply bind_Ok in H as ([] & w1 & Hdup & H).
  assert (w1 = (s, evs)) as ->.
  { destruct (bool_decide _); cbn [when] in Hdup.
    - apply bind_Ok in Hdup as (? & ? & Hassert & _). by apply assert_Ok in Hassert as [? _].
    - by apply mret_Ok in Hdup as [= <-]. }
  cbn zeta in H. rewrite (bind_Ok_l this _ _ _ _ eq_refl) in H. cbn [fst] in H.
  apply bind_Ok in H as ([] & w2 & Hmark & H). apply mret_Ok in H. injection H as _ ->.
  destruct (_activeCells s !! key item) as [cell|] eqn:Hcell.
  - assert (Hset : let s' := set_activeCells
                               (<[key item := cell_setShouldUpdate true cell]> (_activeCells s)) s in
                   fixed s' /\ heights s' /\ there s').
    { split; [exact Hfixed|]. split; [exact Hheights|]. by apply (there_update s _ cell). }
    destruct (_itemMap s !! key item).
    + destruct (_ || _); cbn [when] in Hmark.
      * by apply modify_Ok in Hmark as [= ->].
      * by apply mret_Ok in Hmark as [= ->].
    + by apply modify_Ok in Hmark as [= ->].
  - by apply mret_Ok in Hmark as [= ->].
Qed.

Lemma recycle_hands_over s evs c :
  _maxRecycledCells s = _maxRecycledCells st ->
  _activeCells s !! kx = Some c -> like c -> there s ->
  exists s', _recycleCell kx (s, evs) = Ok (tt, (s', evs)) /\ gone s'.
Proof.
  intros Hm Hc (Hv & Htm & Hcn) (Hdom & _ & Hp).
  destruct (recycleCell_spec s evs kx c Hc) as (s' & Hrun & Hact & _ & _ & Hcases).
  exists s'. split; [exact Hrun|].
  rewrite Hm in Hcases. apply Z.ltb_lt in Hmax. rewrite Hmax in Hcases.
  unfold isRecyclable in Hcases. rewrite Htm, Ht, Hcn in Hcases. cbn [andb] in Hcases.
  set (hidden := cell_setTopAndVisibility false (top c) c) in *. cbn zeta in Hcases.
  split.
  - rewrite Hact, dom_delete_L. by rewrite Hdom.
  - assert (Hlike : like hidden) by done.
    destruct (_maxRecycledCells st <? Z.of_nat (length (_recycledCells s ++ [hidden])))
      eqn:Hfull.
    + destruct Hcases as [-> _]. destruct (_recycledCells s) as [|c0 pool].
      * apply Z.ltb_lt in Hfull, Hmax. simpl in Hfull. lia.
      * exists pool, hidden. split; [done|]. split; [|done].
        by apply Forall_cons in Hp as [_ ?].
    + destruct Hcases as [-> _]. by exists (_recycledCells s), hidden.
Qed.

Lemma dropDeleted_hands_over (m : gmap string Z) i item (before : bool) :
  (forall k, is_Some (m !! k) <-> k ∈ key <$> itemList props) ->
  item_at (itemList thisProps) i = Some item ->
  hoare (fun s => fixed s /\ heights s /\ if before then there s else gone s)
        (handleItemListChange_dropDeleted thisProps m i item tt)
        (fun _ s => fixed s /\ heights s
                    /\ if before then (there s /\ key item <> kx) \/ gone s else gone s).
Proof.
  intros Hm Hitem [s evs] [] w' H (Hfixed & Hheights & Hcells). cbn [fst] in *.
  unfold handleItemListChange_dropDeleted in H.
  destruct (bool_decide (is_Some (m !! key item))) eqn:Hkept; cbn [negb when] in H.
  { apply mret_Ok in H as [= ->]. split; [exact Hfixed|]. split; [exact Hheights|].
    destruct before; [left|done]. split; [exact Hcells|].
    intros Heq. apply HxNew. rewrite <- Heq. apply Hm. by apply bool_decide_eq_true in Hkept. }
  apply bool_decide_eq_false in Hkept.
  assert (Hdel : key item ∉ key <$> itemList props) by (by rewrite <- Hm).
  destruct (Hleave i item Hitem Hdel) as [Habove Hcell].
  rewrite (bind_Ok_l this _ _ _ _ eq_refl) in H. cbn [fst] in H.
  apply bind_Ok in H as ([] & [s1 evs1] & Hfocus & H).
  set (P := fun s => fixed s /\ heights s /\ if before then there s else gone s).
  assert (HP1 : P s1).
  { revert Hfocus. apply (preserves_at P); [exact (conj Hfixed (conj Hheights Hcells))|].
    assert (stable set_lastFocusedItemKey P) by frame.
    pres; apply focusSubsequentItem_preserves; frame. }
  clear Hfocus Hfixed Hheights Hcells. destruct HP1 as (Hfixed & Hheights & Hcells).
  rewrite (bind_Ok_l this _ _ _ _ eq_refl) in H. cbn [fst] in H.
  assert (Hnot : (i <? _itemsAboveRenderBlock s1) = false).
  { apply Z.ltb_ge. destruct Hfixed as (-> & _). exact Habove. }
  rewrite Hnot in H. cbn [when] in H. mnorm_in H. cbn [fst snd] in H.
  rewrite (bind_Ok_l this _ _ _ _ eq_refl) in H. cbn [fst] in H.
  set (s2 := set_pendingMeasurements _ _) in H.
  assert (Hfixed2 : fixed s2) by exact Hfixed.
  assert (Hheights2 : heights s2).
  { intros k Hk. cbn. rewrite lookup_delete_ne; [by apply Hheights|]. by intros <-. }
  assert (Hcells2 : if before then there s2 else gone s2) by exact Hcells.
  clearbody s2. clear Hfixed Hheights Hcells.
  destruct before.
  - destruct (decide (key item = kx)) as [Hx|Hne].
    + pose proof Hcells2 as (Hdom & (c & Hc & Hlike) & Hp).
      rewrite Hx in H. rewrite bool_decide_eq_true_2 in H by (by rewrite Hc). cbn [when] in H.
      destruct (recycle_hands_over s2 evs1 c) as (s' & Hrun & Hgone);
        [by destruct Hfixed2 as (_ & _ & _ & _ & ? & _)|exact Hc|exact Hlike|exact Hcells2|].
      assert (Hframe : preserves (fun s => fixed s /\ heights s) (_recycleCell kx)).
      { apply recycleCell_preserves; frame. }
      rewrite Hrun in H. injection H as <-.
      destruct (Hframe _ _ _ Hrun (conj Hfixed2 Hheights2)) as [Hf' Hh'].
      split; [exact Hf'|]. split; [exact Hh'|]. by right.
    + destruct Hcell as [?|Hnone]; [done|].
      assert (Hnone2 : _activeCells s2 !! key item = None).
      { apply not_elem_of_dom. destruct Hcells2 as (-> & _). by apply not_elem_of_dom. }
      rewrite Hnone2 in H. rewrite bool_decide_eq_false_2 in H by (by intros [? ?]).
      cbn [when] in H. apply mret_Ok in H as [= ->]. split; [done|]. split; [done|]. by left.
  - assert (Hnone2 : _activeCells s2 !! key item = None).
    { apply not_elem_of_dom. destruct Hcells2 as (-> & _).
      destruct Hcell as [->|Hnone]; [set_solver|].
      apply not_elem_of_dom in Hnone. set_solver. }
    rewrite Hnone2 in H. rewrite bool_decide_eq_false_2 in H by (by intros [? ?]).
    cbn [when] in H. by apply mret_Ok in H as [= ->].
Qed.

Lemma dropDeleted_loop_hands_over (m : gmap string Z) :
  (forall k, is_Some (m !! k) <-> k ∈ key <$> itemList props) ->
  kx ∈ key <$> itemList thisProps ->
  hoare (fun s => fixed s /\ heights s /\ there s)
        (forEach (handleItemListChange_dropDeleted thisProps m) 0 (itemList thisProps) tt)
        (fun _ s => fixed s /\ heights s /\ gone s).
Proof.
  intros Hm HxOld.
  pose (I := fun (j : Z) (_ : unit) s =>
               fixed s /\ heights s
               /\ ((there s /\ kx ∉ key <$> take (Z.to_nat j) (itemList thisProps)) \/ gone s)).
  apply (hoare_conseq _ (I 0 tt) _ _ (fun a => I (Z.of_nat (length (itemList thisProps))) a)).
  - apply hoare_forEach_items. intros j x [] Hx w [] w' H (Hf & Hh & [[Hth Hnot]|Hg]).
    + destruct (dropDeleted_hands_over m j x true Hm Hx w tt w' H) as (Hf' & Hh' & Hc');
        [done|].
      split; [exact Hf'|]. split; [exact Hh'|].
      destruct Hc' as [[Hth' Hne]|Hg]; [left|by right]. split; [exact Hth'|].
      unfold item_at in Hx. destruct (bool_decide (0 <= j)) eqn:Hj; [|done].
      apply bool_decide_eq_true in Hj.
      replace (Z.to_nat (j + 1)) with (S (Z.to_nat j)) by lia.
      rewrite (take_S_r _ _ _ Hx), fmap_app. cbn. set_solver.
    + destruct (dropDeleted_hands_over m j x false Hm Hx w tt w' H) as (Hf' & Hh' & Hc');
        [done|].
      split; [exact Hf'|]. split; [exact Hh'|]. by right.
  - intros s (Hf & Hh & Hth). split; [exact Hf|]. split; [exact Hh|]. left. split; [exact Hth|].
    cbn. set_solver.
  - intros [] s (Hf & Hh & [[_ Hnot]|Hg]); [|done].
    exfalso. apply Hnot. rewrite Nat2Z.id, firstn_all. exact HxOld.
Qed.

Variable iy : Z.
Variable y : ItemInfo.

Hypothesis Hnd : NoDup (key <$> itemList props).
Hypothesis Hy : item_at (itemList props) iy = Some y.
Hypothesis Hty : template y = t.
Hypothesis Hmy : truthy_bool (measureHeight y) = false.
Hypothesis Hnoy : _activeCells st !! key y = None.
Hypothesis Hprefix : forall i item,
  i < iy -> item_at (itemList props) i = Some item -> is_Some (_activeCells st !! key item).
Hypothesis Hplaced : forall i item,
  i <= iy -> item_at (itemList props) i = Some item -> placedInBlock st props i item.

(** Y has the cell of X. *)
Let handed (s : Instance) : Prop :=
  (exists cy, _activeCells s !! key y = Some cy /\ virtualKey cy = virtualKey cx)
  /\ _activeCells s !! kx = None.

(** The items after Y have their cells. *)
Let others_kept : Prop := forall i item,
  iy < i -> item_at (itemList props) i = Some item -> is_Some (_activeCells st !! key item).

Let waiting (s : Instance) : Prop :=
  heights s /\ gone s /\ _nextCellKey s = _nextCellKey st.

Let settled (j : Z) (s : Instance) : Prop :=
  handed s
  /\ (others_kept ->
      _nextCellKey s = _nextCellKey st
      /\ forall i item, j <= i -> item_at (itemList props) i = Some item ->
                        is_Some (_activeCells s !! key item)).

Lemma item_key_new i item : item_at (itemList props) i = Some item -> key item <> kx.
Proof.
  intros Hitem Heq. apply HxNew. rewrite <- Heq.
  apply list_elem_of_fmap_2. by apply (item_at_elem_of _ i).
Qed.

Lemma getHeightOfItem_kept s i item :
  heights s -> item_at (itemList props) i = Some item ->
  _getHeightOfItem s (Some item) = _getHeightOfItem st (Some item).
Proof.
  intros Hh Hitem. unfold _getHeightOfItem. rewrite Hh; [done|].
  apply list_elem_of_fmap_2. by apply (item_at_elem_of _ i).
Qed.

Lemma yPositionAfter_next i item :
  item_at (itemList props) i = Some item ->
  yPositionAfter st props (Z.to_nat (i + 1))
  = (yPositionAfter st props (Z.to_nat i) + _getHeightOfItem st (Some item))%Q.
Proof.
  unfold item_at. case_bool_decide; [|done]. intros Hitem. unfold yPositionAfter.
  replace (Z.to_nat (i + 1)) with (S (Z.to_nat i)) by lia.
  by rewrite (take_S_r _ _ _ Hitem), foldl_app.
Qed.

Lemma setCellTopAndVisibility_waiting k v tp a :
  preserves waiting (_setCellTopAndVisibility k v tp a).
Proof.
  intros [s evs] [] w' H (Hh & Hg & Hn). cbn [fst] in *. unfold _setCellTopAndVisibility in H.
  rewrite (bind_Ok_l this _ _ _ _ eq_refl) in H. cbn [fst] in H.
  destruct (_activeCells s !! k) as [c|] eqn:Hk.
  - apply modify_Ok in H as [= ->]. split; [exact Hh|]. split; [|exact Hn].
    by apply (gone_update s k c).
  - by apply assert_Ok in H as [? _].
Qed.

(** The items before Y are moved within the render block. *)
Lemma place_in_front i item looking :
  i < iy -> item_at (itemList props) i = Some item ->
  hoare waiting
        (handleItemListChange_place props (renderBlockTopLimit st) (renderBlockBottomLimit st)
           i item (yPositionAfter st props (Z.to_nat i), looking))
        (fun acc s => waiting s /\ acc.1 = yPositionAfter st props (Z.to_nat (i + 1))).
Proof.
  intros Hi Hitem. unfold handleItemListChange_place.
  apply hoare_this_eq. intros s evs acc w' Hw H. cbn zeta in H.
  pose proof Hw as (Hh & (Hdom & _) & _).
  rewrite (getHeightOfItem_kept s i item Hh Hitem) in H.
  destruct (Hplaced i item ltac:(lia) Hitem) as [Htop Hbot]. cbn zeta in Htop, Hbot.
  rewrite Htop, Hbot in H.
  assert (Hcell : is_Some (_activeCells s !! key item)).
  { apply elem_of_dom. rewrite Hdom. apply elem_of_difference. split.
    - apply elem_of_dom. by apply (Hprefix i).
    - apply not_elem_of_singleton. by apply (item_key_new i). }
  rewrite bool_decide_eq_true_2 in H by done.
  apply bind_Ok in H as ([] & [s1 evs1] & H1 & H).
  apply bind_Ok in H as ([] & [s2 evs2] & H2 & H).
  apply mret_Ok in H as [= -> ->]. split; [|by rewrite (yPositionAfter_next i item)].
  revert H2. apply (preserves_at waiting).
  - revert H1. apply (preserves_at waiting); [exact Hw|].
    assert (stable set_itemsAboveRenderBlock waiting) by frame. pres.
  - assert (stable set_itemsInRenderBlock waiting) by frame. pres.
    apply setCellTopAndVisibility_waiting.
Qed.

(** Y is given the cell that waits in the pool. *)
Lemma place_Y looking :
  hoare waiting
        (handleItemListChange_place props (renderBlockTopLimit st) (renderBlockBottomLimit st)
           iy y (yPositionAfter st props (Z.to_nat iy), looking))
        (fun _ s => settled (iy + 1) s).
Proof.
  unfold handleItemListChange_place.
  apply hoare_this_eq. intros s evs acc w' Hw H. cbn zeta in H.
  pose proof Hw as (Hh & (Hdom & before & c & Hpool' & Hbefore & Hv & Htm & Hcn) & Hn).
  rewrite (getHeightOfItem_kept s iy y Hh Hy) in H.
  destruct (Hplaced iy y ltac:(lia) Hy) as [Htop Hbot]. cbn zeta in Htop, Hbot.
  rewrite Htop, Hbot in H.
  assert (Hnone : _activeCells s !! key y = None).
  { apply not_elem_of_dom. rewrite Hdom. apply not_elem_of_dom in Hnoy. set_solver. }
  assert (Hxnone : _activeCells s !! kx = None).
  { apply not_elem_of_dom. rewrite Hdom. set_solver. }
  rewrite Hnone in H. rewrite bool_decide_eq_false_2 in H by (by intros [? ?]).
  rewrite Hmy, Hty in H. cbn [negb] in H.
  apply bind_Ok in H as ([] & [s1 evs1] & H1 & H).
  assert (Hs1 : _activeCells s1 = _activeCells s /\ _recycledCells s1 = _recycledCells s
                /\ _nextCellKey s1 = _nextCellKey s).
  { revert H1. apply (preserves_at (fun s1 => _activeCells s1 = _activeCells s
                                        /\ _recycledCells s1 = _recycledCells s
                                        /\ _nextCellKey s1 = _nextCellKey s)); [done|].
    pres. }
  destruct Hs1 as (Ha1 & Hp1 & Hn1).
  apply bind_Ok in H as ([] & [s2 evs2] & H2 & H). apply mret_Ok in H as [= _ ->].
  rewrite modify_bind in H2. cbn [fst snd] in H2.
  apply bind_Ok in H2 as (cy & [s3 evs3] & Halloc & H2).
  assert (Hbest : isBestOption (key y) t (height y) before c []).
  { destruct (isExactMatch (key y) t (height y) c) eqn:He.
    - left. split; [done|]. eapply Forall_impl; [exact Hbefore|].
      intros c0 Hc0. unfold isExactMatch, hasTemplate in *. by rewrite Hc0.
    - right. split; [|split].
      + apply Forall_app. split.
        * eapply Forall_impl; [exact Hbefore|].
          intros c0 Hc0. unfold isExactMatch, hasTemplate in *. by rewrite Hc0.
        * by repeat constructor.
      + unfold hasTemplate. by apply bool_decide_eq_true.
      + done. }
  rewrite (allocateCell_reuse _ evs1 (key y) t iy (height y) _ _ before c []) in Halloc;
    [|exact (eq_trans (f_equal (fun m => m !! key y) Ha1) Hnone)|exact Ht
     |exact (eq_trans Hp1 Hpool')|exact Hcn|exact Hbest].
  injection Halloc as <- <- <-.
  set (cy := cell_setShouldUpdate true _) in *.
  assert (Hpend : _activeCells s2 = <[key y := cy]> (_activeCells s)
                  /\ _nextCellKey s2 = _nextCellKey s).
  { revert H2. apply (preserves_at (fun s2 => _activeCells s2 = <[key y := cy]> (_activeCells s)
                                        /\ _nextCellKey s2 = _nextCellKey s)).
    - split; [exact (f_equal (fun m => <[key y := cy]> m) Ha1)|exact Hn1].
    - pres. }
  destruct Hpend as [Ha2 Hn2]. cbn [fst]. split; [split|].
  - exists cy. rewrite Ha2, lookup_insert_eq. split; [done|exact Hv].
  - rewrite Ha2, lookup_insert_ne; [exact Hxnone|]. by apply (item_key_new iy).
  - intros Hothers. split; [by rewrite Hn2|].
    intros i item Hi Hitem. rewrite Ha2.
    destruct (decide (key y = key item)) as [->|Hne]; [by rewrite lookup_insert_eq|].
    rewrite lookup_insert_ne by done.
    apply elem_of_dom. rewrite Hdom. apply elem_of_difference. split.
    + apply elem_of_dom. apply (Hothers i); [lia|done].
    + apply not_elem_of_singleton. by apply (item_key_new i).
Qed.

(** The items after Y leave its cell alone. *)
Lemma place_behind top_ bottom_ i item acc :
  iy < i -> item_at (itemList props) i = Some item ->
  hoare (settled i) (handleItemListChange_place props top_ bottom_ i item acc)
        (fun _ s => settled (i + 1) s).
Proof.
  intros Hi Hitem w acc' w' H ([(cy & Hcy & Hv) Hx] & Hrest).
  assert (Hney : key item <> key y).
  { intros Heq. pose proof (item_at_key_inj _ _ _ _ _ Hnd Hitem Hy Heq). lia. }
  split; [split|].
  - exact (place_other (fun o => exists cy, o = Some cy /\ virtualKey cy = virtualKey cx)
             (key y) props top_ bottom_ i item acc Hney _ _ _ H (ex_intro _ cy (conj Hcy Hv))).
  - exact (place_other (fun o => o = None) kx props top_ bottom_ i item acc
             (item_key_new i item Hitem) _ _ _ H Hx).
  - intros Hothers. destruct (Hrest Hothers) as [Hn Hcells]. split.
    + apply (place_keeps_counter props top_ bottom_ i item acc _ _ _ _ H).
      split; [|exact Hn]. apply (Hcells i); [lia|done].
    + intros i' item' Hi' Hitem'.
      assert (Hne : key item <> key item').
      { intros Heq. pose proof (item_at_key_inj _ _ _ _ _ Hnd Hitem Hitem' Heq). lia. }
      apply (place_other is_Some (key item') props top_ bottom_ i item acc Hne _ _ _ H).
      apply (Hcells i'); [lia|done].
Qed.

Lemma place_loop_hands_over :
  hoare waiting
        (forEach (handleItemListChange_place props (renderBlockTopLimit st)
                    (renderBlockBottomLimit st))
                 0 (itemList props) (_heightAboveRenderAdjustment st, true))
        (fun _ s => settled (Z.of_nat (length (itemList props))) s).
Proof.
  pose (I := fun (j : Z) (acc : Q * bool) s =>
               (j <= iy -> waiting s /\ acc.1 = yPositionAfter st props (Z.to_nat j))
               /\ (iy < j -> settled j s)).
  apply (hoare_conseq _ (I 0 (_heightAboveRenderAdjustment st, true)) _ _
           (fun a => I (Z.of_nat (length (itemList props))) a)).
  - apply hoare_forEach_items. intros j item [yPos looking] Hitem w acc' w' H [Hfront Hback].
    assert (0 <= j) by (unfold item_at in Hitem; by case_bool_decide).
    destruct (Z.lt_trichotomy j iy) as [Hlt|[->|Hgt]].
    + destruct (Hfront ltac:(lia)) as [Hw Hacc]. cbn [fst] in Hacc. subst yPos.
      destruct (place_in_front j item looking Hlt Hitem _ _ _ H Hw) as [Hw' Hacc'].
      split; [by intros _|lia].
    + destruct (Hfront ltac:(lia)) as [Hw Hacc]. cbn [fst] in Hacc. subst yPos.
      rewrite Hy in Hitem. injection Hitem as <-.
      split; [lia|]. intros _. exact (place_Y looking _ _ _ H Hw).
    + split; [lia|]. intros _.
      exact (place_behind _ _ j item _ Hgt Hitem _ _ _ H (Hback Hgt)).
  - intros s Hw. split; [by intros _|].
    intros Hlt. unfold item_at in Hy. case_bool_decide; [lia|done].
  - intros acc s [_ Hback]. apply Hback.
    unfold item_at in Hy. case_bool_decide; [|done].
    apply lookup_lt_Some in Hy. lia.
Qed.

Lemma handleItemListChange_hands_over evs w' :
  kx ∈ key <$> itemList thisProps ->
  _handleItemListChange thisProps props (st, evs) = Ok (tt, w') ->
  settled (Z.of_nat (length (itemList props))) w'.1.
Proof.
  intros HxOld H. unfold _handleItemListChange in H.
  apply bind_Ok in H as (m & [s1 evs1] & Hmap & H).
  assert (H1 : fixed s1 /\ heights s1 /\ there s1).
  { revert Hmap. apply (preserves_at (fun s => fixed s /\ heights s /\ there s)).
    - split; [done|]. split; [done|]. split; [done|]. split; [|exact Hpool].
      exists cx. by repeat split.
    - apply preserves_forEach. intros i item acc _. apply buildMap_there. }
  assert (Hm : forall k, is_Some (m !! k) <-> k ∈ key <$> itemList props).
  { destruct (buildMap_loop_directory _ _ _ _ _ _ _ _ Hmap Hnd) as [Hin Hout].
    intros k. split.
    - intros Hk. destruct (decide (k ∈ key <$> itemList props)) as [|Hnot]; [done|].
      rewrite (Hout k Hnot), lookup_empty in Hk. by destruct Hk.
    - intros Hk. apply list_elem_of_fmap in Hk as (item & -> & Hitem).
      apply list_elem_of_lookup in Hitem as [n Hn]. rewrite (Hin n item Hn). eauto. }
  cbn zeta in H.
  apply bind_Ok in H as ([] & [s2 evs2] & Hdrop & H).
  destruct (dropDeleted_loop_hands_over m Hm HxOld _ _ _ Hdrop H1) as (Hf2 & Hh2 & Hg2).
  cbn [fst] in Hf2, Hh2, Hg2.
  rewrite (bind_Ok_l this _ _ _ _ eq_refl) in H. cbn [fst] in H.
  rewrite !modify_bind in H. cbn [fst snd] in H.
  destruct Hf2 as (_ & Hadj & Htop & Hbot & _ & Hnext).
  change (_lastScrollTop s2 - _calcOverdrawAmount s2)%Q with (renderBlockTopLimit s2) in H.
  change (_lastScrollTop s2 + _layoutHeight s2 + _calcOverdrawAmount s2)%Q
    with (renderBlockBottomLimit s2) in H.
  rewrite Hadj, Htop, Hbot in H.
  apply bind_Ok in H as (acc & [s3 evs3] & Hplace & H).
  assert (H3 : settled (Z.of_nat (length (itemList props))) s3).
  { exact (place_loop_hands_over _ _ _ Hplace (conj Hh2 (conj Hg2 Hnext))). }
  revert H. apply (preserves_at (settled (Z.of_nat (length (itemList props))))); [exact H3|].
  assert (stable set_itemMap (settled (Z.of_nat (length (itemList props))))) by frame.
  assert (stable set_itemsBelowRenderBlock (settled (Z.of_nat (length (itemList props)))))
    by frame.
  assert (stable set_heightAboveRenderBlock (settled (Z.of_nat (length (itemList props)))))
    by frame.
  assert (stable set_heightOfRenderBlock (settled (Z.of_nat (length (itemList props)))))
    by frame.
  assert (stable set_heightBelowRenderBlock (settled (Z.of_nat (length (itemList props)))))
    by frame.
  assert (stable set_containerHeight (settled (Z.of_nat (length (itemList props)))))
    by frame.
  pres.
Qed.
End cell_changes_hands.




